(* ===== verification/_CoqProject ===== *)
-Q . S2P
Prelude.v
Defs.v
RecScan.v
Bitmap.v
Replacer.v
Disk.v
ModelFs.v
BufferPool.v
BufferPoolProofs.v
Demo.v
PoolClient.v
PoolSpec.v
Session.v
RmFile.v
RmPage.v
RmFileProofs.v
RmManager.v
DemoFile.v
RecordThms.v
IxNode.v
IxOrder.v
IxNodeProofs.v
IxIndex.v
IxManager.v
IxIndexProofs.v
IxFileProofs.v
IxSplit.v
IxMerge.v
IxCoalesce.v
IxScanProofs.v
DemoIndex.v
IxThms.v
IxTree.v
IxMergeThms.v
IxScanThms.v
RwLatch.v
Txn.v
SmMeta.v
RecordPrinter.v
LogRec.v
SmManager.v
SmThms.v
IndexBuild.v
Query.v
Executors.v
QueryThms.v
CatalogThms.v
QlManager.v
QlThms.v
SeqThms.v
Ast.v
Regex.v
Lexer.v
LexerThms.v
TokenText.v
Grammar.v
GrammarThms.v
ParserThms.v
ScanTables.v
ScanProofs.v
ScanThms.v
ParseTables.v
ParseProofs.v
ParseSteps.v
FrontEnd.v
Interp.v
InterpThms.v
Server.v
Sessions.v
ServerThms.v
SessionThms.v
Listener.v
ListenerThms.v
Client.v
ClientThms.v
