(* ===== verification/Prelude.v ===== *)
(** * RucBase verification library

    RucBase ([src/src]) is a teaching database: a server that reads SQL from
    sockets, and below it a query layer, a catalogue, B+ tree indexes, record
    files, a buffer pool and a disk manager.  This library models its own code
    (not the vendored test framework under [src/deps]), with the scanner and the
    parser that flex and bison generated as they are committed, and proves what the
    code does, where it is right and where it is not.  Many functions of the
    repository are exercises with an empty body; they are modelled with that body.

    ** How the program is put together

    A request goes through the scanner and the parser, which build a syntax tree;
    the interpreter translates the tree and calls the system manager (tables,
    indexes, metadata) or the query manager (SELECT, INSERT, DELETE, UPDATE), each
    inside a transaction of the transaction manager.  The query manager drives
    executors; executors and the system manager use record file handles and index
    handles; both keep their pages in the buffer pool, which moves them from and to
    the disk manager and asks a replacer which frame to reuse.

    ** Files, in the order they are compiled

    - [Prelude]: machine integers with their wrap-around, byte strings addressed by
      integers (reads and writes out of range are [None]), decimal text, hints and
      tactics.  [Defs]: [common/config.h], [defs.h], the exceptions of [errors.h] as
      the type [Err], and the program monad [M S A]: a state [S] and one of five
      results: a value, an exception, a failed [assert] (the sources are built
      without NDEBUG), undefined behaviour, or no fuel.  [RecScan]: the interface of
      the scans of files and of indexes, with the loop of their clients.
    - [Bitmap] ([record/bitmap.h]); [Replacer] ([replacer/]): the LRU replacer and
      the clock replacer, behind the class [Replacer] with its laws.
    - [Disk] ([storage/disk_manager]): the methods over the class [Posix], which
      states the documented behaviour of [open], [lseek], [read], [write], [unlink]
      and [close] on an abstract kernel; [ModelFs] is an instance of it.
    - [BufferPool] ([storage/page.h], [storage/buffer_pool_manager]) over the class of
      page stores a disk manager implements; [BufferPoolProofs] its invariant;
      [Demo] states for witnesses; [PoolClient] what a client of the pool may rely
      on; [PoolSpec] the abstract pool (page contents and pins) that the pool
      refines; [Session] the use of it one page at a
      time, the way the record files work.
    - [RmFile] ([record/rm_defs.h], [rm_file_handle], [rm_scan]) on the bytes of the
      pages; [RmPage] and [RmFileProofs] the invariant of a record file; [RmManager]
      ([record/rm_manager.h]); [DemoFile]; [RecordThms].
    - [IxNode] ([index/ix_defs.h], [ix_node_handle]) on the bytes of a node;
      [IxOrder], [IxNodeProofs]; [IxIndex] ([index/ix_index_handle], [ix_scan]);
      [IxManager] ([index/ix_manager.h]); [IxIndexProofs], [IxFileProofs] (index
      files), [IxSplit], [IxMerge] (a
      leaf borrows from its sibling), [IxCoalesce] (two leaves become one),
      [IxScanProofs] (scans over the list of leaves), [DemoIndex], [IxThms],
      [IxTree] (search in trees of several levels), [IxMergeThms], [IxScanThms].
    - [RwLatch] ([common/rwlatch]): the latch as a transition system of threads, with
      lost and spurious wakeups, and the latch of a page.  [Txn] ([transaction/], [common/context.h]):
      transactions, the lock manager and the transaction manager.
    - [SmMeta] ([system/sm_meta.h]): the metadata and their text format, on a model
      of formatted input streams.  [RecordPrinter] ([record_printer.h]).  [LogRec]
      ([recovery/]): log records, log manager, recovery, checkpoints.
    - [SmManager] ([system/sm_manager]), [SmThms], [IndexBuild] (an index built from a
      table).  [Query]
      ([execution/execution_manager.h], [executor_abstract.h]): values, conditions and
      the class [Executor] of the virtual methods; [Executors] its instances
      (sequential scan, index scan, join, projection, modifications); [QueryThms],
      [CatalogThms] (tables and rows), [SeqThms].  [QlManager]
      ([execution/execution_manager.cpp]), [QlThms].
    - [Ast] ([parser/ast.h], [ast_printer.h]).  [Regex]: patterns, derivatives and the
      longest match.  [Lexer] ([parser/lex.l]): the rules, run as flex runs them.
      [LexerThms], [TokenText]: the scanner on each kind of token.  [Grammar]
      ([parser/yacc.y]): one derivation relation per nonterminal, and a parser with
      one token of lookahead; [GrammarThms], [ParserThms].
    - [ScanTables] ([parser/lex.yy.cpp]): the tables of flex and the code that runs
      them; [ScanProofs] explores the automaton of the tables with the rules that
      may still match in each state, and checks every transition; [ScanThms].
      [ParseTables] ([parser/yacc.tab.cpp]): the tables of bison, the automaton and
      the value stack; [ParseProofs] one rule for each shape of grammar rule,
      [ParseSteps] one lemma for each nonterminal; [FrontEnd] the two together.
    - [Interp] ([interp.h]), [InterpThms].  [Server] ([client_handler] of
      [rucbase.cpp]), [ServerThms].  [Sessions]: several of its threads, on the
      globals they share; [SessionThms].  [Listener] ([start_server] and [main]):
      the threads of the connections as a transition system, and the program from its
      arguments to its exit status; [ListenerThms].  [Client]
      ([rucbase_client/main.cpp]) and [ClientThms], client and server composed.

    A component is a [Module] or [Section] with the names of the source; its state
    is a record with the members of the class, each method one definition on the
    monad, in the order of the calls of the source.  Pointers into the buffer pool
    are frame numbers, so the aliasing of pages is that of the code; pointers to
    handles are the keys of the tables that own them.

    ** What the theorems show

    - The pool ([PoolClient]): its invariant in every reachable state, the last
      write to a page is what a fetch gives through any evictions, the exact
      outcomes of fetch, new, delete and flush, and what a failed read leaves.
    - Record files ([RecordThms]): insert, get, update, delete and scan as operations
      on a finite map of records, with the free-page list and the counts; what is
      closed and opened again is what was stored; the layout fits for every record
      size that is accepted.
    - Indexes ([IxThms], [IxTree], [IxMergeThms], [IxScanThms]): searches and updates of a sorted node,
      refinement of a map by an index of one leaf that no deletion empties, the split of a leaf, the loan of
      a pair between two leaves below the root, the merge of two leaves back to an index of one leaf;
      scans of all leaves and of a range of keys, with the pins they leave; and which
      keys a tree of several levels never finds.
    - Concurrency ([RwLatch]): exclusion, the count of the readers and absence of lost
      wakeups for any number of threads; [Txn]: when the keys of the lock table are distinct;
      [ListenerThms]: which thread serves which connection; [SessionThms]: the
      threads of the connections serialize when the parser of one does not run between
      the parser and the reply of another, and what happens when it does.
    - The catalogue ([SmMeta], [SmThms], [CatalogThms]): the metadata file is read
      back as written; [create_table] and the layout of columns; with distinct column
      names and no negative length, the rows of a
      typed table decode to the values they hold; [IndexBuild]: the index that CREATE
      INDEX builds, once the column is found, answers keys with the records of the table,
      while its keys fit in one leaf.
    - Queries ([QueryThms], [QlThms], [SeqThms]): conditions and join conditions have
      the meaning SQL gives them, for operands of one type and, in a join, one
      length; at which table a SELECT takes each condition out of its clause, and for
      which conditions its look-up of an index is undefined; name inference; the check
      of WHERE clauses; scans terminate.
    - Text ([GrammarThms], [ParserThms], [RecordPrinter], [LogRec]): the parser
      accepts exactly the grammar, a statement that is written is parsed back,
      printed lines are aligned, names in log records.
    - The front end as committed ([ScanThms], [FrontEnd]): the tables give the tokens
      of the rules of [lex.l], and the trees of the grammar of [yacc.y], so what is
      proved of [Lexer] and [Grammar] holds of the code that runs.
    - The server ([ServerThms], [ListenerThms], [ClientThms]): from the bytes of a
      request to the reply, from the lines typed to the text printed, and the
      outcomes of the program.

    A theorem that says that the code fails or loses data is about a defect of the
    sources, or about an exercise that was left empty; the finding that belongs to
    it names the line.

    ** Parameters, bounds and fuel

    Code outside the repository is a parameter: the kernel ([Posix], and [Cwd] for
    the working directory), [atof], and the text of a floating-point number.  A
    [float] is its bit pattern with the order of IEEE numbers.  Loops that are not
    structural have fuel, and the theorems give the amount that is enough: the
    number of frames, slots or pages left for the scans of the pool and of files,
    the size of a node for its binary searches, the height for the walks of a tree,
    one step for each character for the scanner and one for each separator for the
    lists of the parser; six labels for each character for the committed scanner,
    and eight steps for each token for the committed parser, whose stack of 200
    never fills; one step more than there are positions for the loop of a scan.  [PoolSpec], [RmFileProofs] and [IxNodeProofs] state that the
    loops they run return, not only what holds when they do.

    ** What is not modelled

    What the socket calls do beyond their results, [readline] and [getopt].  In
    [lex.yy.cpp] the input from files and the buffer stack, in [yacc.tab.cpp] the
    locations and the texts of error messages; [lex.yy.c] and [yacc.tab.c] are older
    outputs that the build does not compile.  The latches of the buffer pool and of the
    index make each method one step; the interleaving of two methods is modelled
    for the reader-writer latch only.  Client threads interleave before the
    parser, between parser and statement, and after the reply, not inside the parser or
    inside a statement.  Columns and lines of syntax errors and the texts printed on the console.  The logger, the
    macros and the test programs.  [LogRecovery::DeserializeLogRecord] is declared
    and has no definition.  Pin counts are integers without a bound: an overflow of the
    [int] after [2^31] pins of one page is not represented.

    ** Where it can grow

    Insertion and deletion in trees of several levels, the printer of syntax trees, and
    [open_db] on a stored database have definitions but few theorems. *)
From Stdlib Require Export ZArith Lia.
From Stdlib Require Import DecimalString DecimalZ.
From stdpp Require Export base strings numbers gmap list.

#[global] Open Scope Z_scope.

(** ** Notations and hint databases *)

(** Length of a list as an integer, so that [lia] sees it. *)
Abbreviation zlen l := (Z.of_nat (length l)).

(** Raw memory: a list of unsigned 8-bit values. *)
Abbreviation bytes := (list Z).

Create HintDb bytes.
Create Rewrite HintDb bytes.
Create Rewrite HintDb prog.

(** ** Machine integers *)

Definition to_u8 (z : Z) : Z := z mod 2 ^ 8.
Definition to_s8 (z : Z) : Z := (z + 2 ^ 7) mod 2 ^ 8 - 2 ^ 7.
Definition to_u32 (z : Z) : Z := z mod 2 ^ 32.
Definition to_s32 (z : Z) : Z := (z + 2 ^ 31) mod 2 ^ 32 - 2 ^ 31.
Definition to_u64 (z : Z) : Z := z mod 2 ^ 64.
Definition to_s64 (z : Z) : Z := (z + 2 ^ 63) mod 2 ^ 64 - 2 ^ 63.

Definition is_u8 (z : Z) : Prop := 0 <= z < 256.
Definition is_s32 (z : Z) : Prop := - 2 ^ 31 <= z < 2 ^ 31.

Lemma to_u8_range z : is_u8 (to_u8 z).
Proof. apply (Z.mod_pos_bound z (2 ^ 8)). lia. Qed.

Lemma to_u8_id z : is_u8 z → to_u8 z = z.
Proof. intros H. apply Z.mod_small, H. Qed.

Lemma to_s32_range z : is_s32 (to_s32 z).
Proof.
  unfold is_s32, to_s32.
  pose proof (Z.mod_pos_bound (z + 2 ^ 31) (2 ^ 32)). lia.
Qed.

Lemma to_s32_id z : is_s32 z → to_s32 z = z.
Proof. unfold is_s32, to_s32. intros H. rewrite Z.mod_small; lia. Qed.

Lemma to_s32_u32 z : to_s32 (to_u32 z) = to_s32 z.
Proof.
  unfold to_s32, to_u32. f_equal.
  rewrite Zplus_mod_idemp_l. done.
Qed.

Lemma to_u8_s8 z : to_u8 (to_s8 z) = to_u8 z.
Proof.
  unfold to_u8, to_s8.
  rewrite Zminus_mod_idemp_l. f_equal. lia.
Qed.

(** A signed [int] result; out of range it is undefined behaviour. *)
Definition s32 (z : Z) : option Z :=
  if (- 2 ^ 31 <=? z) && (z <? 2 ^ 31) then Some z else None.

Lemma s32_Some z : is_s32 z → s32 z = Some z.
Proof.
  intros [H1 H2]. unfold s32. rewrite (proj2 (Z.leb_le _ _)), (proj2 (Z.ltb_lt _ _)) by lia. done.
Qed.

(** ** Decimal text of an integer, [std::to_string] *)

Definition to_string (z : Z) : string := NilZero.string_of_int (Z.to_int z).

Definition of_string (s : string) : option Z := Z.of_int <$> NilZero.int_of_string s.

Lemma of_string_to_string z : of_string (to_string z) = Some z.
Proof.
  unfold of_string, to_string.
  rewrite NilZero.isi; simpl.
  - by rewrite DecimalZ.of_to.
  - destruct z; simpl; try done. intros [= H].
    by apply (DecimalPos.Unsigned.to_uint_nonnil p).
  - destruct z; simpl; try done. intros [= H].
    by apply (DecimalPos.Unsigned.to_uint_nonnil p).
Qed.

(** ** Byte strings addressed by integers *)

Definition slice (m : bytes) (off len : Z) : bytes :=
  take (Z.to_nat len) (drop (Z.to_nat off) m).

Definition splice (m : bytes) (off : Z) (bs : bytes) : bytes :=
  take (Z.to_nat off) m ++ bs ++ drop (Z.to_nat off + length bs) m.

Definition in_range (m : bytes) (off len : Z) : bool :=
  (0 <=? off) && (0 <=? len) && (off + len <=? zlen m).

(** A read or a write outside the object is [None]: undefined behaviour. *)
Definition mem_read (m : bytes) (off len : Z) : option bytes :=
  if in_range m off len then Some (slice m off len) else None.

Definition mem_write (m : bytes) (off : Z) (bs : bytes) : option bytes :=
  if in_range m off (zlen bs) then Some (splice m off bs) else None.

(** [memmove] inside one object. *)
Definition mem_move (m : bytes) (dst src len : Z) : option bytes :=
  mem_read m src len ≫= mem_write m dst.

(** [memset] of a part of an object. *)
Definition mem_set (m : bytes) (off v len : Z) : option bytes :=
  if in_range m off len then Some (splice m off (replicate (Z.to_nat len) (to_u8 v)))
  else None.

Lemma in_range_spec m off len :
  in_range m off len = true ↔ 0 <= off ∧ 0 <= len ∧ off + len <= zlen m.
Proof. unfold in_range. rewrite !andb_true_iff, !Z.leb_le. tauto. Qed.

Section bytes_lemmas.
  Implicit Types (m bs : bytes) (off len : Z).

Lemma length_slice m off len :
  0 <= off → 0 <= len → off + len <= zlen m → zlen (slice m off len) = len.
Proof. intros. unfold slice. rewrite length_take, length_drop. lia. Qed.

Lemma length_splice m off bs :
  0 <= off → off + zlen bs <= zlen m → length (splice m off bs) = length m.
Proof.
  intros. unfold splice. rewrite !length_app, length_take, length_drop. lia.
Qed.

Lemma lookup_slice m off len (i : nat) :
  0 <= off → 0 <= len →
  slice m off len !! i = if decide (Z.of_nat i < len) then m !! (Z.to_nat off + i)%nat else None.
Proof.
  intros. unfold slice. case_decide.
  - rewrite lookup_take_lt, lookup_drop by lia. done.
  - rewrite lookup_take_ge by lia. done.
Qed.

Lemma lookup_splice m off bs (i : nat) :
  0 <= off → off + zlen bs <= zlen m →
  splice m off bs !! i =
    if decide (off <= Z.of_nat i < off + zlen bs) then bs !! (i - Z.to_nat off)%nat
    else m !! i.
Proof.
  intros. unfold splice.
  destruct (decide (Z.of_nat i < off)) as [Hlt|Hge].
  - rewrite lookup_app_l by (rewrite length_take; lia).
    rewrite lookup_take_lt by lia. rewrite decide_False by lia. done.
  - rewrite lookup_app_r by (rewrite length_take; lia).
    rewrite length_take, Nat.min_l by lia.
    case_decide.
    + rewrite lookup_app_l by lia. done.
    + rewrite lookup_app_r by lia. rewrite lookup_drop. f_equal. lia.
Qed.

Lemma slice_splice_same m off bs :
  0 <= off → off + zlen bs <= zlen m → slice (splice m off bs) off (zlen bs) = bs.
Proof.
  intros. apply list_eq. intros i.
  rewrite lookup_slice by lia.
  case_decide.
  - rewrite lookup_splice by lia. rewrite decide_True by lia. f_equal. lia.
  - symmetry. apply lookup_ge_None. lia.
Qed.

Lemma slice_splice_disjoint m off bs off' len' :
  0 <= off → off + zlen bs <= zlen m → 0 <= off' → 0 <= len' →
  off' + len' <= off ∨ off + zlen bs <= off' →
  slice (splice m off bs) off' len' = slice m off' len'.
Proof.
  intros. apply list_eq. intros i.
  rewrite !lookup_slice by lia.
  case_decide; [|done].
  rewrite lookup_splice by lia. rewrite decide_False by lia. done.
Qed.

Lemma slice_app m off l1 l2 :
  0 <= off → 0 <= l1 → 0 <= l2 →
  slice m off (l1 + l2) = slice m off l1 ++ slice m (off + l1) l2.
Proof.
  intros. unfold slice.
  rewrite (Z2Nat.inj_add off), (Z2Nat.inj_add l1), <- drop_drop by lia.
  symmetry. apply take_take_drop.
Qed.

Lemma mem_read_Some m off len :
  0 <= off → 0 <= len → off + len <= zlen m → mem_read m off len = Some (slice m off len).
Proof.
  intros. unfold mem_read.
  rewrite (proj2 (in_range_spec _ _ _)) by auto. done.
Qed.

Lemma mem_write_Some m off bs :
  0 <= off → off + zlen bs <= zlen m → mem_write m off bs = Some (splice m off bs).
Proof.
  intros. unfold mem_write.
  rewrite (proj2 (in_range_spec _ _ _)) by (repeat split; lia). done.
Qed.

Lemma mem_move_Some m dst src len :
  0 <= src → 0 <= dst → 0 <= len → src + len <= zlen m → dst + len <= zlen m →
  mem_move m dst src len = Some (splice m dst (slice m src len)).
Proof.
  intros. unfold mem_move. rewrite mem_read_Some by lia. simpl.
  apply mem_write_Some; [lia|]. rewrite length_slice; lia.
Qed.

Lemma Forall_splice (P : Z → Prop) m off bs :
  Forall P m → Forall P bs → Forall P (splice m off bs).
Proof.
  intros Hm Hbs. unfold splice.
  repeat apply Forall_app_2; auto using Forall_take, Forall_drop.
Qed.

End bytes_lemmas.

(** ** Little-endian 32-bit words *)

Definition enc32 (z : Z) : bytes :=
  [to_u8 z; to_u8 (z / 2 ^ 8); to_u8 (z / 2 ^ 16); to_u8 (z / 2 ^ 24)].

Definition dec32 (bs : bytes) : Z :=
  match bs with
  | [a; b; c; d] => to_s32 (a + 2 ^ 8 * b + 2 ^ 16 * c + 2 ^ 24 * d)
  | _ => 0
  end.

Definition load32 (m : bytes) (off : Z) : option Z := dec32 <$> mem_read m off 4.

Definition store32 (m : bytes) (off z : Z) : option bytes := mem_write m off (enc32 z).

Lemma length_enc32 z : length (enc32 z) = 4%nat.
Proof. done. Qed.

Lemma dec32_enc32 z : dec32 (enc32 z) = to_s32 z.
Proof.
  unfold dec32, enc32, to_u8. rewrite <- (to_s32_u32 z). f_equal. unfold to_u32.
  change (2 ^ 32) with 4294967296. change (2 ^ 8) with 256.
  change (2 ^ 16) with 65536. change (2 ^ 24) with 16777216.
  pose proof (Z.div_mod z 4294967296). pose proof (Z.div_mod z 256).
  assert (z / 65536 = z / 256 / 256) as -> by (rewrite Z.div_div; done).
  assert (z / 16777216 = z / 256 / 256 / 256) as -> by (rewrite !Z.div_div; done).
  assert (z / 4294967296 = z / 256 / 256 / 256 / 256) as Hd by (rewrite !Z.div_div; done).
  pose proof (Z.div_mod (z / 256) 256). pose proof (Z.div_mod (z / 256 / 256) 256).
  pose proof (Z.div_mod (z / 256 / 256 / 256) 256). lia.
Qed.

Lemma dec32_range bs : is_s32 (dec32 bs).
Proof.
  unfold dec32. destruct bs as [|a [|b [|c [|d [|]]]]]; try (split; lia).
  apply to_s32_range.
Qed.

Lemma enc32_u8 z : Forall is_u8 (enc32 z).
Proof. repeat constructor; apply to_u8_range. Qed.

(** Reading back a word that was stored, and another word. *)
Lemma word_splice_same m off v :
  0 <= off → off + 4 <= zlen m → is_s32 v → dec32 (slice (splice m off (enc32 v)) off 4) = v.
Proof.
  intros. change 4 with (zlen (enc32 v)) at 1.
  rewrite slice_splice_same by done. rewrite dec32_enc32. by apply to_s32_id.
Qed.

Lemma word_splice_other m off bs off' :
  0 <= off → off + zlen bs <= zlen m → 0 <= off' → off' + 4 <= off ∨ off + zlen bs <= off' →
  dec32 (slice (splice m off bs) off' 4) = dec32 (slice m off' 4).
Proof. intros. by rewrite slice_splice_disjoint by lia. Qed.

Lemma load32_Some m off : 0 <= off → off + 4 <= zlen m → load32 m off = Some (dec32 (slice m off 4)).
Proof. intros. unfold load32. by rewrite mem_read_Some by lia. Qed.

Lemma store32_Some m off v :
  0 <= off → off + 4 <= zlen m → store32 m off v = Some (splice m off (enc32 v)).
Proof. intros. unfold store32. apply mem_write_Some; [done|]. by rewrite length_enc32. Qed.

#[export] Hint Rewrite dec32_enc32 length_enc32 : bytes.
#[export] Hint Resolve to_u8_range to_s32_range dec32_range enc32_u8 : bytes.

(** ** Lists *)

(** The first index [i] of [[lo, lo + n)] with [p i], the shape of the
    counting loops of the sources. *)
Fixpoint find_from (p : Z → bool) (lo : Z) (n : nat) : option Z :=
  match n with
  | O => None
  | S n' => if p lo then Some lo else find_from p (lo + 1) n'
  end.

Lemma find_from_Some p n lo i :
  find_from p lo n = Some i →
  lo <= i < lo + Z.of_nat n ∧ p i = true ∧ ∀ j, lo <= j < i → p j = false.
Proof.
  revert lo. induction n as [|n IH]; intros lo; simpl; [done|].
  destruct (p lo) eqn:Hp.
  - intros [= <-]. repeat split; [lia|lia|done|]. intros; lia.
  - intros Hf. destruct (IH _ Hf) as (H1 & H2 & H3). repeat split; [lia|lia|done|].
    intros j Hj. destruct (decide (j = lo)) as [->|]; [done|]. apply H3. lia.
Qed.

Lemma find_from_None p n lo :
  find_from p lo n = None → ∀ j, lo <= j < lo + Z.of_nat n → p j = false.
Proof.
  revert lo. induction n as [|n IH]; intros lo; simpl; [intros; lia|].
  destruct (p lo) eqn:Hp; [done|]. intros Hf j Hj.
  destruct (decide (j = lo)) as [->|]; [done|]. apply (IH _ Hf). lia.
Qed.

Lemma NoDup_snoc {A} (l : list A) x : NoDup (l ++ [x]) ↔ (x ∉ l) ∧ NoDup l.
Proof.
  rewrite NoDup_app. split.
  - intros (H1 & H2 & _). split; [|done]. intros Hx. apply (H2 x Hx). set_solver.
  - intros (H1 & H2). split_and!; [done| |apply NoDup_singleton].
    intros y Hy ->%list_elem_of_singleton. done.
Qed.

Lemma filter_all {A} (P : A → Prop) `{∀ x, Decision (P x)} (l : list A) :
  (∀ x, x ∈ l → P x) → filter P l = l.
Proof.
  induction l as [|x l IH]; intros H1; [done|].
  rewrite filter_cons_True by (apply H1; left). f_equal. apply IH.
  intros y Hy. apply H1. by right.
Qed.

Lemma filter_none {A} (P : A → Prop) `{∀ x, Decision (P x)} (l : list A) :
  (∀ x, x ∈ l → ¬ P x) → filter P l = [].
Proof.
  induction l as [|x l IH]; intros H1; [done|].
  rewrite filter_cons_False by (apply H1; left). apply IH.
  intros y Hy. apply H1. by right.
Qed.

(** The first integer of a range with a property. *)
Lemma filter_seqZ_none (P : Z → bool) lo hi :
  (∀ j, lo <= j < hi → P j = false) → filter (λ j, P j = true) (seqZ lo (hi - lo)) = [].
Proof. intros Hf. apply filter_none. intros j Hj%elem_of_seqZ. rewrite Hf by lia. done. Qed.

Lemma filter_seqZ_first (P : Z → bool) lo r hi :
  lo <= r < hi → (∀ j, lo <= j < r → P j = false) → P r = true →
  filter (λ j, P j = true) (seqZ lo (hi - lo)) = r :: filter (λ j, P j = true) (seqZ (r + 1) (hi - (r + 1))).
Proof.
  intros Hr Hf Ht. replace (hi - lo) with ((r - lo) + (hi - r)) by lia.
  rewrite seqZ_app, filter_app by lia. replace (lo + (r - lo)) with r by lia.
  rewrite filter_seqZ_none by done. simpl.
  rewrite seqZ_cons, filter_cons_True by (done || lia).
  unfold Z.succ, Z.pred. by replace (hi - r + -1) with (hi - (r + 1)) by lia.
Qed.

Lemma NoDup_fmap_filter {A B} (g : A → B) (P : A → Prop) `{∀ x, Decision (P x)} (l : list A) :
  NoDup (g <$> l) → NoDup (g <$> filter P l).
Proof.
  induction l as [|x l IH]; [done|]. rewrite fmap_cons, NoDup_cons. intros [Hx Hl].
  rewrite filter_cons. case_decide; [|auto].
  rewrite fmap_cons, NoDup_cons. split; [|auto].
  intros (y & Heq & [_ Hy]%list_elem_of_filter)%list_elem_of_fmap.
  apply Hx. rewrite Heq. by apply list_elem_of_fmap_2.
Qed.

(** With distinct images, an element is known by its image. *)
Lemma NoDup_fmap_inj {A B} (g : A → B) (l : list A) x y :
  NoDup (g <$> l) → x ∈ l → y ∈ l → g x = g y → x = y.
Proof.
  induction l as [|z l IH]; [set_solver|].
  rewrite fmap_cons, NoDup_cons. intros [Hz Hl] Hx Hy Heq.
  apply elem_of_cons in Hx as [->|Hx], Hy as [->|Hy]; auto.
  - exfalso. apply Hz. rewrite Heq. by apply list_elem_of_fmap_2.
  - exfalso. apply Hz. rewrite <- Heq. by apply list_elem_of_fmap_2.
Qed.

Lemma removelast_snoc {A} (l : list A) x : removelast (l ++ [x]) = l.
Proof. rewrite removelast_app by done. simpl. apply app_nil_r. Qed.

Lemma elem_of_fmap_filter {A B} (g : A → B) (P : A → Prop) `{∀ x, Decision (P x)} (l : list A) y :
  y ∈ g <$> filter P l → y ∈ g <$> l.
Proof.
  intros (x & -> & [_ Hx]%list_elem_of_filter)%list_elem_of_fmap.
  by apply list_elem_of_fmap_2.
Qed.
