(* ===== verification/Defs.v ===== *)
(** Shared declarations of the sources and the program monad.

    - the constants of [src/src/common/config.h] and the types of
      [src/src/defs.h] ([Rid], [ColType]);
    - the exceptions of [src/src/errors.h] as values of [Err], with the text
      that [what()] returns;
    - the monad [M S] in which the operations of a component with state [S]
      are written: an operation returns a value, throws one of the
      exceptions, fails an [assert] or reaches undefined behaviour, and the
      state reached is kept in every case (a C++ exception does not undo the
      writes done before it). *)
From S2P Require Import Prelude.

(** ** [common/config.h] *)

Definition INVALID_FRAME_ID : Z := -1.
Definition INVALID_PAGE_ID : Z := -1.
Definition INVALID_TXN_ID : Z := -1.
Definition INVALID_LSN : Z := -1.
Definition PAGE_SIZE : Z := 4096.
Definition BUFFER_POOL_SIZE : Z := 65536.
Definition LOG_BUFFER_SIZE : Z := (BUFFER_POOL_SIZE + 1) * PAGE_SIZE.
Definition LOG_FILE_NAME : string := "db.log".
Definition REPLACER_TYPE : string := "LRU".

(** [sizeof(int)] of the platforms the project builds for. *)
Definition sizeof_int : Z := 4.

(** ** [defs.h] *)

Record Rid := mkRid { rid_page_no : Z; rid_slot_no : Z }.

#[export] Instance Rid_eq_dec : EqDecision Rid.
Proof. solve_decision. Defined.

(** [operator==] of [Rid]. *)
Definition Rid_eqb (x y : Rid) : bool :=
  (rid_page_no x =? rid_page_no y) && (rid_slot_no x =? rid_slot_no y).

Lemma Rid_eqb_eq x y : Rid_eqb x y = true ↔ x = y.
Proof.
  unfold Rid_eqb. rewrite andb_true_iff, !Z.eqb_eq.
  destruct x, y; simpl. split; [intros [-> ->]; done | by intros [= -> ->]].
Qed.

Inductive ColType := TYPE_INT | TYPE_FLOAT | TYPE_STRING.

#[export] Instance ColType_eq_dec : EqDecision ColType.
Proof. solve_decision. Defined.

Definition coltype2str (type : ColType) : string :=
  match type with
  | TYPE_INT => "INT"
  | TYPE_FLOAT => "FLOAT"
  | TYPE_STRING => "STRING"
  end.

(** The enumerators of [ColType] as integers.  (The type can also hold 3,
    which names no column type and is [None] here.) *)
Definition coltype_int (t : ColType) : Z :=
  match t with TYPE_INT => 0 | TYPE_FLOAT => 1 | TYPE_STRING => 2 end.

Definition coltype_of_int (z : Z) : option ColType :=
  if z =? 0 then Some TYPE_INT
  else if z =? 1 then Some TYPE_FLOAT
  else if z =? 2 then Some TYPE_STRING
  else None.

(** ** [errors.h] *)

Inductive Err :=
  | InternalError (msg : string)
  | UnixError
  | FileNotOpenError (fd : Z)
  | FileNotClosedError (filename : string)
  | FileExistsError (filename : string)
  | FileNotFoundError (filename : string)
  | RecordNotFoundError (page_no slot_no : Z)
  | InvalidRecordSizeError (record_size : Z)
  | InvalidColLengthError (col_len : Z)
  | IndexEntryNotFoundError
  | DatabaseNotFoundError (db_name : string)
  | DatabaseExistsError (db_name : string)
  | TableNotFoundError (tab_name : string)
  | TableExistsError (tab_name : string)
  | ColumnNotFoundError (col_name : string)
  | IndexNotFoundError (tab_name col_name : string)
  | IndexExistsError (tab_name col_name : string)
  | InvalidValueCountError
  | StringOverflowError
  | IncompatibleTypeError (lhs rhs : string)
  | AmbiguousColumnError (col_name : string)
  | PageNotExistError (table_name : string) (page_no : Z)
  (** [std::out_of_range], thrown by [at] of the standard containers. *)
  | OutOfRange
  (** [std::bad_array_new_length], thrown by [new T[n]] with a negative [n]. *)
  | BadArrayLength.

(** [RedBaseError::what]; [strerror] is the text the C library gives for the
    current [errno]. *)
Definition err_what (strerror : string) (e : Err) : string :=
  let base msg := ("Error: " ++ msg)%string in
  match e with
  | InternalError msg => base msg
  | UnixError => base strerror
  | FileNotOpenError fd => base ("Invalid file descriptor: " ++ to_string fd)%string
  | FileNotClosedError f => base ("File is opened: " ++ f)%string
  | FileExistsError f => base ("File already exists: " ++ f)%string
  | FileNotFoundError f => base ("File not found: " ++ f)%string
  | RecordNotFoundError p s =>
      base ("Record not found: (" ++ to_string p ++ "," ++ to_string s ++ ")")%string
  | InvalidRecordSizeError n => base ("Invalid record size: " ++ to_string n)%string
  | InvalidColLengthError n => base ("Invalid column length: " ++ to_string n)%string
  | IndexEntryNotFoundError => base "Index entry not found"
  | DatabaseNotFoundError d => base ("Database not found: " ++ d)%string
  | DatabaseExistsError d => base ("Database already exists: " ++ d)%string
  | TableNotFoundError t => base ("Table not found: " ++ t)%string
  | TableExistsError t => base ("Table already exists: " ++ t)%string
  | ColumnNotFoundError c => base ("Column not found: " ++ c)%string
  | IndexNotFoundError t c => base ("Index not found: " ++ t ++ "." ++ c)%string
  | IndexExistsError t c => base ("Index already exists: " ++ t ++ "." ++ c)%string
  | InvalidValueCountError => base "Invalid value count"
  | StringOverflowError => base "String is too long"
  | IncompatibleTypeError l r =>
      base ("Incompatible type error: lhs " ++ l ++ ", rhs " ++ r)%string
  | AmbiguousColumnError c => base ("Ambiguous column: " ++ c)%string
  | PageNotExistError t p =>
      base ("Page " ++ to_string p ++ " in table " ++ t ++ "not exits")%string
  | OutOfRange => "out_of_range"
  | BadArrayLength => "std::bad_array_new_length"
  end.

(** ** The program monad *)

Inductive Res (A : Type) :=
  | Ret (a : A)
  | Throw (e : Err)
  | AssertFail
  | UB
  | NoFuel.
Arguments Ret {A} a.
Arguments Throw {A} e.
Arguments AssertFail {A}.
Arguments UB {A}.
Arguments NoFuel {A}.

Definition M (S A : Type) : Type := S → Res A * S.

Section monad.
  Context {St : Type}.

Definition ret {A} (a : A) : M St A := λ s, (Ret a, s).
Definition throw {A} (e : Err) : M St A := λ s, (Throw e, s).
Definition undefined {A} : M St A := λ s, (UB, s).
Definition out_of_fuel {A} : M St A := λ s, (NoFuel, s).

Definition bind {A B} (m : M St A) (k : A → M St B) : M St B :=
  λ s, match m s with
       | (Ret a, s') => k a s'
       | (Throw e, s') => (Throw e, s')
       | (AssertFail, s') => (AssertFail, s')
       | (UB, s') => (UB, s')
       | (NoFuel, s') => (NoFuel, s')
       end.

Definition gets {A} (f : St → A) : M St A := λ s, (Ret (f s), s).
Definition modify (f : St → St) : M St unit := λ s, (Ret tt, f s).

(** C's [assert]. *)
Definition assert (b : bool) : M St unit :=
  λ s, if b then (Ret tt, s) else (AssertFail, s).

(** An access that is undefined behaviour when it has no result. *)
Definition or_ub {A} (o : option A) : M St A :=
  λ s, match o with Some a => (Ret a, s) | None => (UB, s) end.

Definition when (b : bool) (m : M St unit) : M St unit := if b then m else ret tt.

(** Runs an operation of a part [T] of the state. *)
Definition zoom {T A} (get : St → T) (set : T → St → St) (m : M T A) : M St A :=
  λ s, let '(r, t) := m (get s) in (r, set t s).

(** [for (i = lo; i < lo + n; i++) body(i)]. *)
Fixpoint for_n (lo : Z) (n : nat) (body : Z → M St unit) : M St unit :=
  match n with
  | O => ret tt
  | S n' => bind (body lo) (λ _, for_n (lo + 1) n' body)
  end.

(** [for (auto &x : l) body(x)], and the loop that also keeps a value. *)
Fixpoint for_each {A} (l : list A) (body : A → M St unit) : M St unit :=
  match l with
  | [] => ret tt
  | x :: l' => bind (body x) (λ _, for_each l' body)
  end.

Fixpoint fold_m {A B} (f : B → A → M St B) (b : B) (l : list A) : M St B :=
  match l with
  | [] => ret b
  | x :: l' => bind (f b x) (λ b', fold_m f b' l')
  end.

(** ** Laws *)

Lemma bind_Ret {A B} (m : M St A) (k : A → M St B) s a s' :
  m s = (Ret a, s') → bind m k s = k a s'.
Proof. intros H. unfold bind. by rewrite H. Qed.

Lemma bind_Throw {A B} (m : M St A) (k : A → M St B) s e s' :
  m s = (Throw e, s') → bind m k s = (Throw e, s').
Proof. intros H. unfold bind. by rewrite H. Qed.

Lemma bind_ret {A B} (a : A) (k : A → M St B) s : bind (ret a) k s = k a s.
Proof. done. Qed.

Lemma bind_assoc {A B C} (m : M St A) (f : A → M St B) (g : B → M St C) s :
  bind (bind m f) g s = bind m (λ a, bind (f a) g) s.
Proof. unfold bind. destruct (m s) as [[] ?]; done. Qed.

Lemma bind_gets {A B} (f : St → A) (k : A → M St B) s : bind (gets f) k s = k (f s) s.
Proof. done. Qed.

Lemma bind_modify {B} (f : St → St) (k : unit → M St B) s : bind (modify f) k s = k tt (f s).
Proof. done. Qed.

Lemma bind_assert {B} (b : bool) (k : unit → M St B) s :
  b = true → bind (assert b) k s = k tt s.
Proof. by intros ->. Qed.

Lemma bind_or_ub {A B} (o : option A) (k : A → M St B) s a :
  o = Some a → bind (or_ub o) k s = k a s.
Proof. by intros ->. Qed.

Lemma zoom_Ret {T A} (get : St → T) (set : T → St → St) (m : M T A) s a t :
  m (get s) = (Ret a, t) → zoom get set m s = (Ret a, set t s).
Proof. intros H. unfold zoom. by rewrite H. Qed.

End monad.

#[export] Hint Rewrite @bind_ret @bind_assoc @bind_gets @bind_modify : prog.

Declare Scope prog_scope.
Delimit Scope prog_scope with prog.
Notation "'let*' x := m 'in' k" := (bind m (λ x, k))
  (at level 10, x pattern, m at level 200, k at level 200) : prog_scope.
Notation "m ;;; k" := (bind m (λ _, k))
  (at level 100, k at level 200, right associativity) : prog_scope.

(** Runs the next operation with the equation [H] of its result. *)
Ltac run H := erewrite (bind_Ret _ _ _ _ _ H); cbn beta iota.

(** Steps over the operations of the monad that need no hypothesis. *)
Ltac step := repeat first
  [ rewrite bind_ret | rewrite bind_assoc | rewrite bind_gets | rewrite bind_modify ];
  cbn beta iota.
