(* ===== verification/RecScan.v ===== *)
(** The iterators over records, [RecScan] of [defs.h]: the interface that table
    scans and index scans implement, the loop their clients run, and the rule by
    which a client reasons about the loop without knowing the scan. *)
From S2P Require Import Prelude.
From S2P Require Import Defs.

#[local] Open Scope prog_scope.

(** The members of a scan are a cursor [C], the file or index it runs on is in the
    state [St].  [rid] of an index scan reads the index. *)
Class RecScan (St C : Type) := {
  next : C → M St C;
  is_end : C → bool;
  rid : C → M St Rid }.

Section loop.
  Context {St C : Type} `{RecScan St C}.

(** [for (; !scan.is_end(); scan.next()) visit(scan.rid())], with the positions
    visited and the cursor at the end. *)
Fixpoint collect (fuel : nat) (c : C) : M St (list Rid * C) :=
  match fuel with
  | O => out_of_fuel
  | S fuel' =>
      if is_end c then ret ([], c)
      else
        let* r := rid c in
        let* c' := next c in
        let* l := collect fuel' c' in
        ret (r :: l.1, l.2)
  end.

(** [I l c s]: in state [s] the cursor [c] has the positions [l] before it. *)
Record scans (I : list Rid → C → St → Prop) : Prop := {
  scans_end c s : I [] c s → is_end c = true;
  scans_step r l c s : I (r :: l) c s → is_end c = false ∧
    ∃ s1 c' s2, rid c s = (Ret r, s1) ∧ next c s1 = (Ret c', s2) ∧ I l c' s2 }.

(** The loop visits what the scan promises, and one step more than there are
    positions is enough. *)
Lemma collect_ok I l c s fuel :
  scans I → I l c s → (length l < fuel)%nat →
  ∃ c' s', collect fuel c s = (Ret (l, c'), s') ∧ I [] c' s'.
Proof.
  intros HI. revert c s fuel. induction l as [|r l IH]; intros c s fuel Hc Hf; (destruct fuel as [|fuel]; [lia|]); simpl.
  - rewrite (scans_end _ HI c s Hc). by exists c, s.
  - destruct (scans_step _ HI r l c s Hc) as (-> & s1 & c1 & s2 & Hr & Hn & H1).
    simpl in Hf. destruct (IH c1 s2 fuel H1 ltac:(lia)) as (c' & s' & Hrun & H').
    exists c', s'. split; [|done]. run Hr. run Hn. by run Hrun.
Qed.

End loop.
