(* ===== verification/Bitmap.v ===== *)
(** The slot bitmap of a record page, [src/src/record/bitmap.h].

    The functions take the memory object [m] that holds the bitmap (a page)
    and the address [bm] of its first byte in it; [None] is an access outside
    the object or a shift by a negative amount (undefined behaviour).  A
    [char] is signed, so every read is sign-extended and every write keeps
    the low 8 bits, as in the source.

    [bit_at] is the abstract view (a total boolean function of the position);
    the theorems say that the byte operations implement it, and that the
    search loop returns the first matching position. *)
From S2P Require Import Prelude.
From S2P Require Import Defs.

Module Bitmap.

Definition BITMAP_WIDTH : Z := 8.
Definition BITMAP_HIGHEST_BIT : Z := 0x80.

(** Address arithmetic; C's [/] and [%] truncate. *)
Definition get_bucket (pos : Z) : Z := Z.quot pos BITMAP_WIDTH.

Definition get_bit (pos : Z) : option Z :=
  let sh := to_s8 (Z.rem pos BITMAP_WIDTH) in
  if sh <? 0 then None else Some (to_s8 (Z.shiftr BITMAP_HIGHEST_BIT sh)).

Definition init (m : bytes) (bm size : Z) : option bytes := mem_set m bm 0 size.

(** One byte of the object, read as a signed [char]. *)
Definition get_char (m : bytes) (a : Z) : option Z :=
  to_s8 <$> (mem_read m a 1 ≫= head).

Definition set_char (m : bytes) (a c : Z) : option bytes := mem_write m a [to_u8 c].

Definition set (m : bytes) (bm pos : Z) : option bytes :=
  c ← get_char m (bm + get_bucket pos);
  b ← get_bit pos;
  set_char m (bm + get_bucket pos) (Z.lor c b).

Definition reset (m : bytes) (bm pos : Z) : option bytes :=
  c ← get_char m (bm + get_bucket pos);
  b ← get_bit pos;
  set_char m (bm + get_bucket pos) (Z.land c (to_s8 (Z.lnot b))).

Definition is_set (m : bytes) (bm pos : Z) : option bool :=
  c ← get_char m (bm + get_bucket pos);
  b ← get_bit pos;
  Some (negb (Z.land c b =? 0)).

(** The loop [for (int i = curr + 1; i < max_n; i++)]; [n] is the number of
    iterations left, [max_n - i]. *)
Fixpoint next_bit_loop (bit : bool) (m : bytes) (bm max_n i : Z) (n : nat) : option Z :=
  match n with
  | O => Some max_n
  | S n' =>
      b ← is_set m bm i;
      if Bool.eqb b bit then Some i else next_bit_loop bit m bm max_n (i + 1) n'
  end.

Definition next_bit (bit : bool) (m : bytes) (bm max_n curr : Z) : option Z :=
  next_bit_loop bit m bm max_n (curr + 1) (Z.to_nat (max_n - (curr + 1))).

Definition first_bit (bit : bool) (m : bytes) (bm max_n : Z) : option Z :=
  next_bit bit m bm max_n (-1).

(** ** Abstract view *)

Definition bit_at (m : bytes) (bm pos : Z) : bool :=
  Z.testbit (m !!! Z.to_nat (bm + pos / 8)) (7 - pos mod 8).

(** The bitmap at [bm] holds at least [n] positions inside the object. *)
Definition fits (m : bytes) (bm n : Z) : Prop :=
  0 <= bm ∧ bm + (n + 7) / 8 <= zlen m ∧ Forall is_u8 m.

(** Number of positions below [n] whose bit is set. *)
Fixpoint count (m : bytes) (bm : Z) (n : nat) : Z :=
  match n with
  | O => 0
  | S n' => count m bm n' + Z.b2z (bit_at m bm (Z.of_nat n'))
  end.

(** ** The byte operations, by exhaustion over the 256 byte values *)

Definition byte_bit (k : Z) : Z := to_s8 (Z.shiftr 128 k).

Lemma byte_cases (P : Z → Prop) :
  Forall P (seqZ 0 256) → ∀ b, is_u8 b → P b.
Proof. rewrite Forall_forall. intros H b Hb. apply H, elem_of_seqZ. unfold is_u8 in Hb. lia. Qed.

Definition check_byte (b k j : Z) : bool :=
  let old := Z.testbit b (7 - j) in
  Bool.eqb (negb (Z.land (to_s8 b) (byte_bit k) =? 0)) (Z.testbit b (7 - k))
  && Bool.eqb (Z.testbit (to_u8 (Z.lor (to_s8 b) (byte_bit k))) (7 - j))
       (if k =? j then true else old)
  && Bool.eqb (Z.testbit (to_u8 (Z.land (to_s8 b) (to_s8 (Z.lnot (byte_bit k))))) (7 - j))
       (if k =? j then false else old).

Lemma check_byte_all :
  forallb (λ b, forallb (λ k, forallb (check_byte b k) (seqZ 0 8)) (seqZ 0 8)) (seqZ 0 256)
  = true.
Proof. vm_compute. reflexivity. Qed.

Lemma check_byte_true b k j : is_u8 b → 0 <= k < 8 → 0 <= j < 8 → check_byte b k j = true.
Proof.
  intros Hb Hk Hj. pose proof check_byte_all as H.
  rewrite forallb_forall in H.
  specialize (H b). rewrite <- list_elem_of_In, elem_of_seqZ in H.
  specialize (H ltac:(unfold is_u8 in Hb; lia)). rewrite forallb_forall in H.
  specialize (H k). rewrite <- list_elem_of_In, elem_of_seqZ in H.
  specialize (H ltac:(lia)). rewrite forallb_forall in H.
  apply H. rewrite <- list_elem_of_In, elem_of_seqZ. lia.
Qed.

Section ops.
  Context (m : bytes) (bm n : Z) (Hfit : fits m bm n).

Lemma get_bucket_nonneg pos : 0 <= pos → get_bucket pos = pos / 8.
Proof. intros. apply Z.quot_div_nonneg; unfold BITMAP_WIDTH; lia. Qed.

Lemma get_bit_nonneg pos : 0 <= pos → get_bit pos = Some (byte_bit (pos mod 8)).
Proof using.
  intros Hp. unfold get_bit.
  assert (Z.rem pos BITMAP_WIDTH = pos mod 8) as ->.
  { apply Z.rem_mod_nonneg; unfold BITMAP_WIDTH; lia. }
  pose proof (Z.mod_pos_bound pos 8 ltac:(lia)).
  assert (to_s8 (pos mod 8) = pos mod 8) as Hs.
  { unfold to_s8. rewrite Z.mod_small; lia. }
  rewrite Hs, (proj2 (Z.ltb_ge _ _)) by lia. done.
Qed.

Lemma bucket_in_range pos : 0 <= pos < n → 0 <= bm + pos / 8 < zlen m.
Proof using Hfit.
  intros. destruct Hfit as (? & ? & ?).
  pose proof (Z.div_mod pos 8). pose proof (Z.mod_pos_bound pos 8).
  assert (pos / 8 < (n + 7) / 8); [|lia].
  apply Z.div_lt_upper_bound; [lia|].
  pose proof (Z.div_mod (n + 7) 8). pose proof (Z.mod_pos_bound (n + 7) 8). lia.
Qed.

Lemma byte_is_u8 a : 0 <= a < zlen m → is_u8 (m !!! Z.to_nat a).
Proof using Hfit.
  intros. destruct Hfit as (_ & _ & Hall).
  destruct (lookup_lt_is_Some_2 m (Z.to_nat a)) as [x Hx]; [lia|].
  rewrite (list_lookup_total_correct _ _ _ Hx).
  by eapply Forall_lookup_1 in Hall.
Qed.

Lemma get_char_in_range a :
  0 <= a < zlen m → get_char m a = Some (to_s8 (m !!! Z.to_nat a)).
Proof using.
  intros. unfold get_char. rewrite mem_read_Some by lia. simpl.
  unfold slice. change (Z.to_nat 1) with 1%nat.
  destruct (lookup_lt_is_Some_2 m (Z.to_nat a)) as [x Hx]; [lia|].
  rewrite (drop_S _ _ _ Hx), (list_lookup_total_correct _ _ _ Hx). done.
Qed.

Lemma is_set_spec pos : 0 <= pos < n → is_set m bm pos = Some (bit_at m bm pos).
Proof using Hfit.
  intros Hp. unfold is_set.
  pose proof (bucket_in_range pos Hp) as Hr.
  rewrite get_bucket_nonneg, get_char_in_range, get_bit_nonneg by lia. simpl.
  pose proof (Z.mod_pos_bound pos 8 ltac:(lia)).
  pose proof (check_byte_true _ _ 0 (byte_is_u8 _ Hr) H ltac:(lia)) as Hc.
  unfold check_byte in Hc. rewrite !andb_true_iff, !eqb_true_iff in Hc.
  unfold bit_at. by destruct Hc as ((-> & _) & _).
Qed.

Lemma bit_at_splice c pos pos' :
  0 <= pos < n → 0 <= pos' < n →
  bit_at (splice m (bm + pos / 8) [c]) bm pos' =
    if decide (pos / 8 = pos' / 8) then Z.testbit c (7 - pos' mod 8) else bit_at m bm pos'.
Proof using Hfit.
  intros Hp Hp'. unfold bit_at.
  pose proof (bucket_in_range pos Hp). pose proof (bucket_in_range pos' Hp').
  rewrite !list_lookup_total_alt, lookup_splice by (simpl; lia). simpl.
  case_decide as Hd.
  - rewrite decide_True by lia. replace (_ - _)%nat with O by lia. done.
  - rewrite decide_False by lia. done.
Qed.

Lemma div_mod_eq pos pos' : pos / 8 = pos' / 8 → pos mod 8 = pos' mod 8 → pos = pos'.
Proof using. intros. rewrite (Z.div_mod pos 8), (Z.div_mod pos' 8) by lia. congruence. Qed.

Lemma byte_bit_cases b k j :
  is_u8 b → 0 <= k < 8 → 0 <= j < 8 →
  Z.testbit (to_u8 (Z.lor (to_s8 b) (byte_bit k))) (7 - j)
    = (if k =? j then true else Z.testbit b (7 - j)) ∧
  Z.testbit (to_u8 (Z.land (to_s8 b) (to_s8 (Z.lnot (byte_bit k))))) (7 - j)
    = (if k =? j then false else Z.testbit b (7 - j)).
Proof using.
  intros Hb Hk Hj. pose proof (check_byte_true b k j Hb Hk Hj) as Hc.
  unfold check_byte in Hc. rewrite !andb_true_iff, !eqb_true_iff in Hc. tauto.
Qed.

(** The result of writing the byte of position [pos] so that its bit becomes
    [v] and the other bits of the byte stay. *)
Definition writes_bit (m' : bytes) (pos : Z) (v : bool) : Prop :=
  length m' = length m ∧ fits m' bm n ∧
  (∃ c, m' = splice m (bm + pos / 8) [c]) ∧
  ∀ pos', 0 <= pos' < n →
    bit_at m' bm pos' = if decide (pos' = pos) then v else bit_at m bm pos'.

Lemma set_char_spec pos c v :
  0 <= pos < n →
  (∀ j, 0 <= j < 8 → Z.testbit (to_u8 c) (7 - j) =
     if pos mod 8 =? j then v else Z.testbit (m !!! Z.to_nat (bm + pos / 8)) (7 - j)) →
  ∃ m', set_char m (bm + pos / 8) c = Some m' ∧ writes_bit m' pos v.
Proof using Hfit.
  intros Hp Hc. pose proof (bucket_in_range pos Hp) as Hr.
  unfold set_char. rewrite mem_write_Some by (simpl; lia).
  eexists. split; [done|]. unfold writes_bit.
  rewrite length_splice by (simpl; lia).
  split_and!; [done| |by eexists|].
  { destruct Hfit as (? & ? & ?). unfold fits. rewrite length_splice by (simpl; lia).
    split_and!; [done..|]. apply Forall_splice; auto with bytes. }
  intros pos' Hp'. rewrite bit_at_splice by lia.
  pose proof (Z.mod_pos_bound pos' 8 ltac:(lia)).
  rewrite Hc by lia. repeat case_decide; subst; rewrite ?Z.eqb_refl; try done.
  rewrite (proj2 (Z.eqb_neq _ _)) by (intros ?; eauto using div_mod_eq, eq_sym).
  unfold bit_at. congruence.
Qed.

(** [set] and [reset] succeed inside the bitmap and write one bit. *)
Lemma set_spec pos : 0 <= pos < n → ∃ m', set m bm pos = Some m' ∧ writes_bit m' pos true.
Proof using Hfit.
  intros Hp. unfold set. pose proof (bucket_in_range pos Hp) as Hr.
  rewrite get_bucket_nonneg, get_char_in_range, get_bit_nonneg by lia. simpl.
  apply set_char_spec; [done|]. intros j Hj.
  apply byte_bit_cases; auto using byte_is_u8, Z.mod_pos_bound with lia.
Qed.

Lemma reset_spec pos : 0 <= pos < n → ∃ m', reset m bm pos = Some m' ∧ writes_bit m' pos false.
Proof using Hfit.
  intros Hp. unfold reset. pose proof (bucket_in_range pos Hp) as Hr.
  rewrite get_bucket_nonneg, get_char_in_range, get_bit_nonneg by lia. simpl.
  apply set_char_spec; [done|]. intros j Hj.
  apply byte_bit_cases; auto using byte_is_u8, Z.mod_pos_bound with lia.
Qed.

(** The search loop returns the first position of [[i, i + k)] whose bit is
    [bit], or [max_n]. *)
Definition first_match (bit : bool) (max_n lo r : Z) : Prop :=
  (r = max_n ∧ ∀ j, lo <= j < max_n → bit_at m bm j = negb bit) ∨
  (lo <= r < max_n ∧ bit_at m bm r = bit ∧ ∀ j, lo <= j < r → bit_at m bm j = negb bit).

Lemma next_bit_loop_spec bit max_n k i :
  max_n <= n → 0 <= i → i + Z.of_nat k = max_n →
  ∃ r, next_bit_loop bit m bm max_n i k = Some r ∧ first_match bit max_n i r.
Proof using Hfit.
  intros Hn. revert i. induction k as [|k IH]; intros i Hi Hk; simpl.
  - eexists. split; [done|]. left. split; [done|]. intros; lia.
  - rewrite is_set_spec by lia. simpl.
    destruct (Bool.eqb _ _) eqn:E.
    + apply eqb_prop in E. eexists. split; [done|].
      right. split_and!; [lia|lia|done|intros; lia].
    + destruct (IH (i + 1)) as (r & -> & Hr); [lia|lia|].
      eexists. split; [done|].
      assert (bit_at m bm i = negb bit) as Hbi.
      { apply eqb_false_iff in E. by destruct (bit_at m bm i), bit. }
      assert (∀ j, i <= j → j = i ∨ i + 1 <= j) as Hj by lia.
      destruct Hr as [(-> & Hr)|(? & ? & Hr)]; [left|right]; split_and!; try lia; try done;
        intros j Hj'; destruct (Hj j) as [->|]; try lia; auto; apply Hr; lia.
Qed.

Lemma next_bit_spec bit max_n curr :
  max_n <= n → -1 <= curr < max_n →
  ∃ r, next_bit bit m bm max_n curr = Some r ∧ first_match bit max_n (curr + 1) r.
Proof using Hfit. intros. apply next_bit_loop_spec; lia. Qed.

End ops.

#[global] Arguments first_match m bm bit max_n lo r /.

(** ** Counting set bits *)

Lemma count_ext m bm m' bm' k :
  (∀ j, 0 <= j < Z.of_nat k → bit_at m bm j = bit_at m' bm' j) →
  count m bm k = count m' bm' k.
Proof.
  induction k as [|k IH]; intros H; simpl; [done|].
  rewrite (H (Z.of_nat k)) by lia. rewrite IH; [done|]. intros; apply H; lia.
Qed.

Lemma count_bounds m bm k : 0 <= count m bm k <= Z.of_nat k.
Proof. induction k as [|k IH]; simpl; [lia|]. destruct (bit_at _ _ _); simpl; lia. Qed.

Lemma count_full m bm k :
  count m bm k = Z.of_nat k ↔ ∀ j, 0 <= j < Z.of_nat k → bit_at m bm j = true.
Proof.
  induction k as [|k IH]; simpl; [split; [intros; lia|done]|].
  pose proof (count_bounds m bm k). split.
  - intros Hc j Hj. destruct (bit_at m bm (Z.of_nat k)) eqn:E; simpl in Hc; [|lia].
    destruct (decide (j = Z.of_nat k)) as [->|]; [done|]. apply IH; lia.
  - intros Hall. rewrite (Hall (Z.of_nat k)) by lia.
    rewrite (proj2 IH) by (intros; apply Hall; lia). simpl; lia.
Qed.

Lemma count_clear m bm k :
  count m bm k = 0 ↔ ∀ j, 0 <= j < Z.of_nat k → bit_at m bm j = false.
Proof.
  induction k as [|k IH]; simpl; [split; [intros; lia|done]|].
  pose proof (count_bounds m bm k). split.
  - intros Hc j Hj. destruct (bit_at m bm (Z.of_nat k)) eqn:E; simpl in Hc; [lia|].
    destruct (decide (j = Z.of_nat k)) as [->|]; [done|]. apply IH; lia.
  - intros Hall. rewrite (Hall (Z.of_nat k)) by lia.
    rewrite (proj2 IH) by (intros; apply Hall; lia). simpl; lia.
Qed.

(** Writing one bit changes the count by the difference of the two values. *)
Lemma count_write m m' bm pos v k :
  0 <= pos →
  (∀ j, 0 <= j < Z.of_nat k → bit_at m' bm j = if decide (j = pos) then v else bit_at m bm j) →
  count m' bm k = count m bm k
    + if decide (pos < Z.of_nat k) then Z.b2z v - Z.b2z (bit_at m bm pos) else 0.
Proof.
  intros Hp. induction k as [|k IH]; intros H; simpl.
  - rewrite decide_False by lia. lia.
  - rewrite IH by (intros; apply H; lia). rewrite (H (Z.of_nat k)) by lia.
    repeat case_decide; subst; try lia.
Qed.

(** [init] clears every position. *)
Lemma init_spec m bm n :
  0 <= n → fits m bm n →
  ∃ m', init m bm ((n + 7) / 8) = Some m' ∧ length m' = length m ∧ fits m' bm n ∧
    m' = splice m bm (replicate (Z.to_nat ((n + 7) / 8)) 0) ∧
    ∀ j, 0 <= j < n → bit_at m' bm j = false.
Proof.
  intros Hn (H1 & H2 & H3). unfold init, mem_set.
  assert (0 <= (n + 7) / 8) by (apply Z.div_pos; lia).
  rewrite (proj2 (in_range_spec _ _ _)) by lia.
  assert (length (splice m bm (replicate (Z.to_nat ((n + 7) / 8)) 0)) = length m) as Hlen.
  { apply length_splice; [done|]. rewrite length_replicate. lia. }
  eexists. split; [done|]. change (to_u8 0) with 0. split_and!; [done| |done|].
  - unfold fits. rewrite Hlen. split_and!; [done..|].
    apply Forall_splice; [done|]. apply Forall_replicate. done.
  - intros j Hj. unfold bit_at.
    assert (j / 8 < (n + 7) / 8).
    { apply Z.div_lt_upper_bound; [lia|].
      pose proof (Z.div_mod (n + 7) 8). pose proof (Z.mod_pos_bound (n + 7) 8). lia. }
    assert (0 <= j / 8) by (apply Z.div_pos; lia).
    rewrite list_lookup_total_alt, lookup_splice by (rewrite ?length_replicate; lia).
    rewrite decide_True by (rewrite length_replicate; lia).
    rewrite lookup_replicate_2 by lia. simpl. apply Z.testbit_0_l.
Qed.

End Bitmap.
