(* ===== verification/Replacer.v ===== *)
(** Page replacement, [src/src/replacer/].

    [Replacer] is the abstract class of [replacer.h]; [ReplacerLaws] is what
    the buffer pool relies on, stated on the set of evictable frames.
    [LRUReplacer] models [lru_replacer.cpp]: the list of nodes and the hash
    table of iterators into it, an iterator being the identity of a node, so
    that erasing through a stale iterator is undefined behaviour.  The module
    [Spec] is the abstract LRU queue, and the LRU theorems say that the two
    coupled containers implement it.  [ClockReplacer] models the methods of
    [clock_replacer.cpp] as they are in the source (empty bodies).

    Every method of the source takes the latch of the replacer for its whole
    body, so a method is one atomic step. *)
From S2P Require Import Prelude.
From S2P Require Import Defs.

#[local] Open Scope prog_scope.

(** ** The interface *)

(** [Victim] takes the previous value of the out parameter [*frame_id] and
    returns the boolean result with the new one. *)
Class Replacer (R : Type) := {
  Victim : Z → M R (bool * Z);
  Pin : Z → M R unit;
  Unpin : Z → M R unit;
  Size : M R Z
}.

Class ReplacerLaws (R : Type) `{Replacer R} := {
  repl_inv : R → Prop;
  evictable : R → gset Z;
  capacity : R → Z;
  victim_law old r : repl_inv r →
    (evictable r = ∅ ∧ ∃ v, Victim old r = (Ret (false, v), r)) ∨
    (∃ f r', f ∈ evictable r ∧ Victim old r = (Ret (true, f), r') ∧ repl_inv r' ∧
       evictable r' = evictable r ∖ {[f]} ∧ capacity r' = capacity r);
  pin_law f r : repl_inv r →
    ∃ r', Pin f r = (Ret tt, r') ∧ repl_inv r' ∧
      evictable r' = evictable r ∖ {[f]} ∧ capacity r' = capacity r;
  unpin_law f r : repl_inv r → f ∈ evictable r ∨ Z.of_nat (size (evictable r)) < capacity r →
    ∃ r', Unpin f r = (Ret tt, r') ∧ repl_inv r' ∧
      evictable r' = {[f]} ∪ evictable r ∧ capacity r' = capacity r;
  size_law r : repl_inv r → Size r = (Ret (Z.of_nat (size (evictable r))), r)
}.

(** ** [LRUReplacer] *)

Module LRUReplacer.

(** [LRUlist_]: the nodes, first to last, each with its identity.
    [LRUhash_]: the iterator (node identity) stored for a frame.
    [next_node]: the identity the allocator gives the next node. *)
Record t := mk {
  LRUlist_ : list (Z * Z);
  LRUhash_ : gmap Z Z;
  max_size_ : Z;
  next_node : Z
}.

Definition create (num_pages : Z) : t := mk [] ∅ num_pages 0.

Definition set_both (l : list (Z * Z)) (h : gmap Z Z) (r : t) : t :=
  mk l h (max_size_ r) (next_node r).

(** [LRUlist_.erase(it)]: the node must be in the list. *)
Definition erase_node (it : Z) (l : list (Z * Z)) : option (list (Z * Z)) :=
  if decide (it ∈ l.*1) then Some (filter (λ n, n.1 ≠ it) l) else None.

Definition Victim (_ : Z) : M t (bool * Z) :=
  let* l := gets LRUlist_ in
  match last l with
  | None => ret (false, INVALID_FRAME_ID)
  | Some (_, frame_id) =>
      modify (λ r, set_both (LRUlist_ r) (delete frame_id (LRUhash_ r)) r) ;;;
      modify (λ r, set_both (removelast (LRUlist_ r)) (LRUhash_ r) r) ;;;
      ret (true, frame_id)
  end.

Definition Pin (frame_id : Z) : M t unit :=
  let* h := gets LRUhash_ in
  match h !! frame_id with
  | Some it =>
      let* l := gets LRUlist_ in
      let* l' := or_ub (erase_node it l) in
      modify (set_both l' (delete frame_id h))
  | None => ret tt
  end.

Definition Unpin (frame_id : Z) : M t unit :=
  let* h := gets LRUhash_ in
  if decide (is_Some (h !! frame_id)) then ret tt
  else
    let* l := gets LRUlist_ in
    let* mx := gets max_size_ in
    if mx <=? zlen l then ret tt
    else modify (λ r, mk ((next_node r, frame_id) :: LRUlist_ r)
                         (<[frame_id := next_node r]> (LRUhash_ r))
                         (max_size_ r) (next_node r + 1)).

Definition Size : M t Z := gets (λ r, zlen (LRUlist_ r)).

(** The abstract LRU queue: frames, the most recently unpinned first. *)
Module Spec.
Definition victim (q : list Z) : option Z := last q.
Definition after_victim (q : list Z) : list Z := removelast q.
Definition pin (f : Z) (q : list Z) : list Z := filter (λ g, g ≠ f) q.
Definition unpin (cap f : Z) (q : list Z) : list Z :=
  if decide (f ∈ q) then q else if cap <=? zlen q then q else f :: q.
End Spec.

(** The queue a replacer represents. *)
Definition queue (r : t) : list Z := (LRUlist_ r).*2.

(** The hash table points every listed frame to its own node, and to nothing
    else. *)
Record inv (r : t) : Prop := {
  inv_ids : NoDup (LRUlist_ r).*1;
  inv_frames : NoDup (LRUlist_ r).*2;
  inv_hash f n : LRUhash_ r !! f = Some n ↔ (n, f) ∈ LRUlist_ r;
  inv_fresh n : n ∈ (LRUlist_ r).*1 → n < next_node r;
  inv_cap : zlen (LRUlist_ r) <= max_size_ r
}.

Lemma create_inv n : 0 <= n → inv (create n).
Proof.
  intros. split; simpl; try apply NoDup_nil_2; try lia; [|set_solver].
  intros f k. rewrite lookup_empty. set_solver.
Qed.

Lemma queue_hash r f : inv r → f ∈ queue r ↔ is_Some (LRUhash_ r !! f).
Proof.
  intros Hi. unfold queue. rewrite list_elem_of_fmap. split.
  - intros ([n f'] & -> & Hin). exists n. by apply (inv_hash r Hi).
  - intros [n Hn]. exists (n, f). split; [done|]. by apply (inv_hash r Hi).
Qed.

(** [Victim] takes the least recently unpinned frame, the last of the queue. *)
Lemma Victim_spec old r :
  inv r →
  match Spec.victim (queue r) with
  | None => Victim old r = (Ret (false, INVALID_FRAME_ID), r)
  | Some f => ∃ r', Victim old r = (Ret (true, f), r') ∧ inv r' ∧
                queue r' = Spec.after_victim (queue r) ∧ max_size_ r' = max_size_ r
  end.
Proof.
  intros Hi. unfold Spec.victim, queue, Victim. step.
  rewrite fmap_last. destruct (last (LRUlist_ r)) as [[n f]|] eqn:Hl; simpl; [|done].
  apply last_Some in Hl as [l Hl]. step. simpl.
  eexists. split; [done|]. unfold Spec.after_victim, queue, set_both; simpl.
  rewrite Hl, removelast_snoc, fmap_app. simpl. rewrite removelast_snoc.
  split; [|done]. destruct Hi as [H1 H2 H3 H4 H5].
  rewrite Hl in *. rewrite !fmap_app in *. simpl in *.
  apply NoDup_snoc in H1 as [Hn H1]. apply NoDup_snoc in H2 as [Hf H2].
  split; simpl; rewrite ?removelast_snoc; try done.
  - intros g k. rewrite lookup_delete_Some, H3, elem_of_app, list_elem_of_singleton.
    split; [intros [? [?|[= -> ->]]]; done|]. intros Hin. split; [|by left].
    intros <-. apply Hf. by apply (list_elem_of_fmap_2 snd _ (k, f)).
  - intros k Hk. apply H4. rewrite elem_of_app. by left.
  - rewrite length_app in H5. simpl in *. lia.
Qed.

Lemma filter_node_frame (l : list (Z * Z)) n f :
  NoDup l.*1 → NoDup l.*2 → (n, f) ∈ l →
  (filter (λ k, k.1 ≠ n) l).*2 = filter (λ g, g ≠ f) l.*2.
Proof.
  induction l as [|[n' f'] l IH]; [set_solver|].
  rewrite !fmap_cons. simpl. rewrite !NoDup_cons. intros [Hn Hl1] [Hf Hl2] Hin.
  apply elem_of_cons in Hin as [[= -> ->]|Hin].
  - rewrite !filter_cons_False by auto.
    rewrite !filter_all; [done| |].
    + by intros g Hg ->.
    + intros [a b] Hg Heq. simpl in Heq. subst.
      apply Hn. by apply (list_elem_of_fmap_2 fst _ (n', b)).
  - assert (n' ≠ n) by (intros ->; apply Hn; by apply (list_elem_of_fmap_2 fst _ (n, f))).
    assert (f' ≠ f) by (intros ->; apply Hf; by apply (list_elem_of_fmap_2 snd _ (n, f))).
    rewrite !filter_cons_True by done. rewrite fmap_cons. simpl. f_equal. by apply IH.
Qed.

(** [Pin] removes the frame from the queue, and never meets a stale iterator. *)
Lemma Pin_spec f r :
  inv r →
  ∃ r', Pin f r = (Ret tt, r') ∧ inv r' ∧ queue r' = Spec.pin f (queue r) ∧
        max_size_ r' = max_size_ r.
Proof.
  intros Hi. unfold Pin. step.
  destruct (LRUhash_ r !! f) as [it|] eqn:Hh.
  - pose proof (proj1 (inv_hash r Hi _ _) Hh) as Hin. step.
    unfold erase_node. rewrite decide_True by by apply (list_elem_of_fmap_2 fst _ (it, f)).
    erewrite bind_or_ub by done.
    eexists. split; [done|]. unfold queue, set_both, Spec.pin; simpl.
    pose proof Hi as [H1 H2 H3 H4 H5].
    rewrite (filter_node_frame _ it f) by done. split; [|done].
    split; simpl.
    + by apply NoDup_fmap_filter.
    + rewrite (filter_node_frame _ it f) by done. by apply NoDup_filter.
    + intros g k. rewrite lookup_delete_Some, H3, list_elem_of_filter. simpl.
      split; intros [Ha Hb]; split; try done.
      * intros ->. apply Ha.
        assert ((it, f) = (it, g)) as [= ->]; [|done].
        by eapply (NoDup_fmap_inj fst).
      * intros <-. apply Ha. apply H3 in Hb. congruence.
    + intros k Hk. eapply H4, elem_of_fmap_filter, Hk.
    + pose proof (length_filter (λ k : Z * Z, k.1 ≠ it) (LRUlist_ r)). lia.
  - eexists. split; [done|]. split; [done|]. split; [|done].
    unfold Spec.pin. symmetry. apply filter_all.
    intros g Hg ->. apply queue_hash in Hg as [? ?]; [|done]. congruence.
Qed.

(** [Unpin] puts the frame first, unless it is already queued or the replacer
    is full. *)
Lemma Unpin_spec f r :
  inv r →
  ∃ r', Unpin f r = (Ret tt, r') ∧ inv r' ∧
        queue r' = Spec.unpin (max_size_ r) f (queue r) ∧ max_size_ r' = max_size_ r.
Proof.
  intros Hi. unfold Unpin, Spec.unpin. step.
  destruct (decide (is_Some (LRUhash_ r !! f))) as [Hh|Hh].
  { rewrite decide_True by by apply queue_hash. eauto. }
  assert (f ∉ queue r) as Hq by by rewrite queue_hash.
  rewrite decide_False by done. step. unfold queue at 2. rewrite length_fmap.
  destruct (Z.leb_spec (max_size_ r) (zlen (LRUlist_ r))); [eauto|].
  eexists. split; [done|]. split; [|done].
  pose proof Hi as [H1 H2 H3 H4 H5]. split; simpl.
  - apply NoDup_cons. split; [|done]. intros Hk%H4. lia.
  - by apply NoDup_cons.
  - intros g k. rewrite lookup_insert_Some, elem_of_cons, H3.
    split.
    + intros [[<- <-]|[? ?]]; auto.
    + intros [[= -> ->]|Hin]; [auto|]. right. split; [|done].
      intros <-. apply Hq. by apply (list_elem_of_fmap_2 snd _ (k, f)).
  - intros k [->|Hk%H4]%elem_of_cons; lia.
  - lia.
Qed.

(** The set view used by the interface. *)
Definition evictable (r : t) : gset Z := list_to_set (queue r).

Lemma size_evictable r : inv r → Z.of_nat (size (evictable r)) = zlen (LRUlist_ r).
Proof.
  intros Hi. unfold evictable. rewrite size_list_to_set by apply (inv_frames r Hi).
  unfold queue. by rewrite length_fmap.
Qed.

End LRUReplacer.

#[export] Instance LRU_Replacer : Replacer LRUReplacer.t := {
  Victim := LRUReplacer.Victim;
  Pin := LRUReplacer.Pin;
  Unpin := LRUReplacer.Unpin;
  Size := LRUReplacer.Size
}.

Lemma LRU_victim_law old r :
  LRUReplacer.inv r →
  (LRUReplacer.evictable r = ∅ ∧ ∃ v, Victim old r = (Ret (false, v), r)) ∨
  (∃ f r', f ∈ LRUReplacer.evictable r ∧ Victim old r = (Ret (true, f), r') ∧
     LRUReplacer.inv r' ∧ LRUReplacer.evictable r' = LRUReplacer.evictable r ∖ {[f]} ∧
     LRUReplacer.max_size_ r' = LRUReplacer.max_size_ r).
Proof.
  intros Hi. pose proof (LRUReplacer.Victim_spec old r Hi) as Hv.
  pose proof (LRUReplacer.inv_frames r Hi) as Hnd.
  unfold LRUReplacer.evictable, LRUReplacer.Spec.victim in *.
  change (NoDup (LRUReplacer.queue r)) in Hnd.
  destruct (last (LRUReplacer.queue r)) as [f|] eqn:Hl.
  - right. destruct Hv as (r' & Hr & Hi' & Hq & Hm). exists f, r'.
    apply last_Some in Hl as [l Hl].
    unfold LRUReplacer.Spec.after_victim in Hq. rewrite Hl, removelast_snoc in Hq.
    rewrite Hq, Hl in *. apply NoDup_snoc in Hnd as [Hf _].
    split_and!; [set_solver|done|done|set_solver|done].
  - left. apply last_None in Hl. rewrite Hl. split; [done|eauto].
Qed.

Lemma LRU_pin_law f r :
  LRUReplacer.inv r →
  ∃ r', Pin f r = (Ret tt, r') ∧ LRUReplacer.inv r' ∧
    LRUReplacer.evictable r' = LRUReplacer.evictable r ∖ {[f]} ∧
    LRUReplacer.max_size_ r' = LRUReplacer.max_size_ r.
Proof.
  intros Hi. destruct (LRUReplacer.Pin_spec f r Hi) as (r' & Hr & Hi' & Hq & Hm).
  exists r'. split_and!; [done|done| |done]. unfold LRUReplacer.evictable.
  rewrite Hq. unfold LRUReplacer.Spec.pin. apply set_eq. intros x.
  rewrite elem_of_list_to_set, list_elem_of_filter. set_solver.
Qed.

Lemma LRU_unpin_law f r :
  LRUReplacer.inv r →
  f ∈ LRUReplacer.evictable r ∨
    Z.of_nat (size (LRUReplacer.evictable r)) < LRUReplacer.max_size_ r →
  ∃ r', Unpin f r = (Ret tt, r') ∧ LRUReplacer.inv r' ∧
    LRUReplacer.evictable r' = {[f]} ∪ LRUReplacer.evictable r ∧
    LRUReplacer.max_size_ r' = LRUReplacer.max_size_ r.
Proof.
  intros Hi Hcap. destruct (LRUReplacer.Unpin_spec f r Hi) as (r' & Hr & Hi' & Hq & Hm).
  exists r'. split_and!; [done|done| |done].
  rewrite LRUReplacer.size_evictable in Hcap by done.
  unfold LRUReplacer.evictable in *. rewrite Hq. unfold LRUReplacer.Spec.unpin.
  rewrite elem_of_list_to_set in Hcap. case_decide; [set_solver|].
  destruct Hcap as [?|Hcap]; [done|].
  unfold LRUReplacer.queue at 1. rewrite length_fmap.
  destruct (Z.leb_spec (LRUReplacer.max_size_ r) (zlen (LRUReplacer.LRUlist_ r))); [lia|].
  set_solver.
Qed.

Lemma LRU_size_law r :
  LRUReplacer.inv r → Size r = (Ret (Z.of_nat (size (LRUReplacer.evictable r))), r).
Proof. intros Hi. by rewrite LRUReplacer.size_evictable. Qed.

#[export] Instance LRU_Laws : ReplacerLaws LRUReplacer.t := {
  repl_inv := LRUReplacer.inv;
  evictable := LRUReplacer.evictable;
  capacity := LRUReplacer.max_size_;
  victim_law := LRU_victim_law;
  pin_law := LRU_pin_law;
  unpin_law := LRU_unpin_law;
  size_law := LRU_size_law
}.

(** ** [ClockReplacer] *)

Module ClockReplacer.

Inductive Status := UNTOUCHED | ACCESSED | EMPTY_OR_PINNED.

Record t := mk { circular_ : list Status; hand_ : Z; capacity_ : Z }.

(** [circular_{num_pages, EMPTY_OR_PINNED}]: [size_t] cannot convert to
    [Status], so the braces select the (count, value) constructor. *)
Definition create (num_pages : Z) : t :=
  mk (replicate (Z.to_nat num_pages) EMPTY_OR_PINNED) 0 num_pages.

(** [Victim] leaves [*frame_id] as it was. *)
Definition Victim (frame_id : Z) : M t (bool * Z) := ret (false, frame_id).
Definition Pin (_ : Z) : M t unit := ret tt.
Definition Unpin (_ : Z) : M t unit := ret tt.

(** [return -1] in a function of type [size_t]. *)
Definition Size : M t Z := ret (to_u64 (-1)).

End ClockReplacer.

#[export] Instance Clock_Replacer : Replacer ClockReplacer.t := {
  Victim := ClockReplacer.Victim;
  Pin := ClockReplacer.Pin;
  Unpin := ClockReplacer.Unpin;
  Size := ClockReplacer.Size
}.
