(* ===== verification/Disk.v ===== *)
(** The disk manager, [src/src/storage/disk_manager.{h,cpp}].

    The operating system is not part of the sources: [Posix] is the set of
    system calls the disk manager makes, on an abstract kernel state [F], and
    [PosixLaws] states what POSIX documents of them (offsets, holes filled
    with zeros, the lowest unused descriptor, and that a read or a write on
    a device without errors transfers every byte it can).  [PageStore] and
    [PageStoreLaws] are what the disk manager promises to the buffer pool;
    the last section proves that promise from [PosixLaws]. *)
From S2P Require Import Prelude.
From S2P Require Import Defs.

#[local] Open Scope prog_scope.

(** ** The system calls *)

Inductive FileKind := S_IFREG | S_IFDIR | S_IFOTHER.

#[export] Instance FileKind_eq_dec : EqDecision FileKind.
Proof. solve_decision. Defined.

Record Stat := mkStat { st_mode : FileKind; st_size : Z }.

(** [sys_read fd n] gives the returned count and the bytes stored; [sys_open
    path creat] opens with [O_RDWR], and [O_CREAT] when [creat]. *)
Class Posix (F : Type) := {
  sys_lseek_set : Z → Z → F → Z * F;
  sys_lseek_end : Z → F → Z * F;
  sys_read : Z → Z → F → Z * bytes * F;
  sys_write : Z → bytes → F → Z * F;
  sys_open : string → bool → F → Z * F;
  sys_close : Z → F → Z * F;
  sys_stat : string → F → option Stat;
  sys_unlink : string → F → Z * F;
  sys_system : string → F → Z * F
}.

(** Writing [bs] at offset [pos] of a file; a gap is filled with zeros. *)
Definition write_at (data : bytes) (pos : Z) (bs : bytes) : bytes :=
  take (Z.to_nat pos) data ++ replicate (Z.to_nat pos - length data) 0 ++ bs
    ++ drop (Z.to_nat pos + length bs) data.

(** [fs_ino]: the file a descriptor is open on; [fs_pos]: its offset;
    [fs_data]: the bytes of a file; [fs_healthy]: the devices report no
    error; [fs_dir]: the regular file a path names; [fs_free f n]: the lowest
    unused descriptor is below [n]. *)
Class PosixLaws (F : Type) `{Posix F} := {
  fs_ino : F → Z → option Z;
  fs_pos : F → Z → Z;
  fs_data : F → Z → bytes;
  fs_healthy : F → Prop;
  fs_dir : F → string → option Z;
  fs_free : F → Z → Prop;
  lseek_ok f fd i off : fs_ino f fd = Some i → 0 <= off →
    ∃ f', sys_lseek_set fd off f = (off, f') ∧ fs_pos f' fd = off ∧
      (∀ x, fs_ino f' x = fs_ino f x) ∧ (∀ x, fs_data f' x = fs_data f x) ∧
      (fs_healthy f → fs_healthy f');
  lseek_neg f fd off : off < 0 → sys_lseek_set fd off f = (-1, f);
  write_ok f fd i bs : fs_ino f fd = Some i → fs_healthy f → 0 <= fs_pos f fd →
    ∃ f', sys_write fd bs f = (zlen bs, f') ∧
      fs_data f' i = write_at (fs_data f i) (fs_pos f fd) bs ∧
      (∀ x, x ≠ i → fs_data f' x = fs_data f x) ∧
      (∀ x, fs_ino f' x = fs_ino f x) ∧ fs_healthy f';
  read_ok f fd i n : fs_ino f fd = Some i → fs_healthy f → 0 <= fs_pos f fd → 0 <= n →
    ∃ f', sys_read fd n f =
        (zlen (slice (fs_data f i) (fs_pos f fd) n), slice (fs_data f i) (fs_pos f fd) n, f') ∧
      (∀ x, fs_data f' x = fs_data f x) ∧ (∀ x, fs_ino f' x = fs_ino f x) ∧ fs_healthy f';
  open_ok f path :
    let '(r, f') := sys_open path false f in
    (r = -1 ∧ (∀ x, fs_ino f' x = fs_ino f x) ∧ (∀ x, fs_data f' x = fs_data f x)) ∨
    (0 <= r ∧ fs_ino f r = None ∧ (∀ x, fs_data f' x = fs_data f x) ∧
       ∃ i, ∀ x, fs_ino f' x = if decide (x = r) then Some i else fs_ino f x);
  close_ok f fd i : fs_ino f fd = Some i →
    ∃ f', sys_close fd f = (0, f') ∧ (∀ x, fs_data f' x = fs_data f x) ∧
      (∀ x, fs_ino f' x = if decide (x = fd) then None else fs_ino f x) ∧
      (fs_healthy f → fs_healthy f') ∧ (∀ path, fs_dir f' path = fs_dir f path) ∧
      (∀ n, 0 <= fd < n → fs_free f' n);
  lseek_dir fd off f path : fs_dir (sys_lseek_set fd off f).2 path = fs_dir f path;
  write_dir fd bs f path : fs_dir (sys_write fd bs f).2 path = fs_dir f path;
  read_dir fd n f path : fs_dir (sys_read fd n f).2 path = fs_dir f path;
  stat_reg f path i : fs_dir f path = Some i →
    sys_stat path f = Some (mkStat S_IFREG (zlen (fs_data f i)));
  open_creat f path n : sys_stat path f = None → fs_free f n → fs_healthy f →
    ∃ r f' i, sys_open path true f = (r, f') ∧ 0 <= r < n ∧ fs_ino f r = None ∧
      (∀ x, fs_ino f x ≠ Some i) ∧ fs_data f' i = [] ∧ (∀ x, x ≠ i → fs_data f' x = fs_data f x) ∧
      (∀ x, fs_ino f' x = if decide (x = r) then Some i else fs_ino f x) ∧
      fs_dir f' path = Some i ∧ fs_healthy f';
  open_reg f path i n : fs_dir f path = Some i → fs_free f n → fs_healthy f →
    ∃ r f', sys_open path false f = (r, f') ∧ 0 <= r < n ∧ fs_ino f r = None ∧
      (∀ x, fs_data f' x = fs_data f x) ∧
      (∀ x, fs_ino f' x = if decide (x = r) then Some i else fs_ino f x) ∧
      (∀ p, fs_dir f' p = fs_dir f p) ∧ fs_healthy f'
}.

(** ** The disk manager *)

Module DiskManager.

Definition MAX_FD : Z := 8192.

Record t (F : Type) := mk {
  os : F;
  path2fd_ : gmap string Z;
  fd2path_ : gmap Z string;
  log_fd_ : Z;
  (** entries of the array that are not zero *)
  fd2pageno_ : gmap Z Z
}.
Arguments mk {F} _ _ _ _ _.
Arguments os {F} _.
Arguments path2fd_ {F} _.
Arguments fd2path_ {F} _.
Arguments log_fd_ {F} _.
Arguments fd2pageno_ {F} _.

Section ops.
  Context {F : Type} `{Posix F}.

Definition set_os (o : F) (d : t F) : t F :=
  mk o (path2fd_ d) (fd2path_ d) (log_fd_ d) (fd2pageno_ d).
Definition set_paths (p : gmap string Z) (q : gmap Z string) (d : t F) : t F :=
  mk (os d) p q (log_fd_ d) (fd2pageno_ d).
Definition set_log_fd (fd : Z) (d : t F) : t F :=
  mk (os d) (path2fd_ d) (fd2path_ d) fd (fd2pageno_ d).
Definition set_pageno (m : gmap Z Z) (d : t F) : t F :=
  mk (os d) (path2fd_ d) (fd2path_ d) (log_fd_ d) m.

(** The constructor: the counters are cleared by [memset]. *)
Definition create (o : F) : t F := mk o ∅ ∅ (-1) ∅.

(** A system call that changes the kernel state. *)
Definition sys {A} (call : F → A * F) : M (t F) A :=
  λ d, let '(a, o) := call (os d) in (Ret a, set_os o d).

Definition write_page (fd page_no : Z) (data : bytes) : M (t F) unit :=
  let pos := page_no * PAGE_SIZE in
  let* r := sys (sys_lseek_set fd pos) in
  if r =? -1 then throw UnixError
  else
    let* bytes_write := sys (sys_write fd data) in
    if negb (bytes_write =? zlen data) then throw UnixError else ret tt.

(** [read] into the caller's buffer, the first component of the state. *)
Definition read_into (fd n : Z) : M (bytes * t F) Z :=
  λ '(buf, d),
    let '(cnt, bs, o) := sys_read fd n (os d) in
    match mem_write buf 0 bs with
    | Some buf' => (Ret cnt, (buf', set_os o d))
    | None => (UB, (buf, set_os o d))
    end.

(** Runs a method that does not touch the caller's buffer. *)
Definition on_disk {A} (m : M (t F) A) : M (bytes * t F) A :=
  zoom snd (λ d s, (fst s, d)) m.

Definition read_page (fd page_no num_bytes : Z) : M (bytes * t F) unit :=
  let pos := page_no * PAGE_SIZE in
  let* r := on_disk (sys (sys_lseek_set fd pos)) in
  if r =? -1 then throw UnixError
  else
    let* bytes_read := read_into fd num_bytes in
    if negb (bytes_read =? num_bytes) then throw UnixError else ret tt.

(** An element of [fd2pageno_]. *)
Definition fd2pageno (d : t F) (fd : Z) : Z := default 0 (fd2pageno_ d !! fd).

Definition fd_in_bounds (fd : Z) : bool := (0 <=? fd) && (fd <? MAX_FD).

(** [fd2pageno_[fd].fetch_add(1)]; the atomic addition wraps. *)
Definition AllocatePage (fd : Z) : M (t F) Z :=
  if fd_in_bounds fd then
    let* n := gets (λ d, fd2pageno d fd) in
    modify (λ d, set_pageno (<[fd := to_s32 (n + 1)]> (fd2pageno_ d)) d) ;;;
    ret n
  else undefined.

Definition DeallocatePage (_ : Z) : M (t F) unit := ret tt.

Definition set_fd2pageno (fd start_page_no : Z) : M (t F) unit :=
  if fd_in_bounds fd then
    modify (λ d, set_pageno (<[fd := start_page_no]> (fd2pageno_ d)) d)
  else undefined.

Definition get_fd2pageno (fd : Z) : M (t F) Z :=
  if fd_in_bounds fd then gets (λ d, fd2pageno d fd) else undefined.

Definition stat_is (k : FileKind) (path : string) : M (t F) bool :=
  gets (λ d, match sys_stat path (os d) with
             | Some st => bool_decide (st_mode st = k)
             | None => false
             end).

Definition is_dir (path : string) : M (t F) bool := stat_is S_IFDIR path.

Definition create_dir (path : string) : M (t F) unit :=
  let* r := sys (sys_system ("mkdir " ++ path)%string) in
  if r <? 0 then throw UnixError else ret tt.

Definition destroy_dir (path : string) : M (t F) unit :=
  let* r := sys (sys_system ("rm -r " ++ path)%string) in
  if r <? 0 then throw UnixError else ret tt.

Definition is_file (path : string) : M (t F) bool := stat_is S_IFREG path.

Definition create_file (path : string) : M (t F) unit :=
  let* b := is_file path in
  if (b : bool) then throw (FileExistsError path)
  else
    let* fd := sys (sys_open path true) in
    if fd =? -1 then throw UnixError
    else let* _ := sys (sys_close fd) in ret tt.

Definition destroy_file (path : string) : M (t F) unit :=
  let* b := is_file path in
  if negb b then throw (FileNotFoundError path)
  else
    let* p := gets path2fd_ in
    if decide (is_Some (p !! path)) then throw (FileNotClosedError path)
    else
      let* r := sys (sys_unlink path) in
      if r =? -1 then throw UnixError else ret tt.

Definition open_file (path : string) : M (t F) Z :=
  let* b := is_file path in
  if negb b then throw (FileNotFoundError path)
  else
    let* p := gets path2fd_ in
    if decide (is_Some (p !! path)) then throw (FileExistsError path)
    else
      let* fd := sys (sys_open path false) in
      if fd =? -1 then throw UnixError
      else
        modify (λ d, set_paths (<[path := fd]> (path2fd_ d)) (<[fd := path]> (fd2path_ d)) d) ;;;
        ret fd.

Definition close_file (fd : Z) : M (t F) unit :=
  let* q := gets fd2path_ in
  match q !! fd with
  | None => throw (FileNotOpenError fd)
  | Some path =>
      let* r := sys (sys_close fd) in
      if r =? -1 then throw UnixError
      else modify (λ d, set_paths (delete path (path2fd_ d)) (delete fd (fd2path_ d)) d)
  end.

(** [stat_buf.st_size] is returned as an [int]. *)
Definition GetFileSize (file_name : string) : M (t F) Z :=
  gets (λ d, match sys_stat file_name (os d) with
             | Some st => to_s32 (st_size st)
             | None => -1
             end).

Definition GetFileName (fd : Z) : M (t F) string :=
  let* q := gets fd2path_ in
  match q !! fd with
  | None => throw (FileNotOpenError fd)
  | Some path => ret path
  end.

Definition GetFileFd (file_name : string) : M (t F) Z :=
  let* p := gets path2fd_ in
  match p !! file_name with
  | None => open_file file_name
  | Some fd => ret fd
  end.

Definition open_log : M (t F) unit :=
  let* fd := gets log_fd_ in
  if fd =? -1 then
    let* fd' := open_file LOG_FILE_NAME in modify (set_log_fd fd')
  else ret tt.

(** [false]: nothing left to read; the buffer is [log_data]. *)
Definition ReadLog (size offset prev_log_end : Z) : M (bytes * t F) bool :=
  on_disk open_log ;;;
  let* offset := or_ub (s32 (offset + prev_log_end)) in
  let* file_size := on_disk (GetFileSize LOG_FILE_NAME) in
  if file_size <=? offset then ret false
  else
    let size := Z.min size (file_size - offset) in
    let* fd := on_disk (gets log_fd_) in
    let* _ := on_disk (sys (sys_lseek_set fd offset)) in
    let* bytes_read := read_into fd size in
    if negb (bytes_read =? size) then throw UnixError else ret true.

Definition WriteLog (log_data : bytes) : M (t F) unit :=
  open_log ;;;
  let* fd := gets log_fd_ in
  let* _ := sys (sys_lseek_end fd) in
  let* bytes_write := sys (sys_write fd log_data) in
  if negb (bytes_write =? zlen log_data) then throw UnixError else ret tt.

Definition SetLogFd (log_fd : Z) : M (t F) unit := modify (set_log_fd log_fd).
Definition GetLogFd : M (t F) Z := gets log_fd_.

(** The two tables of open files are inverse to each other. *)
Definition tables_ok (d : t F) : Prop :=
  ∀ path fd, path2fd_ d !! path = Some fd ↔ fd2path_ d !! fd = Some path.

(** Runs a method that reads into the caller's object, which holds [buf]. *)
Definition with_buf {A} (buf : bytes) (m : M (bytes * t F) A) : M (t F) A :=
  λ d, let '(r, (_, d')) := m (buf, d) in (r, d').

End ops.
End DiskManager.

(** ** The promise to the buffer pool *)

(** [ps_read_page] fills the caller's buffer, the first component of its
    state, even when it then throws. *)
Class PageStore (D : Type) := {
  ps_write_page : Z → Z → bytes → M D unit;
  ps_read_page : Z → Z → Z → M (bytes * D) unit;
  ps_allocate_page : Z → M D Z;
  ps_deallocate_page : Z → M D unit
}.

(** [page_at]: the page stored on disk, if the file is long enough;
    [ps_valid]: a page number of an open file; [ps_next]: the counter of
    allocated pages of a file. *)
Class PageStoreLaws (D : Type) `{PageStore D} := {
  ps_inv : D → Prop;
  ps_valid : D → Z → Z → Prop;
  page_at : D → Z → Z → option bytes;
  ps_next : D → Z → Z;
  page_at_length d fd p x : page_at d fd p = Some x → zlen x = PAGE_SIZE;
  ps_valid_nonneg d fd p : ps_valid d fd p → 0 <= p;
  ps_valid_any d fd p p' : ps_valid d fd p → 0 <= p' → ps_valid d fd p';
  ps_write_ok d fd p bs : ps_inv d → ps_valid d fd p → zlen bs = PAGE_SIZE →
    ∃ d', ps_write_page fd p bs d = (Ret tt, d') ∧ ps_inv d' ∧
      page_at d' fd p = Some bs ∧
      (∀ fd' p' x, (fd', p') ≠ (fd, p) → page_at d fd' p' = Some x → page_at d' fd' p' = Some x) ∧
      (∀ fd' p', ps_valid d' fd' p' ↔ ps_valid d fd' p') ∧ (∀ fd', ps_next d' fd' = ps_next d fd');
  ps_read_ok d fd p buf x : ps_inv d → ps_valid d fd p → zlen buf = PAGE_SIZE →
    page_at d fd p = Some x →
    ∃ d', ps_read_page fd p PAGE_SIZE (buf, d) = (Ret tt, (x, d')) ∧ ps_inv d' ∧
      (∀ fd' p', page_at d' fd' p' = page_at d fd' p') ∧
      (∀ fd' p', ps_valid d' fd' p' ↔ ps_valid d fd' p') ∧ (∀ fd', ps_next d' fd' = ps_next d fd');
  (** the file ends before the page does *)
  ps_read_short d fd p buf : ps_inv d → ps_valid d fd p → zlen buf = PAGE_SIZE →
    page_at d fd p = None →
    ∃ buf' d', ps_read_page fd p PAGE_SIZE (buf, d) = (Throw UnixError, (buf', d')) ∧
      zlen buf' = PAGE_SIZE ∧ ps_inv d' ∧
      (∀ fd' p', page_at d' fd' p' = page_at d fd' p') ∧
      (∀ fd' p', ps_valid d' fd' p' ↔ ps_valid d fd' p');
  ps_alloc_ok d fd : ps_inv d → ps_valid d fd 0 →
    ∃ d', ps_allocate_page fd d = (Ret (ps_next d fd), d') ∧ ps_inv d' ∧
      (∀ fd' p', page_at d' fd' p' = page_at d fd' p') ∧
      (∀ fd' p', ps_valid d' fd' p' ↔ ps_valid d fd' p') ∧
      (∀ fd', ps_next d' fd' = if decide (fd' = fd) then to_s32 (ps_next d fd + 1) else ps_next d fd');
  ps_dealloc_ok d p : ps_deallocate_page p d = (Ret tt, d)
}.

(** ** [DiskManager] keeps it *)

Lemma write_at_length data pos bs :
  0 <= pos → zlen (write_at data pos bs) = Z.max (zlen data) (pos + zlen bs).
Proof.
  intros. unfold write_at.
  rewrite !length_app, length_take, length_replicate, length_drop. lia.
Qed.

Lemma write_at_lookup data pos bs (i : nat) :
  0 <= pos →
  write_at data pos bs !! i =
    if decide (pos <= Z.of_nat i < pos + zlen bs) then bs !! (i - Z.to_nat pos)%nat
    else if decide (Z.of_nat i < zlen data) then data !! i
    else if decide (Z.of_nat i < pos) then Some 0 else None.
Proof.
  intros. unfold write_at.
  destruct (decide (Z.of_nat i < pos)) as [Hlt|Hge].
  - rewrite (decide_False (P := pos <= _ < _)) by lia.
    destruct (decide (Z.of_nat i < zlen data)).
    + rewrite lookup_app_l by (rewrite length_take; lia). apply lookup_take_lt. lia.
    + rewrite lookup_app_r by (rewrite length_take; lia).
      rewrite length_take, lookup_app_l by (rewrite length_replicate; lia).
      apply lookup_replicate_2. lia.
  - rewrite lookup_app_r by (rewrite length_take; lia).
    rewrite lookup_app_r by (rewrite length_take, length_replicate; lia).
    rewrite length_take, length_replicate.
    replace (_ - _ - _)%nat with (i - Z.to_nat pos)%nat by lia.
    case_decide.
    + apply lookup_app_l. lia.
    + rewrite lookup_app_r, lookup_drop by lia.
      replace (_ + _)%nat with i by lia.
      case_decide; [done|]. apply lookup_ge_None. lia.
Qed.

Section disk_laws.
  Context {F : Type} `{PosixLaws F}.

#[export] Instance DiskManager_PageStore : PageStore (DiskManager.t F) := {
  ps_write_page := DiskManager.write_page;
  ps_read_page := DiskManager.read_page;
  ps_allocate_page := DiskManager.AllocatePage;
  ps_deallocate_page := DiskManager.DeallocatePage
}.

(** The device works and no file is open through two descriptors. *)
Definition dm_inv (d : DiskManager.t F) : Prop :=
  fs_healthy (DiskManager.os d) ∧
  ∀ fd fd' i, fs_ino (DiskManager.os d) fd = Some i → fs_ino (DiskManager.os d) fd' = Some i →
    fd = fd'.

Definition dm_valid (d : DiskManager.t F) (fd p : Z) : Prop :=
  is_Some (fs_ino (DiskManager.os d) fd) ∧ 0 <= fd < DiskManager.MAX_FD ∧ 0 <= p.

Definition dm_page_at (d : DiskManager.t F) (fd p : Z) : option bytes :=
  i ← fs_ino (DiskManager.os d) fd;
  let data := fs_data (DiskManager.os d) i in
  if decide (0 <= p ∧ (p + 1) * PAGE_SIZE <= zlen data)
  then Some (slice data (p * PAGE_SIZE) PAGE_SIZE) else None.

(** The system calls behind [write_page] and [read_page], with any length. *)
Lemma dm_write_raw d fd p bs i :
  dm_inv d → fs_ino (DiskManager.os d) fd = Some i → 0 <= p →
  ∃ o, DiskManager.write_page fd p bs d = (Ret tt, DiskManager.set_os o d) ∧
    fs_data o i = write_at (fs_data (DiskManager.os d) i) (p * PAGE_SIZE) bs ∧
    (∀ x, x ≠ i → fs_data o x = fs_data (DiskManager.os d) x) ∧
    (∀ x, fs_ino o x = fs_ino (DiskManager.os d) x) ∧
    (∀ path, fs_dir o path = fs_dir (DiskManager.os d) path) ∧ dm_inv (DiskManager.set_os o d).
Proof.
  intros [Hh Hinj] Hi Hp.
  assert (0 <= p * PAGE_SIZE) as Hpos by (unfold PAGE_SIZE; lia).
  destruct (lseek_ok _ _ _ _ Hi Hpos) as (f1 & Hs & Hpos1 & Hino1 & Hdat1 & Hh1).
  rewrite <- Hino1 in Hi.
  destruct (write_ok _ _ _ bs Hi (Hh1 Hh)) as (f2 & Hw & Hd2 & Hd2' & Hino2 & Hh2); [lia|].
  exists f2. rewrite Hpos1, Hdat1 in Hd2.
  assert (∀ x, fs_ino f2 x = fs_ino (DiskManager.os d) x) as Hino by (intros; by rewrite Hino2).
  split_and!; try done.
  - unfold DiskManager.write_page, bind, DiskManager.sys. rewrite Hs.
    rewrite (proj2 (Z.eqb_neq _ _)) by lia. cbn. rewrite Hw, Z.eqb_refl. done.
  - intros x Hx. by rewrite Hd2'.
  - intros path. pose proof (lseek_dir fd (p * PAGE_SIZE) (DiskManager.os d) path) as H1.
    pose proof (write_dir fd bs f1 path) as H2. rewrite Hs in H1. rewrite Hw in H2. simpl in *. congruence.
  - split; [done|]. intros ???. simpl. rewrite !Hino. apply Hinj.
Qed.

Lemma dm_read_raw d fd p n buf i :
  dm_inv d → fs_ino (DiskManager.os d) fd = Some i → 0 <= p → 0 <= n → zlen buf = n →
  p * PAGE_SIZE + n <= zlen (fs_data (DiskManager.os d) i) →
  ∃ o, DiskManager.read_page fd p n (buf, d) =
      (Ret tt, (slice (fs_data (DiskManager.os d) i) (p * PAGE_SIZE) n, DiskManager.set_os o d)) ∧
    (∀ x, fs_data o x = fs_data (DiskManager.os d) x) ∧
    (∀ x, fs_ino o x = fs_ino (DiskManager.os d) x) ∧
    (∀ path, fs_dir o path = fs_dir (DiskManager.os d) path) ∧ dm_inv (DiskManager.set_os o d).
Proof.
  intros [Hh Hinj] Hi Hp Hn Hbuf Hlen.
  assert (0 <= p * PAGE_SIZE) as Hpos by (unfold PAGE_SIZE; lia).
  destruct (lseek_ok _ _ _ _ Hi Hpos) as (f1 & Hs & Hpos1 & Hino1 & Hdat1 & Hh1).
  rewrite <- Hino1 in Hi.
  destruct (read_ok _ _ _ n Hi (Hh1 Hh)) as (f2 & Hrd & Hd2 & Hino2 & Hh2); [lia|done|].
  rewrite Hpos1, Hdat1 in Hrd.
  set (bs := slice (fs_data (DiskManager.os d) i) (p * PAGE_SIZE) n) in *.
  assert (zlen bs = n) as Hbs by by apply length_slice.
  exists f2. assert (∀ x, fs_ino f2 x = fs_ino (DiskManager.os d) x) as Hino by (intros; by rewrite Hino2).
  split_and!; try done.
  - unfold DiskManager.read_page, bind, DiskManager.on_disk, zoom, DiskManager.sys. simpl.
    rewrite Hs. rewrite (proj2 (Z.eqb_neq _ _)) by lia. cbn. rewrite Hrd.
    rewrite mem_write_Some by lia. cbn. rewrite Hbs. rewrite Z.eqb_refl. cbn.
    unfold splice, ret. change (Z.to_nat 0) with O. rewrite take_0, drop_ge, app_nil_r by lia. done.
  - intros x. by rewrite Hd2.
  - intros path. pose proof (lseek_dir fd (p * PAGE_SIZE) (DiskManager.os d) path) as H1.
    pose proof (read_dir fd n f1 path) as H2. rewrite Hs in H1. rewrite Hrd in H2. simpl in *. congruence.
  - split; [done|]. intros ???. simpl. rewrite !Hino. apply Hinj.
Qed.

Lemma dm_page_at_length d fd p x : dm_page_at d fd p = Some x → zlen x = PAGE_SIZE.
Proof.
  unfold dm_page_at. destruct (fs_ino _ fd); simpl; [|done].
  case_decide; [|done]. intros [= <-]. apply length_slice; unfold PAGE_SIZE in *; lia.
Qed.

Lemma dm_write_ok d fd p bs :
  dm_inv d → dm_valid d fd p → zlen bs = PAGE_SIZE →
  ∃ d', DiskManager.write_page fd p bs d = (Ret tt, d') ∧ dm_inv d' ∧
    dm_page_at d' fd p = Some bs ∧
    (∀ fd' p' x, (fd', p') ≠ (fd, p) → dm_page_at d fd' p' = Some x →
       dm_page_at d' fd' p' = Some x) ∧
    (∀ fd' p', dm_valid d' fd' p' ↔ dm_valid d fd' p') ∧
    (∀ fd', DiskManager.fd2pageno d' fd' = DiskManager.fd2pageno d fd').
Proof.
  intros Hd ([i Hi] & Hfd & Hp) Hbs. pose proof Hd as [_ Hinj].
  destruct (dm_write_raw d fd p bs i Hd Hi Hp) as (o & Hw & Hd2 & Hd2' & Hino & _ & Hd').
  assert (0 <= p * PAGE_SIZE) as Hpos by (unfold PAGE_SIZE; lia).
  exists (DiskManager.set_os o d). unfold dm_valid, dm_page_at. simpl. split_and!; [done|done|..].
  - rewrite Hino, Hi. simpl. rewrite Hd2.
    rewrite decide_True by (split; [done|]; rewrite write_at_length by done; unfold PAGE_SIZE in *; lia).
    f_equal. apply list_eq. intros k. rewrite lookup_slice by (done || unfold PAGE_SIZE; lia).
    case_decide.
    + rewrite write_at_lookup, decide_True by lia. f_equal. lia.
    + symmetry. apply lookup_ge_None. unfold PAGE_SIZE in *. lia.
  - intros fd' p' x Hne. rewrite Hino.
    destruct (fs_ino (DiskManager.os d) fd') as [i'|] eqn:Hi'; simpl; [|done].
    destruct (decide (i' = i)) as [->|Hii]; [|by rewrite Hd2'].
    assert (fd' = fd) as -> by by eapply Hinj.
    rewrite Hd2. case_decide as Hr; [|done]. intros [= <-].
    rewrite decide_True by (split; [lia|]; rewrite write_at_length by done; lia).
    f_equal. apply list_eq. intros k. unfold PAGE_SIZE in *. rewrite !lookup_slice by lia.
    case_decide; [|done]. rewrite write_at_lookup by lia.
    assert (p' ≠ p) by congruence. rewrite decide_False by lia. rewrite decide_True by lia. done.
  - intros. by rewrite Hino.
  - done.
Qed.

Lemma dm_read_ok d fd p buf x :
  dm_inv d → dm_valid d fd p → zlen buf = PAGE_SIZE → dm_page_at d fd p = Some x →
  ∃ d', DiskManager.read_page fd p PAGE_SIZE (buf, d) = (Ret tt, (x, d')) ∧ dm_inv d' ∧
    (∀ fd' p', dm_page_at d' fd' p' = dm_page_at d fd' p') ∧
    (∀ fd' p', dm_valid d' fd' p' ↔ dm_valid d fd' p') ∧
    (∀ fd', DiskManager.fd2pageno d' fd' = DiskManager.fd2pageno d fd').
Proof.
  intros Hd ([i Hi] & Hfd & Hp) Hbuf.
  unfold dm_page_at at 1. rewrite Hi. simpl. case_decide as Hr; [|done]. intros [= <-].
  destruct (dm_read_raw d fd p PAGE_SIZE buf i Hd Hi Hp) as (o & Hrd & Hdat & Hino & _ & Hd');
    [done|done|unfold PAGE_SIZE in *; lia|].
  exists (DiskManager.set_os o d). unfold dm_valid, dm_page_at. simpl. split_and!; [done|done|..].
  - intros. rewrite Hino. destruct (fs_ino (DiskManager.os d) fd'); simpl; by rewrite ?Hdat.
  - intros. by rewrite Hino.
  - done.
Qed.

Lemma dm_read_short d fd p buf :
  dm_inv d → dm_valid d fd p → zlen buf = PAGE_SIZE → dm_page_at d fd p = None →
  ∃ buf' d', DiskManager.read_page fd p PAGE_SIZE (buf, d) = (Throw UnixError, (buf', d')) ∧
    zlen buf' = PAGE_SIZE ∧ dm_inv d' ∧
    (∀ fd' p', dm_page_at d' fd' p' = dm_page_at d fd' p') ∧
    (∀ fd' p', dm_valid d' fd' p' ↔ dm_valid d fd' p').
Proof.
  intros [Hh Hinj] ([i Hi] & Hfd & Hp) Hbuf.
  unfold dm_page_at at 1. rewrite Hi. simpl. case_decide as Hr; [done|]. intros _.
  set (data := fs_data (DiskManager.os d) i) in *.
  assert (0 <= p * PAGE_SIZE) as Hpos by (unfold PAGE_SIZE; lia).
  destruct (lseek_ok _ _ _ _ Hi Hpos) as (f1 & Hs & Hpos1 & Hino1 & Hdat1 & Hh1).
  rewrite <- Hino1 in Hi.
  destruct (read_ok _ _ _ PAGE_SIZE Hi (Hh1 Hh)) as (f2 & Hrd & Hd2 & Hino2 & Hh2);
    [lia|done|].
  rewrite Hpos1, Hdat1 in Hrd. fold data in Hrd.
  set (bs := slice data (p * PAGE_SIZE) PAGE_SIZE) in *.
  assert (zlen bs < PAGE_SIZE) as Hlen.
  { unfold bs, slice, PAGE_SIZE in *. rewrite length_take, length_drop. lia. }
  exists (splice buf 0 bs), (DiskManager.set_os f2 d).
  assert (∀ x, fs_ino f2 x = fs_ino (DiskManager.os d) x) as Hino by (intros; by rewrite Hino2).
  assert (∀ x, fs_data f2 x = fs_data (DiskManager.os d) x) as Hdat by (intros; by rewrite Hd2).
  split.
  { unfold DiskManager.read_page, bind, DiskManager.on_disk, zoom, DiskManager.sys. simpl.
    rewrite Hs. rewrite (proj2 (Z.eqb_neq _ _)) by lia. cbn. rewrite Hrd.
    rewrite mem_write_Some by lia. cbn. rewrite (proj2 (Z.eqb_neq _ _)) by lia. done. }
  unfold dm_inv, dm_valid, dm_page_at. simpl. split_and!; [|done|..].
  - rewrite length_splice by lia. done.
  - intros ???. rewrite !Hino. apply Hinj.
  - intros. rewrite Hino. destruct (fs_ino (DiskManager.os d) fd'); simpl; by rewrite ?Hdat.
  - intros. by rewrite Hino.
Qed.

Lemma dm_alloc_ok d fd :
  dm_inv d → dm_valid d fd 0 →
  ∃ d', DiskManager.AllocatePage fd d = (Ret (DiskManager.fd2pageno d fd), d') ∧ dm_inv d' ∧
    (∀ fd' p', dm_page_at d' fd' p' = dm_page_at d fd' p') ∧
    (∀ fd' p', dm_valid d' fd' p' ↔ dm_valid d fd' p') ∧
    (∀ fd', DiskManager.fd2pageno d' fd' =
       if decide (fd' = fd) then to_s32 (DiskManager.fd2pageno d fd + 1)
       else DiskManager.fd2pageno d fd').
Proof.
  intros Hinv (Hi & Hfd & Hp). unfold DiskManager.AllocatePage.
  assert (DiskManager.fd_in_bounds fd = true) as ->.
  { unfold DiskManager.fd_in_bounds. rewrite andb_true_iff, Z.leb_le, Z.ltb_lt. lia. }
  eexists. split; [done|]. split_and!; try done. intros fd'.
  unfold DiskManager.fd2pageno, DiskManager.set_pageno. simpl.
  rewrite lookup_insert. case_decide; subst.
  - by rewrite decide_True.
  - by rewrite decide_False by congruence.
Qed.

#[export] Instance DiskManager_Laws : PageStoreLaws (DiskManager.t F) := {
  ps_inv := dm_inv;
  ps_valid := dm_valid;
  page_at := dm_page_at;
  ps_next := DiskManager.fd2pageno;
  page_at_length := dm_page_at_length;
  ps_valid_nonneg d fd p H := proj2 (proj2 H);
  ps_valid_any d fd p p' H Hp := conj (proj1 H) (conj (proj1 (proj2 H)) Hp);
  ps_write_ok := dm_write_ok;
  ps_read_ok := dm_read_ok;
  ps_read_short := dm_read_short;
  ps_alloc_ok := dm_alloc_ok;
  ps_dealloc_ok d p := eq_refl
}.

End disk_laws.
