(* ===== verification/ModelFs.v ===== *)
(** A small in-memory kernel.

    It is an instance of [Posix] that meets [PosixLaws], so the hypotheses the
    other files make about the operating system can be met, and the witnesses
    can run the whole stack on a concrete machine.  It models no part of the
    sources. *)
From S2P Require Import Prelude.
From S2P Require Import Defs.
From S2P Require Import Disk.

Module ModelFs.

(** [paths]: directory; [files]: bytes by inode; [fds]: inode and offset of an
    open descriptor. *)
Record t := mk {
  paths : gmap string Z;
  files : gmap Z bytes;
  fds : gmap Z (Z * Z);
  next_ino : Z
}.

Definition empty : t := mk ∅ ∅ ∅ 0.

Definition data (f : t) (i : Z) : bytes := default [] (files f !! i).

Definition set_fd (fd : Z) (e : Z * Z) (f : t) : t :=
  mk (paths f) (files f) (<[fd := e]> (fds f)) (next_ino f).

Definition lseek_set (fd off : Z) (f : t) : Z * t :=
  match fds f !! fd with
  | Some (i, _) => if off <? 0 then (-1, f) else (off, set_fd fd (i, off) f)
  | None => (-1, f)
  end.

Definition lseek_end (fd : Z) (f : t) : Z * t :=
  match fds f !! fd with
  | Some (i, _) => (zlen (data f i), set_fd fd (i, zlen (data f i)) f)
  | None => (-1, f)
  end.

Definition read (fd n : Z) (f : t) : Z * bytes * t :=
  match fds f !! fd with
  | Some (i, pos) =>
      let bs := slice (data f i) pos n in
      (zlen bs, bs, set_fd fd (i, pos + zlen bs) f)
  | None => (-1, [], f)
  end.

Definition write (fd : Z) (bs : bytes) (f : t) : Z * t :=
  match fds f !! fd with
  | Some (i, pos) =>
      (zlen bs, mk (paths f) (<[i := write_at (data f i) pos bs]> (files f))
                   (<[fd := (i, pos + zlen bs)]> (fds f)) (next_ino f))
  | None => (-1, f)
  end.

(** The lowest descriptor that is not open. *)
Definition lowest_fd (f : t) : Z :=
  default (-1) (find_from (λ fd, bool_decide (fds f !! fd = None)) 0 (S (size (fds f)))).

Definition open_ino (i : Z) (f : t) : Z * t :=
  let fd := lowest_fd f in
  if fd =? -1 then (-1, f) else (fd, set_fd fd (i, 0) f).

Definition open (path : string) (creat : bool) (f : t) : Z * t :=
  match paths f !! path with
  | Some i => open_ino i f
  | None =>
      if creat
      then open_ino (next_ino f)
             (mk (<[path := next_ino f]> (paths f)) (<[next_ino f := []]> (files f)) (fds f)
                 (next_ino f + 1))
      else (-1, f)
  end.

Definition close (fd : Z) (f : t) : Z * t :=
  match fds f !! fd with
  | Some _ => (0, mk (paths f) (files f) (delete fd (fds f)) (next_ino f))
  | None => (-1, f)
  end.

Definition stat (path : string) (f : t) : option Stat :=
  i ← paths f !! path; Some (mkStat S_IFREG (zlen (data f i))).

Definition unlink (path : string) (f : t) : Z * t :=
  match paths f !! path with
  | Some _ => (0, mk (delete path (paths f)) (files f) (fds f) (next_ino f))
  | None => (-1, f)
  end.

(** Shell commands are not interpreted. *)
Definition system (_ : string) (f : t) : Z * t := (0, f).

Definition ino (f : t) (fd : Z) : option Z := fst <$> fds f !! fd.
Definition pos (f : t) (fd : Z) : Z := default 0 (snd <$> fds f !! fd).

Lemma ino_Some f fd i : ino f fd = Some i → ∃ p, fds f !! fd = Some (i, p) ∧ pos f fd = p.
Proof.
  unfold ino, pos. destruct (fds f !! fd) as [[i' p]|]; simpl; [|done].
  intros [= ->]. eauto.
Qed.

Lemma ino_set_fd f fd i p x :
  ino f fd = Some i → ino (set_fd fd (i, p) f) x = ino f x.
Proof.
  intros Hi. unfold ino, set_fd; simpl. rewrite lookup_insert. case_decide; [|done].
  subst. unfold ino in Hi. rewrite Hi. done.
Qed.

(** By counting, one of the first descriptors is not open. *)
Lemma lowest_fd_spec f :
  0 <= lowest_fd f ∧ ino f (lowest_fd f) = None ∧ ∀ fd, 0 <= fd → fds f !! fd = None → lowest_fd f <= fd.
Proof.
  unfold lowest_fd. destruct (find_from _ _ _) as [fd|] eqn:Hf; simpl.
  - apply find_from_Some in Hf as (Hr & Hb & Hmin). apply bool_decide_eq_true in Hb.
    split_and!; [lia|unfold ino; by rewrite Hb|]. intros g Hg Hn.
    destruct (decide (g < fd)) as [Hlt|]; [|lia]. specialize (Hmin g ltac:(lia)).
    apply bool_decide_eq_false in Hmin. done.
  - exfalso. pose proof (find_from_None _ _ _ Hf) as Hall.
    assert (list_to_set (seqZ 0 (Z.of_nat (S (size (fds f))))) ⊆ (dom (fds f) : gset Z)) as Hsub%subseteq_size.
    { intros g [Hg1 Hg2]%elem_of_list_to_set%elem_of_seqZ. apply elem_of_dom.
      specialize (Hall g ltac:(lia)). apply bool_decide_eq_false in Hall.
      destruct (fds f !! g); [eauto|done]. }
    rewrite size_list_to_set, length_seqZ, size_dom in Hsub by apply NoDup_seqZ. lia.
Qed.

(** Inode numbers in use are below the next one. *)
Definition wf (f : t) : Prop :=
  (∀ x i, ino f x = Some i → i < next_ino f) ∧ (∀ p i, paths f !! p = Some i → i < next_ino f).

End ModelFs.

#[export] Instance ModelFs_Posix : Posix ModelFs.t := {
  sys_lseek_set := ModelFs.lseek_set;
  sys_lseek_end := ModelFs.lseek_end;
  sys_read := ModelFs.read;
  sys_write := ModelFs.write;
  sys_open := ModelFs.open;
  sys_close := ModelFs.close;
  sys_stat := ModelFs.stat;
  sys_unlink := ModelFs.unlink;
  sys_system := ModelFs.system
}.

(** A change that keeps names, inodes and descriptors. *)
Lemma model_wf_same f f' :
  (∀ x, ModelFs.ino f' x = ModelFs.ino f x) → ModelFs.paths f' = ModelFs.paths f →
  ModelFs.next_ino f' = ModelFs.next_ino f → ModelFs.wf f → ModelFs.wf f'.
Proof. intros Hi Hp Hn [H1 H2]. split; intros x i; rewrite ?Hi, ?Hp, Hn; [apply H1|apply H2]. Qed.

Lemma model_lseek_ok f fd i off :
  ModelFs.ino f fd = Some i → 0 <= off →
  ∃ f', sys_lseek_set fd off f = (off, f') ∧ ModelFs.pos f' fd = off ∧
    (∀ x, ModelFs.ino f' x = ModelFs.ino f x) ∧ (∀ x, ModelFs.data f' x = ModelFs.data f x) ∧
    (ModelFs.wf f → ModelFs.wf f').
Proof.
  intros Hi Ho. simpl. unfold ModelFs.lseek_set.
  pose proof Hi as (p & Hf & _)%ModelFs.ino_Some. rewrite Hf.
  rewrite (proj2 (Z.ltb_ge _ _)) by lia.
  assert (∀ x, ModelFs.ino (ModelFs.set_fd fd (i, off) f) x = ModelFs.ino f x)
    by (intros; by apply ModelFs.ino_set_fd).
  eexists. split; [done|]. split_and!; [|done|done|].
  2:{ by apply (model_wf_same f). }
  unfold ModelFs.pos, ModelFs.set_fd; simpl. by rewrite lookup_insert_eq.
Qed.

Lemma model_lseek_neg f fd off : off < 0 → sys_lseek_set fd off f = (-1, f).
Proof.
  intros. simpl. unfold ModelFs.lseek_set. destruct (ModelFs.fds f !! fd) as [[]|]; [|done].
  by rewrite (proj2 (Z.ltb_lt _ _)).
Qed.

Lemma model_write_ok f fd i bs :
  ModelFs.ino f fd = Some i → ModelFs.wf f → 0 <= ModelFs.pos f fd →
  ∃ f', sys_write fd bs f = (zlen bs, f') ∧
    ModelFs.data f' i = write_at (ModelFs.data f i) (ModelFs.pos f fd) bs ∧
    (∀ x, x ≠ i → ModelFs.data f' x = ModelFs.data f x) ∧
    (∀ x, ModelFs.ino f' x = ModelFs.ino f x) ∧ ModelFs.wf f'.
Proof.
  intros Hi Hw _. simpl. unfold ModelFs.write.
  pose proof Hi as (p & Hf & ->)%ModelFs.ino_Some. rewrite Hf.
  eexists. split; [done|].
  assert (∀ d n x, ModelFs.ino (ModelFs.mk (ModelFs.paths f) d (<[fd := (i, n)]> (ModelFs.fds f))
            (ModelFs.next_ino f)) x = ModelFs.ino f x) as Hino.
  { intros d n x. unfold ModelFs.ino; simpl. rewrite lookup_insert. case_decide; [|done]. subst. by rewrite Hf. }
  split_and!; [| |apply Hino|by apply (model_wf_same f)].
  - unfold ModelFs.data at 1; simpl. by rewrite lookup_insert_eq.
  - intros x Hx. unfold ModelFs.data; simpl. by rewrite lookup_insert_ne.
Qed.

Lemma model_read_ok f fd i n :
  ModelFs.ino f fd = Some i → ModelFs.wf f → 0 <= ModelFs.pos f fd → 0 <= n →
  ∃ f', sys_read fd n f =
      (zlen (slice (ModelFs.data f i) (ModelFs.pos f fd) n),
       slice (ModelFs.data f i) (ModelFs.pos f fd) n, f') ∧
    (∀ x, ModelFs.data f' x = ModelFs.data f x) ∧
    (∀ x, ModelFs.ino f' x = ModelFs.ino f x) ∧ ModelFs.wf f'.
Proof.
  intros Hi Hw _ _. simpl. unfold ModelFs.read.
  pose proof Hi as (p & Hf & ->)%ModelFs.ino_Some. rewrite Hf.
  assert (∀ k x, ModelFs.ino (ModelFs.set_fd fd (i, k) f) x = ModelFs.ino f x) as Hino
    by (intros; by apply ModelFs.ino_set_fd).
  eexists. split; [done|]. split_and!; [done|apply Hino|by apply (model_wf_same f)].
Qed.

(** Opening an inode gives the lowest descriptor that is not open. *)
Lemma model_open_ino f i :
  i < ModelFs.next_ino f → ModelFs.wf f →
  let '(r, f') := ModelFs.open_ino i f in
  r = ModelFs.lowest_fd f ∧ 0 <= r ∧ ModelFs.ino f r = None ∧
  (∀ x, ModelFs.data f' x = ModelFs.data f x) ∧
  (∀ x, ModelFs.ino f' x = if decide (x = r) then Some i else ModelFs.ino f x) ∧
  ModelFs.paths f' = ModelFs.paths f ∧ ModelFs.wf f'.
Proof.
  intros Hlt [W1 W2]. unfold ModelFs.open_ino.
  destruct (ModelFs.lowest_fd_spec f) as (Hge & Hn & _).
  cbv zeta. rewrite (proj2 (Z.eqb_neq _ _)) by lia.
  assert (∀ x, ModelFs.ino (ModelFs.set_fd (ModelFs.lowest_fd f) (i, 0) f) x =
    if decide (x = ModelFs.lowest_fd f) then Some i else ModelFs.ino f x) as Hino.
  { intros x. unfold ModelFs.ino at 1; simpl. rewrite lookup_insert.
    destruct (decide (x = ModelFs.lowest_fd f)) as [->|]; [by rewrite decide_True|].
    by rewrite decide_False by congruence. }
  split_and!; try done. split; [|done]. intros x j. rewrite Hino. case_decide; [by intros [= <-]|]. apply W1.
Qed.

Lemma model_open_ok f path :
  let '(r, f') := sys_open path false f in
  (r = -1 ∧ (∀ x, ModelFs.ino f' x = ModelFs.ino f x) ∧
     (∀ x, ModelFs.data f' x = ModelFs.data f x)) ∨
  (0 <= r ∧ ModelFs.ino f r = None ∧ (∀ x, ModelFs.data f' x = ModelFs.data f x) ∧
     ∃ i, ∀ x, ModelFs.ino f' x = if decide (x = r) then Some i else ModelFs.ino f x).
Proof.
  simpl. unfold ModelFs.open. destruct (ModelFs.paths f !! path) as [i|]; [|auto].
  unfold ModelFs.open_ino. destruct (ModelFs.lowest_fd_spec f) as (Hge & Hn & _).
  cbv zeta. rewrite (proj2 (Z.eqb_neq _ _)) by lia. right. split_and!; [done..|].
  exists i. intros x. unfold ModelFs.ino at 1; simpl. rewrite lookup_insert.
  destruct (decide (x = ModelFs.lowest_fd f)) as [->|]; [by rewrite decide_True|].
  by rewrite decide_False by congruence.
Qed.

(** A descriptor below [n] is not open. *)
Definition model_free (f : ModelFs.t) (n : Z) : Prop := ModelFs.lowest_fd f < n.

Lemma model_close_ok f fd i :
  ModelFs.ino f fd = Some i →
  ∃ f', sys_close fd f = (0, f') ∧ (∀ x, ModelFs.data f' x = ModelFs.data f x) ∧
    (∀ x, ModelFs.ino f' x = if decide (x = fd) then None else ModelFs.ino f x) ∧
    (ModelFs.wf f → ModelFs.wf f') ∧ (∀ path, ModelFs.paths f' !! path = ModelFs.paths f !! path) ∧
    (∀ n, 0 <= fd < n → model_free f' n).
Proof.
  intros (p & Hf & _)%ModelFs.ino_Some. simpl. unfold ModelFs.close. rewrite Hf.
  set (f' := ModelFs.mk _ _ _ _).
  assert (∀ x, ModelFs.ino f' x = if decide (x = fd) then None else ModelFs.ino f x) as Hino.
  { intros x. unfold ModelFs.ino; simpl. rewrite lookup_delete.
    destruct (decide (x = fd)) as [->|]; [by rewrite decide_True|by rewrite decide_False by congruence]. }
  exists f'. split_and!; try done.
  - intros [W1 W2]. split; [|done]. intros x j. rewrite Hino. case_decide; [done|]. apply W1.
  - intros n Hn. unfold model_free.
    destruct (ModelFs.lowest_fd_spec f') as (_ & _ & Hmin).
    specialize (Hmin fd ltac:(lia) (lookup_delete_eq _ _)). lia.
Qed.

Lemma model_same_dir fd off bs n f path :
  ModelFs.paths (sys_lseek_set fd off f).2 !! path = ModelFs.paths f !! path ∧
  ModelFs.paths (sys_write fd bs f).2 !! path = ModelFs.paths f !! path ∧
  ModelFs.paths (sys_read fd n f).2 !! path = ModelFs.paths f !! path.
Proof.
  simpl. unfold ModelFs.lseek_set, ModelFs.write, ModelFs.read.
  destruct (ModelFs.fds f !! fd) as [[]|]; [|done]. by destruct (off <? 0).
Qed.

Lemma model_stat_reg f path i :
  ModelFs.paths f !! path = Some i →
  sys_stat path f = Some (mkStat S_IFREG (zlen (ModelFs.data f i))).
Proof. intros Hp. simpl. unfold ModelFs.stat. by rewrite Hp. Qed.

Lemma model_open_reg f path i n :
  ModelFs.paths f !! path = Some i → model_free f n → ModelFs.wf f →
  ∃ r f', sys_open path false f = (r, f') ∧ 0 <= r < n ∧ ModelFs.ino f r = None ∧
    (∀ x, ModelFs.data f' x = ModelFs.data f x) ∧
    (∀ x, ModelFs.ino f' x = if decide (x = r) then Some i else ModelFs.ino f x) ∧
    (∀ p, ModelFs.paths f' !! p = ModelFs.paths f !! p) ∧ ModelFs.wf f'.
Proof.
  intros Hp Hn Hw. simpl. unfold ModelFs.open. rewrite Hp.
  pose proof (model_open_ino f i (proj2 Hw _ _ Hp) Hw) as Ho.
  destruct (ModelFs.open_ino i f) as [r f']. destruct Ho as (-> & ? & ? & ? & ? & Hpaths & ?).
  eexists _, _. split_and!; try done. by rewrite Hpaths.
Qed.

Lemma model_open_creat f path n :
  sys_stat path f = None → model_free f n → ModelFs.wf f →
  ∃ r f' i, sys_open path true f = (r, f') ∧ 0 <= r < n ∧ ModelFs.ino f r = None ∧
    (∀ x, ModelFs.ino f x ≠ Some i) ∧ ModelFs.data f' i = [] ∧
    (∀ x, x ≠ i → ModelFs.data f' x = ModelFs.data f x) ∧
    (∀ x, ModelFs.ino f' x = if decide (x = r) then Some i else ModelFs.ino f x) ∧
    ModelFs.paths f' !! path = Some i ∧ ModelFs.wf f'.
Proof.
  intros Hs Hn [W1 W2]. simpl in *. unfold ModelFs.stat in Hs. unfold ModelFs.open.
  destruct (ModelFs.paths f !! path) eqn:Hp; [done|].
  set (g := ModelFs.mk _ _ _ _).
  assert (ModelFs.wf g) as Wg.
  { split; simpl; [intros x j Hj; specialize (W1 x j Hj); lia|].
    intros q j [[_ <-]|[_ Hj]]%lookup_insert_Some; [lia|]. specialize (W2 q j Hj). lia. }
  pose proof (model_open_ino g (ModelFs.next_ino f) ltac:(simpl; lia) Wg) as Ho.
  destruct (ModelFs.open_ino (ModelFs.next_ino f) g) as [r f'].
  destruct Ho as (-> & ? & ? & Hd & ? & Hpaths & ?).
  eexists _, _, (ModelFs.next_ino f). split_and!; try done.
  - intros x Hx. specialize (W1 x _ Hx). lia.
  - rewrite Hd. unfold ModelFs.data, g; simpl. by rewrite lookup_insert_eq.
  - intros x Hx. rewrite Hd. unfold ModelFs.data, g; simpl. by rewrite lookup_insert_ne.
  - rewrite Hpaths. simpl. apply lookup_insert_eq.
Qed.

#[export] Instance ModelFs_Laws : PosixLaws ModelFs.t := {
  fs_ino := ModelFs.ino;
  fs_pos := ModelFs.pos;
  fs_data := ModelFs.data;
  fs_healthy := ModelFs.wf;
  fs_dir := λ f path, ModelFs.paths f !! path;
  fs_free := model_free;
  lseek_ok := model_lseek_ok;
  lseek_neg := model_lseek_neg;
  write_ok := model_write_ok;
  read_ok := model_read_ok;
  open_ok := model_open_ok;
  close_ok := model_close_ok;
  lseek_dir fd off f path := proj1 (model_same_dir fd off [] 0 f path);
  write_dir fd bs f path := proj1 (proj2 (model_same_dir fd 0 bs 0 f path));
  read_dir fd n f path := proj2 (proj2 (model_same_dir fd 0 [] n f path));
  stat_reg := model_stat_reg;
  open_creat := model_open_creat;
  open_reg := model_open_reg
}.
