(* ===== verification/BufferPool.v ===== *)
(** Pages and the buffer pool manager: [src/src/storage/page.h] and
    [src/src/storage/buffer_pool_manager.{h,cpp}].

    A [Page *] of the source is the index of the frame that holds the page, so
    two handles on one page share its bytes, as they do in the source.  Every
    method takes the latch of the manager for its whole body, so a method is
    one atomic step.  The pool is written against [PageStore] and [Replacer];
    its proofs (file [BufferPoolProofs]) use only their laws. *)
From S2P Require Import Prelude.
From S2P Require Import Defs.
From S2P Require Import Replacer.
From S2P Require Import Disk.

#[local] Open Scope prog_scope.

(** ** [PageId] *)

Record PageId := mkPageId { fd : Z; page_no : Z }.

#[export] Instance PageId_eq_dec : EqDecision PageId.
Proof. solve_decision. Defined.

#[export] Instance PageId_countable : Countable PageId.
Proof.
  refine (inj_countable' (λ p, (fd p, page_no p)) (λ p, mkPageId p.1 p.2) _).
  by intros [].
Defined.

Definition PageId_eqb (x y : PageId) : bool := (fd x =? fd y) && (page_no x =? page_no y).

(** The hash function of the page table: [int] arithmetic, converted to
    [size_t]. *)
Definition PageIdHash (x : PageId) : Z :=
  to_u64 (Z.lor (to_s32 (Z.shiftl (fd x) 16)) (page_no x)).

(** ** [Page] *)

Record Page := mkPage {
  id_ : PageId;
  data_ : bytes;
  is_dirty_ : bool;
  pin_count_ : Z
}.

Definition OFFSET_PAGE_START : Z := 0.
Definition OFFSET_LSN : Z := 0.
Definition OFFSET_PAGE_HDR : Z := 4.

Definition zero_page : bytes := replicate (Z.to_nat PAGE_SIZE) (to_u8 OFFSET_PAGE_START).

Lemma zero_page_length : zlen zero_page = PAGE_SIZE.
Proof. by vm_compute. Qed.

Lemma zero_page_u8 : Forall is_u8 zero_page.
Proof. apply Forall_replicate. by vm_compute. Qed.

#[global] Opaque zero_page.

(** The constructor leaves [id_.fd] indeterminate: [junk]. *)
Definition new_Page (junk : Z) : Page := mkPage (mkPageId junk INVALID_PAGE_ID) zero_page false 0.

Definition GetPageId (p : Page) : PageId := id_ p.
Definition IsDirty (p : Page) : bool := is_dirty_ p.
Definition GetPageLsn (p : Page) : option Z := load32 (data_ p) OFFSET_LSN.
Definition set_data (d : bytes) (p : Page) : Page := mkPage (id_ p) d (is_dirty_ p) (pin_count_ p).
Definition set_dirty (b : bool) (p : Page) : Page := mkPage (id_ p) (data_ p) b (pin_count_ p).
Definition set_pin (n : Z) (p : Page) : Page := mkPage (id_ p) (data_ p) (is_dirty_ p) n.
Definition set_id (i : PageId) (p : Page) : Page := mkPage i (data_ p) (is_dirty_ p) (pin_count_ p).
Definition ResetMemory (p : Page) : Page := set_data zero_page p.
Definition SetPageLsn (lsn : Z) (p : Page) : option Page :=
  d ← store32 (data_ p) OFFSET_LSN lsn; Some (set_data d p).

(** ** [BufferPoolManager] *)

Module BufferPool.

Record t (D R : Type) := mk {
  pool_size_ : Z;
  pages_ : list Page;
  page_table_ : gmap PageId Z;
  free_list_ : list Z;
  disk_manager_ : D;
  replacer_ : R
}.
Arguments mk {D R} _ _ _ _ _ _.
Arguments pool_size_ {D R} _.
Arguments pages_ {D R} _.
Arguments page_table_ {D R} _.
Arguments free_list_ {D R} _.
Arguments disk_manager_ {D R} _.
Arguments replacer_ {D R} _.

Section ops.
  Context {D R : Type} `{PageStore D} `{Replacer R}.
  Notation pool := (t D R).

Definition set_pages (l : list Page) (s : pool) : pool :=
  mk (pool_size_ s) l (page_table_ s) (free_list_ s) (disk_manager_ s) (replacer_ s).
Definition set_table (m : gmap PageId Z) (s : pool) : pool :=
  mk (pool_size_ s) (pages_ s) m (free_list_ s) (disk_manager_ s) (replacer_ s).
Definition set_free (l : list Z) (s : pool) : pool :=
  mk (pool_size_ s) (pages_ s) (page_table_ s) l (disk_manager_ s) (replacer_ s).
Definition set_disk (d : D) (s : pool) : pool :=
  mk (pool_size_ s) (pages_ s) (page_table_ s) (free_list_ s) d (replacer_ s).
Definition set_replacer (r : R) (s : pool) : pool :=
  mk (pool_size_ s) (pages_ s) (page_table_ s) (free_list_ s) (disk_manager_ s) r.

(** [&pages_[f]], undefined outside the array. *)
Definition frame (s : pool) (f : Z) : option Page :=
  if 0 <=? f then pages_ s !! Z.to_nat f else None.

Definition set_frame (f : Z) (p : Page) (s : pool) : pool :=
  set_pages (<[Z.to_nat f := p]> (pages_ s)) s.

Definition get_page (f : Z) : M pool Page := λ s, or_ub (frame s f) s.
Definition upd_page (f : Z) (g : Page → Page) : M pool unit :=
  let* p := get_page f in modify (set_frame f (g p)).

Definition on_disk {A} (m : M D A) : M pool A := zoom disk_manager_ set_disk m.
Definition on_replacer {A} (m : M R A) : M pool A := zoom replacer_ set_replacer m.

(** The constructor; [junk i] is the indeterminate descriptor of frame [i]. *)
Definition create (pool_size : Z) (junk : nat → Z) (d : D) (r : R) : pool :=
  mk pool_size (new_Page ∘ junk <$> seq 0 (Z.to_nat pool_size)) ∅
     (seqZ 0 pool_size) d r.

Definition FindVictimPage (old : Z) : M pool (bool * Z) :=
  let* l := gets free_list_ in
  match l with
  | frame_id :: rest => modify (set_free rest) ;;; ret (true, frame_id)
  | [] => on_replacer (Victim old)
  end.

Definition UpdatePage (page : Z) (new_page_id : PageId) (new_frame_id : Z) : M pool unit :=
  let* p := get_page page in
  when (negb (page_no (GetPageId p) =? INVALID_PAGE_ID) && IsDirty p)
    (on_disk (ps_write_page (fd (GetPageId p)) (page_no (GetPageId p)) (data_ p))) ;;;
  when (negb (page_no (GetPageId p) =? INVALID_PAGE_ID))
    (modify (λ s, set_table (delete (GetPageId p) (page_table_ s)) s)) ;;;
  modify (λ s, set_table (<[new_page_id := new_frame_id]> (page_table_ s)) s) ;;;
  upd_page page (λ p, set_pin 0 (set_dirty false (set_id new_page_id (ResetMemory p)))).

(** [read_page(fd, page_no, page->GetData(), PAGE_SIZE)]. *)
Definition read_into_frame (f : Z) (i : PageId) : M pool unit :=
  λ s, match frame s f with
       | None => (UB, s)
       | Some p =>
           let '(r, (buf, d)) :=
             ps_read_page (fd i) (page_no i) PAGE_SIZE (data_ p, disk_manager_ s) in
           (r, set_frame f (set_data buf p) (set_disk d s))
       end.

(** [None] is [nullptr]. *)
Definition FetchPage (page_id : PageId) : M pool (option Z) :=
  let* tab := gets page_table_ in
  match tab !! page_id with
  | Some frame_id =>
      upd_page frame_id (λ p, set_pin (pin_count_ p + 1) p) ;;;
      on_replacer (Pin frame_id) ;;;
      ret (Some frame_id)
  | None =>
      let* v := FindVictimPage 0 in
      if negb v.1 then ret None
      else
        let frame_id := v.2 in
        UpdatePage frame_id page_id frame_id ;;;
        read_into_frame frame_id page_id ;;;
        upd_page frame_id (set_pin 1) ;;;
        on_replacer (Pin frame_id) ;;;
        ret (Some frame_id)
  end.

Definition UnpinPage (page_id : PageId) (is_dirty : bool) : M pool bool :=
  let* tab := gets page_table_ in
  match tab !! page_id with
  | None => ret false
  | Some frame_id =>
      let* p := get_page frame_id in
      if pin_count_ p <=? 0 then ret false
      else
        upd_page frame_id (λ p, set_pin (pin_count_ p - 1) p) ;;;
        when is_dirty (upd_page frame_id (set_dirty true)) ;;;
        let* p := get_page frame_id in
        when (pin_count_ p =? 0) (on_replacer (Unpin frame_id)) ;;;
        ret true
  end.

(** [disk_manager_->write_page] of the page in a frame. *)
Definition write_back (f : Z) : M pool unit :=
  let* p := get_page f in
  on_disk (ps_write_page (fd (GetPageId p)) (page_no (GetPageId p)) (data_ p)).

Definition FlushPage (page_id : PageId) : M pool bool :=
  let* tab := gets page_table_ in
  match tab !! page_id with
  | None => ret false
  | Some frame_id =>
      write_back frame_id ;;;
      upd_page frame_id (set_dirty false) ;;;
      ret true
  end.

(** The result and the in-out parameter [*page_id]. *)
Definition NewPage (page_id : PageId) : M pool (option Z * PageId) :=
  let* v := FindVictimPage 0 in
  if negb v.1 then ret (None, page_id)
  else
    let frame_id := v.2 in
    let* n := on_disk (ps_allocate_page (fd page_id)) in
    let new_page_id := mkPageId (fd page_id) n in
    UpdatePage frame_id new_page_id frame_id ;;;
    upd_page frame_id (set_pin 1) ;;;
    on_replacer (Pin frame_id) ;;;
    ret (Some frame_id, new_page_id).

Definition DeletePage (page_id : PageId) : M pool bool :=
  let* tab := gets page_table_ in
  match tab !! page_id with
  | None => on_disk (ps_deallocate_page (page_no page_id)) ;;; ret true
  | Some frame_id =>
      let* p := get_page frame_id in
      if 0 <? pin_count_ p then ret false
      else
        modify (λ s, set_table (delete page_id (page_table_ s)) s) ;;;
        when (IsDirty p) (write_back frame_id) ;;;
        upd_page frame_id (λ p,
          set_pin 0 (set_dirty false
            (set_id (mkPageId (fd (GetPageId p)) INVALID_PAGE_ID) (ResetMemory p)))) ;;;
        modify (λ s, set_free (free_list_ s ++ [frame_id]) s) ;;;
        on_replacer (Pin frame_id) ;;;
        on_disk (ps_deallocate_page (page_no page_id)) ;;;
        ret true
  end.

(** One iteration of the loop of [FlushAllPages]. *)
Definition flush_frame (fd_ : Z) (i : Z) : M pool unit :=
  let* p := get_page i in
  when ((fd (GetPageId p) =? fd_) && negb (page_no (GetPageId p) =? INVALID_PAGE_ID))
    (write_back i ;;; upd_page i (set_dirty false)).

Definition FlushAllPages (fd_ : Z) : M pool unit :=
  let* n := gets pool_size_ in for_n 0 (Z.to_nat n) (flush_frame fd_).

(** *** Access through a [Page *] (by the clients of the pool) *)

Definition load {A} (f : Z) (g : bytes → option A) : M pool A :=
  let* p := get_page f in or_ub (g (data_ p)).

Definition store (f : Z) (g : bytes → option bytes) : M pool unit :=
  let* p := get_page f in
  let* d := or_ub (g (data_ p)) in
  modify (set_frame f (set_data d p)).

End ops.

(** The choice of the replacer in the constructor: [compare] is 0 on equal
    strings, so the first branch is taken when the name is NOT "LRU"; every
    branch makes an [LRUReplacer]. *)
Definition choose_replacer (type : string) (pool_size : Z) : LRUReplacer.t :=
  if bool_decide (type ≠ "LRU"%string) then LRUReplacer.create pool_size
  else if bool_decide (type ≠ "CLOCK"%string) then LRUReplacer.create pool_size
  else LRUReplacer.create pool_size.

Definition BufferPoolManager {D} (pool_size : Z) (junk : nat → Z) (d : D)
  : t D LRUReplacer.t :=
  create pool_size junk d (choose_replacer REPLACER_TYPE pool_size).

End BufferPool.
