(* ===== verification/BufferPoolProofs.v ===== *)
(** Correctness of the buffer pool, for every disk and replacer that keep
    their laws.

    - [inv_x]/[pool_inv]: page table and frames agree, free and evictable
      frames are unpinned and disjoint, no frame is lost, a clean unpinned
      page equals its copy on disk;
    - [view]: the contents a page has, wherever it is (frame or disk): the
      abstract state of the pool is a map from page identifiers to contents;
    - one specification per method: it succeeds, keeps the invariant and acts
      on the view as the abstract map says. *)
From S2P Require Import Prelude.
From S2P Require Import Defs.
From S2P Require Import Replacer.
From S2P Require Import Disk.
From S2P Require Import BufferPool.
Import BufferPool.

#[local] Open Scope prog_scope.

Section invariant.
  Context {D : Type} {PS : PageStore D} {PSL : PageStoreLaws D}
          {R : Type} {RP : Replacer R} {RPL : ReplacerLaws R}.
  Notation pool := (t D R).
  Implicit Types (s : pool) (p : Page) (f g : Z) (i j : PageId).

Definition valid_id (d : D) (i : PageId) : Prop := ps_valid d (fd i) (page_no i).
Definition on_disk_at (d : D) (i : PageId) : option bytes := page_at d (fd i) (page_no i).

(** The frame holds a page (not just zeros of an unused frame). *)
Definition used (p : Page) : Prop := page_no (id_ p) ≠ INVALID_PAGE_ID.

(** The page may leave the frame without being written. *)
Definition clean_at (d : D) (p : Page) : Prop :=
  is_dirty_ p = false → on_disk_at d (id_ p) = Some (data_ p).

(** The invariant, except that frame [hole] (a frame being refilled) may be in
    neither list and may differ from the disk. *)
Record inv_x (hole : option Z) (s : pool) : Prop := {
  i_len : zlen (pages_ s) = pool_size_ s;
  i_table i f : page_table_ s !! i = Some f →
    ∃ p, frame s f = Some p ∧ id_ p = i ∧ used p;
  i_resident f p : frame s f = Some p → used p → page_table_ s !! id_ p = Some f;
  i_free_nodup : NoDup (free_list_ s);
  i_free f : f ∈ free_list_ s →
    hole ≠ Some f ∧ ∃ p, frame s f = Some p ∧ ¬ used p ∧ pin_count_ p = 0;
  i_repl : repl_inv (replacer_ s);
  i_cap : pool_size_ s <= capacity (replacer_ s);
  i_evict f : f ∈ evictable (replacer_ s) →
    hole ≠ Some f ∧ ∃ p, frame s f = Some p ∧ used p ∧ pin_count_ p = 0;
  i_unpinned f p : frame s f = Some p → pin_count_ p = 0 → hole ≠ Some f →
    f ∈ free_list_ s ∨ f ∈ evictable (replacer_ s);
  i_page f p : frame s f = Some p → 0 <= pin_count_ p ∧ zlen (data_ p) = PAGE_SIZE;
  i_clean f p : frame s f = Some p → used p → pin_count_ p = 0 → hole ≠ Some f →
    clean_at (disk_manager_ s) p;
  i_disk : ps_inv (disk_manager_ s);
  i_valid f p : frame s f = Some p → used p → valid_id (disk_manager_ s) (id_ p);
  i_unused f p : frame s f = Some p → ¬ used p → pin_count_ p = 0
}.

Definition pool_inv (s : pool) : Prop := inv_x None s.

(** Some frame can be given to a new page. *)
Definition has_frame (s : pool) : Prop :=
  free_list_ s ≠ [] ∨ evictable (replacer_ s) ≠ ∅.

(** The abstract contents of a page. *)
Definition view (s : pool) (i : PageId) : option bytes :=
  match page_table_ s !! i with
  | Some f => data_ <$> frame s f
  | None => on_disk_at (disk_manager_ s) i
  end.

(** The number of pins of a page. *)
Definition pins (s : pool) (i : PageId) : Z :=
  match page_table_ s !! i with
  | Some f => default 0 (pin_count_ <$> frame s f)
  | None => 0
  end.

Definition next_page (s : pool) (fd : Z) : Z := ps_next (disk_manager_ s) fd.

(** ** Frames *)

Lemma frame_range s f p : frame s f = Some p → 0 <= f < zlen (pages_ s).
Proof.
  unfold frame. destruct (Z.leb_spec 0 f); [|done].
  intros Hf%lookup_lt_Some. lia.
Qed.

Lemma frame_set_frame s f q p g :
  frame s f = Some q → frame (set_frame f p s) g = if decide (g = f) then Some p else frame s g.
Proof.
  intros Hf%frame_range. unfold frame, set_frame; simpl.
  destruct (Z.leb_spec 0 g).
  - rewrite list_lookup_insert. case_decide; case_decide; try done; lia.
  - rewrite decide_False by lia. done.
Qed.

Lemma set_frame_len s f p : length (pages_ (set_frame f p s)) = length (pages_ s).
Proof. apply length_insert. Qed.

Lemma get_page_Some s f p : frame s f = Some p → get_page f s = (Ret p, s).
Proof. intros Hf. unfold get_page, or_ub. by rewrite Hf. Qed.

Lemma upd_page_Some s f p h :
  frame s f = Some p → upd_page f h s = (Ret tt, set_frame f (h p) s).
Proof. intros Hf. unfold upd_page. by run (get_page_Some _ _ _ Hf). Qed.

Lemma on_disk_Ret {A} (m : M D A) s a d :
  m (disk_manager_ s) = (Ret a, d) → on_disk m s = (Ret a, set_disk d s).
Proof. apply (zoom_Ret disk_manager_ set_disk). Qed.

Lemma on_replacer_Ret {A} (m : M R A) s a r :
  m (replacer_ s) = (Ret a, r) → on_replacer m s = (Ret a, set_replacer r s).
Proof. apply (zoom_Ret replacer_ set_replacer). Qed.

(** ** Consequences of the invariant *)

Lemma table_inj hole s i j f :
  inv_x hole s → page_table_ s !! i = Some f → page_table_ s !! j = Some f → i = j.
Proof.
  intros Hi H1 H2. destruct (i_table _ _ Hi _ _ H1) as (p & Hp & <- & _).
  destruct (i_table _ _ Hi _ _ H2) as (q & Hq & <- & _). congruence.
Qed.

Lemma table_valid hole s i f :
  inv_x hole s → page_table_ s !! i = Some f → valid_id (disk_manager_ s) i.
Proof.
  intros Hi Ht. destruct (i_table _ _ Hi _ _ Ht) as (p & Hp & <- & Hu).
  by eapply i_valid.
Qed.

Lemma free_evict_disjoint hole s f :
  inv_x hole s → f ∈ free_list_ s → f ∉ evictable (replacer_ s).
Proof.
  intros Hi Hf He. destruct (i_free _ _ Hi _ Hf) as (_ & p & Hp & Hu & _).
  destruct (i_evict _ _ Hi _ He) as (_ & q & Hq & Hu' & _). simplify_eq. done.
Qed.

(** ** [FindVictimPage] *)

Lemma FindVictimPage_spec old s :
  pool_inv s → has_frame s →
  ∃ f s' p, FindVictimPage old s = (Ret (true, f), s') ∧ inv_x (Some f) s' ∧
    frame s' f = Some p ∧ pin_count_ p = 0 ∧
    (used p → clean_at (disk_manager_ s') p) ∧
    pages_ s' = pages_ s ∧ page_table_ s' = page_table_ s ∧
    disk_manager_ s' = disk_manager_ s ∧ pool_size_ s' = pool_size_ s.
Proof.
  intros Hi Hav. unfold FindVictimPage. step.
  destruct (free_list_ s) as [|f rest] eqn:Hfree.
  - destruct Hav as [?|Hav]; [done|].
    destruct (victim_law old (replacer_ s) (i_repl _ _ Hi)) as [[? _]|Hv]; [done|].
    destruct Hv as (f & r' & Hin & Hvic & Hri & Hev & Hcap).
    destruct (i_evict _ _ Hi _ Hin) as (_ & p & Hp & Hu & Hpin).
    exists f, (set_replacer r' s), p. rewrite (on_replacer_Ret _ _ _ _ Hvic).
    split_and!; try done; [|intros Hu'; by apply (i_clean None s Hi f p)].
    destruct Hi. split; simpl; try done.
    + rewrite Hfree. intros g Hg. by apply elem_of_nil in Hg.
    + by rewrite Hcap.
    + rewrite Hev. intros g Hg. apply elem_of_difference in Hg as [Hg Hne].
      split; [|by apply i_evict0]. intros [= ->]. set_solver.
    + intros g q Hq Hz Hne. rewrite Hfree, Hev in *.
      destruct (i_unpinned0 _ _ Hq Hz) as [Hc|Hc]; [done| |right].
      { by apply elem_of_nil in Hc. }
      apply elem_of_difference. split; [done|]. intros ->%elem_of_singleton. done.
    + intros g q Hq Hu' Hz _. by eapply i_clean0.
  - destruct (i_free _ _ Hi f) as (_ & p & Hp & Hu & Hpin).
    { rewrite Hfree. by left. }
    exists f, (set_free rest s), p. split; [done|].
    split_and!; try done.
    pose proof (i_free_nodup _ _ Hi) as Hnd. rewrite Hfree in Hnd.
    apply NoDup_cons in Hnd as [Hnf Hnd].
    pose proof (λ g, free_evict_disjoint None s g Hi) as Hdis.
    destruct Hi. split; simpl; try done.
    + intros g Hg. split; [intros [= ->]; done|]. apply i_free0. rewrite Hfree. by right.
    + intros g Hg. split; [|by apply i_evict0]. intros [= ->].
      apply (Hdis g); [|done]. rewrite Hfree. by left.
    + intros g q Hq Hz Hne. rewrite Hfree in i_unpinned0.
      destruct (i_unpinned0 _ _ Hq Hz) as [Hc|?]; [done| |by right].
      apply elem_of_cons in Hc as [->|?]; [done|by left].
    + intros g q Hq Hu' Hz _. by eapply i_clean0.
Qed.

Lemma FindVictimPage_none old s :
  pool_inv s → ¬ has_frame s → ∃ v, FindVictimPage old s = (Ret (false, v), s).
Proof.
  intros Hi Hno. unfold FindVictimPage. step.
  destruct (free_list_ s) eqn:Hfree.
  - destruct (victim_law old (replacer_ s) (i_repl _ _ Hi)) as [[He (v & Hv)]|Hv].
    + exists v. rewrite (on_replacer_Ret _ _ _ _ Hv). by destruct s.
    + destruct Hv as (f & _ & Hin & _). destruct Hno. right. set_solver.
  - destruct Hno. left. by rewrite Hfree.
Qed.

(** ** [UpdatePage] *)

Definition fresh (i : PageId) : Page := mkPage i zero_page false 0.

Definition view_le_except (i : PageId) (s s' : pool) : Prop :=
  ∀ j x, j ≠ i → view s j = Some x → view s' j = Some x.

(** What a change of the disk keeps: validity, counters, and the pages other
    than [i]. *)
Record disk_le (i : PageId) (d d' : D) : Prop := {
  dl_inv : ps_inv d';
  dl_valid j : valid_id d' j ↔ valid_id d j;
  dl_next fd : ps_next d' fd = ps_next d fd;
  dl_pages j x : j ≠ i → on_disk_at d j = Some x → on_disk_at d' j = Some x
}.

Lemma disk_le_refl i d : ps_inv d → disk_le i d d.
Proof. by split. Qed.

Lemma PageId_ne_pair i j : j ≠ i → (fd j, page_no j) ≠ (fd i, page_no i).
Proof. destruct i, j; simpl. congruence. Qed.

Lemma write_disk_le d i bs :
  ps_inv d → valid_id d i → zlen bs = PAGE_SIZE →
  ∃ d', ps_write_page (fd i) (page_no i) bs d = (Ret tt, d') ∧ disk_le i d d' ∧
    on_disk_at d' i = Some bs.
Proof.
  intros Hd Hv Hbs. destruct (ps_write_ok d _ _ bs Hd Hv Hbs) as (d' & Hw & Hd' & Hat & Hoth & Hva & Hn).
  exists d'. split; [done|]. split; [|done]. split; [done|..].
  - intros j. apply Hva.
  - done.
  - intros j x Hj. apply Hoth. by apply PageId_ne_pair.
Qed.

(** The conditional write-back of [UpdatePage]. *)
Lemma write_if_dirty s f p :
  inv_x (Some f) s → frame s f = Some p → (used p → clean_at (disk_manager_ s) p) →
  ∃ d', when (negb (page_no (id_ p) =? INVALID_PAGE_ID) && is_dirty_ p)
          (on_disk (ps_write_page (fd (id_ p)) (page_no (id_ p)) (data_ p))) s
        = (Ret tt, set_disk d' s) ∧
    disk_le (id_ p) (disk_manager_ s) d' ∧
    (used p → on_disk_at d' (id_ p) = Some (data_ p)) ∧ (¬ used p → d' = disk_manager_ s).
Proof.
  intros Hi Hp Hcl. destruct (negb _ && _) eqn:Hb; simpl.
  - apply andb_true_iff in Hb as [Hu Hd]. apply negb_true_iff, Z.eqb_neq in Hu.
    destruct (write_disk_le (disk_manager_ s) (id_ p) (data_ p)) as (d' & Hw & Hle & Hat).
    + by apply (i_disk _ _ Hi).
    + by eapply i_valid.
    + by eapply i_page.
    + exists d'. split; [by apply on_disk_Ret|]. by split_and!.
  - exists (disk_manager_ s). split; [by destruct s|].
    split; [apply disk_le_refl; by apply (i_disk _ _ Hi)|].
    split; [|done]. intros Hu. apply Hcl; [done|]. unfold used in Hu.
    rewrite (proj2 (Z.eqb_neq _ _) Hu) in Hb. by destruct (is_dirty_ p).
Qed.

(** The table after the old page of frame [f] has left it. *)
Definition table_without (p : Page) (m : gmap PageId Z) : gmap PageId Z :=
  if page_no (id_ p) =? INVALID_PAGE_ID then m else delete (id_ p) m.

Lemma table_without_lookup hole s f p j g :
  inv_x hole s → frame s f = Some p →
  table_without p (page_table_ s) !! j = Some g ↔ page_table_ s !! j = Some g ∧ g ≠ f.
Proof.
  intros Hi Hp. unfold table_without. destruct (Z.eqb_spec (page_no (id_ p)) INVALID_PAGE_ID) as [Hn|Hu].
  - split; [|tauto]. intros Ht. split; [done|]. intros ->.
    destruct (i_table _ _ Hi _ _ Ht) as (q & Hq & _ & Hu). by simplify_eq.
  - rewrite lookup_delete_Some. pose proof (i_resident _ _ Hi _ _ Hp Hu) as Ht. split.
    + intros [Hne Hg]. split; [done|]. intros ->. apply Hne. by eapply table_inj.
    + intros [Hg Hne]. split; [|done]. intros <-. congruence.
Qed.

Lemma table_without_None hole s f p j :
  inv_x hole s → frame s f = Some p → page_table_ s !! j = None →
  table_without p (page_table_ s) !! j = None.
Proof.
  intros Hi Hp Hj. apply eq_None_not_Some. intros [g Hg].
  apply (table_without_lookup _ s f p j g Hi Hp) in Hg as [? _]. congruence.
Qed.

(** The pool with the page of frame [f] replaced by an empty page [i]. *)
Definition replaced (f : Z) (p : Page) (i : PageId) (d : D) (s : pool) : pool :=
  set_frame f (fresh i) (set_table (<[i := f]> (table_without p (page_table_ s))) (set_disk d s)).

Lemma frame_replaced s f p i d g :
  frame s f = Some p →
  frame (replaced f p i d s) g = if decide (g = f) then Some (fresh i) else frame s g.
Proof. intros Hp. by apply (frame_set_frame (set_table _ (set_disk d s)) f p). Qed.

Lemma replaced_table s f p i d hole j g :
  inv_x hole s → frame s f = Some p → page_table_ s !! i = None →
  page_table_ (replaced f p i d s) !! j = Some g ↔
    (j = i ∧ g = f) ∨ (j ≠ i ∧ page_table_ s !! j = Some g ∧ g ≠ f).
Proof.
  intros Hi Hp Hn. unfold replaced; simpl.
  rewrite lookup_insert_Some, (table_without_lookup _ s f p j g Hi Hp).
  split; intros [[? ?]|[? ?]]; subst; auto.
Qed.

Lemma replaced_inv s f p i d :
  inv_x (Some f) s → frame s f = Some p → page_table_ s !! i = None →
  page_no i ≠ INVALID_PAGE_ID → valid_id (disk_manager_ s) i →
  disk_le (id_ p) (disk_manager_ s) d →
  inv_x (Some f) (replaced f p i d s).
Proof.
  intros Hi Hp Hn Hu Hv Hd.
  pose proof (λ g, frame_replaced s f p i d g Hp) as Hfr.
  pose proof (λ j g, replaced_table s f p i d _ j g Hi Hp Hn) as Ht.
  split; try apply Hd.
  - unfold replaced. rewrite set_frame_len. apply Hi.
  - intros j g. rewrite Ht, Hfr. intros [[-> ->]|(Hj & Hg & Hne)].
    + rewrite decide_True by done. eexists. split; [done|]. by split.
    + rewrite decide_False by done. by apply (i_table _ _ Hi).
  - intros g q. rewrite Hfr. case_decide as Hg.
    + intros [= <-] _. rewrite Ht. left. by split.
    + intros Hq Hqu. rewrite Ht. right.
      pose proof (i_resident _ _ Hi _ _ Hq Hqu) as Htq.
      split; [|done]. intros Heq. rewrite Heq in Htq. congruence.
  - apply Hi.
  - intros g Hg. destruct (i_free _ _ Hi _ Hg) as [Hne Hex]. split; [done|].
    rewrite Hfr, decide_False by (intros ->; done). done.
  - apply Hi.
  - apply Hi.
  - intros g Hg. destruct (i_evict _ _ Hi _ Hg) as [Hne Hex]. split; [done|].
    rewrite Hfr, decide_False by (intros ->; done). done.
  - intros g q. rewrite Hfr. case_decide; [intros; by subst|]. apply (i_unpinned _ _ Hi).
  - intros g q. rewrite Hfr. case_decide; [|apply (i_page _ _ Hi)].
    intros [= <-]. split; [done|]. apply zero_page_length.
  - intros g q. rewrite Hfr. case_decide; [intros; by subst|].
    intros Hq Hqu Hz Hne Hdirty. apply (dl_pages _ _ _ Hd).
    + intros Heq. pose proof (i_resident _ _ Hi _ _ Hq Hqu) as H1.
      assert (used p) as Hup by (unfold used in *; by rewrite <- Heq).
      pose proof (i_resident _ _ Hi _ _ Hp Hup). congruence.
    + by apply (i_clean _ _ Hi g q).
  - intros g q. rewrite Hfr. change (disk_manager_ (replaced f p i d s)) with d.
    case_decide; rewrite (dl_valid _ _ _ Hd); [by intros [= <-]|]. apply (i_valid _ _ Hi).
  - intros g q. rewrite Hfr. case_decide; [by intros [= <-]|]. apply (i_unused _ _ Hi).
Qed.

Lemma replaced_view s f p i d :
  inv_x (Some f) s → frame s f = Some p → page_table_ s !! i = None →
  disk_le (id_ p) (disk_manager_ s) d →
  (used p → on_disk_at d (id_ p) = Some (data_ p)) → (¬ used p → d = disk_manager_ s) →
  view_le_except i s (replaced f p i d s).
Proof.
  intros Hi Hp Hn Hd Hat Hsame j x Hj Hv.
  pose proof (λ g, frame_replaced s f p i d g Hp) as Hfr.
  pose proof (λ j g, replaced_table s f p i d _ j g Hi Hp Hn) as Ht.
  unfold view in *. destruct (page_table_ s !! j) as [g|] eqn:Hg.
  - destruct (i_table _ _ Hi _ _ Hg) as (q & Hq & Hid & Hqu). rewrite Hq in Hv.
    destruct (decide (g = f)) as [->|Hne].
    + simplify_eq.
      destruct (page_table_ (replaced f p (* *) i d s) !! id_ p) as [g'|] eqn:Hg'.
      { apply Ht in Hg' as [[? _]|(_ & ? & ?)]; congruence. }
      simpl in Hv. change (disk_manager_ (replaced f p i d s)) with d. rewrite Hat by done. done.
    + rewrite (proj2 (Ht j g)) by auto. rewrite Hfr, decide_False, Hq by done. done.
  - destruct (page_table_ (replaced f p i d s) !! j) as [g'|] eqn:Hg'.
    { apply Ht in Hg' as [[? _]|(_ & ? & ?)]; congruence. }
    change (on_disk_at d j = Some x).
    destruct (decide (page_no (id_ p) = INVALID_PAGE_ID)) as [Hu|Hu].
    + by rewrite Hsame by (intros Hu'; done).
    + apply (dl_pages _ _ _ Hd); [|done]. intros ->.
      pose proof (i_resident _ _ Hi _ _ Hp Hu). congruence.
Qed.

Lemma replaced_pins s f p i d j :
  inv_x (Some f) s → frame s f = Some p → page_table_ s !! i = None → pin_count_ p = 0 →
  pins (replaced f p i d s) j = pins s j.
Proof.
  intros Hi Hp Hn Hz. unfold pins.
  pose proof (λ g, frame_replaced s f p i d g Hp) as Hfr.
  pose proof (λ j g, replaced_table s f p i d _ j g Hi Hp Hn) as Ht.
  destruct (page_table_ (replaced f p i d s) !! j) as [g|] eqn:Hg.
  - apply Ht in Hg as [[-> ->]|(_ & Hg & Hne)].
    + by rewrite Hfr, decide_True, Hn.
    + by rewrite Hg, Hfr, decide_False.
  - destruct (page_table_ s !! j) as [g|] eqn:Hg'; [|done].
    destruct (decide (g = f)) as [->|Hne]; [by rewrite Hp; simpl|].
    destruct (decide (j = i)) as [->|]; [congruence|].
    rewrite (proj2 (Ht j g)) in Hg by auto. done.
Qed.

Lemma UpdatePage_spec s f p i :
  inv_x (Some f) s → frame s f = Some p → pin_count_ p = 0 →
  (used p → clean_at (disk_manager_ s) p) →
  page_table_ s !! i = None → page_no i ≠ INVALID_PAGE_ID → valid_id (disk_manager_ s) i →
  ∃ d, UpdatePage f i f s = (Ret tt, replaced f p i d s) ∧
    inv_x (Some f) (replaced f p i d s) ∧ view_le_except i s (replaced f p i d s) ∧
    (∀ j, pins (replaced f p i d s) j = pins s j) ∧
    disk_le (id_ p) (disk_manager_ s) d ∧ (¬ used p → d = disk_manager_ s).
Proof.
  intros Hi Hp Hz Hcl Hn Hu Hv.
  destruct (write_if_dirty s f p Hi Hp Hcl) as (d & Hw & Hle & Hat & Hsame).
  exists d. split.
  - unfold UpdatePage. run (get_page_Some _ _ _ Hp). unfold GetPageId, IsDirty. run Hw.
    unfold replaced, table_without.
    destruct (page_no (id_ p) =? INVALID_PAGE_ID); simpl; step;
      by erewrite upd_page_Some.
  - split_and!; eauto using replaced_inv, replaced_view, replaced_pins.
Qed.

(** ** Pages in use *)

(** Page [i] is in frame [f], pinned, and the frame holds [p]. *)
Definition pinned_at (s : pool) (i : PageId) (f : Z) (p : Page) : Prop :=
  page_table_ s !! i = Some f ∧ frame s f = Some p ∧ 0 < pin_count_ p.

(** The contents of [p] are on disk, or will be written when it is evicted. *)
Definition saved (s : pool) (p : Page) : Prop :=
  is_dirty_ p = true ∨ on_disk_at (disk_manager_ s) (id_ p) = Some (data_ p).

(** Releasing one pin of [p] without marking it dirty loses nothing. *)
Definition releasable (s : pool) (p : Page) : Prop := 1 < pin_count_ p ∨ saved s p.

(** A fetch of page [i], which then is [p], needs no new mark. *)
Definition kept_saved (s s' : pool) (i : PageId) (p : Page) : Prop :=
  (∀ f q, pinned_at s i f q → saved s q → saved s' p) ∧ (pins s i = 0 → saved s' p).

(** What every method keeps: contents of all pages, valid pages, page
    counters. *)
Record pool_le (s s' : pool) : Prop := {
  pl_view j x : view s j = Some x → view s' j = Some x;
  pl_valid j : valid_id (disk_manager_ s') j ↔ valid_id (disk_manager_ s) j;
  pl_next fd : next_page s' fd = next_page s fd;
  pl_size : pool_size_ s' = pool_size_ s
}.

#[global] Instance pool_le_preorder : PreOrder pool_le.
Proof.
  split; [by split|]. intros s1 s2 s3 [V1 W1 N1 Z1] [V2 W2 N2 Z2]. split.
  - eauto.
  - intros j. by rewrite W2.
  - intros fd0. by rewrite N2.
  - by rewrite Z2.
Qed.

(** What a method on page [i] does to the other pages: none comes into the
    pool, and the pinned ones stay as they are. *)
Record others_le (i : PageId) (s s' : pool) : Prop := {
  ol_table j : is_Some (page_table_ s' !! j) → j = i ∨ is_Some (page_table_ s !! j);
  ol_pinned j g q : j ≠ i → pinned_at s j g q →
    pinned_at s' j g q ∧ (saved s q → saved s' q)
}.

#[global] Instance others_le_preorder i : PreOrder (others_le i).
Proof.
  split; [split; auto|]. intros s1 s2 s3 [T1 P1] [T2 P2]. split.
  - intros j Hj. destruct (T2 j Hj); auto.
  - intros j g q Hj Hq. destruct (P1 j g q Hj Hq) as [H1 R1].
    destruct (P2 j g q Hj H1) as [H2 R2]. auto.
Qed.

Lemma set_frame_others hole s i f p q r :
  inv_x hole s → page_table_ s !! i = Some f → frame s f = Some p →
  others_le i s (set_replacer r (set_frame f q s)).
Proof.
  intros Hi Ht Hp. split; [intros j Hj; by right|].
  intros j g q' Hj (Htj & Hq & Hpos). split; [|done]. split_and!; [done| |done].
  change (frame (set_frame f q s) g = Some q').
  rewrite (frame_set_frame s f p), decide_False; [done| |done].
  intros ->. apply Hj. by eapply table_inj.
Qed.

Lemma set_disk_others i s d :
  (∀ j x, on_disk_at (disk_manager_ s) j = Some x → on_disk_at d j = Some x) →
  others_le i s (set_disk d s).
Proof.
  intros Hd. split; [intros j Hj; by right|].
  intros j g q _ Hat. split; [done|]. intros [?|?]; [by left|].
  right. by apply Hd.
Qed.

Lemma pinned_inv hole s f p q r :
  inv_x hole s → hole = None ∨ hole = Some f → frame s f = Some p → used p →
  id_ q = id_ p → zlen (data_ q) = PAGE_SIZE → 0 < pin_count_ q →
  repl_inv r → evictable r = evictable (replacer_ s) ∖ {[f]} →
  capacity r = capacity (replacer_ s) →
  pool_inv (set_replacer r (set_frame f q s)).
Proof.
  intros Hi Hh Hp Hu Hid Hlen Hpin Hr He Hc.
  pose proof (λ g, frame_set_frame s f p q g Hp) as Hfr.
  change (∀ g, frame (set_replacer r (set_frame f q s)) g = if decide (g = f) then Some q else frame s g) in Hfr.
  assert (used q) as Huq by (unfold used in *; by rewrite Hid).
  assert (∀ g, g ≠ f → hole ≠ Some g) as Hhole by (intros g Hg; destruct Hh as [->| ->]; congruence).
  split; try done; simpl.
  - rewrite length_insert. apply Hi.
  - intros j g Hg. rewrite Hfr. destruct (i_table _ _ Hi _ _ Hg) as (p' & Hp' & Hj & Hu').
    case_decide; [|eauto]. subst. simplify_eq. eauto.
  - intros g p'. rewrite Hfr. case_decide.
    + intros [= <-] _. subst. rewrite Hid. by apply (i_resident _ _ Hi).
    + apply (i_resident _ _ Hi).
  - apply Hi.
  - intros g Hg. split; [done|]. destruct (i_free _ _ Hi _ Hg) as (_ & p' & Hp' & Hu' & Hz).
    rewrite Hfr, decide_False; [eauto|]. intros ->. simplify_eq. done.
  - rewrite Hc. apply Hi.
  - intros g Hg. rewrite He in Hg. apply elem_of_difference in Hg as [Hg Hne].
    split; [done|]. rewrite Hfr, decide_False by set_solver. by apply (i_evict _ _ Hi).
  - intros g p'. rewrite Hfr. case_decide; [intros [= <-]; lia|]. intros Hp' Hz _.
    rewrite He. destruct (i_unpinned _ _ Hi _ _ Hp' Hz) as [?|?]; auto. set_solver.
  - intros g p'. rewrite Hfr. case_decide; [|apply (i_page _ _ Hi)].
    intros [= <-]. split; [lia|done].
  - intros g p'. rewrite Hfr. case_decide; [intros [= <-]; lia|].
    intros. by apply (i_clean _ _ Hi g p'); auto.
  - apply Hi.
  - intros g p'. rewrite Hfr. case_decide; [|apply (i_valid _ _ Hi)].
    intros [= <-] _. rewrite Hid. by apply (i_valid _ _ Hi f p).
  - intros g p'. rewrite Hfr. case_decide; [by intros [= <-]|]. apply (i_unused _ _ Hi).
Qed.

Lemma view_set_frame s f p q j :
  frame s f = Some p →
  view (set_frame f q s) j =
    if decide (page_table_ s !! j = Some f) then Some (data_ q) else view s j.
Proof.
  intros Hp. unfold view. change (page_table_ (set_frame f q s)) with (page_table_ s).
  destruct (page_table_ s !! j) as [g|].
  - rewrite (frame_set_frame s f p q g Hp). repeat case_decide; try congruence; done.
  - by rewrite decide_False.
Qed.

Lemma pins_set_frame s f p q j :
  frame s f = Some p →
  pins (set_frame f q s) j =
    if decide (page_table_ s !! j = Some f) then pin_count_ q else pins s j.
Proof.
  intros Hp. unfold pins. change (page_table_ (set_frame f q s)) with (page_table_ s).
  destruct (page_table_ s !! j) as [g|].
  - rewrite (frame_set_frame s f p q g Hp). repeat case_decide; try congruence; done.
  - by rewrite decide_False.
Qed.

Lemma view_resident s i f p : page_table_ s !! i = Some f → frame s f = Some p → view s i = Some (data_ p).
Proof. intros Ht Hp. unfold view. by rewrite Ht, Hp. Qed.

Lemma pins_resident s i f p : page_table_ s !! i = Some f → frame s f = Some p → pins s i = pin_count_ p.
Proof. intros Ht Hp. unfold pins. by rewrite Ht, Hp. Qed.

(** ** [FetchPage] *)

Lemma fetch_resident s i f :
  pool_inv s → page_table_ s !! i = Some f →
  ∃ p s', FetchPage i s = (Ret (Some f), s') ∧ pool_inv s' ∧
    pinned_at s' i f p ∧ view s i = Some (data_ p) ∧ kept_saved s s' i p ∧
    pool_le s s' ∧ pins s' i = pins s i + 1 ∧ (∀ j, j ≠ i → pins s' j = pins s j) ∧
    others_le i s s'.
Proof.
  intros Hi Ht. destruct (i_table _ _ Hi _ _ Ht) as (p & Hp & Hid & Hu).
  pose proof (i_page _ _ Hi _ _ Hp) as [Hnn Hlen].
  set (q := set_pin (pin_count_ p + 1) p).
  destruct (pin_law f (replacer_ s) (i_repl _ _ Hi)) as (r & Hpin & Hr & He & Hc).
  exists q, (set_replacer r (set_frame f q s)).
  pose proof (frame_set_frame s f p q f Hp) as Hfr. rewrite decide_True in Hfr by done.
  split.
  { unfold FetchPage. step. rewrite Ht. run (upd_page_Some s f p (λ p, set_pin (pin_count_ p + 1) p) Hp).
    erewrite bind_Ret; [done|]. by apply on_replacer_Ret. }
  split; [by eapply (pinned_inv None s f p); eauto; simpl; lia|].
  split; [by split_and!; simpl; [| |lia]|].
  split; [by apply (view_resident s i f p)|].
  assert (∀ j, page_table_ s !! j = Some f → j = i) as Hinj by (intros; by eapply table_inj).
  split_and!.
  - split.
    + intros f' p' (Ht' & Hp' & _) Hsv. by simplify_eq.
    + rewrite (pins_resident s i f p) by done. intros Hz. unfold saved; simpl.
      destruct (is_dirty_ p) eqn:Hd; [by left|]. right. by apply (i_clean _ _ Hi f p).
  - split; try done. intros j x Hv. change (view (set_frame f q s) j = Some x).
    rewrite (view_set_frame s f p q j Hp). case_decide as Hj; [|done].
    rewrite (view_resident s j f p Hj Hp) in Hv. done.
  - change (pins (set_frame f q s) i = pins s i + 1).
    rewrite (pins_set_frame s f p q i Hp), decide_True by done.
    by rewrite (pins_resident s i f p).
  - intros j Hj. change (pins (set_frame f q s) j = pins s j).
    rewrite (pins_set_frame s f p q j Hp), decide_False; [done|]. intros ?%Hinj. done.
  - by eapply set_frame_others.
Qed.

Lemma inv_set_disk hole s d :
  inv_x hole s → ps_inv d →
  (∀ j x, on_disk_at (disk_manager_ s) j = Some x → on_disk_at d j = Some x) →
  (∀ j, valid_id d j ↔ valid_id (disk_manager_ s) j) →
  inv_x hole (set_disk d s).
Proof.
  intros [] Hd Hat Hv. split; try done; simpl.
  - intros f p Hp Hu Hz Hne Hdirty. apply Hat. by apply (i_clean0 f p).
  - intros f p Hp Hu. apply Hv. by apply (i_valid0 f p).
Qed.

Lemma view_set_disk s d j x :
  (∀ x, on_disk_at (disk_manager_ s) j = Some x → on_disk_at d j = Some x) →
  view s j = Some x → view (set_disk d s) j = Some x.
Proof. intros Hat. unfold view; simpl. destruct (page_table_ s !! j); auto. Qed.

Lemma set_frame_twice s f p q : set_frame f q (set_frame f p s) = set_frame f q s.
Proof. unfold set_frame, set_pages; simpl. by rewrite list_insert_insert_eq. Qed.

Lemma set_frame_set_disk s f p d : set_frame f p (set_disk d s) = set_disk d (set_frame f p s).
Proof. done. Qed.

Lemma read_into_frame_spec s f p i x :
  ps_inv (disk_manager_ s) → valid_id (disk_manager_ s) i → frame s f = Some p →
  zlen (data_ p) = PAGE_SIZE → on_disk_at (disk_manager_ s) i = Some x →
  ∃ d, read_into_frame f i s = (Ret tt, set_frame f (set_data x p) (set_disk d s)) ∧ ps_inv d ∧
    (∀ j, on_disk_at d j = on_disk_at (disk_manager_ s) j) ∧
    (∀ j, valid_id d j ↔ valid_id (disk_manager_ s) j) ∧
    (∀ fd0, ps_next d fd0 = ps_next (disk_manager_ s) fd0).
Proof.
  intros Hd Hv Hp Hlen Hx.
  destruct (ps_read_ok _ _ _ (data_ p) x Hd Hv Hlen Hx) as (d & Hr & Hd' & Hat & Hva & Hn).
  exists d. unfold read_into_frame. rewrite Hp, Hr. split_and!; try done; intros j;
    [apply Hat|apply Hva].
Qed.

(** A victim was taken from the lists: the contents have not moved. *)
Lemma same_store_view s s' j :
  pages_ s' = pages_ s → page_table_ s' = page_table_ s → disk_manager_ s' = disk_manager_ s →
  view s' j = view s j ∧ pins s' j = pins s j.
Proof. unfold view, pins, frame. by intros -> -> ->. Qed.

Lemma replaced_others s s1 d0 f p i d :
  inv_x (Some f) (set_disk d0 s1) → frame s1 f = Some p → pin_count_ p = 0 →
  page_table_ s1 !! i = None →
  pages_ s1 = pages_ s → page_table_ s1 = page_table_ s → disk_manager_ s1 = disk_manager_ s →
  (∀ j x, on_disk_at (disk_manager_ s) j = Some x → on_disk_at d0 j = Some x) →
  disk_le (id_ p) d0 d →
  others_le i s (replaced f p i d (set_disk d0 s1)).
Proof.
  intros Hi Hp Hz Hn Hpg Htab Hdisk Hd0 Hle. split.
  - intros j [g Hg]. apply (replaced_table (set_disk d0 s1) f p i d (Some f)) in Hg; try done.
    destruct Hg as [[? _]|(_ & Hg & _)]; [by left|]. right. exists g. by rewrite <- Htab.
  - intros j g q Hj (Ht & Hq & Hpos). rewrite <- Htab in Ht.
    assert (frame s1 g = Some q) as Hq1 by (unfold frame in *; by rewrite Hpg).
    assert (g ≠ f) as Hg by (intros ->; simplify_eq; lia).
    split; [split_and!; [| |done]|].
    + apply (replaced_table (set_disk d0 s1) f p i d (Some f)); auto.
    + rewrite (frame_replaced (set_disk d0 s1) f p i d g Hp), decide_False by done. done.
    + intros [?|Hd]; [by left|]. right.
      apply (dl_pages _ _ _ Hle); [|by apply Hd0].
      destruct (i_table _ _ Hi _ _ Ht) as (q' & Hq' & Hid & Hu).
      change (frame s1 g = Some q') in Hq'. simplify_eq. intros Heq.
      assert (used p) as Hup by (unfold used in *; by rewrite <- Heq).
      pose proof (i_resident _ _ Hi _ _ Hp Hup) as Hc. simpl in Hc. congruence.
Qed.

(** Taking a frame for page [i], which is not in the pool; [alloc] is what
    happens to the disk between the choice of the frame and its cleaning. *)
Lemma take_frame s i d0 :
  pool_inv s → has_frame s → page_table_ s !! i = None → page_no i ≠ INVALID_PAGE_ID →
  valid_id (disk_manager_ s) i → ps_inv d0 →
  (∀ j, on_disk_at d0 j = on_disk_at (disk_manager_ s) j) →
  (∀ j, valid_id d0 j ↔ valid_id (disk_manager_ s) j) →
  ∃ f s1 s2, FindVictimPage 0 s = (Ret (true, f), s1) ∧
    disk_manager_ s1 = disk_manager_ s ∧
    UpdatePage f i f (set_disk d0 s1) = (Ret tt, s2) ∧ inv_x (Some f) s2 ∧
    page_table_ s2 !! i = Some f ∧ frame s2 f = Some (fresh i) ∧
    view_le_except i s s2 ∧ (∀ j, pins s2 j = pins s j) ∧
    (∀ j, valid_id (disk_manager_ s2) j ↔ valid_id (disk_manager_ s) j) ∧
    (∀ fd0, next_page s2 fd0 = ps_next d0 fd0) ∧
    (∀ x, on_disk_at (disk_manager_ s) i = Some x → on_disk_at (disk_manager_ s2) i = Some x) ∧
    (free_list_ s ≠ [] → disk_manager_ s2 = d0) ∧
    pool_size_ s2 = pool_size_ s ∧ others_le i s s2.
Proof.
  intros Hi Hav Hn Hu Hv Hd0 Hat0 Hv0.
  destruct (FindVictimPage_spec 0 s Hi Hav) as
    (f & s1 & p & Hf & Hi1 & Hp & Hz & Hcl & Hpg & Htab & Hdisk & Hsz).
  assert (inv_x (Some f) (set_disk d0 s1)) as Hi1'.
  { apply inv_set_disk; [done|done| |]; rewrite Hdisk; [|done]. intros j x. by rewrite Hat0. }
  destruct (UpdatePage_spec (set_disk d0 s1) f p i) as (d & Hup & Hi2 & Hview & Hpins & Hle & Hsame); try done.
  { intros Hup Hdirty. simpl. rewrite Hat0, <- Hdisk. by apply Hcl. }
  { simpl. by rewrite Htab. }
  { by apply Hv0. }
  exists f, s1, (replaced f p i d (set_disk d0 s1)).
  split_and!; try done.
  - apply (replaced_table (set_disk d0 s1) f p i d (Some f)); try done.
    + simpl. by rewrite Htab.
    + by left.
  - rewrite (frame_replaced (set_disk d0 s1) f p i d f Hp). by rewrite decide_True.
  - intros j x Hj Hx. apply Hview; [done|].
    apply view_set_disk; [intros y; by rewrite Hat0, Hdisk|].
    by rewrite (proj1 (same_store_view _ _ j Hpg Htab Hdisk)).
  - intros j. rewrite Hpins. change (pins s1 j = pins s j). by apply same_store_view.
  - intros j. etrans; [apply (dl_valid _ _ _ Hle)|]. apply Hv0.
  - apply Hle.
  - intros x Hx. apply (dl_pages _ _ _ Hle); [|simpl; by rewrite Hat0].
    intros ->. destruct (decide (page_no (id_ p) = INVALID_PAGE_ID)) as [|Hup']; [done|].
    pose proof (i_resident _ _ Hi1 _ _ Hp Hup') as Hc. congruence.
  - intros Hfree. apply Hsame. destruct (free_list_ s) as [|f0 rest] eqn:Hl; [done|].
    unfold FindVictimPage in Hf. rewrite bind_gets, Hl in Hf. injection Hf as <- <-.
    destruct (i_free _ _ Hi f0) as (_ & p' & Hp' & Hnu & _); [rewrite Hl; by left|].
    unfold frame in *. rewrite Hpg in Hp. by simplify_eq.
  - eapply replaced_others; try done; [by rewrite Htab|]. intros j x. by rewrite Hat0.
Qed.

Lemma fetch_absent s i x :
  pool_inv s → page_table_ s !! i = None → has_frame s → page_no i ≠ INVALID_PAGE_ID →
  valid_id (disk_manager_ s) i → on_disk_at (disk_manager_ s) i = Some x →
  ∃ f p s', FetchPage i s = (Ret (Some f), s') ∧ pool_inv s' ∧
    pinned_at s' i f p ∧ data_ p = x ∧ kept_saved s s' i p ∧
    pool_le s s' ∧ pins s' i = pins s i + 1 ∧ (∀ j, j ≠ i → pins s' j = pins s j) ∧
    others_le i s s'.
Proof.
  intros Hi Hn Hav Hu Hv Hx.
  destruct (take_frame s i (disk_manager_ s) Hi Hav Hn Hu Hv (i_disk _ _ Hi)) as
    (f & s1 & s2 & Hf & Hd1 & Hup & Hi2 & Ht2 & Hp2 & Hview & Hpins & Hva & Hnx & Hat & _ & Hsz & Htl); try done.
  assert (set_disk (disk_manager_ s) s1 = s1) as Heq by (rewrite <- Hd1; by destruct s1).
  rewrite Heq in Hup.
  destruct (read_into_frame_spec s2 f (fresh i) i x) as (d & Hrd & Hd & Hat2 & Hva2 & Hn2);
    [apply Hi2|by apply Hva|done|apply zero_page_length|by apply Hat|].
  set (q := mkPage i x false 1).
  destruct (pin_law f (replacer_ s2) (i_repl _ _ Hi2)) as (r & Hpin & Hr & He & Hc).
  assert (zlen x = PAGE_SIZE) as Hlen by by eapply page_at_length.
  set (s3 := set_disk d s2).
  assert (frame s3 f = Some (fresh i)) as Hp3 by done.
  exists f, q, (set_replacer r (set_frame f q s3)).
  assert (FetchPage i s = (Ret (Some f), set_replacer r (set_frame f q s3))) as Hrun.
  { unfold FetchPage. step. rewrite Hn. run Hf. simpl. run Hup. run Hrd.
    fold s3. set (s4 := set_frame f (set_data x (fresh i)) s3).
    assert (frame s4 f = Some (set_data x (fresh i))) as Hp4.
    { unfold s4. rewrite (frame_set_frame s3 f (fresh i)) by done. by rewrite decide_True. }
    run (upd_page_Some s4 f _ (set_pin 1) Hp4).
    erewrite bind_Ret; [done|]. unfold s4. rewrite set_frame_twice.
    by apply on_replacer_Ret. }
  assert (inv_x (Some f) s3) as Hi3.
  { apply inv_set_disk; try done. intros j y. by rewrite Hat2. }
  assert (∀ j, page_table_ s2 !! j = Some f → j = i) as Hinj by (intros; by eapply table_inj).
  split; [done|].
  split; [by apply (pinned_inv (Some f) s3 f (fresh i)); eauto|].
  split.
  { split_and!; [done| |done]. change (frame (set_frame f q s3) f = Some q).
    rewrite (frame_set_frame s3 f (fresh i)) by done. by rewrite decide_True. }
  split; [done|].
  split_and!.
  - split; [intros f' q' (Hc0 & _); congruence|]. intros _. right. simpl. rewrite Hat2. by apply Hat.
  - split.
    + intros j y Hy. change (view (set_frame f q s3) j = Some y).
      rewrite (view_set_frame s3 f (fresh i)) by done. case_decide as Hj.
      * apply Hinj in Hj as ->. unfold view in Hy. rewrite Hn in Hy. simpl. congruence.
      * apply view_set_disk; [intros z; by rewrite Hat2|]. apply Hview; [|done].
        intros ->. done.
    + intros j. etrans; [apply Hva2|apply Hva].
    + intros fd0. etrans; [apply Hn2|apply Hnx].
    + done.
  - change (pins (set_frame f q s3) i = pins s i + 1).
    rewrite (pins_set_frame s3 f (fresh i)), decide_True by done. simpl.
    unfold pins. by rewrite Hn.
  - intros j Hj. change (pins (set_frame f q s3) j = pins s j).
    rewrite (pins_set_frame s3 f (fresh i)), decide_False by (try done; intros ?%Hinj; done).
    apply Hpins.
  - etrans; [exact Htl|]. etrans; [apply (set_disk_others i s2 d)|].
    + intros j y. by rewrite Hat2.
    + by eapply (set_frame_others (Some f) s3).
Qed.

(** ** [UnpinPage] *)

Lemma evictable_room s f p :
  pool_inv s → frame s f = Some p → pin_count_ p ≠ 0 →
  Z.of_nat (size (evictable (replacer_ s))) < capacity (replacer_ s).
Proof.
  intros Hi Hp Hz. pose proof (frame_range _ _ _ Hp) as Hr.
  rewrite (i_len _ _ Hi) in Hr.
  assert (f ∉ evictable (replacer_ s)) as Hf.
  { intros (_ & q & Hq & _ & Hqz)%(i_evict _ _ Hi). by simplify_eq. }
  assert ({[f]} ∪ evictable (replacer_ s) ⊆ list_to_set (seqZ 0 (pool_size_ s))) as Hsub.
  { intros g Hg. rewrite elem_of_list_to_set, elem_of_seqZ.
    apply elem_of_union in Hg as [->%elem_of_singleton|Hg]; [lia|].
    destruct (i_evict _ _ Hi _ Hg) as (_ & q & Hq & _).
    pose proof (frame_range _ _ _ Hq) as Hrq. rewrite (i_len _ _ Hi) in Hrq. lia. }
  apply subseteq_size in Hsub.
  rewrite size_union, size_singleton, size_list_to_set, length_seqZ in Hsub
    by (set_solver || apply NoDup_seqZ).
  pose proof (i_cap _ _ Hi). lia.
Qed.

Lemma unpinned_inv s f p q r :
  pool_inv s → frame s f = Some p → used p → pin_count_ p ≠ 0 →
  id_ q = id_ p → zlen (data_ q) = PAGE_SIZE → pin_count_ q = 0 →
  clean_at (disk_manager_ s) q →
  repl_inv r → evictable r = {[f]} ∪ evictable (replacer_ s) →
  capacity r = capacity (replacer_ s) →
  pool_inv (set_replacer r (set_frame f q s)).
Proof.
  intros Hi Hp Hu Hz Hid Hlen Hpin Hcl Hr He Hc.
  pose proof (λ g, frame_set_frame s f p q g Hp) as Hfr.
  change (∀ g, frame (set_replacer r (set_frame f q s)) g = if decide (g = f) then Some q else frame s g) in Hfr.
  assert (used q) as Huq by (unfold used in *; by rewrite Hid).
  split; try done; simpl.
  - rewrite length_insert. apply Hi.
  - intros j g Hg. rewrite Hfr. destruct (i_table _ _ Hi _ _ Hg) as (p' & Hp' & Hj & Hu').
    case_decide; [|eauto]. subst. simplify_eq. eauto.
  - intros g p'. rewrite Hfr. case_decide.
    + intros [= <-] _. subst. rewrite Hid. by apply (i_resident _ _ Hi).
    + apply (i_resident _ _ Hi).
  - apply Hi.
  - intros g Hg. split; [done|]. destruct (i_free _ _ Hi _ Hg) as (_ & p' & Hp' & Hu' & Hz').
    rewrite Hfr, decide_False; [eauto|]. intros ->. by simplify_eq.
  - rewrite Hc. apply Hi.
  - intros g Hg. rewrite He in Hg. split; [done|]. rewrite Hfr. case_decide; [by eauto|].
    apply (i_evict _ _ Hi). set_solver.
  - intros g p'. rewrite Hfr, He. case_decide; [set_solver|]. intros Hp' Hz' _.
    destruct (i_unpinned _ _ Hi _ _ Hp' Hz') as [?|?]; auto. set_solver.
  - intros g p'. rewrite Hfr. case_decide; [|apply (i_page _ _ Hi)].
    intros [= <-]. split; [lia|done].
  - intros g p'. rewrite Hfr. case_decide; [by intros [= <-]|].
    intros. by apply (i_clean _ _ Hi g p'); auto.
  - apply Hi.
  - intros g p'. rewrite Hfr. case_decide; [|apply (i_valid _ _ Hi)].
    intros [= <-] _. rewrite Hid. by apply (i_valid _ _ Hi f p).
  - intros g p'. rewrite Hfr. case_decide; [by intros [= <-]|]. apply (i_unused _ _ Hi).
Qed.

(** Changing the pins and the dirty flag of a frame moves no contents. *)
Lemma set_frame_le s f p q r :
  frame s f = Some p → data_ q = data_ p → pool_le s (set_replacer r (set_frame f q s)).
Proof.
  intros Hp Hd. split; try done. intros j x Hx.
  change (view (set_frame f q s) j = Some x). rewrite (view_set_frame s f p) by done.
  case_decide as Hj; [|done]. rewrite (view_resident s j f p) in Hx by done. congruence.
Qed.

Lemma UnpinPage_spec s i f p dirty :
  pool_inv s → pinned_at s i f p → dirty = true ∨ releasable s p →
  ∃ s', UnpinPage i dirty s = (Ret true, s') ∧ pool_inv s' ∧ pool_le s s' ∧
    pins s' i = pins s i - 1 ∧ (∀ j, j ≠ i → pins s' j = pins s j) ∧
    frame s' f = Some (mkPage (id_ p) (data_ p) (is_dirty_ p || dirty) (pin_count_ p - 1)) ∧
    page_table_ s' = page_table_ s ∧ others_le i s s' ∧ disk_manager_ s' = disk_manager_ s.
Proof.
  intros Hi (Ht & Hp & Hpos) Hrel.
  destruct (i_table _ _ Hi _ _ Ht) as (p' & Hp' & Hid & Hu).
  rewrite Hp in Hp'. injection Hp' as <-.
  pose proof (i_page _ _ Hi _ _ Hp) as [_ Hlen].
  set (q := mkPage (id_ p) (data_ p) (is_dirty_ p || dirty) (pin_count_ p - 1)).
  assert (∀ j, page_table_ s !! j = Some f → j = i) as Hinj by (intros; by eapply table_inj).
  assert (∃ r, (when (pin_count_ q =? 0) (on_replacer (Unpin f)) ;;; ret true) (set_frame f q s)
      = (Ret true, set_replacer r (set_frame f q s)) ∧ pool_inv (set_replacer r (set_frame f q s)))
    as (r & Hrun & Hinv).
  { destruct (Z.eqb_spec (pin_count_ q) 0) as [Hz|Hz]; simpl when.
    - assert (f ∈ evictable (replacer_ s) ∨
        Z.of_nat (size (evictable (replacer_ s))) < capacity (replacer_ s)) as Hroom.
      { right. eapply evictable_room; [done..|lia]. }
      destruct (unpin_law f (replacer_ s) (i_repl _ _ Hi) Hroom) as (r & Hun & Hr & He & Hc).
      exists r. split; [by run (on_replacer_Ret (Unpin f) (set_frame f q s) _ _ Hun)|].
      apply (unpinned_inv s f p q r); try done; [lia|].
      intros Hd. simpl in Hz, Hd. apply orb_false_iff in Hd as [Hd Hd'].
      destruct Hrel as [?|[?|[?|?]]]; [congruence|lia|congruence|done].
    - exists (replacer_ s). split; [by destruct s|].
      apply (pinned_inv None s f p q); try done; [by left|simpl in *; lia|apply Hi|].
      apply set_eq. intros g. split; [|set_solver]. intros Hg.
      apply elem_of_difference. split; [done|]. intros ->%elem_of_singleton.
      destruct (i_evict _ _ Hi _ Hg) as (_ & p' & Hp' & _ & Hz'). simplify_eq. lia. }
  exists (set_replacer r (set_frame f q s)). split.
  { unfold UnpinPage. step. rewrite Ht. run (get_page_Some _ _ _ Hp).
    rewrite (proj2 (Z.leb_gt _ _)) by lia.
    run (upd_page_Some s f p (λ p, set_pin (pin_count_ p - 1) p) Hp).
    set (q0 := set_pin (pin_count_ p - 1) p).
    assert (frame (set_frame f q0 s) f = Some q0) as Hq0.
    { by rewrite (frame_set_frame s f p), decide_True. }
    assert (when dirty (upd_page f (set_dirty true)) (set_frame f q0 s) = (Ret tt, set_frame f q s)) as Hw.
    { unfold q. destruct dirty; simpl when; rewrite ?orb_true_r, ?orb_false_r; [|by destruct p].
      rewrite (upd_page_Some _ f q0) by done. by rewrite set_frame_twice. }
    run Hw. assert (frame (set_frame f q s) f = Some q) as Hq.
    { by rewrite (frame_set_frame s f p), decide_True. }
    run (get_page_Some _ _ _ Hq). done. }
  split_and!; [done|by eapply set_frame_le|..].
  - change (pins (set_frame f q s) i = pins s i - 1).
    rewrite (pins_set_frame s f p), decide_True by done. by rewrite (pins_resident s i f p).
  - intros j Hj. change (pins (set_frame f q s) j = pins s j).
    rewrite (pins_set_frame s f p), decide_False by (try done; intros ?%Hinj; done). done.
  - change (frame (set_frame f q s) f = Some q). by rewrite (frame_set_frame s f p), decide_True.
  - done.
  - by eapply set_frame_others.
  - done.
Qed.

(** ** Writes through a handle *)

Lemma store_spec s i f p (h : bytes → option bytes) d :
  pool_inv s → pinned_at s i f p → h (data_ p) = Some d → zlen d = PAGE_SIZE →
  ∃ s', store f h s = (Ret tt, s') ∧ pool_inv s' ∧ pinned_at s' i f (set_data d p) ∧
    view s' i = Some d ∧ (∀ j, j ≠ i → view s' j = view s j) ∧
    (∀ j, pins s' j = pins s j) ∧ disk_manager_ s' = disk_manager_ s ∧
    page_table_ s' = page_table_ s ∧ pool_size_ s' = pool_size_ s ∧ others_le i s s'.
Proof.
  intros Hi (Ht & Hp & Hpos) Hh Hd.
  destruct (i_table _ _ Hi _ _ Ht) as (p' & Hp' & Hid & Hu).
  rewrite Hp in Hp'. injection Hp' as <-.
  assert (∀ j, page_table_ s !! j = Some f → j = i) as Hinj by (intros; by eapply table_inj).
  set (q := set_data d p).
  assert (frame (set_frame f q s) f = Some q) as Hq by by rewrite (frame_set_frame s f p), decide_True.
  exists (set_frame f q s). split_and!.
  - unfold store. run (get_page_Some _ _ _ Hp). by rewrite Hh.
  - replace (set_frame f q s) with (set_replacer (replacer_ s) (set_frame f q s)) by by destruct s.
    apply (pinned_inv None s f p q); try done; [by left|apply Hi|].
    apply set_eq. intros g'. split; [|set_solver]. intros Hg'.
    apply elem_of_difference. split; [done|]. intros ->%elem_of_singleton.
    destruct (i_evict _ _ Hi _ Hg') as (_ & p' & Hp' & _ & Hz'). simplify_eq. lia.
  - by split_and!.
  - by rewrite (view_set_frame s f p), decide_True.
  - intros j Hj. rewrite (view_set_frame s f p), decide_False by (try done; intros ?%Hinj; done). done.
  - intros j. rewrite (pins_set_frame s f p) by done. case_decide as Hj; [|done].
    simpl. by rewrite (pins_resident s j f p).
  - done.
  - done.
  - done.
  - replace (set_frame f q s) with (set_replacer (replacer_ s) (set_frame f q s)) by by destruct s.
    by eapply set_frame_others.
Qed.

Lemma load_spec {A} s i f p (h : bytes → option A) a :
  pinned_at s i f p → h (data_ p) = Some a → load f h s = (Ret a, s).
Proof. intros (_ & Hp & _) Hh. unfold load. run (get_page_Some _ _ _ Hp). by rewrite Hh. Qed.

(** ** [FlushPage] and [FlushAllPages] *)

(** The pool after the page of frame [f] was written and marked clean. *)
Definition flushed (f : Z) (p : Page) (d : D) (s : pool) : pool :=
  set_frame f (set_dirty false p) (set_disk d s).

Lemma frame_flushed s f p d g :
  frame s f = Some p →
  frame (flushed f p d s) g = if decide (g = f) then Some (set_dirty false p) else frame s g.
Proof. intros Hp. by apply (frame_set_frame (set_disk d s) f p). Qed.

Lemma flushed_inv s f p d :
  pool_inv s → frame s f = Some p → used p →
  disk_le (id_ p) (disk_manager_ s) d → on_disk_at d (id_ p) = Some (data_ p) →
  pool_inv (flushed f p d s).
Proof.
  intros Hi Hp Hu Hd Hat. pose proof (λ g, frame_flushed s f p d g Hp) as Hfr.
  assert (Hback : ∀ g q, frame (flushed f p d s) g = Some q →
    ∃ q', frame s g = Some q' ∧ id_ q = id_ q' ∧ data_ q = data_ q' ∧
          pin_count_ q = pin_count_ q' ∧ (g ≠ f → q = q')).
  { intros g q. rewrite Hfr. case_decide; [intros [= <-]; subst; by exists p|].
    intros Hq. by exists q. }
  assert (Hfwd : ∀ g q, frame s g = Some q →
    ∃ q', frame (flushed f p d s) g = Some q' ∧ id_ q' = id_ q ∧ pin_count_ q' = pin_count_ q).
  { intros g q Hq. rewrite Hfr. case_decide; [|by exists q]. subst. simplify_eq.
    by exists (set_dirty false p). }
  split; try apply Hd.
  - unfold flushed. rewrite set_frame_len. apply Hi.
  - intros j g Hg. destruct (i_table _ _ Hi _ _ Hg) as (q & Hq & Hj & Huq).
    destruct (Hfwd _ _ Hq) as (q' & ? & Hid & _). exists q'. unfold used. by rewrite Hid.
  - intros g q (q' & Hq' & Hid & _)%Hback. unfold used. rewrite Hid. by apply (i_resident _ _ Hi).
  - apply Hi.
  - intros g Hg. split; [done|]. destruct (i_free _ _ Hi _ Hg) as (_ & q & Hq & Huq & Hz).
    destruct (Hfwd _ _ Hq) as (q' & ? & Hid & Hpin). exists q'. unfold used. by rewrite Hid, Hpin.
  - apply Hi.
  - apply Hi.
  - intros g Hg. split; [done|]. destruct (i_evict _ _ Hi _ Hg) as (_ & q & Hq & Huq & Hz).
    destruct (Hfwd _ _ Hq) as (q' & ? & Hid & Hpin). exists q'. unfold used. by rewrite Hid, Hpin.
  - intros g q (q' & Hq' & _ & _ & Hpin & _)%Hback. rewrite Hpin. by apply (i_unpinned _ _ Hi).
  - intros g q (q' & Hq' & _ & Hdat & Hpin & _)%Hback. rewrite Hdat, Hpin. by apply (i_page _ _ Hi g).
  - intros g q Hq Huq Hz _. rewrite Hfr in Hq. case_decide as Hg.
    + injection Hq as <-. by intros _.
    + intros Hdirty. apply (dl_pages _ _ _ Hd).
      * intros Heq. pose proof (i_resident _ _ Hi _ _ Hq Huq) as H1.
        pose proof (i_resident _ _ Hi _ _ Hp Hu). congruence.
      * by apply (i_clean _ _ Hi g q).
  - intros g q (q' & Hq' & Hid & _)%Hback. unfold used. rewrite Hid. intros Huq.
    apply (dl_valid _ _ _ Hd). by apply (i_valid _ _ Hi g).
  - intros g q (q' & Hq' & Hid & _ & Hpin & _)%Hback. unfold used. rewrite Hid, Hpin.
    by apply (i_unused _ _ Hi g q').
Qed.

Lemma flushed_le s f p d :
  pool_inv s → frame s f = Some p → used p → disk_le (id_ p) (disk_manager_ s) d →
  pool_le s (flushed f p d s) ∧ ∀ j, pins (flushed f p d s) j = pins s j.
Proof.
  intros Hi Hp Hu Hd. pose proof (i_resident _ _ Hi _ _ Hp Hu) as Ht. split; [split|].
  - intros j x Hx. unfold flushed. rewrite (view_set_frame (set_disk d s) f p) by done.
    simpl. case_decide as Hj; [by rewrite (view_resident s j f p) in Hx|].
    unfold view in *; simpl. destruct (page_table_ s !! j) eqn:E; [done|].
    apply (dl_pages _ _ _ Hd); [|done]. intros ->. congruence.
  - apply Hd.
  - apply Hd.
  - done.
  - intros j. unfold flushed. rewrite (pins_set_frame (set_disk d s) f p) by done.
    case_decide as Hj; [|done]. simpl. by rewrite (pins_resident s j f p).
Qed.

Lemma flush_run s f p :
  pool_inv s → frame s f = Some p → used p →
  ∃ d, (write_back f ;;; upd_page f (set_dirty false)) s = (Ret tt, flushed f p d s) ∧
    disk_le (id_ p) (disk_manager_ s) d ∧ on_disk_at d (id_ p) = Some (data_ p).
Proof.
  intros Hi Hp Hu.
  destruct (write_disk_le (disk_manager_ s) (id_ p) (data_ p)) as (d & Hw & Hle & Hat).
  - by apply (i_disk _ _ Hi).
  - by eapply i_valid.
  - by eapply i_page.
  - exists d. split; [|done]. assert (write_back f s = (Ret tt, set_disk d s)) as Hwb.
    { unfold write_back. run (get_page_Some _ _ _ Hp). by apply on_disk_Ret. }
    run Hwb. by apply (upd_page_Some (set_disk d s)).
Qed.

Lemma FlushPage_spec s i f x :
  pool_inv s → page_table_ s !! i = Some f → view s i = Some x →
  ∃ s', FlushPage i s = (Ret true, s') ∧ pool_inv s' ∧ pool_le s s' ∧
    on_disk_at (disk_manager_ s') i = Some x ∧ (∀ j, pins s' j = pins s j).
Proof.
  intros Hi Ht Hx. destruct (i_table _ _ Hi _ _ Ht) as (p & Hp & <- & Hu).
  rewrite (view_resident s _ f p) in Hx by done. injection Hx as <-.
  destruct (flush_run s f p Hi Hp Hu) as (d & Hrun & Hle & Hat).
  destruct (flushed_le s f p d) as [Hpl Hpins]; try done.
  exists (flushed f p d s). split; [|split_and!; try done; by apply flushed_inv].
  unfold FlushPage. step. rewrite Ht. rewrite <- bind_assoc. by run Hrun.
Qed.

(** Frame [f] holds no unwritten page of file [fd0]. *)
Definition frame_on_disk (fd0 : Z) (s : pool) (f : Z) : Prop :=
  ∀ p, frame s f = Some p → used p → fd (id_ p) = fd0 →
    on_disk_at (disk_manager_ s) (id_ p) = Some (data_ p).

(** Every frame keeps its page, and what was saved stays saved. *)
Definition frames_le (s s' : pool) : Prop :=
  ∀ f p', frame s' f = Some p' → ∃ p, frame s f = Some p ∧ id_ p' = id_ p ∧
    (used p → saved s p → saved s' p').

#[global] Instance frames_le_preorder : PreOrder frames_le.
Proof.
  split; [intros s f p Hp; by exists p|]. intros s1 s2 s3 H1 H2 f p3 Hp3.
  destruct (H2 f p3 Hp3) as (p2 & Hp2 & Hid2 & Hs2). destruct (H1 f p2 Hp2) as (p1 & Hp1 & Hid1 & Hs1).
  exists p1. split_and!; [done|congruence|]. intros Hu Hs. apply Hs2; [|auto].
  unfold used. by rewrite Hid1.
Qed.

Lemma flushed_frames s f p d :
  pool_inv s → frame s f = Some p → used p → disk_le (id_ p) (disk_manager_ s) d →
  on_disk_at d (id_ p) = Some (data_ p) → frames_le s (flushed f p d s).
Proof.
  intros Hi Hp Hu Hle Hat g p'. rewrite frame_flushed by done. case_decide as Hg.
  - intros [= <-]. exists p. subst. split_and!; [done|done|]. intros _ _. by right.
  - intros Hp'. exists p'. split_and!; [done|done|]. intros Hu' [?|Hd]; [by left|right].
    apply (dl_pages _ _ _ Hle); [|done]. intros Heq.
    pose proof (i_resident _ _ Hi _ _ Hp Hu). pose proof (i_resident _ _ Hi _ _ Hp' Hu'). congruence.
Qed.

Lemma flush_frame_spec fd0 s f :
  pool_inv s → 0 <= f < pool_size_ s →
  ∃ s', flush_frame fd0 f s = (Ret tt, s') ∧ pool_inv s' ∧ pool_le s s' ∧
    (∀ j, pins s' j = pins s j) ∧ page_table_ s' = page_table_ s ∧ pool_size_ s' = pool_size_ s ∧
    frame_on_disk fd0 s' f ∧ (∀ g, frame_on_disk fd0 s g → frame_on_disk fd0 s' g) ∧
    frames_le s s'.
Proof.
  intros Hi Hf. destruct (frame s f) as [p|] eqn:Hp.
  2:{ unfold frame in Hp. rewrite (proj2 (Z.leb_le _ _)) in Hp by lia.
      apply lookup_ge_None in Hp. pose proof (i_len _ _ Hi). lia. }
  unfold flush_frame. run (get_page_Some _ _ _ Hp). unfold GetPageId.
  destruct (_ && _) eqn:Hb; simpl when.
  - apply andb_true_iff in Hb as [_ Hu]. apply negb_true_iff, Z.eqb_neq in Hu.
    destruct (flush_run s f p Hi Hp Hu) as (d & Hrun & Hle & Hat).
    destruct (flushed_le s f p d) as [Hpl Hpins]; try done.
    exists (flushed f p d s).
    split_and!; try done; [by apply flushed_inv| | |by apply flushed_frames].
    + intros q. rewrite frame_flushed, decide_True by done. by intros [= <-].
    + intros g Hg q. rewrite frame_flushed by done. case_decide; [by intros [= <-]|].
      intros Hq Hqu Hfd. apply (dl_pages _ _ _ Hle); [|by apply Hg].
      intros Heq. pose proof (i_resident _ _ Hi _ _ Hq Hqu) as H1.
      pose proof (i_resident _ _ Hi _ _ Hp Hu). congruence.
  - exists s. split_and!; try done. intros q Hq Hqu Hfd. simplify_eq.
    rewrite Z.eqb_refl in Hb. simpl in Hb. apply negb_false_iff, Z.eqb_eq in Hb. done.
Qed.

Lemma FlushAllPages_spec fd0 s :
  pool_inv s →
  ∃ s', FlushAllPages fd0 s = (Ret tt, s') ∧ pool_inv s' ∧ pool_le s s' ∧
    (∀ j, pins s' j = pins s j) ∧
    (∀ i x, fd i = fd0 → view s i = Some x → on_disk_at (disk_manager_ s') i = Some x) ∧
    page_table_ s' = page_table_ s ∧ frames_le s s'.
Proof.
  intros Hi.
  assert (Hloop : ∀ n lo s, pool_inv s → 0 <= lo → lo + Z.of_nat n = pool_size_ s →
    (∀ g, 0 <= g < lo → frame_on_disk fd0 s g) →
    ∃ s', for_n lo n (flush_frame fd0) s = (Ret tt, s') ∧ pool_inv s' ∧ pool_le s s' ∧
      (∀ j, pins s' j = pins s j) ∧ page_table_ s' = page_table_ s ∧ frames_le s s' ∧
      ∀ g, 0 <= g < pool_size_ s → frame_on_disk fd0 s' g).
  { clear s Hi. induction n as [|n IH]; intros lo s Hi Hlo Hn Hdone; simpl.
    - exists s. split_and!; try done. intros; apply Hdone; lia.
    - destruct (flush_frame_spec fd0 s lo Hi) as
        (s1 & Hr1 & Hi1 & Hl1 & Hp1 & Ht1 & Hsz1 & Hd1 & Hk1 & Hf1); [lia|].
      run Hr1. destruct (IH (lo + 1) s1 Hi1) as (s2 & Hr2 & Hi2 & Hl2 & Hp2 & Ht2 & Hf2 & Hd2); [lia|lia| |].
      { intros g Hg. destruct (decide (g = lo)) as [->|]; [done|]. apply Hk1, Hdone. lia. }
      exists s2. split_and!; try done; [by etrans|by intros; rewrite Hp2|by rewrite Ht2|by etrans|].
      intros. apply Hd2. lia. }
  destruct (Hloop (Z.to_nat (pool_size_ s)) 0 s Hi) as (s' & Hrun & Hi' & Hle & Hp & Ht & Hfr & Hd);
    [lia|pose proof (i_len _ _ Hi); lia|intros; lia|].
  exists s'. split_and!; [done..| |done|done]. intros i x Hfd Hx.
  pose proof (pl_view _ _ Hle _ _ Hx) as Hx'. unfold view in Hx'.
  destruct (page_table_ s' !! i) as [f|] eqn:Hf; [|done].
  destruct (i_table _ _ Hi' _ _ Hf) as (p & Hpf & <- & Hu).
  rewrite Hpf in Hx'. injection Hx' as <-. apply (Hd f); try done.
  rewrite Ht in Hf. destruct (i_table _ _ Hi _ _ Hf) as (q & Hq%frame_range & _).
  by rewrite <- (i_len _ _ Hi).
Qed.

(** What every write of [FlushAllPages] keeps, the whole keeps. *)
Section flush_disk.
  Context (P : D → Prop) (Q : PageId → Prop) (fd0 : Z).
  Hypothesis Hwrite : ∀ i bs d d', Q i → P d →
    ps_write_page (fd i) (page_no i) bs d = (Ret tt, d') → P d'.

Definition flush_keeps (s : pool) : Prop :=
  P (disk_manager_ s) ∧ ∀ f p, frame s f = Some p → used p → fd (id_ p) = fd0 → Q (id_ p).

Lemma flush_frame_keeps s f s' : flush_keeps s → flush_frame fd0 f s = (Ret tt, s') → flush_keeps s'.
Proof using Hwrite.
  intros [HP HQ]. unfold flush_frame. destruct (frame s f) as [p|] eqn:Hp.
  2:{ unfold bind, get_page. by rewrite Hp. }
  run (get_page_Some _ _ _ Hp). unfold GetPageId.
  destruct (Z.eqb_spec (fd (id_ p)) fd0) as [Hfd|]; simpl; [|by intros [= <-]].
  destruct (Z.eqb_spec (page_no (id_ p)) INVALID_PAGE_ID) as [|Hu]; simpl; [by intros [= <-]|].
  unfold bind at 1. unfold write_back. run (get_page_Some _ _ _ Hp). unfold on_disk, zoom, GetPageId.
  destruct (ps_write_page (fd (id_ p)) (page_no (id_ p)) (data_ p) (disk_manager_ s)) as [r d] eqn:Hw.
  destruct r as [[]| | | |]; try done.
  rewrite (upd_page_Some (set_disk d s) f p) by done. intros [= <-].
  split; [eapply Hwrite; [by apply (HQ f p)|done|exact Hw]|].
  intros g q. rewrite (frame_set_frame (set_disk d s) f p) by done.
  case_decide; [intros [= <-]; subst; by apply (HQ f p)|]. apply HQ.
Qed.

Lemma FlushAllPages_keeps s s' : flush_keeps s → FlushAllPages fd0 s = (Ret tt, s') → flush_keeps s'.
Proof using Hwrite.
  unfold FlushAllPages. rewrite bind_gets. generalize (Z.to_nat (pool_size_ s)) as n, 0 as lo.
  intros n. revert s. induction n as [|n IH]; intros s lo Hk; simpl; [by intros [= <-]|].
  unfold bind. destruct (flush_frame fd0 lo s) as [[[]| | | |] s1] eqn:Hf; try done.
  apply IH. by eapply flush_frame_keeps.
Qed.

End flush_disk.

(** ** Room for one more page *)

Lemma has_frame_unpinned s f p :
  pool_inv s → frame s f = Some p → pin_count_ p = 0 → has_frame s.
Proof.
  intros Hi Hp Hz. destruct (i_unpinned _ _ Hi f p Hp Hz) as [Hf|Hf]; [done| |].
  - left. intros Hn. rewrite Hn in Hf. by apply elem_of_nil in Hf.
  - right. intros Hn. rewrite Hn in Hf. set_solver.
Qed.

Lemma has_frame_inv s :
  pool_inv s → has_frame s → ∃ f p, frame s f = Some p ∧ pin_count_ p = 0.
Proof.
  intros Hi [Hf|He].
  - destruct (free_list_ s) as [|f l] eqn:Hl; [done|].
    destruct (i_free _ _ Hi f) as (_ & p & ? & _ & ?); [rewrite Hl; by left|eauto].
  - apply set_choose_L in He as [f Hf]. destruct (i_evict _ _ Hi f Hf) as (_ & p & ? & _ & ?). eauto.
Qed.

(** Counting: when fewer pages than frames are pinned, a frame is free. *)
Lemma has_frame_pins s (l : list PageId) :
  pool_inv s → (∀ j, pins s j ≠ 0 → j ∈ l) → zlen l < pool_size_ s → has_frame s.
Proof.
  intros Hi Hl Hlen. destruct (decide (has_frame s)) as [|Hno]; [done|exfalso].
  assert (Hall : ∀ k, (k < length (pages_ s))%nat → ∃ p, pages_ s !! k = Some p ∧ id_ p ∈ l).
  { intros k [p Hk]%lookup_lt_is_Some. exists p. split; [done|].
    assert (frame s (Z.of_nat k) = Some p) as Hp.
    { unfold frame. rewrite (proj2 (Z.leb_le _ _)) by lia. by rewrite Nat2Z.id. }
    assert (pin_count_ p ≠ 0) as Hz by (intros Hz; apply Hno; by eapply has_frame_unpinned).
    destruct (decide (page_no (id_ p) = INVALID_PAGE_ID)) as [Hu|Hu].
    - destruct Hz. apply (i_unused _ _ Hi _ _ Hp). intros Hn. exact (Hn Hu).
    - apply Hl. by rewrite (pins_resident s _ _ p (i_resident _ _ Hi _ _ Hp Hu) Hp). }
  assert (NoDup (id_ <$> pages_ s)) as Hnd.
  { apply NoDup_alt. intros a b i Ha Hb.
    rewrite list_lookup_fmap in Ha, Hb.
    destruct (pages_ s !! a) as [p|] eqn:Hpa; [|done].
    destruct (pages_ s !! b) as [q|] eqn:Hqb; [|done].
    assert (frame s (Z.of_nat a) = Some p ∧ frame s (Z.of_nat b) = Some q) as [Hfa Hfb].
    { unfold frame. rewrite !(proj2 (Z.leb_le _ _)) by lia. by rewrite !Nat2Z.id. }
    simpl in Ha, Hb. injection Ha as <-. injection Hb as Hb.
    assert (pin_count_ p ≠ 0 ∧ pin_count_ q ≠ 0) as [Hz1 Hz2].
    { split; intros Hz; apply Hno; eauto using has_frame_unpinned. }
    assert (used p) as Hu1 by (intros Hn; apply Hz1, (i_unused _ _ Hi _ _ Hfa); intros Hu; exact (Hu Hn)).
    assert (used q) as Hu2 by (intros Hn; apply Hz2, (i_unused _ _ Hi _ _ Hfb); intros Hu; exact (Hu Hn)).
    pose proof (i_resident _ _ Hi _ _ Hfa Hu1) as H1. pose proof (i_resident _ _ Hi _ _ Hfb Hu2) as H2.
    rewrite Hb in H2. rewrite H1 in H2. injection H2. lia. }
  assert (id_ <$> pages_ s ⊆+ l) as Hsub%submseteq_length.
  { apply NoDup_submseteq; [done|]. intros i (p & -> & Hp)%list_elem_of_fmap.
    apply list_elem_of_lookup in Hp as [k Hk].
    destruct (Hall k) as (p' & Hp' & ?); [by eapply lookup_lt_Some|]. by simplify_eq. }
  rewrite length_fmap in Hsub. pose proof (i_len _ _ Hi). lia.
Qed.

(** ** [FetchPage], all cases *)

Definition fetchable (s : pool) (i : PageId) : Prop :=
  valid_id (disk_manager_ s) i ∧ (is_Some (page_table_ s !! i) ∨ has_frame s).

Lemma valid_used d i : valid_id d i → page_no i ≠ INVALID_PAGE_ID.
Proof. intros Hv%ps_valid_nonneg. unfold INVALID_PAGE_ID. lia. Qed.

Lemma fetch_ok s i x :
  pool_inv s → fetchable s i → view s i = Some x →
  ∃ f p s', FetchPage i s = (Ret (Some f), s') ∧ pool_inv s' ∧
    pinned_at s' i f p ∧ data_ p = x ∧ kept_saved s s' i p ∧
    pool_le s s' ∧ pins s' i = pins s i + 1 ∧ (∀ j, j ≠ i → pins s' j = pins s j) ∧
    others_le i s s'.
Proof.
  intros Hi [Hv Hr] Hx. destruct (page_table_ s !! i) as [f|] eqn:Ht.
  - destruct (fetch_resident s i f Hi Ht) as (p & s' & Hrun & Hi' & Hat & Hxp & Hrest).
    exists f, p, s'. split_and!; try done; [congruence|apply Hrest..].
  - destruct Hr as [[? ?]|Hr]; [done|]. unfold view in Hx. rewrite Ht in Hx.
    apply fetch_absent; try done. by eapply valid_used.
Qed.

Lemma fetch_full s i :
  pool_inv s → page_table_ s !! i = None → ¬ has_frame s → FetchPage i s = (Ret None, s).
Proof.
  intros Hi Ht Hno. destruct (FindVictimPage_none 0 s Hi Hno) as [v Hv].
  unfold FetchPage. step. rewrite Ht. by run Hv.
Qed.

(** A page the file does not hold yet: the read throws, but the page table
    keeps the entry made before the read, with a frame that is unpinned and
    in neither list. *)
Lemma fetch_missing s i :
  pool_inv s → valid_id (disk_manager_ s) i → free_list_ s ≠ [] →
  page_table_ s !! i = None → on_disk_at (disk_manager_ s) i = None →
  ∃ f buf s', (FetchPage i s = (Throw UnixError, s')) ∧ inv_x (Some f) s' ∧
    page_table_ s' !! i = Some f ∧ frame s' f = Some (mkPage i buf false 0) ∧
    (f ∉ free_list_ s') ∧ (f ∉ evictable (replacer_ s')).
Proof.
  intros Hi Hv Hfree Hn Hx. assert (has_frame s) as Hav by by left.
  destruct (take_frame s i (disk_manager_ s) Hi Hav Hn (valid_used _ _ Hv) Hv (i_disk _ _ Hi)) as
    (f & s1 & s2 & Hf & Hd1 & Hup & Hi2 & Ht2 & Hp2 & Hview & Hpins & Hva & Hnx & Hat & Hsame & _); try done.
  assert (set_disk (disk_manager_ s) s1 = s1) as Heq by (rewrite <- Hd1; by destruct s1).
  rewrite Heq in Hup.
  destruct (ps_read_short (disk_manager_ s2) (fd i) (page_no i) zero_page) as
    (buf & d & Hrd & Hlen & Hd & Hat2 & Hva2); [apply Hi2|by apply Hva|apply zero_page_length|by rewrite Hsame|].
  set (q := mkPage i buf false 0). set (s3 := set_disk d s2).
  assert (frame s3 f = Some (fresh i)) as Hp3 by done.
  exists f, buf, (set_frame f q s3).
  pose proof (λ g, frame_set_frame s3 f (fresh i) q g Hp3) as Hfr.
  assert (inv_x (Some f) s3) as Hi3.
  { apply inv_set_disk; try done; intros j; [|apply Hva2].
    intros y. unfold on_disk_at. by rewrite Hat2. }
  split_and!.
  - unfold FetchPage. step. rewrite Hn. run Hf. simpl. run Hup.
    assert (read_into_frame f i s2 = (Throw UnixError, set_frame f q s3)) as Hr.
    { unfold read_into_frame. rewrite Hp2. simpl. by rewrite Hrd. }
    by apply bind_Throw.
  - split; try apply Hi3; simpl.
    + rewrite length_insert. apply Hi3.
    + intros j g Hg. destruct (i_table _ _ Hi3 _ _ Hg) as (p' & Hp' & Hj & Hu').
      rewrite Hfr. case_decide; [|eauto]. subst. simplify_eq. by exists q.
    + intros g p'. rewrite Hfr. case_decide; [intros [= <-] _; by subst|]. apply (i_resident _ _ Hi3).
    + intros g Hg. destruct (i_free _ _ Hi3 g Hg) as [Hne Hex]. split; [done|].
      rewrite Hfr, decide_False by congruence. done.
    + intros g Hg. destruct (i_evict _ _ Hi3 g Hg) as [Hne Hex]. split; [done|].
      rewrite Hfr, decide_False by congruence. done.
    + intros g p'. rewrite Hfr. case_decide; [intros; congruence|]. apply (i_unpinned _ _ Hi3).
    + intros g p'. rewrite Hfr. case_decide; [|apply (i_page _ _ Hi3)]. by intros [= <-].
    + intros g p'. rewrite Hfr. case_decide; [intros; congruence|].
      intros. by apply (i_clean _ _ Hi3 g p').
    + intros g p'. rewrite Hfr. case_decide; [|apply (i_valid _ _ Hi3)].
      intros [= <-] _. by apply Hva2, Hva.
    + intros g p'. rewrite Hfr. case_decide; [by intros [= <-]|]. apply (i_unused _ _ Hi3).
  - done.
  - by rewrite Hfr, decide_True.
  - intros Hc. by apply (i_free _ _ Hi3) in Hc as [? _].
  - intros Hc. by apply (i_evict _ _ Hi3) in Hc as [? _].
Qed.

(** ** [NewPage] *)

Definition new_id (s : pool) (fd0 : Z) : PageId := mkPageId fd0 (next_page s fd0).

Lemma new_ok s i :
  pool_inv s → has_frame s → page_table_ s !! new_id s (fd i) = None →
  valid_id (disk_manager_ s) (new_id s (fd i)) →
  ∃ f s', NewPage i s = (Ret (Some f, new_id s (fd i)), s') ∧ pool_inv s' ∧
    pinned_at s' (new_id s (fd i)) f (mkPage (new_id s (fd i)) zero_page false 1) ∧
    view_le_except (new_id s (fd i)) s s' ∧
    pins s' (new_id s (fd i)) = 1 ∧ (∀ j, j ≠ new_id s (fd i) → pins s' j = pins s j) ∧
    (∀ j, valid_id (disk_manager_ s') j ↔ valid_id (disk_manager_ s) j) ∧
    (∀ fd0, next_page s' fd0 =
       if decide (fd0 = fd i) then to_s32 (next_page s (fd i) + 1) else next_page s fd0) ∧
    pool_size_ s' = pool_size_ s ∧ others_le (new_id s (fd i)) s s'.
Proof.
  intros Hi Hav Hn Hv. set (ni := new_id s (fd i)) in *.
  destruct (ps_alloc_ok (disk_manager_ s) (fd i)) as (d0 & Hal & Hd0 & Hat0 & Hva0 & Hnx0).
  { apply Hi. }
  { eapply ps_valid_any; [apply Hv|done]. }
  destruct (take_frame s ni d0 Hi Hav Hn (valid_used _ _ Hv) Hv Hd0) as
    (f & s1 & s2 & Hf & Hd1 & Hup & Hi2 & Ht2 & Hp2 & Hview & Hpins & Hva & Hnx & Hat & _ & Hsz & Htl).
  { intros j. apply Hat0. }
  { intros j. apply Hva0. }
  set (q := mkPage ni zero_page false 1).
  destruct (pin_law f (replacer_ s2) (i_repl _ _ Hi2)) as (r & Hpin & Hr & He & Hc).
  exists f, (set_replacer r (set_frame f q s2)).
  assert (∀ j, page_table_ s2 !! j = Some f → j = ni) as Hinj by (intros; by eapply table_inj).
  split_and!.
  - unfold NewPage. run Hf. simpl. rewrite <- Hd1 in Hal.
    run (on_disk_Ret _ _ _ _ Hal). rewrite Hd1. fold (next_page s (fd i)). fold (new_id s (fd i)).
    fold ni. run Hup. run (upd_page_Some s2 f _ (set_pin 1) Hp2).
    erewrite bind_Ret; [done|]. by apply on_replacer_Ret.
  - apply (pinned_inv (Some f) s2 f (fresh ni)); try done; [by right|by eapply valid_used].
  - split_and!; [done| |done].
    change (frame (set_frame f q s2) f = Some q). by rewrite (frame_set_frame s2 f (fresh ni)), decide_True.
  - intros j x Hj Hx. change (view (set_frame f q s2) j = Some x).
    rewrite (view_set_frame s2 f (fresh ni)), decide_False by (try done; by intros ?%Hinj).
    by apply Hview.
  - change (pins (set_frame f q s2) ni = 1). by rewrite (pins_set_frame s2 f (fresh ni)), decide_True.
  - intros j Hj. change (pins (set_frame f q s2) j = pins s j).
    rewrite (pins_set_frame s2 f (fresh ni)), decide_False by (try done; by intros ?%Hinj).
    apply Hpins.
  - apply Hva.
  - intros fd0. etrans; [apply Hnx|apply Hnx0].
  - done.
  - etrans; [exact Htl|]. by eapply (set_frame_others (Some f) s2).
Qed.

Lemma new_full s i : pool_inv s → ¬ has_frame s → NewPage i s = (Ret (None, i), s).
Proof.
  intros Hi Hno. destruct (FindVictimPage_none 0 s Hi Hno) as [v Hv].
  unfold NewPage. by run Hv.
Qed.

(** ** [DeletePage] *)

(** The pool after frame [f], which held the unpinned page [p], was given back. *)
Definition deleted (f : Z) (p : Page) (d : D) (r : R) (s : pool) : pool :=
  set_replacer r (set_free (free_list_ s ++ [f])
    (set_frame f (mkPage (mkPageId (fd (id_ p)) INVALID_PAGE_ID) zero_page false 0)
      (set_disk d (set_table (delete (id_ p) (page_table_ s)) s)))).

Lemma deleted_inv s f p d r :
  pool_inv s → frame s f = Some p → used p → pin_count_ p = 0 →
  disk_le (id_ p) (disk_manager_ s) d →
  repl_inv r → evictable r = evictable (replacer_ s) ∖ {[f]} → capacity r = capacity (replacer_ s) →
  pool_inv (deleted f p d r s).
Proof.
  intros Hi Hp Hu Hz Hd Hr He Hc. set (q := mkPage (mkPageId (fd (id_ p)) INVALID_PAGE_ID) zero_page false 0).
  assert (∀ g, frame (deleted f p d r s) g = if decide (g = f) then Some q else frame s g) as Hfr
    by (intros; by apply (frame_set_frame (set_disk d (set_table _ s)) f p)).
  assert (f ∉ free_list_ s) as Hnf.
  { intros (_ & p' & Hp' & Hnu & _)%(i_free _ _ Hi). by simplify_eq. }
  pose proof (i_resident _ _ Hi _ _ Hp Hu) as Ht.
  assert (used q → False) as Hq by (intros Hq; by apply Hq).
  split; try apply Hd; simpl.
  - rewrite length_insert. apply Hi.
  - intros j g [Hj Hg]%lookup_delete_Some. rewrite Hfr, decide_False; [by apply (i_table _ _ Hi)|].
    intros ->. apply Hj. by eapply table_inj.
  - intros g p'. rewrite Hfr. case_decide; [by intros [= <-] ?%Hq|].
    intros Hp' Hu'. pose proof (i_resident _ _ Hi _ _ Hp' Hu') as Ht'.
    apply lookup_delete_Some. split; [|done]. intros Heq. rewrite Heq in Ht. congruence.
  - rewrite NoDup_snoc. split; [done|apply Hi].
  - intros g Hg. split; [done|]. rewrite Hfr. case_decide; [exists q; by split_and!; [|intros ?%Hq|]|].
    apply elem_of_app in Hg as [Hg| ->%list_elem_of_singleton]; [|done]. by apply (i_free _ _ Hi).
  - done.
  - rewrite Hc. apply Hi.
  - intros g. rewrite He. intros [Hg Hne]%elem_of_difference. split; [done|].
    rewrite Hfr, decide_False by set_solver. by apply (i_evict _ _ Hi).
  - intros g p'. rewrite Hfr, He. case_decide as Hgf.
    + intros _ _ _. left. apply elem_of_app. right. subst. by left.
    + intros Hp' Hz' _. destruct (i_unpinned _ _ Hi _ _ Hp' Hz') as [?|?]; [done| |].
      * left. apply elem_of_app. by left.
      * right. apply elem_of_difference. split; [done|]. by intros ->%elem_of_singleton.
  - intros g p'. rewrite Hfr. case_decide; [|apply (i_page _ _ Hi)].
    intros [= <-]. split; [done|]. apply zero_page_length.
  - intros g p'. rewrite Hfr. case_decide; [by intros [= <-] ?%Hq|].
    intros Hp' Hu' Hz' _ Hdirty. apply (dl_pages _ _ _ Hd).
    + intros Heq. pose proof (i_resident _ _ Hi _ _ Hp' Hu') as Ht'. congruence.
    + by apply (i_clean _ _ Hi g p').
  - intros g p'. rewrite Hfr. case_decide; [by intros [= <-] ?%Hq|].
    intros Hp' Hu'. apply (dl_valid _ _ _ Hd). by apply (i_valid _ _ Hi g p').
  - intros g p'. rewrite Hfr. case_decide; [by intros [= <-]|]. apply (i_unused _ _ Hi).
Qed.

Lemma frame_deleted s f p d r g : frame s f = Some p →
  frame (deleted f p d r s) g =
    if decide (g = f) then Some (mkPage (mkPageId (fd (id_ p)) INVALID_PAGE_ID) zero_page false 0) else frame s g.
Proof. intros Hp. by apply (frame_set_frame (set_disk d (set_table _ s)) f p). Qed.

(** The frame given back held no other page. *)
Lemma deleted_others s f p d r j g :
  pool_inv s → frame s f = Some p → used p → j ≠ id_ p → page_table_ s !! j = Some g →
  page_table_ (deleted f p d r s) !! j = Some g ∧ frame (deleted f p d r s) g = frame s g.
Proof.
  intros Hi Hp Hu Hj Hg. split; [simpl; by rewrite lookup_delete_ne|].
  rewrite (frame_deleted s f p) by done. rewrite decide_False; [done|]. intros ->. apply Hj.
  by apply (table_inj _ _ _ _ _ Hi Hg), (i_resident _ _ Hi).
Qed.

Lemma deleted_le s f p d r :
  pool_inv s → frame s f = Some p → used p → disk_le (id_ p) (disk_manager_ s) d →
  on_disk_at d (id_ p) = Some (data_ p) → pool_le s (deleted f p d r s).
Proof.
  intros Hi Hp Hu Hle Hat. pose proof (i_resident _ _ Hi _ _ Hp Hu) as Ht.
  split; [|apply Hle|apply Hle|done]. intros j x. destruct (decide (j = id_ p)) as [->|Hj].
  - rewrite (view_resident s (id_ p) f p) by done. intros [= <-]. unfold view; simpl. by rewrite lookup_delete_eq.
  - unfold view. destruct (page_table_ s !! j) as [g|] eqn:Hg.
    + destruct (deleted_others s f p d r j g) as [-> ->]; done.
    + simpl. rewrite lookup_delete_ne, Hg by done. by apply (dl_pages _ _ _ Hle).
Qed.

Lemma deleted_others_le s f p d r :
  pool_inv s → frame s f = Some p → used p → pin_count_ p = 0 → disk_le (id_ p) (disk_manager_ s) d →
  others_le (id_ p) s (deleted f p d r s) ∧ ∀ j, pins (deleted f p d r s) j = pins s j.
Proof.
  intros Hi Hp Hu Hz Hle. pose proof (i_resident _ _ Hi _ _ Hp Hu) as Ht. split; [split|].
  - simpl. intros j. destruct (decide (j = id_ p)); [by left|]. rewrite lookup_delete_ne by done. by right.
  - intros j g q Hj (Hg & Hq & Hpos). destruct (deleted_others s f p d r j g) as [H1 H2]; [done..|].
    split; [split_and!; congruence|]. intros [Hs|Hs]; [by left|right]. apply (dl_pages _ _ _ Hle); [|done].
    destruct (i_table _ _ Hi _ _ Hg) as (q' & Hq' & <- & _). by simplify_eq.
  - intros j. destruct (decide (j = id_ p)) as [->|Hj].
    + rewrite (pins_resident s (id_ p) f p), Hz by done. unfold pins. simpl. by rewrite lookup_delete_eq.
    + unfold pins. destruct (page_table_ s !! j) as [g|] eqn:Hg.
      * destruct (deleted_others s f p d r j g) as [-> ->]; done.
      * simpl. by rewrite lookup_delete_ne, Hg.
Qed.

Lemma delete_ok s i f p :
  pool_inv s → page_table_ s !! i = Some f → frame s f = Some p → pin_count_ p = 0 →
  ∃ s', DeletePage i s = (Ret true, s') ∧ pool_inv s' ∧ pool_le s s' ∧
    page_table_ s' = delete i (page_table_ s) ∧ free_list_ s' = free_list_ s ++ [f] ∧
    others_le i s s' ∧ ∀ j, pins s' j = pins s j.
Proof.
  intros Hi Ht Hp Hz. destruct (i_table _ _ Hi _ _ Ht) as (p' & Hp' & <- & Hu). simplify_eq.
  set (s1 := set_table (delete (id_ p) (page_table_ s)) s).
  assert (∃ d, when (is_dirty_ p) (write_back f) s1 = (Ret tt, set_disk d s1) ∧
    disk_le (id_ p) (disk_manager_ s) d ∧ on_disk_at d (id_ p) = Some (data_ p))
    as (d & Hw & Hle & Hat).
  { destruct (is_dirty_ p) eqn:Hdirty; simpl when.
    - destruct (write_disk_le (disk_manager_ s) (id_ p) (data_ p)) as (d & Hw & Hle & Hat);
        [apply Hi|by eapply i_valid|by eapply i_page|].
      exists d. split; [|done]. unfold write_back. run (get_page_Some s1 _ _ Hp).
      by apply on_disk_Ret.
    - exists (disk_manager_ s). split; [by destruct s|].
      split; [apply disk_le_refl, Hi|]. by apply (i_clean _ _ Hi f p). }
  destruct (pin_law f (replacer_ s) (i_repl _ _ Hi)) as (r & Hpin & Hr & He & Hc).
  exists (deleted f p d r s). destruct (deleted_others_le s f p d r) as [Ho Hpins]; [done..|].
  split_and!; [|by apply deleted_inv|by apply deleted_le|done..].
  unfold DeletePage. step. rewrite Ht. run (get_page_Some _ _ _ Hp).
  rewrite (proj2 (Z.ltb_ge _ _)) by lia. step. fold s1. run Hw.
  run (upd_page_Some (set_disk d s1) f p (λ p, set_pin 0 (set_dirty false
    (set_id (mkPageId (fd (GetPageId p)) INVALID_PAGE_ID) (ResetMemory p)))) Hp). step.
  run (on_replacer_Ret (Pin f) (set_free (free_list_ s ++ [f]) (set_frame f
    (mkPage (mkPageId (fd (id_ p)) INVALID_PAGE_ID) zero_page false 0) (set_disk d s1))) tt r Hpin).
  fold (deleted f p d r s).
  by run (on_disk_Ret (ps_deallocate_page (page_no (id_ p))) (deleted f p d r s) tt _
         (ps_dealloc_ok _ _)).
Qed.

Lemma delete_pinned s i f p :
  pinned_at s i f p → DeletePage i s = (Ret false, s).
Proof.
  intros (Ht & Hp & Hz). unfold DeletePage. step. rewrite Ht. run (get_page_Some _ _ _ Hp).
  by rewrite (proj2 (Z.ltb_lt _ _)).
Qed.

Lemma delete_absent s i : page_table_ s !! i = None → DeletePage i s = (Ret true, s).
Proof.
  intros Ht. unfold DeletePage. step. rewrite Ht.
  run (on_disk_Ret _ s tt _ (ps_dealloc_ok (disk_manager_ s) (page_no i))). by destruct s.
Qed.

(** ** A fresh pool *)

Lemma create_pool_inv n junk (d : D) (r : R) :
  0 <= n → ps_inv d → repl_inv r → evictable r = ∅ → n <= capacity r →
  pool_inv (create n junk d r).
Proof.
  intros Hn Hd Hr He Hc.
  assert (Hfr : ∀ f p, frame (create n junk d r) f = Some p ↔
    0 <= f < n ∧ p = new_Page (junk (Z.to_nat f))).
  { intros f p. unfold frame, create; simpl. destruct (Z.leb_spec 0 f); [|split; [done|lia]].
    rewrite list_lookup_fmap. destruct (decide (f < n)).
    - rewrite lookup_seq_lt by lia. simpl. split; [intros [= <-]; auto|by intros [_ ->]].
    - rewrite lookup_seq_ge by lia. simpl. split; [done|lia]. }
  assert (∀ f p, frame (create n junk d r) f = Some p → ¬ used p) as Hnu.
  { intros f p [_ ->]%Hfr Hu. by apply Hu. }
  split; simpl.
  - rewrite length_fmap, length_seq. lia.
  - intros i f. by rewrite lookup_empty.
  - intros f p Hp Hu. by destruct (Hnu _ _ Hp).
  - apply NoDup_seqZ.
  - intros f [? ?]%elem_of_seqZ. split; [done|]. eexists. split; [apply Hfr; split; [lia|done]|].
    split; [|done]. intros Hu. by apply Hu.
  - done.
  - done.
  - rewrite He. set_solver.
  - intros f p [Hf _]%Hfr _ _. left. apply elem_of_seqZ. lia.
  - intros f p [_ ->]%Hfr. split; [done|]. apply zero_page_length.
  - intros f p Hp Hu. by destruct (Hnu _ _ Hp).
  - done.
  - intros f p Hp Hu. by destruct (Hnu _ _ Hp).
  - by intros f p [_ ->]%Hfr.
Qed.

End invariant.
