(* ===== verification/Demo.v ===== *)
(** Concrete machines for the witnesses: an in-memory kernel with one open
    file, a disk manager over it and a small buffer pool.  They model no part
    of the sources; they show that the hypotheses of the theorems can be met,
    by running the definitions. *)
From S2P Require Import Prelude.
From S2P Require Import Defs.
From S2P Require Import Replacer.
From S2P Require Import Disk.
From S2P Require Import ModelFs.
From S2P Require Import BufferPool.
From S2P Require Import BufferPoolProofs.
Import BufferPool.

Module Demo.

(** File [t], inode 0, holding [n] zero pages, open as descriptor 3. *)
Definition fs (n : nat) : ModelFs.t :=
  ModelFs.mk {["t"%string := 0]} {[0 := concat (replicate n zero_page)]} {[3 := (0, 0)]} 1.

Definition disk (n : nat) (next : Z) : DiskManager.t ModelFs.t :=
  DiskManager.mk (fs n) {["t"%string := 3]} {[3 := "t"%string]} (-1) {[3 := next]}.

Definition pool (frames : Z) (n : nat) (next : Z) : t (DiskManager.t ModelFs.t) LRUReplacer.t :=
  BufferPoolManager frames (λ _, 0) (disk n next).

Lemma pages_length n : zlen (concat (replicate n zero_page)) = Z.of_nat n * PAGE_SIZE.
Proof.
  induction n as [|n IH]; [done|]. simpl concat. rewrite length_app.
  pose proof zero_page_length. unfold PAGE_SIZE in *. lia.
Qed.

Lemma ino_3 n : ModelFs.ino (fs n) 3 = Some 0.
Proof. reflexivity. Qed.

Lemma demo_ino_Some n x i : ModelFs.ino (fs n) x = Some i → x = 3 ∧ i = 0.
Proof.
  unfold ModelFs.ino, fs; simpl. destruct (decide (x = 3)) as [->|Hx].
  - rewrite lookup_singleton_eq. by intros [= <-].
  - by rewrite lookup_singleton_ne.
Qed.

Lemma disk_inv n next : ps_inv (disk n next).
Proof.
  split.
  - split; [by intros x i [_ ->]%demo_ino_Some|]. simpl.
    intros p i [_ <-]%lookup_singleton_Some. done.
  - intros a b i [-> _]%demo_ino_Some [-> _]%demo_ino_Some. done.
Qed.

Lemma disk_valid n next p : 0 <= p → valid_id (disk n next) (mkPageId 3 p).
Proof. intros Hp. split; [by exists 0|]. unfold DiskManager.MAX_FD. simpl. lia. Qed.

Lemma replicate_take_drop (k n : nat) :
  (k < n)%nat →
  slice (concat (replicate n zero_page)) (Z.of_nat k * PAGE_SIZE) PAGE_SIZE = zero_page.
Proof.
  intros Hk. replace n with (k + S (n - k - 1))%nat by lia.
  rewrite replicate_add, concat_app. simpl replicate. simpl concat. unfold slice.
  pose proof (pages_length k). pose proof zero_page_length.
  rewrite drop_app_length' by (unfold PAGE_SIZE in *; lia).
  by rewrite take_app_length' by (unfold PAGE_SIZE in *; lia).
Qed.

Lemma disk_page n next p :
  0 <= p < Z.of_nat n → on_disk_at (disk n next) (mkPageId 3 p) = Some zero_page.
Proof.
  intros Hp. unfold on_disk_at. simpl. unfold dm_page_at. simpl.
  rewrite ino_3. simpl. unfold ModelFs.data, fs. simpl.
  rewrite lookup_singleton_eq. simpl. rewrite pages_length.
  rewrite decide_True by (unfold PAGE_SIZE; lia). f_equal.
  rewrite <- (Z2Nat.id p) by lia. apply replicate_take_drop. lia.
Qed.

Lemma disk_no_page n next p :
  Z.of_nat n <= p → on_disk_at (disk n next) (mkPageId 3 p) = None.
Proof.
  intros Hp. unfold on_disk_at. simpl. unfold dm_page_at. simpl.
  rewrite ino_3. simpl. unfold ModelFs.data, fs. simpl.
  rewrite lookup_singleton_eq. simpl. rewrite pages_length.
  rewrite decide_False by (unfold PAGE_SIZE; lia). done.
Qed.

Lemma pool_ok frames n next : 0 <= frames → pool_inv (pool frames n next).
Proof.
  intros Hf. unfold pool, BufferPoolManager. apply create_pool_inv; try done.
  - apply disk_inv.
  - by apply LRUReplacer.create_inv.
Qed.

Lemma pool_view frames n next p :
  0 <= p < Z.of_nat n → view (pool frames n next) (mkPageId 3 p) = Some zero_page.
Proof. intros. unfold view. simpl. rewrite lookup_empty. by apply (disk_page n next). Qed.

Lemma pool_has_frame frames n next : 0 < frames → has_frame (pool frames n next).
Proof.
  intros. left. simpl. rewrite seqZ_cons by done. done.
Qed.

End Demo.
