(* ===== verification/PoolClient.v ===== *)
(** The buffer pool under its clients.

    A client is any sequence of calls that follows the rules the other
    components follow: a page is fetched when the file holds it, written only
    while it is pinned, unpinned by who pinned it, and unpinned clean only
    when nothing would be lost.  The theorems are about every state that such
    a sequence reaches from a new pool, whatever the disk and the replacer
    are, as long as they keep their laws. *)
From S2P Require Import Prelude.
From S2P Require Import Defs.
From S2P Require Import Replacer.
From S2P Require Import Disk.
From S2P Require Import ModelFs.
From S2P Require Import BufferPool.
From S2P Require Import BufferPoolProofs.
From S2P Require Import Demo.
Import BufferPool.

#[local] Open Scope prog_scope.

(** ** The calls of a client *)

Inductive Call :=
  | CFetch (i : PageId)
  | CUnpin (i : PageId) (is_dirty : bool)
  | CNew (i : PageId)
  | CDelete (i : PageId)
  | CFlush (i : PageId)
  | CFlushAll (fd : Z)
  | CWrite (i : PageId) (d : bytes).

Section client.
  Context {D : Type} {PS : PageStore D} {PSL : PageStoreLaws D}
          {R : Type} {RP : Replacer R} {RPL : ReplacerLaws R}.
  Notation pool := (t D R).
  Implicit Types (s : pool) (p : Page) (f : Z) (i j : PageId).

(** The number of the next page is new: its file was never this long. *)
Definition new_number (s : pool) (fd0 : Z) : Prop :=
  page_table_ s !! new_id s fd0 = None ∧ valid_id (disk_manager_ s) (new_id s fd0).

Inductive calls : pool → Call → pool → Prop :=
  | call_fetch s i x r s' :
      valid_id (disk_manager_ s) i → view s i = Some x →
      FetchPage i s = (Ret r, s') → calls s (CFetch i) s'
  | call_unpin s i f p dirty r s' :
      pinned_at s i f p → dirty = true ∨ releasable s p →
      UnpinPage i dirty s = (Ret r, s') → calls s (CUnpin i dirty) s'
  | call_new s i r s' :
      new_number s (fd i) → NewPage i s = (Ret r, s') → calls s (CNew (new_id s (fd i))) s'
  | call_delete s i r s' : DeletePage i s = (Ret r, s') → calls s (CDelete i) s'
  | call_flush s i r s' : FlushPage i s = (Ret r, s') → calls s (CFlush i) s'
  | call_flush_all s fd0 r s' : FlushAllPages fd0 s = (Ret r, s') → calls s (CFlushAll fd0) s'
  | call_write s i f p d r s' :
      pinned_at s i f p → zlen d = PAGE_SIZE →
      store f (λ _, Some d) s = (Ret r, s') → calls s (CWrite i d) s'.

(** A sequence of calls. *)
Inductive runs : pool → list Call → pool → Prop :=
  | runs_nil s : runs s [] s
  | runs_cons s c s1 l s2 : calls s c s1 → runs s1 l s2 → runs s (c :: l) s2.

(** The page a call gives new contents. *)
Definition writes (c : Call) (i : PageId) : Prop :=
  match c with
  | CWrite j _ | CNew j => j = i
  | _ => False
  end.

Lemma fetch_cases s i x :
  pool_inv s → valid_id (disk_manager_ s) i → view s i = Some x →
  (∃ f p s', FetchPage i s = (Ret (Some f), s') ∧ pool_inv s' ∧ pinned_at s' i f p ∧
     data_ p = x ∧ kept_saved s s' i p ∧ pool_le s s' ∧
     pins s' i = pins s i + 1 ∧ (∀ j, j ≠ i → pins s' j = pins s j) ∧ others_le i s s') ∨
  (FetchPage i s = (Ret None, s) ∧ ¬ has_frame s).
Proof.
  intros Hi Hv Hx. destruct (page_table_ s !! i) as [f|] eqn:Ht.
  { left. apply fetch_ok; [done|split; [done|by left; rewrite Ht]|done]. }
  destruct (decide (free_list_ s = [] ∧ evictable (replacer_ s) = ∅)) as [[Hf He]|Hn].
  - right. assert (¬ has_frame s) as Hno by (intros [?|?]; done).
    split; [|done]. by apply fetch_full.
  - left. apply fetch_ok; [done| |done]. split; [done|]. right. unfold has_frame.
    destruct (decide (free_list_ s = [])); [|by left]. right. intros He. by apply Hn.
Qed.

Lemma delete_cases s i :
  pool_inv s → ∃ b s', DeletePage i s = (Ret b, s') ∧ pool_inv s' ∧ pool_le s s'.
Proof.
  intros Hi. destruct (page_table_ s !! i) as [f|] eqn:Ht.
  - destruct (i_table _ _ Hi _ _ Ht) as (p & Hp & _ & _).
    destruct (decide (pin_count_ p = 0)) as [Hz|Hz].
    + destruct (delete_ok s i f p) as (s' & ? & ? & ? & _); eauto.
    + exists false, s. split; [|done]. apply (delete_pinned s i f p). split_and!; try done.
      pose proof (i_page _ _ Hi _ _ Hp). lia.
  - exists true, s. split; [by apply delete_absent|done].
Qed.

Lemma flush_cases s i :
  pool_inv s → ∃ b s', FlushPage i s = (Ret b, s') ∧ pool_inv s' ∧ pool_le s s'.
Proof.
  intros Hi. destruct (page_table_ s !! i) as [f|] eqn:Ht.
  - destruct (i_table _ _ Hi _ _ Ht) as (p & Hp & _ & _).
    destruct (FlushPage_spec s i f (data_ p)) as (s' & ? & ? & ? & _); eauto.
    by apply (view_resident s i f p).
  - exists false, s. split; [|done]. unfold FlushPage. step. by rewrite Ht.
Qed.

Lemma new_cases s i :
  pool_inv s → new_number s (fd i) →
  (∃ f s', NewPage i s = (Ret (Some f, new_id s (fd i)), s') ∧ pool_inv s' ∧
     pinned_at s' (new_id s (fd i)) f (mkPage (new_id s (fd i)) zero_page false 1) ∧
     view_le_except (new_id s (fd i)) s s' ∧
     (∀ fd0, next_page s' fd0 =
        if decide (fd0 = fd i) then to_s32 (next_page s (fd i) + 1) else next_page s fd0)) ∨
  (NewPage i s = (Ret (None, i), s) ∧ ¬ has_frame s).
Proof.
  intros Hi [Hn Hv].
  destruct (decide (free_list_ s = [] ∧ evictable (replacer_ s) = ∅)) as [[Hf He]|Hno].
  - right. assert (¬ has_frame s) as Hno by (intros [?|?]; done).
    split; [|done]. by apply new_full.
  - left. destruct (new_ok s i) as (f & s' & H); try done.
    + unfold has_frame. destruct (decide (free_list_ s = [])); [|by left].
      right. intros He. by apply Hno.
    + exists f, s'. destruct H as (? & ? & ? & ? & _ & _ & _ & ? & _). by split_and!.
Qed.

(** One call keeps the invariant and the contents it does not write. *)
Lemma calls_ok s c s' :
  calls s c s' → pool_inv s →
  pool_inv s' ∧ ∀ i x, ¬ writes c i → view s i = Some x → view s' i = Some x.
Proof.
  intros Hc Hi. destruct Hc as [s i x r s' Hv Hx Hr|s i f p dirty r s' Hat Hrel Hr|s i r s' Hn Hr
    |s i r s' Hr|s i r s' Hr|s fd0 r s' Hr|s i f p d r s' Hat Hd Hr].
  - destruct (fetch_cases s i x Hi Hv Hx) as [(f & p & s1 & Hr' & Hi' & _ & _ & _ & Hle & _)|[Hr' _]];
      rewrite Hr in Hr'; injection Hr' as -> ->; split; try done.
    intros j y _. apply (pl_view _ _ Hle).
  - destruct (UnpinPage_spec s i f p dirty) as (s1 & Hr' & Hi' & Hle & _); try done.
    rewrite Hr in Hr'. injection Hr' as -> ->. split; [done|]. intros j y _. apply (pl_view _ _ Hle).
  - destruct (new_cases s i Hi Hn) as [(f & s1 & Hr' & Hi' & _ & Hle & _)|[Hr' _]];
      rewrite Hr in Hr'; injection Hr' as -> ->; split; try done.
    intros j y Hj. apply Hle. intros ->. by apply Hj.
  - destruct (delete_cases s i Hi) as (b & s1 & Hr' & Hi' & Hle).
    rewrite Hr in Hr'. injection Hr' as -> ->. split; [done|]. intros j y _. apply (pl_view _ _ Hle).
  - destruct (flush_cases s i Hi) as (b & s1 & Hr' & Hi' & Hle).
    rewrite Hr in Hr'. injection Hr' as -> ->. split; [done|]. intros j y _. apply (pl_view _ _ Hle).
  - destruct (FlushAllPages_spec fd0 s Hi) as (s1 & Hr' & Hi' & Hle & _).
    rewrite Hr in Hr'. injection Hr' as -> ->. split; [done|]. intros j y _. apply (pl_view _ _ Hle).
  - destruct (store_spec s i f p (λ _, Some d) d) as (s1 & Hr' & Hi' & _ & _ & Hoth & _); try done.
    rewrite Hr in Hr'. injection Hr' as -> ->. split; [done|].
    intros j y Hj Hy. rewrite Hoth; [done|]. intros ->. by apply Hj.
Qed.

Lemma runs_ok s l s' :
  runs s l s' → pool_inv s →
  pool_inv s' ∧ ∀ i x, Forall (λ c, ¬ writes c i) l → view s i = Some x → view s' i = Some x.
Proof.
  induction 1 as [s|s c s1 l s2 Hc Hl IH]; intros Hi; [done|].
  destruct (calls_ok s c s1 Hc Hi) as [Hi1 Hv1]. destruct (IH Hi1) as [Hi2 Hv2].
  split; [done|]. intros i x [Hw Hws]%Forall_cons Hx. eauto.
Qed.

End client.

Section theorems.
  Context {D : Type} {PS : PageStore D} {PSL : PageStoreLaws D}
          {R : Type} {RP : Replacer R} {RPL : ReplacerLaws R}.
  Notation pool := (t D R).
  Implicit Types (s : pool) (p : Page) (f : Z) (i j : PageId).

(** C2: From a new pool, every sequence of client calls keeps the invariant:
    the page table and the frames agree, no frame is lost or in two lists, a
    free or evictable frame is unpinned, and an unpinned clean page equals its
    copy on disk. *)
Theorem pool_reachable_inv n junk (d : D) (r : R) l s :
  0 <= n → ps_inv d → repl_inv r → evictable r = ∅ → n <= capacity r →
  runs (create n junk d r) l s → pool_inv s.
Proof. intros. eapply runs_ok; [done|]. by apply create_pool_inv. Qed.

(** C1: No lost update: after a write to a page, whatever fetches, evictions,
    unpins, deletes, flushes and writes to other pages follow, the page still
    has the bytes written, in its frame or on disk. *)
Theorem last_write_wins s i d l s' :
  pool_inv s → runs s (CWrite i d :: l) s' → Forall (λ c, ¬ writes c i) l →
  view s' i = Some d.
Proof.
  intros Hi Hr Hl. inversion Hr as [|? ? s1 ? ? Hw Hl']; subst.
  destruct (calls_ok s (CWrite i d) s1 Hw Hi) as [Hi1 _].
  apply (runs_ok s1 l s'); [done..|].
  inversion Hw as [| | | | | |? ? f p ? r ? Hat Hd Hst]; subst.
  destruct (store_spec s i f p (λ _, Some d) d) as (s2 & Hst' & _ & _ & Hv & _); try done.
  rewrite Hst in Hst'. by injection Hst' as -> ->.
Qed.

(** C3: [FetchPage] of a page of the file returns a pinned frame that holds
    the contents of the page, with one more pin on that page and no change to
    any other page; it returns [nullptr], with the pool unchanged, exactly
    when the page is not resident and every frame is pinned. *)
Theorem FetchPage_correct s i x :
  pool_inv s → valid_id (disk_manager_ s) i → view s i = Some x →
  (∃ f p s', FetchPage i s = (Ret (Some f), s') ∧ pool_inv s' ∧
     page_table_ s' !! i = Some f ∧ frame s' f = Some p ∧ id_ p = i ∧ data_ p = x ∧
     (∀ j y, view s j = Some y → view s' j = Some y) ∧
     pins s' i = pins s i + 1 ∧ (∀ j, j ≠ i → pins s' j = pins s j)) ∨
  (FetchPage i s = (Ret None, s) ∧ page_table_ s !! i = None ∧
     ∀ f p, frame s f = Some p → 0 < pin_count_ p).
Proof.
  intros Hi Hv Hx.
  destruct (fetch_cases s i x Hi Hv Hx) as [(f & p & s' & Hr & Hi' & Hat & Hd & _ & Hle & Hp1 & Hp2 & _)|[Hr Hno]].
  - left. exists f, p, s'. destruct Hat as (Ht & Hp & _).
    destruct (i_table _ _ Hi' _ _ Ht) as (q & Hq & Hid & _). rewrite Hp in Hq. injection Hq as <-.
    split_and!; try done. apply Hle.
  - right. split; [done|]. split.
    + destruct (page_table_ s !! i) as [f|] eqn:Ht; [exfalso|done].
      destruct (fetch_resident s i f Hi Ht) as (p & s' & Hr' & _). rewrite Hr in Hr'. done.
    + intros f p Hp. destruct (i_page _ _ Hi _ _ Hp) as [Hz _].
      destruct (decide (pin_count_ p = 0)); [|lia]. destruct Hno. by eapply has_frame_unpinned.
Qed.

(** C4: [NewPage] gives the next page number of the file to a pinned page of
    zeros and advances the counter (with the wrap-around of [int]); the other
    pages keep their contents; it fails only when every frame is pinned. *)
Theorem NewPage_correct s i :
  pool_inv s → new_number s (fd i) →
  (∃ f s', NewPage i s = (Ret (Some f, mkPageId (fd i) (next_page s (fd i))), s') ∧ pool_inv s' ∧
     view s' (mkPageId (fd i) (next_page s (fd i))) = Some zero_page ∧
     pins s' (mkPageId (fd i) (next_page s (fd i))) = 1 ∧
     next_page s' (fd i) = to_s32 (next_page s (fd i) + 1) ∧
     ∀ j x, j ≠ mkPageId (fd i) (next_page s (fd i)) → view s j = Some x → view s' j = Some x) ∨
  (NewPage i s = (Ret (None, i), s) ∧ ∀ f p, frame s f = Some p → 0 < pin_count_ p).
Proof.
  intros Hi Hn.
  destruct (new_cases s i Hi Hn) as [(f & s' & Hr & Hi' & Hat & Hle & Hnx)|[Hr Hno]].
  - left. exists f, s'. destruct Hat as (Ht & Hp & _). split_and!; try done.
    + by apply (view_resident s' _ f _ Ht Hp).
    + apply (pins_resident s' _ f _ Ht Hp).
    + by rewrite Hnx, decide_True.
  - right. split; [done|]. intros f p Hp. destruct (i_page _ _ Hi _ _ Hp) as [Hz _].
    destruct (decide (pin_count_ p = 0)); [|lia]. destruct Hno. by eapply has_frame_unpinned.
Qed.

(** C5: After [FlushAllPages fd], every page of the file that has contents has
    them on disk, and no contents, pin or page number has changed. *)
Theorem FlushAllPages_durable s fd0 :
  pool_inv s →
  ∃ s', FlushAllPages fd0 s = (Ret tt, s') ∧ pool_inv s' ∧ pool_le s s' ∧
    (∀ j, pins s' j = pins s j) ∧
    ∀ i x, fd i = fd0 → view s i = Some x → on_disk_at (disk_manager_ s') i = Some x.
Proof.
  intros Hi. destruct (FlushAllPages_spec fd0 s Hi) as (s' & ? & ? & ? & ? & ? & _). by exists s'.
Qed.

(** [DeletePage] refuses a pinned page and changes nothing; an unpinned
    resident page leaves the page table, its frame goes to the end of the
    free list, and its contents are on disk. *)
Theorem DeletePage_correct s i f p :
  pool_inv s → page_table_ s !! i = Some f → frame s f = Some p →
  (0 < pin_count_ p ∧ DeletePage i s = (Ret false, s)) ∨
  (pin_count_ p = 0 ∧ ∃ s', DeletePage i s = (Ret true, s') ∧ pool_inv s' ∧
     page_table_ s' = delete i (page_table_ s) ∧ free_list_ s' = free_list_ s ++ [f] ∧
     on_disk_at (disk_manager_ s') i = Some (data_ p) ∧
     ∀ j x, view s j = Some x → view s' j = Some x).
Proof.
  intros Hi Ht Hp. pose proof (i_page _ _ Hi _ _ Hp) as [Hz _].
  destruct (decide (pin_count_ p = 0)) as [Hz'|Hz'].
  - right. split; [done|]. destruct (delete_ok s i f p) as (s' & Hr & Hi' & Hle & Ht' & Hf' & _); try done.
    exists s'. split_and!; try done; [|apply Hle].
    pose proof (pl_view _ _ Hle i (data_ p)) as Hv. unfold view in Hv at 2.
    rewrite Ht', lookup_delete_eq in Hv. apply Hv. by apply (view_resident s i f).
  - left. split; [lia|]. apply (delete_pinned s i f p). split_and!; [done..|lia].
Qed.

(** C6: When the file ends before the page, [FetchPage] throws but leaves the
    page in the page table, with an unpinned frame that is in neither the free
    list nor the replacer; the next [FetchPage] of that page succeeds and
    returns a page that was never read. *)
Theorem FetchPage_failed_read s i :
  pool_inv s → valid_id (disk_manager_ s) i → free_list_ s ≠ [] →
  page_table_ s !! i = None → on_disk_at (disk_manager_ s) i = None →
  ∃ f buf s1 s2, (FetchPage i s = (Throw UnixError, s1)) ∧
    page_table_ s1 !! i = Some f ∧ frame s1 f = Some (mkPage i buf false 0) ∧
    (f ∉ free_list_ s1) ∧ (f ∉ evictable (replacer_ s1)) ∧ ¬ pool_inv s1 ∧
    FetchPage i s1 = (Ret (Some f), s2) ∧ frame s2 f = Some (mkPage i buf false 1).
Proof.
  intros Hi Hv Hfree Ht Hd.
  destruct (fetch_missing s i) as (f & buf & s1 & Hr & Hi1 & Ht1 & Hp1 & Hnf & Hne); try done.
  destruct (pin_law f (replacer_ s1) (i_repl _ _ Hi1)) as (r & Hpin & _).
  exists f, buf, s1, (set_replacer r (set_frame f (mkPage i buf false 1) s1)). split_and!; try done.
  - intros Hi'. destruct (i_unpinned _ _ Hi' f _ Hp1); done.
  - unfold FetchPage. step. rewrite Ht1.
    run (upd_page_Some s1 f _ (λ p, set_pin (pin_count_ p + 1) p) Hp1).
    erewrite bind_Ret; [done|]. by apply on_replacer_Ret.
  - change (frame (set_frame f (mkPage i buf false 1) s1) f = Some (mkPage i buf false 1)).
    by rewrite (frame_set_frame s1 f _ _ f Hp1), decide_True.
Qed.

End theorems.

(** ** Witnesses *)

Lemma demo_fetch :
  ∃ f p s, FetchPage (mkPageId 3 0) (Demo.pool 2 2 2) = (Ret (Some f), s) ∧ pool_inv s ∧
    pinned_at s (mkPageId 3 0) f p.
Proof.
  destruct (fetch_ok (Demo.pool 2 2 2) (mkPageId 3 0) zero_page) as (f & p & s & H1 & H2 & H3 & _).
  - by apply Demo.pool_ok.
  - split; [by apply Demo.disk_valid|]. right. by apply Demo.pool_has_frame.
  - by apply Demo.pool_view.
  - by exists f, p, s.
Qed.

Lemma pool_reachable_inv_witness :
  ∃ s, runs (Demo.pool 2 2 2) [CFetch (mkPageId 3 0); CFlushAll 3] s ∧ pool_inv s.
Proof.
  destruct demo_fetch as (f & p & s & Hr & Hi & _).
  destruct (FlushAllPages_spec 3 s Hi) as (s2 & Hf & _).
  assert (runs (Demo.pool 2 2 2) [CFetch (mkPageId 3 0); CFlushAll 3] s2) as Hruns.
  { eapply runs_cons; [eapply (call_fetch _ _ zero_page); [..|exact Hr]|].
    - by apply Demo.disk_valid.
    - by apply Demo.pool_view.
    - eapply runs_cons; [by eapply call_flush_all|]. apply runs_nil. }
  exists s2. split; [exact Hruns|].
  eapply (pool_reachable_inv 2 (λ _, 0) (Demo.disk 2 2) (choose_replacer REPLACER_TYPE 2)).
  - done.
  - apply Demo.disk_inv.
  - by apply LRUReplacer.create_inv.
  - done.
  - done.
  - exact Hruns.
Defined.

Definition demo_page : bytes := replicate 4096 7.

Lemma last_write_wins_witness :
  ∃ s s' : t (DiskManager.t ModelFs.t) LRUReplacer.t, runs s [CWrite (mkPageId 3 0) demo_page; CUnpin (mkPageId 3 0) true; CFlushAll 3] s' ∧
    view s' (mkPageId 3 0) = Some demo_page.
Proof.
  destruct demo_fetch as (f & p & s & _ & Hi & Hat).
  destruct (store_spec s _ f p (λ _, Some demo_page) demo_page Hi Hat) as
    (s1 & Hw & Hi1 & Hat1 & _); [done..|].
  destruct (UnpinPage_spec s1 _ f _ true Hi1 Hat1) as (s2 & Hu & Hi2 & _); [by left|].
  destruct (FlushAllPages_spec 3 s2 Hi2) as (s3 & Hf & _).
  exists s, s3. assert (runs s [CWrite (mkPageId 3 0) demo_page; CUnpin (mkPageId 3 0) true; CFlushAll 3] s3) as Hr.
  { eapply runs_cons; [by eapply call_write|].
    eapply runs_cons; [eapply call_unpin; [done|by left|done]|].
    eapply runs_cons; [by eapply call_flush_all|]. apply runs_nil. }
  split; [exact Hr|]. eapply last_write_wins; [exact Hi|exact Hr|].
  repeat constructor; simpl; by intros [].
Defined.

Lemma FetchPage_correct_witness :
  (∃ f p s', FetchPage (mkPageId 3 1) (Demo.pool 2 2 2) = (Ret (Some f), s') ∧ pool_inv s' ∧
     page_table_ s' !! mkPageId 3 1 = Some f ∧ frame s' f = Some p ∧ id_ p = mkPageId 3 1 ∧
     data_ p = zero_page ∧
     (∀ j y, view (Demo.pool 2 2 2) j = Some y → view s' j = Some y) ∧
     pins s' (mkPageId 3 1) = pins (Demo.pool 2 2 2) (mkPageId 3 1) + 1 ∧
     (∀ j, j ≠ mkPageId 3 1 → pins s' j = pins (Demo.pool 2 2 2) j)) ∨
  (FetchPage (mkPageId 3 1) (Demo.pool 2 2 2) = (Ret None, Demo.pool 2 2 2) ∧
     page_table_ (Demo.pool 2 2 2) !! mkPageId 3 1 = None ∧
     ∀ f p, frame (Demo.pool 2 2 2) f = Some p → 0 < pin_count_ p).
Proof.
  apply FetchPage_correct.
  - by apply Demo.pool_ok.
  - by apply Demo.disk_valid.
  - by apply Demo.pool_view.
Defined.

Lemma demo_new_number : new_number (Demo.pool 2 2 2) 3.
Proof. split; [done|]. by apply Demo.disk_valid. Qed.

Lemma NewPage_correct_witness :
  (∃ f s', NewPage (mkPageId 3 (-1)) (Demo.pool 2 2 2) = (Ret (Some f, mkPageId 3 2), s') ∧
     pool_inv s' ∧ view s' (mkPageId 3 2) = Some zero_page ∧ pins s' (mkPageId 3 2) = 1 ∧
     next_page s' 3 = 3 ∧
     ∀ j x, j ≠ mkPageId 3 2 → view (Demo.pool 2 2 2) j = Some x → view s' j = Some x) ∨
  (NewPage (mkPageId 3 (-1)) (Demo.pool 2 2 2) = (Ret (None, mkPageId 3 (-1)), Demo.pool 2 2 2) ∧
     ∀ f p, frame (Demo.pool 2 2 2) f = Some p → 0 < pin_count_ p).
Proof.
  pose proof (NewPage_correct (Demo.pool 2 2 2) (mkPageId 3 (-1))
                (Demo.pool_ok 2 2 2 ltac:(lia)) demo_new_number) as H.
  change (fd (mkPageId 3 (-1))) with 3 in H.
  assert (next_page (Demo.pool 2 2 2) 3 = 2) as Hn by done. rewrite Hn in H. exact H.
Defined.

Lemma FlushAllPages_durable_witness :
  ∃ s', FlushAllPages 3 (Demo.pool 2 2 2) = (Ret tt, s') ∧ pool_inv s' ∧
    pool_le (Demo.pool 2 2 2) s' ∧
    (∀ j, pins s' j = pins (Demo.pool 2 2 2) j) ∧
    ∀ i x, fd i = 3 → view (Demo.pool 2 2 2) i = Some x → on_disk_at (disk_manager_ s') i = Some x.
Proof. apply FlushAllPages_durable. by apply Demo.pool_ok. Defined.

Lemma DeletePage_correct_witness :
  ∃ (s : t (DiskManager.t ModelFs.t) LRUReplacer.t) f p, (0 < pin_count_ p ∧ DeletePage (mkPageId 3 0) s = (Ret false, s)) ∨
  (pin_count_ p = 0 ∧ ∃ s', DeletePage (mkPageId 3 0) s = (Ret true, s') ∧ pool_inv s' ∧
     page_table_ s' = delete (mkPageId 3 0) (page_table_ s) ∧ free_list_ s' = free_list_ s ++ [f] ∧
     on_disk_at (disk_manager_ s') (mkPageId 3 0) = Some (data_ p) ∧
     ∀ j x, view s j = Some x → view s' j = Some x).
Proof.
  destruct demo_fetch as (f & p & s & _ & Hi & (Ht & Hp & _)).
  exists s, f, p. apply DeletePage_correct; [exact Hi|exact Ht|exact Hp].
Defined.

Lemma FetchPage_failed_read_witness :
  ∃ f buf s1 s2, (FetchPage (mkPageId 3 5) (Demo.pool 2 2 2) = (Throw UnixError, s1)) ∧
    page_table_ s1 !! mkPageId 3 5 = Some f ∧ frame s1 f = Some (mkPage (mkPageId 3 5) buf false 0) ∧
    (f ∉ free_list_ s1) ∧ (f ∉ evictable (replacer_ s1)) ∧ ¬ pool_inv s1 ∧
    FetchPage (mkPageId 3 5) s1 = (Ret (Some f), s2) ∧
    frame s2 f = Some (mkPage (mkPageId 3 5) buf false 1).
Proof.
  apply FetchPage_failed_read.
  - by apply Demo.pool_ok.
  - by apply Demo.disk_valid.
  - done.
  - done.
  - by apply (Demo.disk_no_page 2 2 5).
Defined.
