(* ===== verification/PoolSpec.v ===== *)
(** The abstract buffer pool: what the record and index files rely on.

    [Abs] is the state a client of the pool thinks of: the contents of every
    page that exists, the pages it holds with their frames and pins, the held
    pages it changed without saying so yet, the page counters and the open
    files.  [repr s a] relates a concrete pool to it, and one lemma per method
    shows that the method acts on [Abs] as a map operation.  The proofs of the
    clients use only these lemmas. *)
From S2P Require Import Prelude.
From S2P Require Import Defs.
From S2P Require Import Replacer.
From S2P Require Import Disk.
From S2P Require Import BufferPool.
From S2P Require Import BufferPoolProofs.
Import BufferPool.

#[local] Open Scope prog_scope.

Record Abs := mkAbs {
  a_view : gmap PageId bytes;
  (** held pages: frame and number of pins *)
  a_held : gmap PageId (Z * Z);
  (** held pages changed since they were last marked dirty *)
  a_mod : gset PageId;
  a_next : Z → Z;
  a_open : gset Z;
  a_size : Z
}.

(** ** The operations on the abstract state *)

Definition a_hold (i : PageId) (f n : Z) (a : Abs) : Abs :=
  mkAbs (a_view a) (<[i := (f, n)]> (a_held a)) (a_mod a) (a_next a) (a_open a) (a_size a).

Definition a_write (i : PageId) (d : bytes) (a : Abs) : Abs :=
  mkAbs (<[i := d]> (a_view a)) (a_held a) ({[i]} ∪ a_mod a) (a_next a) (a_open a) (a_size a).

Definition a_release (i : PageId) (f n : Z) (dirty : bool) (a : Abs) : Abs :=
  mkAbs (a_view a)
    (if decide (n = 1) then delete i (a_held a) else <[i := (f, n - 1)]> (a_held a))
    (if dirty then a_mod a ∖ {[i]} else a_mod a) (a_next a) (a_open a) (a_size a).

Definition a_new_id (fd0 : Z) (a : Abs) : PageId := mkPageId fd0 (a_next a fd0).

Definition a_alloc (fd0 f : Z) (a : Abs) : Abs :=
  mkAbs (<[a_new_id fd0 a := zero_page]> (a_view a)) (<[a_new_id fd0 a := (f, 1)]> (a_held a))
    ({[a_new_id fd0 a]} ∪ a_mod a)
    (λ x, if decide (x = fd0) then to_s32 (a_next a fd0 + 1) else a_next a x)
    (a_open a) (a_size a).

(** Pins of a page. *)
Definition a_pins (i : PageId) (a : Abs) : Z := default 0 (snd <$> a_held a !! i).

(** A frame can be found for page [i]. *)
Definition a_room (i : PageId) (a : Abs) : Prop :=
  is_Some (a_held a !! i) ∨ Z.of_nat (size (a_held a)) < a_size a.

Section repr.
  Context {D : Type} {PS : PageStore D} {PSL : PageStoreLaws D}
          {R : Type} {RP : Replacer R} {RPL : ReplacerLaws R}.
  Notation pool := (t D R).
  Implicit Types (s : pool) (p : Page) (f : Z) (i j : PageId) (a : Abs).

Record repr s a : Prop := {
  r_inv : pool_inv s;
  r_view i x : a_view a !! i = Some x → view s i = Some x ∧ valid_id (disk_manager_ s) i;
  r_table i : is_Some (page_table_ s !! i) → is_Some (a_view a !! i);
  r_held i f n : a_held a !! i = Some (f, n) →
    page_table_ s !! i = Some f ∧ pins s i = n ∧ 0 < n ∧ is_Some (a_view a !! i);
  r_pins i : a_held a !! i = None → pins s i = 0;
  r_rel i f n p : a_held a !! i = Some (f, n) → frame s f = Some p → i ∉ a_mod a →
    saved s p;
  r_next fd0 : next_page s fd0 = a_next a fd0;
  r_open fd0 : fd0 ∈ a_open a → ps_valid (disk_manager_ s) fd0 0;
  r_size : pool_size_ s = a_size a;
  r_mod i : i ∈ a_mod a → is_Some (a_held a !! i)
}.

(** The frame of a held page. *)
Lemma held_page s a i f n x :
  repr s a → a_held a !! i = Some (f, n) → a_view a !! i = Some x →
  ∃ p, pinned_at s i f p ∧ id_ p = i ∧ data_ p = x ∧ pin_count_ p = n ∧ zlen x = PAGE_SIZE.
Proof.
  intros Hr Hh Hv. destruct (r_held _ _ Hr _ _ _ Hh) as (Ht & Hp & Hpos & _).
  destruct (i_table _ _ (r_inv _ _ Hr) _ _ Ht) as (p & Hpf & Hid & _).
  destruct (r_view _ _ Hr _ _ Hv) as [Hx _].
  rewrite (view_resident s i f p) in Hx by done. injection Hx as <-.
  rewrite (pins_resident s i f p) in Hp by done. subst n.
  exists p. split_and!; try done. by apply (i_page _ _ (r_inv _ _ Hr) f).
Qed.

Lemma repr_length s a i x : repr s a → a_view a !! i = Some x → zlen x = PAGE_SIZE.
Proof.
  intros Hr Hv. destruct (r_view _ _ Hr _ _ Hv) as [Hx _]. unfold view in Hx.
  destruct (page_table_ s !! i) as [f|].
  - destruct (frame s f) as [p|] eqn:Hp; [|done]. injection Hx as <-.
    by apply (i_page _ _ (r_inv _ _ Hr) f).
  - by eapply page_at_length.
Qed.

Lemma repr_room s a i :
  repr s a → a_room i a → is_Some (page_table_ s !! i) ∨ has_frame s.
Proof.
  intros Hr [[[f n] Hh]|Hsz].
  - left. apply (r_held _ _ Hr) in Hh as [? _]. eauto.
  - right. apply (has_frame_pins s (elements (dom (a_held a)))).
    + apply Hr.
    + intros j Hj. apply elem_of_elements, elem_of_dom.
      destruct (a_held a !! j) eqn:Hh; [eauto|]. by destruct Hj; apply (r_pins _ _ Hr).
    + rewrite <- (size_dom (D := gset PageId)) in Hsz. rewrite (r_size _ _ Hr).
      unfold size, set_size in Hsz. simpl in Hsz. done.
Qed.

(** The other held pages survive a method on page [i]. *)
Lemma held_others s s' a i j f n :
  repr s a → others_le i s s' → j ≠ i → (∀ k, k ≠ i → pins s' k = pins s k) →
  a_held a !! j = Some (f, n) →
  page_table_ s' !! j = Some f ∧ pins s' j = n ∧ 0 < n ∧ is_Some (a_view a !! j) ∧
  (∀ p, frame s' f = Some p → j ∉ a_mod a → saved s' p).
Proof.
  intros Hr Ho Hj Hp Hh. destruct (r_held _ _ Hr _ _ _ Hh) as (Ht & Hn & Hpos & Hv).
  destruct Hv as [x Hx]. destruct (held_page s a j f n x Hr Hh Hx) as (q & Hat & _).
  destruct (ol_pinned _ _ _ Ho j f q Hj Hat) as [(Ht' & Hq' & _) Hrel].
  split_and!; try done.
  - by rewrite Hp.
  - intros p Hp' Hm. rewrite Hq' in Hp'. injection Hp' as <-. apply Hrel. destruct Hat as (_ & Hq & _).
    by apply (r_rel _ _ Hr j f n).
Qed.

Lemma a_pins_spec s a i : repr s a → a_pins i a = pins s i.
Proof.
  intros Hr. unfold a_pins. destruct (a_held a !! i) as [[g n]|] eqn:Hh; simpl.
  - by apply (r_held _ _ Hr) in Hh as (_ & -> & _).
  - symmetry. by apply (r_pins _ _ Hr).
Qed.

(** ** [FetchPage] *)

Lemma repr_fetch s a i x :
  repr s a → a_view a !! i = Some x → a_room i a →
  ∃ f s', FetchPage i s = (Ret (Some f), s') ∧ repr s' (a_hold i f (a_pins i a + 1) a).
Proof.
  intros Hr Hv Hroom. destruct (r_view _ _ Hr _ _ Hv) as [Hx Hval].
  destruct (fetch_ok s i x) as
    (f & p & s' & Hrun & Hi' & Hat & Hdat & Hrel & Hle & Hp1 & Hp2 & Ho); [apply Hr| |done|].
  { split; [done|]. by eapply repr_room. }
  exists f, s'. split; [done|]. destruct Hat as (Ht & Hp & Hpos).
  rewrite <- (a_pins_spec s a i Hr) in Hp1.
  split; simpl.
  - done.
  - intros j y Hy. destruct (r_view _ _ Hr _ _ Hy). split; [by apply (pl_view _ _ Hle)|].
    by apply (pl_valid _ _ Hle).
  - intros j Hj. destruct (ol_table _ _ _ Ho j Hj) as [->|Hj']; [eauto|by apply (r_table _ _ Hr)].
  - intros j g n [[<- [= <- <-]]|[Hne Hh]]%lookup_insert_Some.
    + split_and!; [done|done| |by exists x]. rewrite (pins_resident s' i f p) in Hp1 by done. lia.
    + by destruct (held_others s s' a i j g n) as (? & ? & ? & ? & _).
  - intros j [Hh Hne]%lookup_insert_None. rewrite Hp2 by done. by apply (r_pins _ _ Hr).
  - intros j g n q [[<- [= <- <-]]|[Hne Hh]]%lookup_insert_Some Hq Hm.
    { rewrite Hp in Hq. injection Hq as <-. destruct Hrel as [Hsv Hz]. destruct (a_held a !! i) as [[g m]|] eqn:Hh.
      - destruct (held_page s a i g m x Hr Hh Hv) as (q0 & Hat0 & _).
        apply (Hsv g q0 Hat0). destruct Hat0 as (_ & Hq0 & _). by apply (r_rel _ _ Hr i g m).
      - apply Hz. by apply (r_pins _ _ Hr). }
    destruct (held_others s s' a i j g n) as (_ & _ & _ & _ & H); auto.
  - intros fd0. rewrite (pl_next _ _ Hle). apply (r_next _ _ Hr).
  - intros fd0 Hfd. by apply (pl_valid _ _ Hle (mkPageId fd0 0)), (r_open _ _ Hr).
  - rewrite (pl_size _ _ Hle). apply (r_size _ _ Hr).
  - intros j Hj. destruct (decide (j = i)) as [->|]; [rewrite lookup_insert_eq; eauto|].
    rewrite lookup_insert_ne by done. by apply (r_mod _ _ Hr).
Qed.

(** ** Access to a held page *)

Lemma repr_get s a i f n x :
  repr s a → a_held a !! i = Some (f, n) → a_view a !! i = Some x →
  ∃ p, get_page f s = (Ret p, s) ∧ id_ p = i ∧ data_ p = x.
Proof.
  intros Hr Hh Hv. destruct (held_page s a i f n x Hr Hh Hv) as (p & (_ & Hp & _) & Hid & Hd & _).
  exists p. by rewrite (get_page_Some s f p).
Qed.

Lemma repr_load {A} s a i f n x (h : bytes → option A) y :
  repr s a → a_held a !! i = Some (f, n) → a_view a !! i = Some x → h x = Some y →
  load f h s = (Ret y, s).
Proof.
  intros Hr Hh Hv Hy. destruct (held_page s a i f n x Hr Hh Hv) as (p & Hat & _ & <- & _).
  by eapply load_spec.
Qed.

Lemma repr_store s a i f n x (h : bytes → option bytes) d :
  repr s a → a_held a !! i = Some (f, n) → a_view a !! i = Some x → h x = Some d →
  zlen d = PAGE_SIZE →
  ∃ s', store f h s = (Ret tt, s') ∧ repr s' (a_write i d a).
Proof.
  intros Hr Hh Hv Hd Hlen.
  destruct (held_page s a i f n x Hr Hh Hv) as (p & Hat & Hid & <- & Hpin & _).
  destruct (store_spec s i f p h d (r_inv _ _ Hr) Hat Hd Hlen) as
    (s' & Hrun & Hi' & Hat' & Hvi & Hvj & Hp' & Hdisk & Htab & Hsz & Ho).
  exists s'. split; [done|]. split; simpl.
  - done.
  - intros j y [[<- <-]|[Hne Hy]]%lookup_insert_Some.
    + split; [done|]. rewrite Hdisk. by apply (r_view _ _ Hr i (data_ p)).
    + rewrite Hvj, Hdisk by done. by apply (r_view _ _ Hr).
  - intros j. rewrite Htab. intros Hj%(r_table _ _ Hr).
    destruct (decide (j = i)) as [->|]; [rewrite lookup_insert_eq; eauto|by rewrite lookup_insert_ne].
  - intros j g m Hj. destruct (r_held _ _ Hr _ _ _ Hj) as (? & ? & ? & Hs).
    rewrite Htab, Hp'. split_and!; try done.
    destruct (decide (j = i)) as [->|]; [rewrite lookup_insert_eq; eauto|by rewrite lookup_insert_ne].
  - intros j Hj. rewrite Hp'. by apply (r_pins _ _ Hr).
  - intros j g m q Hj Hq Hm. destruct (decide (j = i)) as [->|Hne]; [set_solver|].
    destruct (held_others s s' a i j g m) as (_ & _ & _ & _ & H); auto. apply H; [done|set_solver].
  - intros fd0. unfold next_page. rewrite Hdisk. apply (r_next _ _ Hr).
  - intros fd0. rewrite Hdisk. apply (r_open _ _ Hr).
  - rewrite Hsz. apply (r_size _ _ Hr).
  - intros j [->%elem_of_singleton|Hj]%elem_of_union; [eauto|]. by apply (r_mod _ _ Hr).
Qed.

(** ** [UnpinPage] *)

Lemma repr_unpin s a i f n dirty :
  repr s a → a_held a !! i = Some (f, n) → dirty = true ∨ (i ∉ a_mod a) →
  ∃ s', UnpinPage i dirty s = (Ret true, s') ∧ repr s' (a_release i f n dirty a).
Proof.
  intros Hr Hh Hdirty. destruct (r_held _ _ Hr _ _ _ Hh) as (_ & _ & Hpos & [x Hx]).
  destruct (held_page s a i f n x Hr Hh Hx) as (p & Hat & Hid & Hdat & Hpin & _).
  assert (dirty = true ∨ saved s p) as Hrel.
  { destruct Hdirty as [?|Hm]; [by left|right]. destruct Hat as (_ & Hp & _).
    by apply (r_rel _ _ Hr i f n). }
  destruct (UnpinPage_spec s i f p dirty (r_inv _ _ Hr) Hat) as
    (s' & Hrun & Hi' & Hle & Hp1 & Hp2 & Hp' & Htab & Ho & Hdisk).
  { destruct Hrel; [by left|right; by right]. }
  exists s'. split; [done|].
  assert (Hn : pins s' i = n - 1).
  { rewrite Hp1. by rewrite (proj1 (proj2 (r_held _ _ Hr _ _ _ Hh))). }
  assert (Hcase : ∀ j g m,
    (if decide (n = 1) then delete i (a_held a) else <[i:=(f, n - 1)]> (a_held a)) !! j = Some (g, m) →
    (j = i ∧ g = f ∧ m = n - 1 ∧ 1 < n) ∨ (j ≠ i ∧ a_held a !! j = Some (g, m))).
  { intros j g m. case_decide.
    - intros [? ?]%lookup_delete_Some. auto.
    - intros [[<- [= <- <-]]|[? ?]]%lookup_insert_Some; [left|right; auto]. split_and!; auto. lia. }
  split; simpl.
  - done.
  - intros j y Hy. destruct (r_view _ _ Hr _ _ Hy). split; [by apply (pl_view _ _ Hle)|].
    by apply (pl_valid _ _ Hle).
  - intros j. rewrite Htab. apply (r_table _ _ Hr).
  - intros j g m [(-> & -> & -> & ?)|[Hne Hj]]%Hcase.
    + rewrite Htab. split_and!; [apply Hat|done|lia|eauto].
    + by destruct (held_others s s' a i j g m) as (? & ? & ? & ? & _).
  - intros j Hj. destruct (decide (j = i)) as [->|Hne].
    + rewrite Hn. case_decide; [lia|]. by rewrite lookup_insert_eq in Hj.
    + rewrite Hp2 by done. apply (r_pins _ _ Hr).
      case_decide; [by rewrite lookup_delete_ne in Hj|by rewrite lookup_insert_ne in Hj].
  - intros j g m q [(-> & -> & -> & Hn1)|[Hne Hj]]%Hcase Hq Hm.
    + rewrite Hp' in Hq. injection Hq as <-. unfold saved; simpl. rewrite Hdisk. destruct Hrel as [->|[->|?]].
      * left. by rewrite orb_true_r.
      * by left.
      * by right.
    + destruct (held_others s s' a i j g m) as (_ & _ & _ & _ & H); auto. apply H; [done|].
      destruct dirty; set_solver.
  - intros fd0. rewrite (pl_next _ _ Hle). apply (r_next _ _ Hr).
  - intros fd0 Hfd. by apply (pl_valid _ _ Hle (mkPageId fd0 0)), (r_open _ _ Hr).
  - rewrite (pl_size _ _ Hle). apply (r_size _ _ Hr).
  - intros j Hj. destruct (decide (j = i)) as [->|Hne].
    + case_decide; [|rewrite lookup_insert_eq; eauto]. exfalso.
      destruct dirty; [set_solver|]. by destruct Hdirty.
    + assert (j ∈ a_mod a) as Hj' by (destruct dirty; set_solver).
      case_decide; [rewrite lookup_delete_ne by done|rewrite lookup_insert_ne by done]; by apply (r_mod _ _ Hr).
Qed.

(** The frame still carries the page. *)
Lemma unpin_frame s a i f n dirty s' :
  repr s a → a_held a !! i = Some (f, n) → dirty = true ∨ (i ∉ a_mod a) → UnpinPage i dirty s = (Ret true, s') →
  ∃ p, frame s' f = Some p ∧ id_ p = i ∧ a_view a !! i = Some (data_ p).
Proof.
  intros Hr Hh Hd Hrun. destruct (repr_unpin s a i f n dirty Hr Hh Hd) as (s2 & Hrun2 & Hr2).
  rewrite Hrun in Hrun2. injection Hrun2 as <-. destruct (r_held _ _ Hr _ _ _ Hh) as (Ht & _ & _ & x & Hx).
  destruct (held_page s a i f n x Hr Hh Hx) as (p & Hat & Hid & Hdat & _).
  destruct (UnpinPage_spec s i f p dirty (r_inv _ _ Hr) Hat) as (s3 & Hrun3 & _ & _ & _ & _ & Hp & _).
  { destruct Hd as [?|Hm]; [by left|right; right]. apply (r_rel _ _ Hr i f n); [done| |done]. apply Hat. }
  rewrite Hrun in Hrun3. injection Hrun3 as <-. eexists. split; [done|]. simpl. by subst x.
Qed.

(** ** [DeletePage] of a page nobody holds *)

Lemma repr_delete s a i :
  repr s a → a_held a !! i = None → ∃ s', DeletePage i s = (Ret true, s') ∧ repr s' a.
Proof.
  intros Hr Hh. destruct (page_table_ s !! i) as [f|] eqn:Ht.
  2:{ exists s. split; [by apply delete_absent|done]. }
  destruct (i_table _ _ (r_inv _ _ Hr) _ _ Ht) as (p & Hp & _).
  pose proof (r_pins _ _ Hr i Hh) as Hz. rewrite (pins_resident s i f p) in Hz by done.
  destruct (delete_ok s i f p (r_inv _ _ Hr) Ht Hp Hz) as (s' & Hrun & Hi' & Hle & Htab & _ & Ho & Hpins).
  exists s'. split; [done|].
  assert (Hot : ∀ j g n, a_held a !! j = Some (g, n) → page_table_ s' !! j = Some g ∧ pins s' j = n ∧ 0 < n ∧
    is_Some (a_view a !! j) ∧ (∀ p, frame s' g = Some p → j ∉ a_mod a → saved s' p)).
  { intros j g n Hj. apply (held_others s s' a i); [done|done| |by intros; apply Hpins|done]. intros ->. congruence. }
  split.
  - done.
  - intros j y Hy. destruct (r_view _ _ Hr _ _ Hy). split; [by apply (pl_view _ _ Hle)|].
    by apply (pl_valid _ _ Hle).
  - intros j. rewrite Htab. intros [g [_ Hg]%lookup_delete_Some]. apply (r_table _ _ Hr). eauto.
  - intros j g n Hj. by destruct (Hot j g n Hj) as (? & ? & ? & ? & _).
  - intros j Hj. rewrite Hpins. by apply (r_pins _ _ Hr).
  - intros j g n q Hj Hq. destruct (Hot j g n Hj) as (_ & _ & _ & _ & H). by apply H.
  - intros fd0. rewrite (pl_next _ _ Hle). apply (r_next _ _ Hr).
  - intros fd0 Hfd. by apply (pl_valid _ _ Hle (mkPageId fd0 0)), (r_open _ _ Hr).
  - rewrite (pl_size _ _ Hle). apply (r_size _ _ Hr).
  - apply (r_mod _ _ Hr).
Qed.

(** ** [NewPage] *)

Lemma repr_new s a i :
  repr s a → fd i ∈ a_open a → 0 <= a_next a (fd i) →
  a_view a !! a_new_id (fd i) a = None → Z.of_nat (size (a_held a)) < a_size a →
  ∃ f s', NewPage i s = (Ret (Some f, a_new_id (fd i) a), s') ∧ repr s' (a_alloc (fd i) f a).
Proof.
  intros Hr Hop Hnn Hno Hroom.
  assert (Hid : new_id s (fd i) = a_new_id (fd i) a).
  { unfold new_id, a_new_id. by rewrite (r_next _ _ Hr). }
  assert (has_frame s) as Hf.
  { destruct (repr_room s a (a_new_id (fd i) a)) as [Hc|?]; [done|by right| |done].
    apply (r_table _ _ Hr) in Hc as [? ?]. congruence. }
  destruct (new_ok s i) as (f & s' & Hrun & Hi' & Hat & Hview & Hp1 & Hp2 & Hva & Hnx & Hsz & Ho);
    [apply Hr|done|..].
  { rewrite Hid. destruct (page_table_ s !! a_new_id (fd i) a) eqn:Ht; [|done].
    destruct (r_table _ _ Hr (a_new_id (fd i) a)) as [? ?]; [eauto|congruence]. }
  { rewrite Hid. eapply ps_valid_any; [by apply (r_open _ _ Hr)|done]. }
  rewrite Hid in *. set (ni := a_new_id (fd i) a) in *.
  exists f, s'. split; [done|]. destruct Hat as (Ht & Hp & Hpos).
  assert (Hval : valid_id (disk_manager_ s) ni).
  { eapply ps_valid_any; [by apply (r_open _ _ Hr)|done]. }
  split; simpl; fold ni.
  - done.
  - intros j y [[<- <-]|[Hne Hy]]%lookup_insert_Some.
    + rewrite (view_resident s' _ f _ Ht Hp). split; [done|]. by apply Hva.
    + destruct (r_view _ _ Hr _ _ Hy). split; [by apply Hview|by apply Hva].
  - intros j Hj. destruct (decide (j = ni)) as [->|Hne]; [rewrite lookup_insert_eq; eauto|].
    rewrite lookup_insert_ne by done. destruct (ol_table _ _ _ Ho j Hj) as [->|?]; [done|].
    by apply (r_table _ _ Hr).
  - intros j g n [[<- [= <- <-]]|[Hne Hh]]%lookup_insert_Some.
    + split_and!; [done|done|done|]. rewrite lookup_insert_eq. eauto.
    + rewrite lookup_insert_ne by done.
      by destruct (held_others s s' a ni j g n) as (? & ? & ? & ? & _).
  - intros j [Hh Hne]%lookup_insert_None. rewrite Hp2 by done. by apply (r_pins _ _ Hr).
  - intros j g n q [[<- _]|[Hne Hh]]%lookup_insert_Some Hq Hm; [set_solver|].
    destruct (held_others s s' a ni j g n) as (_ & _ & _ & _ & H); auto. apply H; [done|set_solver].
  - intros fd0. rewrite Hnx, !(r_next _ _ Hr). done.
  - intros fd0 Hfd. by apply (Hva (mkPageId fd0 0)), (r_open _ _ Hr).
  - rewrite Hsz. apply (r_size _ _ Hr).
  - intros j [->%elem_of_singleton|Hj]%elem_of_union; [rewrite lookup_insert_eq; eauto|].
    destruct (decide (j = ni)) as [->|]; [rewrite lookup_insert_eq; eauto|].
    rewrite lookup_insert_ne by done. by apply (r_mod _ _ Hr).
Qed.

(** ** [FlushAllPages] *)

Lemma repr_flush_all s a fd0 :
  repr s a →
  ∃ s', FlushAllPages fd0 s = (Ret tt, s') ∧ repr s' a ∧
    ∀ i x, fd i = fd0 → a_view a !! i = Some x → on_disk_at (disk_manager_ s') i = Some x.
Proof.
  intros Hr. destruct (FlushAllPages_spec fd0 s (r_inv _ _ Hr)) as
    (s' & Hrun & Hi' & Hle & Hp & Hd & Ht & Hf).
  exists s'. split; [done|]. split.
  - split.
    + done.
    + intros j y Hy. destruct (r_view _ _ Hr _ _ Hy). split; [by apply (pl_view _ _ Hle)|].
      by apply (pl_valid _ _ Hle).
    + intros j. rewrite Ht. apply (r_table _ _ Hr).
    + intros j g n Hj. rewrite Ht, Hp. by apply (r_held _ _ Hr).
    + intros j Hj. rewrite Hp. by apply (r_pins _ _ Hr).
    + intros j g n q Hj Hq Hm. destruct (Hf g q Hq) as (q0 & Hq0 & Hid & Hs).
      destruct (r_held _ _ Hr _ _ _ Hj) as (Htj & _).
      destruct (i_table _ _ (r_inv _ _ Hr) _ _ Htj) as (q1 & Hq1 & _ & Hu).
      rewrite Hq0 in Hq1. injection Hq1 as <-. apply Hs; [done|]. by apply (r_rel _ _ Hr j g n).
    + intros fd1. rewrite (pl_next _ _ Hle). apply (r_next _ _ Hr).
    + intros fd1 Hfd. by apply (pl_valid _ _ Hle (mkPageId fd1 0)), (r_open _ _ Hr).
    + rewrite (pl_size _ _ Hle). apply (r_size _ _ Hr).
    + apply (r_mod _ _ Hr).
  - intros i x Hi Hx. apply Hd; [done|]. by apply (r_view _ _ Hr).
Qed.

(** A change of the disk that only touches a page the clients do not use. *)
Lemma repr_set_disk s a d k :
  repr s a → ps_inv d → a_view a !! k = None →
  (∀ j x, j ≠ k → on_disk_at (disk_manager_ s) j = Some x → on_disk_at d j = Some x) →
  (∀ j, valid_id d j ↔ valid_id (disk_manager_ s) j) →
  (∀ fd0, ps_next d fd0 = ps_next (disk_manager_ s) fd0) →
  repr (set_disk d s) a.
Proof.
  intros Hr Hd Hk Hat Hva Hnx.
  assert (Hno : ∀ j, is_Some (page_table_ s !! j) → j ≠ k).
  { intros j Hj%(r_table _ _ Hr) ->. destruct Hj. congruence. }
  pose proof (r_inv _ _ Hr) as Hi. split.
  - pose proof (i_clean _ _ Hi) as Hc. pose proof (i_valid _ _ Hi) as Hv.
    pose proof (i_resident _ _ Hi) as Hres. destruct Hi. split; try done; simpl.
    + intros f p Hp Hu Hz Hne Hdirty. apply Hat; [apply Hno; eauto|]. by apply (Hc f p).
    + intros f p Hp Hu. apply Hva. by apply (Hv f p).
  - intros i x Hx. destruct (r_view _ _ Hr _ _ Hx) as [Hv Hval]. split; [|by apply Hva].
    unfold view in *; simpl. destruct (page_table_ s !! i); [done|].
    apply Hat; [|done]. intros ->. congruence.
  - apply (r_table _ _ Hr).
  - apply (r_held _ _ Hr).
  - apply (r_pins _ _ Hr).
  - intros i f n p Hh Hp Hm. destruct (r_rel _ _ Hr i f n p Hh Hp Hm) as [?|Hs]; [by left|right].
    destruct (r_held _ _ Hr _ _ _ Hh) as (Ht & _).
    destruct (i_table _ _ Hi _ _ Ht) as (q & Hq & Hid & _).
    change (frame s f = Some p) in Hp. rewrite Hp in Hq. injection Hq as <-.
    simpl. apply Hat; [apply Hno; rewrite Hid; eauto|done].
  - intros fd0. unfold next_page; simpl. rewrite Hnx. apply (r_next _ _ Hr).
  - intros fd0 Hfd. simpl. by apply (Hva (mkPageId fd0 0)), (r_open _ _ Hr).
  - apply (r_size _ _ Hr).
  - apply (r_mod _ _ Hr).
Qed.

(** ** A new pool over a disk *)

Lemma repr_create n junk (d : D) (r : R) (V : gmap PageId bytes) (N : Z → Z) (O : gset Z) :
  0 <= n → ps_inv d → repl_inv r → evictable r = ∅ → n <= capacity r →
  (∀ i x, V !! i = Some x → on_disk_at d i = Some x ∧ valid_id d i) →
  (∀ fd0, ps_next d fd0 = N fd0) → (∀ fd0, fd0 ∈ O → ps_valid d fd0 0) →
  repr (create n junk d r) (mkAbs V ∅ ∅ N O n).
Proof.
  intros. split; simpl; try done.
  - by apply create_pool_inv.
  - intros i [? Hc]. by rewrite lookup_empty in Hc.
Qed.

End repr.
