(* ===== verification/Session.v ===== *)
(** One page at a time: the way the record files use the pool.

    [sess a i f m] is the abstract pool [a] while the client holds page [i] in
    frame [f] with contents [m] that it may have changed.  The lemmas run the
    calls of such a session and bring it back to [a_set i m a], the pool in
    which only the contents of page [i] changed. *)
From S2P Require Import Prelude.
From S2P Require Import Defs.
From S2P Require Import Replacer.
From S2P Require Import Disk.
From S2P Require Import BufferPool.
From S2P Require Import BufferPoolProofs.
From S2P Require Import PoolSpec.
Import BufferPool.

Definition sess (a : Abs) (i : PageId) (f : Z) (m : bytes) : Abs :=
  mkAbs (<[i := m]> (a_view a)) (<[i := (f, 1)]> (a_held a)) ({[i]} ∪ a_mod a)
    (a_next a) (a_open a) (a_size a).

Definition a_set (i : PageId) (m : bytes) (a : Abs) : Abs :=
  mkAbs (<[i := m]> (a_view a)) (a_held a) (a_mod a) (a_next a) (a_open a) (a_size a).

(** The page counter of a file advanced. *)
Definition a_bump (fd0 : Z) (a : Abs) : Abs :=
  mkAbs (a_view a) (a_held a) (a_mod a)
    (λ x, if decide (x = fd0) then to_s32 (a_next a fd0 + 1) else a_next a x)
    (a_open a) (a_size a).

(** Page [i] is not in use. *)
Definition idle (i : PageId) (a : Abs) : Prop := a_held a !! i = None ∧ (i ∉ a_mod a).

Lemma Abs_eq a b :
  a_view a = a_view b → a_held a = a_held b → a_mod a = a_mod b → a_next a = a_next b →
  a_open a = a_open b → a_size a = a_size b → a = b.
Proof. destruct a, b; simpl. by intros -> -> -> -> -> ->. Qed.

Lemma sess_write a i f m m' : a_write i m' (sess a i f m) = sess a i f m'.
Proof.
  apply Abs_eq; simpl; try done; [by rewrite insert_insert_eq|].
  apply leibniz_equiv. set_solver.
Qed.

Lemma sess_release a i f m : idle i a → a_release i f 1 true (sess a i f m) = a_set i m a.
Proof.
  intros [Hh Hm]. apply Abs_eq; simpl; try done.
  - by rewrite delete_insert_id.
  - apply leibniz_equiv. set_solver.
Qed.

Lemma hold_release a i f : idle i a → a_release i f 1 false (a_hold i f 1 a) = a.
Proof. intros [Hh _]. apply Abs_eq; simpl; try done. by rewrite delete_insert_id. Qed.

Lemma alloc_sess a fd0 f : a_alloc fd0 f a = sess (a_bump fd0 a) (a_new_id fd0 a) f zero_page.
Proof. done. Qed.

Lemma a_set_set i m m' a : a_set i m' (a_set i m a) = a_set i m' a.
Proof. apply Abs_eq; simpl; try done. by rewrite insert_insert_eq. Qed.

Lemma idle_pins i a : idle i a → a_pins i a = 0.
Proof. intros [Hh _]. unfold a_pins. by rewrite Hh. Qed.

Lemma idle_set i j m a : idle i (a_set j m a) ↔ idle i a.
Proof. done. Qed.

Section session.
  Context {D : Type} {PS : PageStore D} {PSL : PageStoreLaws D}
          {R : Type} {RP : Replacer R} {RPL : ReplacerLaws R}.
  Notation pool := (t D R).
  Implicit Types (s : pool) (f : Z) (i : PageId) (a : Abs) (m : bytes).

(** A holder may claim to have changed what it holds. *)
Lemma hold_sess s a i f m :
  repr s (a_hold i f 1 a) → a_view a !! i = Some m → repr s (sess a i f m).
Proof.
  intros Hr Hv. pose proof (r_rel _ _ Hr) as Hrel. destruct Hr. unfold sess. rewrite (insert_id _ _ _ Hv). split; simpl in *; try done.
  - intros j g n p Hj Hp Hm. apply (Hrel j g n p); [done|done|set_solver].
  - intros j [->%elem_of_singleton|Hj]%elem_of_union; [rewrite lookup_insert_eq; eauto|auto].
Qed.

Lemma sess_fetch s a i m :
  repr s a → idle i a → a_view a !! i = Some m → Z.of_nat (size (a_held a)) < a_size a →
  ∃ f s', FetchPage i s = (Ret (Some f), s') ∧ repr s' (a_hold i f 1 a) ∧ repr s' (sess a i f m).
Proof.
  intros Hr Hi Hv Hroom. destruct (repr_fetch s a i m Hr Hv) as (f & s' & Hrun & Hr'); [by right|].
  rewrite idle_pins in Hr' by done. exists f, s'. split_and!; [done|done|]. by apply hold_sess.
Qed.

Lemma sess_held a i f m : a_held (sess a i f m) !! i = Some (f, 1).
Proof. apply lookup_insert_eq. Qed.

Lemma sess_view a i f m : a_view (sess a i f m) !! i = Some m.
Proof. apply lookup_insert_eq. Qed.

Lemma hold_held a i f : a_held (a_hold i f 1 a) !! i = Some (f, 1).
Proof. apply lookup_insert_eq. Qed.

End session.
