(* ===== verification/RmFile.v ===== *)
(** Record files, [src/src/record/rm_defs.h], [rm_file_handle.{h,cpp}] and
    [rm_scan.{h,cpp}].

    A page of a record file is its LSN (4 bytes), the page header (next free
    page, number of records), the bitmap of used slots and the slots.  The
    operations run on the state [st]: the file handle, with the file header it
    keeps in memory, and the buffer pool.  [RmRecord] is its bytes. *)
From S2P Require Import Prelude.
From S2P Require Import Defs.
From S2P Require Import RecScan.
From S2P Require Import Bitmap.
From S2P Require Import Replacer.
From S2P Require Import Disk.
From S2P Require Import BufferPool.

#[local] Open Scope prog_scope.

Definition RM_NO_PAGE : Z := -1.
Definition RM_FILE_HDR_PAGE : Z := 0.
Definition RM_FIRST_RECORD_PAGE : Z := 1.
Definition RM_MAX_RECORD_SIZE : Z := 512.

Record RmFileHdr := mkRmFileHdr {
  record_size : Z;
  num_pages : Z;
  num_records_per_page : Z;
  first_free_page_no : Z;
  bitmap_size : Z
}.

Definition sizeof_RmFileHdr : Z := 20.

(** The header as the 20 bytes of its object representation. *)
Definition enc_RmFileHdr (h : RmFileHdr) : bytes :=
  enc32 (record_size h) ++ enc32 (num_pages h) ++ enc32 (num_records_per_page h)
    ++ enc32 (first_free_page_no h) ++ enc32 (bitmap_size h).

Definition dec_RmFileHdr (b : bytes) : RmFileHdr :=
  mkRmFileHdr (dec32 (slice b 0 4)) (dec32 (slice b 4 4)) (dec32 (slice b 8 4))
    (dec32 (slice b 12 4)) (dec32 (slice b 16 4)).

(** [RmRecord]: [size] is the length of [data]. *)
Record RmRecord := mkRmRecord { data : bytes }.

(** [RmRecord(int size_, char *data_)] of the bytes of an object. *)
Definition new_RmRecord (size : Z) (src : option bytes) : option RmRecord :=
  b ← src; d ← mem_read b 0 size; Some (mkRmRecord d).

(** [SetData]: copies [size] bytes. *)
Definition SetData (r : RmRecord) (src : bytes) : option RmRecord :=
  d ← mem_read src 0 (zlen (data r)); Some (mkRmRecord d).

Definition Deserialize_RmRecord (src : bytes) : option RmRecord :=
  n ← load32 src 0; d ← mem_read src sizeof_int n; Some (mkRmRecord d).

(** ** Page handles *)

Definition sizeof_RmPageHdr : Z := 8.
Definition page_hdr_off : Z := OFFSET_PAGE_HDR.
Definition next_free_off : Z := page_hdr_off.
Definition num_records_off : Z := page_hdr_off + 4.
Definition bitmap_off : Z := sizeof_RmPageHdr + OFFSET_PAGE_HDR.
Definition slots_off (h : RmFileHdr) : Z := bitmap_off + bitmap_size h.
Definition get_slot (h : RmFileHdr) (slot_no : Z) : Z := slots_off h + slot_no * record_size h.

Module RmFileHandle.

Record handle := mkHandle { fd_ : Z; file_hdr_ : RmFileHdr }.

Record st (D R : Type) := mkSt {
  fh : handle;
  bpm : BufferPool.t D R
}.
Arguments mkSt {D R} _ _.
Arguments fh {D R} _.
Arguments bpm {D R} _.

Section ops.
  Context {D R : Type} `{PageStore D} `{Replacer R}.
  Notation st := (st D R).

Definition set_fh (x : handle) (s : st) : st := mkSt x (bpm s).
Definition set_bpm (p : BufferPool.t D R) (s : st) : st := mkSt (fh s) p.
Definition on_pool {A} (m : M (BufferPool.t D R) A) : M st A := zoom bpm set_bpm m.

Definition hdr (s : st) : RmFileHdr := file_hdr_ (fh s).
Definition set_hdr (h : RmFileHdr) (s : st) : st := set_fh (mkHandle (fd_ (fh s)) h) s.
Definition set_first_free (p : Z) (h : RmFileHdr) : RmFileHdr :=
  mkRmFileHdr (record_size h) (num_pages h) (num_records_per_page h) p (bitmap_size h).
Definition set_num_pages (n : Z) (h : RmFileHdr) : RmFileHdr :=
  mkRmFileHdr (record_size h) n (num_records_per_page h) (first_free_page_no h) (bitmap_size h).

(** [page_handle.page->GetPageId()] *)
Definition page_id (f : Z) : M st PageId :=
  let* p := on_pool (BufferPool.get_page f) in ret (GetPageId p).

Definition load {A} (f : Z) (g : bytes → option A) : M st A := on_pool (BufferPool.load f g).
Definition store (f : Z) (g : bytes → option bytes) : M st unit := on_pool (BufferPool.store f g).

Definition unpin (i : PageId) (dirty : bool) : M st unit :=
  let* _ := on_pool (BufferPool.UnpinPage i dirty) in ret tt.

(** [page_hdr->num_records += k] *)
Definition add_num_records (k : Z) (m : bytes) : option bytes :=
  n ← load32 m num_records_off; n' ← s32 (n + k); store32 m num_records_off n'.

Definition fetch_page_handle (page_no : Z) : M st Z :=
  let* s := gets fh in
  let* page := on_pool (BufferPool.FetchPage (mkPageId (fd_ s) page_no)) in
  match page with
  | None => throw (PageNotExistError "table" page_no)
  | Some f => ret f
  end.

(** A null page is dereferenced. *)
Definition create_new_page_handle : M st Z :=
  let* s := gets fh in
  let* r := on_pool (BufferPool.NewPage (mkPageId (fd_ s) INVALID_PAGE_ID)) in
  match r.1 with
  | None => undefined
  | Some f =>
      store f (λ m, store32 m next_free_off RM_NO_PAGE) ;;;
      store f (λ m, store32 m num_records_off 0) ;;;
      let* h := gets hdr in
      store f (λ m, Bitmap.init m bitmap_off (bitmap_size h)) ;;;
      let* n := or_ub (s32 (num_pages h + 1)) in
      modify (set_hdr (set_num_pages n h)) ;;;
      modify (λ s, set_hdr (set_first_free (page_no r.2) (hdr s)) s) ;;;
      ret f
  end.

Definition create_page_handle : M st Z :=
  let* h := gets hdr in
  if first_free_page_no h =? RM_NO_PAGE then create_new_page_handle
  else fetch_page_handle (first_free_page_no h).

Definition release_page_handle (f : Z) : M st unit :=
  let* h := gets hdr in
  store f (λ m, store32 m next_free_off (first_free_page_no h)) ;;;
  let* i := page_id f in
  modify (λ s, set_hdr (set_first_free (page_no i) (hdr s)) s).

Definition is_record (rid : Rid) : M st bool :=
  let* f := fetch_page_handle (rid_page_no rid) in
  load f (λ m, Bitmap.is_set m bitmap_off (rid_slot_no rid)).

Definition get_record (rid : Rid) : M st RmRecord :=
  let* f := fetch_page_handle (rid_page_no rid) in
  let* h := gets hdr in
  let* r := load f (λ m, new_RmRecord (record_size h)
              (mem_read m (get_slot h (rid_slot_no rid)) (record_size h))) in
  let* i := page_id f in
  unpin i false ;;;
  ret r.

(** [memcpy(slot, buf, record_size)] *)
Definition write_slot (h : RmFileHdr) (slot_no : Z) (buf m : bytes) : option bytes :=
  d ← mem_read buf 0 (record_size h); mem_write m (get_slot h slot_no) d.

Definition insert_record (buf : bytes) : M st Rid :=
  let* f := create_page_handle in
  let* h := gets hdr in
  let* slot_no := load f (λ m, Bitmap.first_bit false m bitmap_off (num_records_per_page h)) in
  store f (write_slot h slot_no buf) ;;;
  store f (λ m, Bitmap.set m bitmap_off slot_no) ;;;
  store f (add_num_records 1) ;;;
  let* n := load f (λ m, load32 m num_records_off) in
  (if n =? num_records_per_page h
   then let* nx := load f (λ m, load32 m next_free_off) in
        modify (λ s, set_hdr (set_first_free nx (hdr s)) s)
   else ret tt) ;;;
  let* i := page_id f in
  unpin i true ;;;
  ret (mkRid (page_no i) slot_no).

Definition delete_record (rid : Rid) : M st unit :=
  let* f := fetch_page_handle (rid_page_no rid) in
  store f (λ m, Bitmap.reset m bitmap_off (rid_slot_no rid)) ;;;
  store f (add_num_records (-1)) ;;;
  let* n := load f (λ m, load32 m num_records_off) in
  let* h := gets hdr in
  (if n =? num_records_per_page h - 1 then release_page_handle f else ret tt) ;;;
  let* i := page_id f in
  unpin i true.

Definition update_record (rid : Rid) (buf : bytes) : M st unit :=
  let* f := fetch_page_handle (rid_page_no rid) in
  let* h := gets hdr in
  store f (write_slot h (rid_slot_no rid) buf) ;;;
  let* i := page_id f in
  unpin i true.

(** The overload used by recovery. *)
Definition insert_record_at (rid : Rid) (buf : bytes) : M st unit :=
  let* h := gets hdr in
  (if rid_page_no rid <? num_pages h
   then let* _ := create_new_page_handle in ret tt else ret tt) ;;;
  let* f := fetch_page_handle (rid_page_no rid) in
  store f (λ m, Bitmap.set m bitmap_off (rid_slot_no rid)) ;;;
  store f (add_num_records 1) ;;;
  let* n := load f (λ m, load32 m num_records_off) in
  let* h := gets hdr in
  (if n =? num_records_per_page h
   then let* nx := load f (λ m, load32 m next_free_off) in
        modify (λ s, set_hdr (set_first_free nx (hdr s)) s)
   else ret tt) ;;;
  let* h := gets hdr in
  store f (write_slot h (rid_slot_no rid) buf) ;;;
  let* i := page_id f in
  unpin i true.

(** ** [RmScan], [rm_scan.cpp]: the cursor is its [rid_] *)

Definition scan_is_end (rid : Rid) : bool := rid_page_no rid =? RM_NO_PAGE.
Definition scan_end : Rid := mkRid RM_NO_PAGE (-1).

(** The loop of [next]; [fuel] bounds its iterations. *)
Fixpoint scan_next_loop (file_hdr : RmFileHdr) (fuel : nat) (rid : Rid) : M st Rid :=
  match fuel with
  | O => out_of_fuel
  | S fuel' =>
      if rid_page_no rid <? num_pages file_hdr then
        let* f := fetch_page_handle (rid_page_no rid) in
        let* slot_no := load f (λ m, Bitmap.next_bit true m bitmap_off
                                  (num_records_per_page file_hdr) (rid_slot_no rid)) in
        let* i := page_id f in
        unpin i false ;;;
        if slot_no <? num_records_per_page file_hdr then ret (mkRid (rid_page_no rid) slot_no)
        else scan_next_loop file_hdr fuel' (mkRid (rid_page_no rid + 1) (-1))
      else ret scan_end
  end.

(** One iteration per page left, and one to stop. *)
Definition scan_fuel (h : RmFileHdr) (rid : Rid) : nat :=
  S (Z.to_nat (num_pages h - rid_page_no rid)).

Definition scan_next (rid : Rid) : M st Rid :=
  let* h := gets hdr in scan_next_loop h (scan_fuel h rid) rid.

(** The constructor. *)
Definition RmScan : M st Rid :=
  let* h := gets hdr in
  let rid := mkRid RM_FIRST_RECORD_PAGE (-1) in
  if num_pages h <=? rid_page_no rid then ret scan_end else scan_next rid.

#[export] Instance rm_rec_scan : RecScan st Rid := {
  next := scan_next;
  is_end := scan_is_end;
  rid r := ret r }.

(** [for (RmScan scan(fh); !scan.is_end(); scan.next()) visit(scan.rid())], with the
    positions visited. *)
Definition scan_all (fuel : nat) : M st (list Rid) :=
  let* c := RmScan in let* l := collect fuel c in ret l.1.

End ops.
End RmFileHandle.
