(* ===== verification/RmPage.v ===== *)
(** The layout of a record page.

    [hdr_wf]: the header of a file as [RmManager::create_file] computes it;
    the layout theorem says that bitmap and slots fit in the page.
    [pg h m nx ct b sl]: page [m] represents the abstract page with next free
    page [nx], record count [ct], used slots [b] and slot contents [sl].  One
    lemma per access of the record file says what it does to that page. *)
From S2P Require Import Prelude.
From S2P Require Import Defs.
From S2P Require Import Bitmap.
From S2P Require Import Replacer.
From S2P Require Import Disk.
From S2P Require Import BufferPool.
From S2P Require Import RmFile.
Import RmFileHandle.

(** The number of records per page that [RmManager::create_file] computes. *)
Definition records_per_page (record_size : Z) : Z :=
  Z.quot (Bitmap.BITMAP_WIDTH * (PAGE_SIZE - 1 - sizeof_RmFileHdr) + 1)
         (1 + record_size * Bitmap.BITMAP_WIDTH).

Definition bitmap_bytes (n : Z) : Z :=
  Z.quot (n + Bitmap.BITMAP_WIDTH - 1) Bitmap.BITMAP_WIDTH.

Record hdr_wf (h : RmFileHdr) : Prop := {
  hw_size : 1 <= record_size h <= RM_MAX_RECORD_SIZE;
  hw_n : num_records_per_page h = records_per_page (record_size h);
  hw_bitmap : bitmap_size h = bitmap_bytes (num_records_per_page h)
}.

(** At least 7 records fit, and header, bitmap and slots stay in the page. *)
Lemma layout_fits rs :
  1 <= rs <= RM_MAX_RECORD_SIZE →
  let n := records_per_page rs in
  7 <= n <= 3622 ∧ bitmap_bytes n = (n + 7) / 8 ∧ 0 < bitmap_bytes n ∧
  bitmap_off + bitmap_bytes n + n * rs <= PAGE_SIZE.
Proof.
  intros Hrs n. unfold RM_MAX_RECORD_SIZE in Hrs.
  assert (n = 32601 / (1 + rs * 8)) as Hn.
  { unfold n, records_per_page. apply Z.quot_div_nonneg; unfold Bitmap.BITMAP_WIDTH; lia. }
  pose proof (Z.div_mod 32601 (1 + rs * 8) ltac:(lia)) as Hdm.
  pose proof (Z.mod_pos_bound 32601 (1 + rs * 8) ltac:(lia)) as Hmb.
  rewrite <- Hn in Hdm.
  assert (7 <= n) by (rewrite Hn; apply Z.div_le_lower_bound; lia).
  assert (n < 3623) by (rewrite Hn; apply Z.div_lt_upper_bound; lia).
  assert (bitmap_bytes n = (n + 7) / 8) as Hb.
  { unfold bitmap_bytes, Bitmap.BITMAP_WIDTH. rewrite Z.quot_div_nonneg by lia. f_equal. lia. }
  rewrite Hb. pose proof (Z.div_mod (n + 7) 8 ltac:(lia)).
  pose proof (Z.mod_pos_bound (n + 7) 8 ltac:(lia)).
  unfold bitmap_off, sizeof_RmPageHdr, OFFSET_PAGE_HDR, PAGE_SIZE.
  split_and!; try done; try lia; nia.
Qed.

(** ** The abstract page *)

Definition page_next (m : bytes) : Z := dec32 (slice m next_free_off 4).
Definition page_count (m : bytes) : Z := dec32 (slice m num_records_off 4).
Definition page_bit (m : bytes) (s : Z) : bool := Bitmap.bit_at m bitmap_off s.
Definition page_slot (h : RmFileHdr) (m : bytes) (s : Z) : bytes :=
  slice m (get_slot h s) (record_size h).

(** Number of used slots. *)
Definition page_used (h : RmFileHdr) (m : bytes) : Z :=
  Bitmap.count m bitmap_off (Z.to_nat (num_records_per_page h)).

Section page.
  Context (h : RmFileHdr) (Hh : hdr_wf h).
  Notation n := (num_records_per_page h).
  Notation rs := (record_size h).

Record pg (m : bytes) (nx ct : Z) (b : Z → bool) (sl : Z → bytes) : Prop := {
  pg_len : zlen m = PAGE_SIZE;
  pg_u8 : Forall is_u8 m;
  pg_next : page_next m = nx;
  pg_count : page_count m = ct;
  pg_bits s : 0 <= s < n → page_bit m s = b s;
  pg_slots s : 0 <= s < n → page_slot h m s = sl s
}.

Lemma pg_self m :
  zlen m = PAGE_SIZE → Forall is_u8 m →
  pg m (page_next m) (page_count m) (page_bit m) (page_slot h m).
Proof. by split. Qed.

Lemma hdr_layout :
  7 <= n <= 3622 ∧ bitmap_size h = (n + 7) / 8 ∧ 0 < bitmap_size h ∧
  1 <= rs <= 512 ∧ slots_off h + n * rs <= PAGE_SIZE.
Proof using Hh.
  destruct Hh as [H1 H2 H3]. pose proof (layout_fits rs H1) as (A & B & C & E).
  rewrite <- H2 in *. unfold slots_off. rewrite H3. unfold RM_MAX_RECORD_SIZE in *. lia.
Qed.

(** Byte ranges of the page. *)
Lemma slot_range s : 0 <= s < n →
  bitmap_off + bitmap_size h <= get_slot h s ∧ get_slot h s + rs <= PAGE_SIZE.
Proof using Hh.
  intros. pose proof hdr_layout. unfold get_slot, slots_off in *. nia.
Qed.

Lemma slots_apart s s' : 0 <= s < n → 0 <= s' < n → s ≠ s' →
  get_slot h s + rs <= get_slot h s' ∨ get_slot h s' + rs <= get_slot h s.
Proof using Hh.
  intros. pose proof hdr_layout. unfold get_slot, slots_off in *.
  destruct (decide (s < s')); [left|right]; nia.
Qed.

Lemma pg_fits m : zlen m = PAGE_SIZE → Forall is_u8 m → Bitmap.fits m bitmap_off n.
Proof using Hh.
  intros Hlen Hu. pose proof hdr_layout as (? & Hb & ? & ? & ?). unfold slots_off in *.
  split_and!; [done| |done]. rewrite <- Hb, Hlen. nia.
Qed.

(** A bit does not change when the bytes written are not the bitmap's. *)
Lemma bit_splice_other m off bs s :
  0 <= s < n → 0 <= off → off + zlen bs <= zlen m →
  off + zlen bs <= bitmap_off ∨ bitmap_off + bitmap_size h <= off →
  page_bit (splice m off bs) s = page_bit m s.
Proof using Hh.
  intros Hs Ho Hl Hd. unfold page_bit, Bitmap.bit_at. f_equal.
  pose proof hdr_layout as (? & Hb & _).
  assert (0 <= s / 8 < bitmap_size h).
  { rewrite Hb. split; [apply Z.div_pos; lia|]. apply Z.div_lt_upper_bound; [lia|].
    pose proof (Z.div_mod (n + 7) 8 ltac:(lia)). pose proof (Z.mod_pos_bound (n + 7) 8 ltac:(lia)). lia. }
  unfold bitmap_off, sizeof_RmPageHdr, OFFSET_PAGE_HDR in *.
  rewrite !list_lookup_total_alt, lookup_splice, decide_False by lia. done.
Qed.

(** ** The accesses *)

Lemma load_count m nx ct b sl : pg m nx ct b sl → load32 m num_records_off = Some ct.
Proof using.
  intros []. unfold num_records_off, page_hdr_off, OFFSET_PAGE_HDR, PAGE_SIZE in *.
  rewrite load32_Some by lia. by rewrite <- pg_count0.
Qed.

Lemma load_next m nx ct b sl : pg m nx ct b sl → load32 m next_free_off = Some nx.
Proof using.
  intros []. unfold next_free_off, page_hdr_off, OFFSET_PAGE_HDR, PAGE_SIZE in *.
  rewrite load32_Some by lia. by rewrite <- pg_next0.
Qed.

(** Writing bytes of the page header keeps bitmap and slots. *)
Lemma pg_hdr_splice m nx ct b sl off bs :
  pg m nx ct b sl → next_free_off <= off → off + zlen bs <= bitmap_off → Forall is_u8 bs →
  pg (splice m off bs) (page_next (splice m off bs)) (page_count (splice m off bs)) b sl.
Proof using Hh.
  intros [] Ho Hl Hu. pose proof hdr_layout as (? & ? & ? & ? & ?).
  unfold next_free_off, page_hdr_off, bitmap_off, sizeof_RmPageHdr, OFFSET_PAGE_HDR, PAGE_SIZE in *.
  split; try done.
  - rewrite length_splice by lia. done.
  - by apply Forall_splice.
  - intros s Hs. rewrite bit_splice_other; [auto|done|lia|lia|left].
    unfold bitmap_off, sizeof_RmPageHdr, OFFSET_PAGE_HDR. lia.
  - intros s Hs. unfold page_slot. pose proof (slot_range s Hs).
    unfold bitmap_off, sizeof_RmPageHdr, OFFSET_PAGE_HDR in *.
    rewrite slice_splice_disjoint by lia. by apply pg_slots0.
Qed.

Lemma pg_store_next m nx ct b sl v :
  pg m nx ct b sl → is_s32 v → ∃ m', store32 m next_free_off v = Some m' ∧ pg m' v ct b sl.
Proof using Hh.
  intros Hp Hv. pose proof Hp as [].
  unfold PAGE_SIZE in *. rewrite store32_Some by (done || (unfold next_free_off, page_hdr_off, OFFSET_PAGE_HDR; lia)).
  eexists. split; [done|].
  pose proof (pg_hdr_splice m nx ct b sl next_free_off (enc32 v) Hp ltac:(done) ltac:(done) (enc32_u8 v)) as H.
  unfold page_next, page_count in H. rewrite word_splice_same in H by (done || (unfold next_free_off, page_hdr_off, OFFSET_PAGE_HDR; lia)).
  rewrite word_splice_other in H; [|done|rewrite length_enc32; unfold next_free_off, page_hdr_off, OFFSET_PAGE_HDR; lia|done|by right].
  unfold page_count in pg_count0. by rewrite pg_count0 in H.
Qed.

Lemma pg_store_count m nx ct b sl v :
  pg m nx ct b sl → is_s32 v → ∃ m', store32 m num_records_off v = Some m' ∧ pg m' nx v b sl.
Proof using Hh.
  intros Hp Hv. pose proof Hp as [].
  unfold PAGE_SIZE in *. rewrite store32_Some by (done || (unfold num_records_off, page_hdr_off, OFFSET_PAGE_HDR; lia)).
  eexists. split; [done|].
  pose proof (pg_hdr_splice m nx ct b sl num_records_off (enc32 v) Hp ltac:(done) ltac:(done) (enc32_u8 v)) as H.
  unfold page_next, page_count in H.
  rewrite (word_splice_same m num_records_off) in H by (done || (unfold num_records_off, page_hdr_off, OFFSET_PAGE_HDR; lia)).
  rewrite word_splice_other in H; [|done|rewrite length_enc32; unfold num_records_off, page_hdr_off, OFFSET_PAGE_HDR; lia|done|by left].
  unfold page_next in pg_next0. by rewrite pg_next0 in H.
Qed.

Lemma pg_add_count m nx ct b sl k :
  pg m nx ct b sl → is_s32 (ct + k) →
  ∃ m', add_num_records k m = Some m' ∧ pg m' nx (ct + k) b sl.
Proof using Hh.
  intros Hp Hk. unfold add_num_records. rewrite (load_count _ _ _ _ _ Hp). simpl.
  rewrite s32_Some by done. simpl. by apply (pg_store_count m nx ct b sl).
Qed.

(** Writing a byte of the bitmap keeps header and slots. *)
Lemma pg_bit_splice m nx ct b sl s c m' v :
  pg m nx ct b sl → 0 <= s < n → m' = splice m (bitmap_off + s / 8) [c] →
  Bitmap.writes_bit m bitmap_off n m' s v →
  pg m' nx ct (λ j, if decide (j = s) then v else b j) sl.
Proof using Hh.
  intros [] Hs -> (Hlen & (_ & _ & Hu) & _ & Hb).
  pose proof hdr_layout as (? & Hbs & _).
  assert (0 <= s / 8 < bitmap_size h).
  { rewrite Hbs. split; [apply Z.div_pos; lia|]. apply Z.div_lt_upper_bound; [lia|].
    pose proof (Z.div_mod (n + 7) 8 ltac:(lia)). pose proof (Z.mod_pos_bound (n + 7) 8 ltac:(lia)). lia. }
  assert (bitmap_off + s / 8 + zlen [c] <= zlen m).
  { pose proof (slot_range s Hs). pose proof hdr_layout. simpl. lia. }
  assert (Hw : ∀ off, 0 <= off → off + 4 <= bitmap_off →
    slice (splice m (bitmap_off + s / 8) [c]) off 4 = slice m off 4).
  { intros. unfold bitmap_off, sizeof_RmPageHdr, OFFSET_PAGE_HDR in *. apply slice_splice_disjoint; lia. }
  split.
  - by rewrite Hlen.
  - done.
  - unfold page_next. by rewrite Hw.
  - unfold page_count. by rewrite Hw.
  - intros j Hj. unfold page_bit. rewrite Hb by done. case_decide; [done|]. by apply pg_bits0.
  - intros j Hj. unfold page_slot. pose proof (slot_range j Hj).
    pose proof hdr_layout. unfold bitmap_off, sizeof_RmPageHdr, OFFSET_PAGE_HDR in *.
    rewrite slice_splice_disjoint by (simpl in *; lia). by apply pg_slots0.
Qed.

Lemma pg_set m nx ct b sl s :
  pg m nx ct b sl → 0 <= s < n →
  ∃ m', Bitmap.set m bitmap_off s = Some m' ∧
    pg m' nx ct (λ j, if decide (j = s) then true else b j) sl.
Proof using Hh.
  intros Hp Hs. destruct (Bitmap.set_spec m bitmap_off n) with (pos := s) as (m' & Hm & Hw).
  - by apply pg_fits; apply Hp.
  - done.
  - exists m'. split; [done|]. destruct Hw as (? & ? & [c Hc] & ?).
    eapply pg_bit_splice; try done. split_and!; eauto.
Qed.

Lemma pg_reset m nx ct b sl s :
  pg m nx ct b sl → 0 <= s < n →
  ∃ m', Bitmap.reset m bitmap_off s = Some m' ∧
    pg m' nx ct (λ j, if decide (j = s) then false else b j) sl.
Proof using Hh.
  intros Hp Hs. destruct (Bitmap.reset_spec m bitmap_off n) with (pos := s) as (m' & Hm & Hw).
  - by apply pg_fits; apply Hp.
  - done.
  - exists m'. split; [done|]. destruct Hw as (? & ? & [c Hc] & ?).
    eapply pg_bit_splice; try done. split_and!; eauto.
Qed.

Lemma pg_is_set m nx ct b sl s :
  pg m nx ct b sl → 0 <= s < n → Bitmap.is_set m bitmap_off s = Some (b s).
Proof using Hh.
  intros Hp Hs. rewrite (Bitmap.is_set_spec m bitmap_off n) by (done || (apply pg_fits; apply Hp)).
  f_equal. by apply (pg_bits _ _ _ _ _ Hp).
Qed.

(** Reading and writing a slot. *)
Lemma pg_read_slot m nx ct b sl s :
  pg m nx ct b sl → 0 <= s < n →
  new_RmRecord rs (mem_read m (get_slot h s) rs) = Some (mkRmRecord (sl s)).
Proof using Hh.
  intros [] Hs. pose proof (slot_range s Hs). pose proof hdr_layout as (? & ? & ? & ? & _).
  unfold bitmap_off, sizeof_RmPageHdr, OFFSET_PAGE_HDR in *.
  rewrite mem_read_Some by lia. unfold new_RmRecord. simpl.
  fold (page_slot h m s). rewrite pg_slots0 by done.
  assert (zlen (sl s) = rs) as Hl.
  { rewrite <- pg_slots0 by done. unfold page_slot. apply length_slice; lia. }
  rewrite mem_read_Some by lia. simpl. unfold slice. change (Z.to_nat 0) with O.
  rewrite drop_0, take_ge by lia. done.
Qed.

Lemma pg_write_slot m nx ct b sl s buf :
  pg m nx ct b sl → 0 <= s < n → rs <= zlen buf → Forall is_u8 buf →
  ∃ m', write_slot h s buf m = Some m' ∧
    pg m' nx ct b (λ j, if decide (j = s) then take (Z.to_nat rs) buf else sl j).
Proof using Hh.
  intros [] Hs Hl Hu. pose proof (slot_range s Hs) as Hr. pose proof hdr_layout as (? & ? & ? & ? & _).
  unfold write_slot. rewrite mem_read_Some by lia. simpl.
  unfold slice at 1. change (Z.to_nat 0) with O. rewrite drop_0. set (d := take (Z.to_nat rs) buf).
  assert (zlen d = rs) as Hd by (unfold d; rewrite length_take; lia).
  unfold bitmap_off, sizeof_RmPageHdr, OFFSET_PAGE_HDR in Hr.
  rewrite mem_write_Some by lia. eexists. split; [done|]. split.
  - rewrite length_splice by lia. done.
  - apply Forall_splice; [done|]. by apply Forall_take.
  - unfold page_next, next_free_off, page_hdr_off, OFFSET_PAGE_HDR.
    rewrite word_splice_other by lia. done.
  - unfold page_count, num_records_off, page_hdr_off, OFFSET_PAGE_HDR.
    rewrite word_splice_other by lia. done.
  - intros j Hj. rewrite bit_splice_other; [by apply pg_bits0|done|lia|lia|right].
    unfold bitmap_off, sizeof_RmPageHdr, OFFSET_PAGE_HDR. lia.
  - intros j Hj. unfold page_slot. case_decide as Hjs.
    + subst j. rewrite <- Hd. apply slice_splice_same; lia.
    + pose proof (slot_range j Hj). pose proof (slots_apart j s Hj Hs Hjs).
      unfold bitmap_off, sizeof_RmPageHdr, OFFSET_PAGE_HDR in *.
      rewrite slice_splice_disjoint by lia. by apply pg_slots0.
Qed.

(** A new page, once its header and bitmap are initialised. *)
Lemma pg_init m :
  zlen m = PAGE_SIZE → Forall is_u8 m →
  ∃ m1 m2 m3, store32 m next_free_off RM_NO_PAGE = Some m1 ∧
    store32 m1 num_records_off 0 = Some m2 ∧
    Bitmap.init m2 bitmap_off (bitmap_size h) = Some m3 ∧
    zlen m1 = PAGE_SIZE ∧ zlen m2 = PAGE_SIZE ∧
    pg m3 RM_NO_PAGE 0 (λ _, false) (page_slot h m3).
Proof using Hh.
  intros Hl Hu.
  destruct (pg_store_next m _ _ _ _ RM_NO_PAGE (pg_self m Hl Hu)) as (m1 & H1 & P1); [by vm_compute|].
  destruct (pg_store_count m1 _ _ _ _ 0 P1) as (m2 & H2 & P2); [by vm_compute|].
  pose proof hdr_layout as (? & Hbs & ? & ? & ?). unfold slots_off in *.
  destruct (Bitmap.init_spec m2 bitmap_off n) as (m3 & Hm3 & Hl3 & (_ & _ & Hu3) & -> & Hb3);
    [lia|apply pg_fits; apply P2|].
  rewrite <- Hbs in *.
  set (z := replicate (Z.to_nat (bitmap_size h)) 0) in *.
  assert (zlen z = bitmap_size h) as Hz by (unfold z; rewrite length_replicate; lia).
  exists m1, m2, (splice m2 bitmap_off z). pose proof P2 as [].
  assert (bitmap_off = 12) as Hbo by done.
  split_and!; try done; [apply P1|]. split; try done.
  - by rewrite Hl3.
  - unfold page_next, next_free_off, page_hdr_off, OFFSET_PAGE_HDR.
    rewrite word_splice_other by nia. done.
  - unfold page_count, num_records_off, page_hdr_off, OFFSET_PAGE_HDR.
    rewrite word_splice_other by nia. done.
Qed.

End page.
