(* ===== verification/RmFileProofs.v ===== *)
(** Correctness of record files.

    [rec_at a x]: the records of the file of handle [x], a partial function
    from positions to bytes.  [rm_ok a x]: the invariant of a record file (the
    header counts its pages, every page counts its used slots, and the free
    list of pages is exactly the pages with room).  The lemmas show that each
    operation keeps the invariant and acts on [rec_at] as on a finite map, and
    that a scan visits the records in order. *)
From Stdlib Require Import Sorting.Sorted.
From S2P Require Import Prelude.
From S2P Require Import Defs.
From S2P Require Import RecScan.
From S2P Require Import Bitmap.
From S2P Require Import Replacer.
From S2P Require Import Disk.
From S2P Require Import BufferPool.
From S2P Require Import BufferPoolProofs.
From S2P Require Import PoolSpec.
From S2P Require Import Session.
From S2P Require Import RmFile.
From S2P Require Import RmPage.
Import RmFileHandle.

#[local] Open Scope prog_scope.

(** The pages of the free list, starting with page [first]. *)
Fixpoint chain (V : gmap PageId bytes) (fd first : Z) (l : list Z) : Prop :=
  match l with
  | [] => first = RM_NO_PAGE
  | p :: l' => first = p ∧ ∃ m, V !! mkPageId fd p = Some m ∧ chain V fd (page_next m) l'
  end.

(** Page [p] is a data page of the file and has a free slot. *)
Definition has_room (a : Abs) (x : handle) (p : Z) : Prop :=
  1 <= p < num_pages (file_hdr_ x) ∧ ∃ m, a_view a !! mkPageId (fd_ x) p = Some m ∧
    page_used (file_hdr_ x) m < num_records_per_page (file_hdr_ x).

Record rm_ok (a : Abs) (x : handle) : Prop := {
  rk_hdr : hdr_wf (file_hdr_ x);
  rk_open : fd_ x ∈ a_open a;
  rk_pages : 1 <= num_pages (file_hdr_ x);
  rk_max : is_s32 (num_pages (file_hdr_ x));
  rk_next : a_next a (fd_ x) = num_pages (file_hdr_ x);
  rk_idle p : idle (mkPageId (fd_ x) p) a;
  rk_page p : 1 <= p < num_pages (file_hdr_ x) → ∃ m, a_view a !! mkPageId (fd_ x) p = Some m ∧
    zlen m = PAGE_SIZE ∧ Forall is_u8 m ∧ page_count m = page_used (file_hdr_ x) m;
  rk_beyond p : ¬ (1 <= p < num_pages (file_hdr_ x)) → a_view a !! mkPageId (fd_ x) p = None;
  rk_chain : ∃ l, chain (a_view a) (fd_ x) (first_free_page_no (file_hdr_ x)) l ∧ NoDup l ∧
    ∀ p, p ∈ l ↔ has_room a x p
}.

(** The record at a position. *)
Definition in_file (x : handle) (r : Rid) : Prop :=
  1 <= rid_page_no r < num_pages (file_hdr_ x) ∧
  0 <= rid_slot_no r < num_records_per_page (file_hdr_ x).

#[export] Instance in_file_dec x r : Decision (in_file x r).
Proof. unfold in_file. apply _. Defined.

Definition rec_at (a : Abs) (x : handle) (r : Rid) : option bytes :=
  if decide (in_file x r) then
    m ← a_view a !! mkPageId (fd_ x) (rid_page_no r);
    if page_bit m (rid_slot_no r) then Some (page_slot (file_hdr_ x) m (rid_slot_no r)) else None
  else None.

(** Nothing but file [fd0] changed. *)
Record file_le (fd0 : Z) (a a' : Abs) : Prop := {
  fl_view i : fd i ≠ fd0 → a_view a' !! i = a_view a !! i;
  fl_next fd1 : fd1 ≠ fd0 → a_next a' fd1 = a_next a fd1;
  fl_held : a_held a' = a_held a;
  fl_mod : a_mod a' = a_mod a;
  fl_open : a_open a' = a_open a;
  fl_size : a_size a' = a_size a
}.

#[export] Instance file_le_preorder fd0 : PreOrder (file_le fd0).
Proof.
  split; [by split|]. intros a b c [V1 N1 H1 M1 O1 S1] [V2 N2 H2 M2 O2 S2]. split.
  - intros i Hi. by rewrite V2, V1.
  - intros f Hf. by rewrite N2, N1.
  - congruence.
  - congruence.
  - congruence.
  - congruence.
Qed.

Lemma file_le_set i m a : file_le (fd i) a (a_set i m a).
Proof.
  split; try done. intros j Hj. simpl. apply lookup_insert_ne. by intros ->.
Qed.

Lemma file_le_bump fd0 a : file_le fd0 a (a_bump fd0 a).
Proof. split; try done. intros f Hf. simpl. by rewrite decide_False. Qed.

(** ** The free list *)

Lemma chain_set V fd0 first l p m :
  chain V fd0 first l → p ∉ l → chain (<[mkPageId fd0 p := m]> V) fd0 first l.
Proof.
  revert first. induction l as [|q l IH]; intros first; simpl; [done|].
  intros (-> & m' & Hm & Hc) Hp. apply not_elem_of_cons in Hp as [Hne Hp].
  split; [done|]. exists m'. split; [|by apply IH]. rewrite lookup_insert_ne; [done|]. congruence.
Qed.

Lemma chain_set_next V fd0 first l p m m' :
  chain V fd0 first l → V !! mkPageId fd0 p = Some m → page_next m' = page_next m →
  chain (<[mkPageId fd0 p := m']> V) fd0 first l.
Proof.
  intros Hc Hm Hn. revert first Hc. induction l as [|q l IH]; intros first; simpl; [done|].
  intros (-> & m0 & Hm0 & Hc). split; [done|].
  destruct (decide (q = p)) as [->|Hne].
  - rewrite Hm in Hm0. injection Hm0 as <-. exists m'. rewrite lookup_insert_eq.
    split; [done|]. rewrite Hn. by apply IH.
  - exists m0. rewrite lookup_insert_ne by congruence. split; [done|]. by apply IH.
Qed.

Lemma chain_head V fd0 first l :
  chain V fd0 first l → first ≠ RM_NO_PAGE → ∃ m l', l = first :: l' ∧
    V !! mkPageId fd0 first = Some m ∧ chain V fd0 (page_next m) l'.
Proof. destruct l as [|p l]; simpl; [done|]. intros (-> & m & Hm & Hc) _. eauto. Qed.

(** ** Replacing one page *)

Lemma has_room_set a x p m q :
  (has_room (a_set (mkPageId (fd_ x) p) m a) x q ↔
   if decide (q = p) then 1 <= p < num_pages (file_hdr_ x) ∧
      page_used (file_hdr_ x) m < num_records_per_page (file_hdr_ x)
   else has_room a x q).
Proof.
  unfold has_room; simpl. case_decide as Hq.
  - subst q. rewrite lookup_insert_eq. split.
    + by intros (? & m' & [= <-] & ?).
    + intros [? ?]. eauto.
  - rewrite lookup_insert_ne by congruence. done.
Qed.

(** The invariant after page [p] was replaced by [m'], the free list moved
    to [first]. *)
Lemma rm_ok_set a x p m' first l :
  rm_ok a x → 1 <= p < num_pages (file_hdr_ x) → zlen m' = PAGE_SIZE → Forall is_u8 m' →
  page_count m' = page_used (file_hdr_ x) m' →
  let x' := mkHandle (fd_ x) (set_first_free first (file_hdr_ x)) in
  let a' := a_set (mkPageId (fd_ x) p) m' a in
  chain (a_view a') (fd_ x) first l → NoDup l →
  (∀ q, q ∈ l ↔ if decide (q = p) then page_used (file_hdr_ x) m' < num_records_per_page (file_hdr_ x)
                else has_room a x q) →
  rm_ok a' x'.
Proof.
  intros Hk Hp Hl Hu Hc x' a' Hch Hnd Hin. split; try apply Hk.
  - destruct (rk_hdr _ _ Hk). by split.
  - intros q Hq. simpl. destruct (decide (q = p)) as [->|Hne].
    + rewrite lookup_insert_eq. by exists m'.
    + rewrite lookup_insert_ne by congruence. by apply (rk_page _ _ Hk).
  - intros q Hq. simpl in *. rewrite lookup_insert_ne by (intros [= ->]; done). by apply (rk_beyond _ _ Hk).
  - exists l. split_and!; [done|done|]. intros q. rewrite Hin.
    etrans; [|symmetry; apply (has_room_set a x p m' q)]. case_decide; [|done]. naive_solver.
Qed.

(** The free list does not matter to the records. *)
Lemma rec_at_hdr a x first r :
  rec_at a (mkHandle (fd_ x) (set_first_free first (file_hdr_ x))) r = rec_at a x r.
Proof. reflexivity. Qed.

Lemma same_hdr x : mkHandle (fd_ x) (set_first_free (first_free_page_no (file_hdr_ x)) (file_hdr_ x)) = x.
Proof. by destruct x as [? []]. Qed.

Lemma rec_at_set a x p m' r :
  1 <= p < num_pages (file_hdr_ x) →
  rec_at (a_set (mkPageId (fd_ x) p) m' a) x r =
    if decide (rid_page_no r = p) then
      if decide (in_file x r) then
        if page_bit m' (rid_slot_no r) then Some (page_slot (file_hdr_ x) m' (rid_slot_no r)) else None
      else None
    else rec_at a x r.
Proof.
  intros Hp. unfold rec_at. simpl.
  case_decide as Hr; repeat case_decide; try done.
  - subst p. by rewrite lookup_insert_eq.
  - by rewrite lookup_insert_ne by congruence.
Qed.

(** A record is found in its page. *)
Lemma rec_at_page a x r m :
  in_file x r → a_view a !! mkPageId (fd_ x) (rid_page_no r) = Some m →
  rec_at a x r = if page_bit m (rid_slot_no r) then Some (page_slot (file_hdr_ x) m (rid_slot_no r)) else None.
Proof. intros Hr Hm. unfold rec_at. by rewrite decide_True, Hm. Qed.

(** ** Counting used slots *)

Lemma used_write x m m' s v :
  hdr_wf x → 0 <= s < num_records_per_page x →
  (∀ j, 0 <= j < num_records_per_page x →
     page_bit m' j = if decide (j = s) then v else page_bit m j) →
  page_used x m' = page_used x m + (Z.b2z v - Z.b2z (page_bit m s)).
Proof.
  intros Hx Hs Hb. unfold page_used. rewrite (Bitmap.count_write m m' bitmap_off s v).
  - rewrite decide_True by lia. done.
  - lia.
  - intros j Hj. apply Hb. lia.
Qed.

Lemma used_bounds x m : hdr_wf x → 0 <= page_used x m <= num_records_per_page x.
Proof.
  intros Hx. pose proof (hdr_layout x Hx). unfold page_used.
  pose proof (Bitmap.count_bounds m bitmap_off (Z.to_nat (num_records_per_page x))). lia.
Qed.

Lemma count_lt_exists m bm k :
  Bitmap.count m bm k < Z.of_nat k → ∃ j, 0 <= j < Z.of_nat k ∧ Bitmap.bit_at m bm j = false.
Proof.
  induction k as [|k IH]; simpl; [lia|]. intros Hc.
  destruct (Bitmap.bit_at m bm (Z.of_nat k)) eqn:E; simpl in Hc.
  - destruct IH as (j & ? & ?); [lia|]. exists j. split; [lia|done].
  - exists (Z.of_nat k). split; [lia|done].
Qed.

(** [Bitmap::first_bit(false, ...)] finds a free slot of a page with room. *)
Lemma first_free_slot x m :
  hdr_wf x → zlen m = PAGE_SIZE → Forall is_u8 m → page_used x m < num_records_per_page x →
  ∃ s, Bitmap.first_bit false m bitmap_off (num_records_per_page x) = Some s ∧
    0 <= s < num_records_per_page x ∧ page_bit m s = false.
Proof.
  intros Hx Hl Hu Hused. pose proof (hdr_layout x Hx).
  destruct (Bitmap.next_bit_spec m bitmap_off (num_records_per_page x)
              (pg_fits x Hx m Hl Hu) false (num_records_per_page x) (-1)) as (r & Hr & Hm); [lia|lia|].
  exists r. split; [done|]. destruct Hm as [[-> Hall]|(? & ? & _)]; [exfalso|done].
  destruct (count_lt_exists m bitmap_off (Z.to_nat (num_records_per_page x))) as (j & Hj & Hbj).
  { unfold page_used in Hused. lia. }
  rewrite Hall in Hbj by lia. done.
Qed.

(** ** The operations *)

Section ops.
  Context {D : Type} {PS : PageStore D} {PSL : PageStoreLaws D}
          {R : Type} {RP : Replacer R} {RPL : ReplacerLaws R}.
  Notation st := (RmFileHandle.st D R).
  Implicit Types (s : st) (a : Abs) (x : handle) (f : Z) (i : PageId) (m : bytes).

Definition st_repr s a x : Prop := repr (bpm s) a ∧ fh s = x.

(** There is a frame for one more page. *)
Definition room a : Prop := Z.of_nat (size (a_held a)) < a_size a.

Lemma on_pool_Ret {A} (c : M (BufferPool.t D R) A) s y p :
  c (bpm s) = (Ret y, p) → on_pool c s = (Ret y, set_bpm p s).
Proof. apply (zoom_Ret bpm set_bpm). Qed.

Lemma set_bpm_same s : set_bpm (bpm s) s = s.
Proof. by destruct s. Qed.

Lemma fetch_handle_ok s a x p m :
  st_repr s a x → idle (mkPageId (fd_ x) p) a → room a → a_view a !! mkPageId (fd_ x) p = Some m →
  ∃ f s', fetch_page_handle p s = (Ret f, s') ∧
    st_repr s' (a_hold (mkPageId (fd_ x) p) f 1 a) x ∧ st_repr s' (sess a (mkPageId (fd_ x) p) f m) x.
Proof.
  intros [Hr Hx] Hi Hroom Hm.
  destruct (sess_fetch (bpm s) a _ m Hr Hi Hm Hroom) as (f & p' & Hrun & Hr1 & Hr2).
  exists f, (set_bpm p' s). split; [|done]. unfold fetch_page_handle. step. rewrite Hx.
  by run (on_pool_Ret _ _ _ _ Hrun).
Qed.

Lemma page_id_ok s a x i f m :
  st_repr s a x → a_held a !! i = Some (f, 1) → a_view a !! i = Some m → page_id f s = (Ret i, s).
Proof.
  intros [Hr _] Hh Hm. destruct (repr_get (bpm s) a i f 1 m Hr Hh Hm) as (p & Hp & Hid & _).
  unfold page_id. run (on_pool_Ret _ _ _ _ Hp). rewrite set_bpm_same. unfold GetPageId. by rewrite Hid.
Qed.

Lemma load_ok {A} s a x i f m (g : bytes → option A) y :
  st_repr s a x → a_held a !! i = Some (f, 1) → a_view a !! i = Some m → g m = Some y →
  load f g s = (Ret y, s).
Proof.
  intros [Hr _] Hh Hm Hy. unfold load.
  rewrite (on_pool_Ret _ s _ _ (repr_load (bpm s) a i f 1 m g y Hr Hh Hm Hy)). by rewrite set_bpm_same.
Qed.

Lemma store_ok s a x i f m (g : bytes → option bytes) m' :
  st_repr s (sess a i f m) x → g m = Some m' → zlen m' = PAGE_SIZE →
  ∃ s', store f g s = (Ret tt, s') ∧ st_repr s' (sess a i f m') x.
Proof.
  intros [Hr Hx] Hg Hl.
  destruct (repr_store (bpm s) _ i f 1 m g m' Hr (sess_held _ _ _ _) (sess_view _ _ _ _) Hg Hl)
    as (p & Hrun & Hr'). rewrite sess_write in Hr'.
  exists (set_bpm p s). split; [by apply on_pool_Ret|done].
Qed.

Lemma unpin_dirty_ok s a x i f m :
  st_repr s (sess a i f m) x → idle i a →
  ∃ s', unpin i true s = (Ret tt, s') ∧ st_repr s' (a_set i m a) x.
Proof.
  intros [Hr Hx] Hi.
  destruct (repr_unpin (bpm s) _ i f 1 true Hr (sess_held _ _ _ _)) as (p & Hrun & Hr'); [by left|].
  rewrite sess_release in Hr' by done. exists (set_bpm p s). split; [|done].
  unfold unpin. by run (on_pool_Ret _ _ _ _ Hrun).
Qed.

Lemma unpin_clean_ok s a x i f :
  st_repr s (a_hold i f 1 a) x → idle i a →
  ∃ s', unpin i false s = (Ret tt, s') ∧ st_repr s' a x.
Proof.
  intros [Hr Hx] Hi.
  destruct (repr_unpin (bpm s) _ i f 1 false Hr (hold_held _ _ _)) as (p & Hrun & Hr'); [right; apply Hi|].
  rewrite hold_release in Hr' by done. exists (set_bpm p s). split; [|done].
  unfold unpin. by run (on_pool_Ret _ _ _ _ Hrun).
Qed.

Lemma set_hdr_repr s a x h : st_repr s a x → st_repr (set_hdr h s) a (mkHandle (fd_ x) h).
Proof. intros [Hr <-]. done. Qed.

(** Holding a page that is written back unchanged is the same. *)
Lemma sess_sess a i f m m' : sess (a_set i m a) i f m' = sess a i f m'.
Proof. unfold sess, a_set; simpl. by rewrite insert_insert_eq. Qed.

(** ** [get_record] *)

Lemma get_record_ok s a x r m :
  st_repr s a x → rm_ok a x → room a → in_file x r →
  a_view a !! mkPageId (fd_ x) (rid_page_no r) = Some m →
  ∃ s', get_record r s = (Ret (mkRmRecord (page_slot (file_hdr_ x) m (rid_slot_no r))), s') ∧
    st_repr s' a x.
Proof.
  intros Hs Hk Hroom [Hp Hsl] Hm. pose proof (rk_idle _ _ Hk (rid_page_no r)) as Hi.
  destruct (rk_page _ _ Hk _ Hp) as (m0 & Hm0 & Hl & Hu & _). rewrite Hm in Hm0. injection Hm0 as <-.
  destruct (fetch_handle_ok s a x _ m Hs Hi Hroom Hm) as (f & s1 & Hf & Hs1 & _).
  destruct (unpin_clean_ok s1 a x _ f Hs1 Hi) as (s2 & Hun & Hs2).
  exists s2. split; [|done]. unfold get_record. run Hf. step.
  assert (hdr s1 = file_hdr_ x) as -> by (unfold hdr; by rewrite (proj2 Hs1)).
  erewrite bind_Ret; [|eapply (load_ok s1 (a_hold _ f 1 a) x); [done|apply hold_held|exact Hm|]].
  2:{ by eapply (pg_read_slot _ (rk_hdr _ _ Hk) m), Hsl; apply pg_self. }
  cbn beta. erewrite bind_Ret; [|by eapply (page_id_ok s1 (a_hold _ f 1 a) x), Hm; [|apply hold_held]].
  by run Hun.
Qed.

(** ** [update_record] *)

Lemma update_record_ok s a x r buf :
  st_repr s a x → rm_ok a x → room a → in_file x r →
  record_size (file_hdr_ x) <= zlen buf → Forall is_u8 buf →
  ∃ s' a', update_record r buf s = (Ret tt, s') ∧ st_repr s' a' x ∧ rm_ok a' x ∧
    file_le (fd_ x) a a' ∧
    ∀ r', rec_at a' x r' =
      if decide (r' = r ∧ is_Some (rec_at a x r))
      then Some (take (Z.to_nat (record_size (file_hdr_ x))) buf) else rec_at a x r'.
Proof.
  intros Hs Hk Hroom Hr Hbl Hbu. pose proof Hr as [Hp Hsl].
  set (p := rid_page_no r) in *. pose proof (rk_idle _ _ Hk p) as Hi.
  destruct (rk_page _ _ Hk _ Hp) as (m & Hm & Hl & Hu & Hc).
  destruct (fetch_handle_ok s a x p m Hs Hi Hroom Hm) as (f & s1 & Hf & _ & Hs1).
  destruct (pg_write_slot _ (rk_hdr _ _ Hk) m _ _ _ _ (rid_slot_no r) buf (pg_self _ m Hl Hu))
    as (m' & Hw & Hpg); [done..|].
  destruct (store_ok s1 a x _ f m _ m' Hs1 Hw) as (s2 & Hst & Hs2); [apply Hpg|].
  destruct (unpin_dirty_ok s2 a x _ f m' Hs2 Hi) as (s3 & Hun & Hs3).
  exists s3, (a_set (mkPageId (fd_ x) p) m' a). split_and!; [|done| | |].
  - unfold update_record. fold p. run Hf. step.
    assert (hdr s1 = file_hdr_ x) as -> by (unfold hdr; by rewrite (proj2 Hs1)).
    run Hst. erewrite bind_Ret; [|eapply (page_id_ok s2); [done|apply sess_held|apply sess_view]].
    by rewrite Hun.
  - assert (page_used (file_hdr_ x) m' = page_used (file_hdr_ x) m) as Hused.
    { apply Bitmap.count_ext. intros j Hj. apply (pg_bits _ _ _ _ _ _ Hpg). lia. }
    destruct (rk_chain _ _ Hk) as (l & Hch & Hnd & Hin).
    rewrite <- (same_hdr x) at 2. apply rm_ok_set with (l := l); try done; try apply Hpg.
    + rewrite Hused, <- Hc. apply Hpg.
    + simpl. eapply chain_set_next; [done|exact Hm|]. apply Hpg.
    + intros q. rewrite Hin, Hused. case_decide as Hq; [|done]. subst q. unfold has_room.
      rewrite Hm. naive_solver.
  - apply (file_le_set (mkPageId (fd_ x) p)).
  - intros r'. rewrite rec_at_set by done.
    rewrite (rec_at_page a x r m Hr Hm).
    destruct (decide (rid_page_no r' = p)) as [Hp'|Hp'].
    2:{ rewrite decide_False; [done|]. intros [-> _]. done. }
    destruct (decide (in_file x r')) as [Hr'|Hr'].
    2:{ rewrite decide_False by (intros [-> _]; done). unfold rec_at. by rewrite decide_False. }
    rewrite (rec_at_page a x r' m Hr') by by rewrite Hp'.
    rewrite (pg_bits _ _ _ _ _ _ Hpg) by apply Hr'. rewrite (pg_slots _ _ _ _ _ _ Hpg) by apply Hr'.
    destruct (decide (rid_slot_no r' = rid_slot_no r)) as [Hs'|Hs'].
    + assert (r' = r) as -> by (destruct r', r; simpl in *; unfold p in Hp'; simpl in Hp'; congruence).
      destruct (page_bit m (rid_slot_no r)); [rewrite decide_True by eauto|rewrite decide_False by (by intros [_ [? ?]])]; done.
    + rewrite decide_False by (intros [-> _]; done). done.
Qed.

(** ** [create_page_handle] *)

(** Same file, same layout. *)
Record same_file x x' : Prop := {
  sf_fd : fd_ x' = fd_ x;
  sf_size : record_size (file_hdr_ x') = record_size (file_hdr_ x);
  sf_n : num_records_per_page (file_hdr_ x') = num_records_per_page (file_hdr_ x);
  sf_pages : num_pages (file_hdr_ x) <= num_pages (file_hdr_ x')
}.

Lemma chain_none a x :
  rm_ok a x → first_free_page_no (file_hdr_ x) = RM_NO_PAGE → ∀ q, ¬ has_room a x q.
Proof.
  intros Hk Hf q Hq. destruct (rk_chain _ _ Hk) as (l & Hc & _ & Hin).
  rewrite Hf in Hc. apply Hin in Hq. destruct l as [|p l]; [by apply elem_of_nil in Hq|].
  destruct Hc as (<- & _). assert (has_room a x RM_NO_PAGE) as [Hr _] by (apply Hin; by left).
  unfold RM_NO_PAGE in Hr. lia.
Qed.

(** The handle after a page was added. *)
Definition grown x : handle :=
  mkHandle (fd_ x) (set_first_free (num_pages (file_hdr_ x))
    (set_num_pages (num_pages (file_hdr_ x) + 1) (file_hdr_ x))).

Lemma grown_ok a x m b :
  rm_ok a x → first_free_page_no (file_hdr_ x) = RM_NO_PAGE →
  is_s32 (num_pages (file_hdr_ x) + 1) →
  pg (file_hdr_ x) m RM_NO_PAGE 0 (λ _, false) b →
  let a' := a_set (mkPageId (fd_ x) (num_pages (file_hdr_ x))) m (a_bump (fd_ x) a) in
  rm_ok a' (grown x) ∧ has_room a' (grown x) (num_pages (file_hdr_ x)) ∧
  ∀ r, rec_at a' (grown x) r = rec_at a x r.
Proof.
  intros Hk Hf Hs32 Hpg. set (p := num_pages (file_hdr_ x)) in *. intros a'.
  pose proof (rk_pages _ _ Hk) as Hp1. pose proof (hdr_layout _ (rk_hdr _ _ Hk)) as (Hn & _).
  assert (page_used (file_hdr_ x) m = 0) as Hused.
  { apply Bitmap.count_clear. intros j Hj. apply (pg_bits _ _ _ _ _ _ Hpg). lia. }
  assert (has_room a' (grown x) p) as Hroom.
  { split; [simpl; fold p; lia|]. exists m. simpl. rewrite lookup_insert_eq. split; [done|].
    change (page_used (file_hdr_ x) m < num_records_per_page (file_hdr_ x)). lia. }
  split_and!; [|done|].
  - split; simpl; fold p; try apply Hk.
    + destruct (rk_hdr _ _ Hk). by split.
    + lia.
    + done.
    + rewrite decide_True by done. rewrite (rk_next _ _ Hk). by apply to_s32_id.
    + intros q Hq. destruct (decide (q = p)) as [->|Hne].
      * rewrite lookup_insert_eq. exists m. split_and!; try apply Hpg; [done|].
        change (page_count m = page_used (file_hdr_ x) m). rewrite Hused. apply Hpg.
      * rewrite lookup_insert_ne by congruence. apply (rk_page _ _ Hk). fold p. lia.
    + intros q Hq. rewrite lookup_insert_ne by (intros [= <-]; apply Hq; lia). apply (rk_beyond _ _ Hk). fold p. lia.
    + exists [p]. split_and!.
      * simpl. split; [done|]. exists m. rewrite lookup_insert_eq. split; [done|]. apply Hpg.
      * apply NoDup_singleton.
      * intros q. rewrite list_elem_of_singleton. split; [by intros ->|].
        intros [Hq (m' & Hm' & Hu')]. destruct (decide (q = p)) as [|Hne]; [done|exfalso].
        simpl in Hq, Hm'. fold p in Hq. rewrite lookup_insert_ne in Hm' by congruence.
        apply (chain_none a x Hk Hf q). split; [fold p; lia|]. by exists m'.
  - intros r. unfold rec_at. simpl. destruct (decide (in_file x r)) as [Hr|Hr].
    + rewrite decide_True; [|destruct Hr as [Hr ?]; split; simpl; [fold p in Hr |- *; lia|done]].
      rewrite lookup_insert_ne; [done|]. intros [= Heq]. destruct Hr as [Hr _]. fold p in Hr. lia.
    + case_decide as Hr'; [|done]. destruct Hr' as [Hr1 Hr2]. simpl in Hr1, Hr2. fold p in Hr1.
      assert (rid_page_no r = p) as ->.
      { destruct (decide (rid_page_no r = p)); [done|]. destruct Hr. split; [fold p; lia|done]. }
      rewrite lookup_insert_eq. simpl. by rewrite (pg_bits _ _ _ _ _ _ Hpg).
Qed.

Lemma create_new_ok s a x :
  st_repr s a x → rm_ok a x → room a → first_free_page_no (file_hdr_ x) = RM_NO_PAGE →
  is_s32 (num_pages (file_hdr_ x) + 1) →
  ∃ f m s' b, create_new_page_handle s = (Ret f, s') ∧
    st_repr s' (sess (a_bump (fd_ x) a) (mkPageId (fd_ x) (num_pages (file_hdr_ x))) f m) (grown x) ∧
    pg (file_hdr_ x) m RM_NO_PAGE 0 (λ _, false) b.
Proof.
  intros Hs Hk Hroom Hf Hs32. set (p := num_pages (file_hdr_ x)) in *.
  assert (Hid : a_new_id (fd_ x) a = mkPageId (fd_ x) p) by (unfold a_new_id; by rewrite (rk_next _ _ Hk)).
  destruct (repr_new (bpm s) a (mkPageId (fd_ x) INVALID_PAGE_ID) (proj1 Hs)) as (f & q & Hnew & Hr1);
    simpl; [apply Hk|rewrite (rk_next _ _ Hk); pose proof (rk_pages _ _ Hk); lia| |done|].
  { rewrite Hid. apply (rk_beyond _ _ Hk). fold p. lia. }
  simpl in Hnew, Hr1. rewrite alloc_sess, Hid in Hr1. rewrite Hid in Hnew.
  set (i := mkPageId (fd_ x) p) in *.
  destruct (pg_init _ (rk_hdr _ _ Hk) zero_page zero_page_length zero_page_u8) as
    (m1 & m2 & m3 & Hw1 & Hw2 & Hw3 & Hl1 & Hl2 & Hpg).
  assert (st_repr (set_bpm q s) (sess (a_bump (fd_ x) a) i f zero_page) x) as Hs0 by (split; [done|apply Hs]).
  destruct (store_ok _ _ _ _ _ _ (λ m, store32 m next_free_off RM_NO_PAGE) m1 Hs0 Hw1 Hl1) as (s1 & Hst1 & Hs1).
  destruct (store_ok _ _ _ _ _ _ (λ m, store32 m num_records_off 0) m2 Hs1 Hw2 Hl2) as (s2 & Hst2 & Hs2).
  destruct (store_ok _ _ _ _ _ _ (λ m, Bitmap.init m bitmap_off (bitmap_size (file_hdr_ x))) m3 Hs2 Hw3)
    as (s3 & Hst3 & Hs3); [apply Hpg|].
  set (s4 := set_hdr (set_num_pages (p + 1) (file_hdr_ x)) s3).
  exists f, m3, (set_hdr (set_first_free p (hdr s4)) s4). eexists. split_and!; [| |exact Hpg].
  - unfold create_new_page_handle. step. rewrite (proj2 Hs).
    run (on_pool_Ret _ _ _ _ Hnew). simpl. run Hst1. run Hst2. step.
    assert (hdr s2 = file_hdr_ x) as -> by (unfold hdr; by rewrite (proj2 Hs2)).
    run Hst3. rewrite s32_Some by done. done.
  - apply (set_hdr_repr s3 _ x (set_first_free p (hdr s4)) Hs3).
Qed.

Lemma create_page_handle_ok s a x :
  st_repr s a x → rm_ok a x → room a →
  (first_free_page_no (file_hdr_ x) = RM_NO_PAGE → is_s32 (num_pages (file_hdr_ x) + 1)) →
  ∃ f p m s' a' x', create_page_handle s = (Ret f, s') ∧
    st_repr s' (sess a' (mkPageId (fd_ x) p) f m) x' ∧ rm_ok a' x' ∧ same_file x x' ∧
    a_view a' !! mkPageId (fd_ x) p = Some m ∧ first_free_page_no (file_hdr_ x') = p ∧
    has_room a' x' p ∧ file_le (fd_ x) a a' ∧ ∀ r, rec_at a' x' r = rec_at a x r.
Proof.
  intros Hs Hk Hroom Hs32. unfold create_page_handle.
  destruct (decide (first_free_page_no (file_hdr_ x) = RM_NO_PAGE)) as [Hf|Hf].
  - destruct (create_new_ok s a x Hs Hk Hroom Hf (Hs32 Hf)) as (f & m & s' & b & Hrun & Hs' & Hpg).
    destruct (grown_ok a x m _ Hk Hf (Hs32 Hf) Hpg) as (Hk' & Hr' & Hrec).
    exists f, (num_pages (file_hdr_ x)), m, s', (a_set (mkPageId (fd_ x) (num_pages (file_hdr_ x))) m (a_bump (fd_ x) a)),
      (grown x).
    split_and!; try done.
    + step. unfold hdr. rewrite (proj2 Hs), Hf. by rewrite Z.eqb_refl.
    + by rewrite sess_sess.
    + split; simpl; try done. lia.
    + simpl. apply lookup_insert_eq.
    + etrans; [apply file_le_bump|]. apply (file_le_set (mkPageId (fd_ x) _)).
  - destruct (rk_chain _ _ Hk) as (l & Hc & Hnd & Hin).
    destruct (chain_head _ _ _ _ Hc Hf) as (m & l' & -> & Hm & Hc').
    destruct (fetch_handle_ok s a x _ m Hs (rk_idle _ _ Hk _) Hroom Hm) as (f & s' & Hrun & _ & Hs').
    exists f, (first_free_page_no (file_hdr_ x)), m, s', a, x. split_and!; try done.
    + step. unfold hdr. rewrite (proj2 Hs). by rewrite (proj2 (Z.eqb_neq _ _)).
    + apply Hin. by left.
Qed.

(** ** [insert_record] *)

(** The file after slot [sl] of page [p], the first of the free list, was
    filled with [d]. *)
Lemma inserted_ok a x p m m' sl d :
  rm_ok a x → first_free_page_no (file_hdr_ x) = p → 1 <= p < num_pages (file_hdr_ x) →
  a_view a !! mkPageId (fd_ x) p = Some m →
  0 <= sl < num_records_per_page (file_hdr_ x) → page_bit m sl = false →
  pg (file_hdr_ x) m' (page_next m) (page_count m + 1)
    (λ j, if decide (j = sl) then true else page_bit m j)
    (λ j, if decide (j = sl) then d else page_slot (file_hdr_ x) m j) →
  rm_ok (a_set (mkPageId (fd_ x) p) m' a)
    (mkHandle (fd_ x) (set_first_free
      (if page_count m + 1 =? num_records_per_page (file_hdr_ x) then page_next m else p) (file_hdr_ x))) ∧
  ∀ r, rec_at (a_set (mkPageId (fd_ x) p) m' a) x r =
    if decide (r = mkRid p sl) then Some d else rec_at a x r.
Proof.
  intros Hk Hfirst Hp Hm Hsl Hbit Hpg. set (h := file_hdr_ x) in *.
  destruct (rk_page _ _ Hk p Hp) as (m0 & Hm0 & Hl & Hu & Hc). rewrite Hm in Hm0. injection Hm0 as <-.
  fold h in Hc.
  assert (page_used h m' = page_count m + 1) as Hused.
  { rewrite (used_write h m m' sl true (rk_hdr _ _ Hk) Hsl).
    - rewrite Hbit, Hc. simpl. lia.
    - intros j Hj. apply (pg_bits _ _ _ _ _ _ Hpg j Hj). }
  destruct (rk_chain _ _ Hk) as (l & Hch & Hnd & Hin). fold h in Hch. rewrite Hfirst in Hch.
  destruct (chain_head _ _ _ _ Hch) as (m1 & l' & -> & Hm1 & Hch'); [unfold RM_NO_PAGE; lia|].
  rewrite Hm in Hm1. injection Hm1 as <-. apply NoDup_cons in Hnd as [Hnp Hnd].
  split.
  - destruct (Z.eqb_spec (page_count m + 1) (num_records_per_page h)) as [Hfull|Hfull].
    + apply rm_ok_set with (l := l'); try done; try apply Hpg; [by fold h; rewrite Hused; apply Hpg| |].
      * simpl. by apply chain_set.
      * intros q. fold h. rewrite Hused. case_decide as Hq; [subst; split; [done|lia]|].
        rewrite <- Hin, elem_of_cons. naive_solver.
    + apply rm_ok_set with (l := p :: l'); try done; try apply Hpg; [by fold h; rewrite Hused; apply Hpg| | |].
      * simpl a_view. apply chain_set_next with m; [done|done|apply Hpg].
      * by apply NoDup_cons.
      * intros q. fold h. rewrite Hused. case_decide as Hq; [|apply Hin]. subst q.
        split; [|by left]. intros _.
        pose proof (used_bounds h m' (rk_hdr _ _ Hk)). lia.
  - intros r. rewrite rec_at_set by done. fold h.
    destruct (decide (rid_page_no r = p)) as [Hrp|Hrp].
    2:{ rewrite decide_False; [done|]. by intros ->. }
    destruct (decide (in_file x r)) as [Hr|Hr].
    + rewrite (pg_bits _ _ _ _ _ _ Hpg), (pg_slots _ _ _ _ _ _ Hpg) by apply Hr.
      rewrite (rec_at_page a x r m Hr) by by rewrite Hrp.
      destruct (decide (rid_slot_no r = sl)) as [Hs|Hs].
      * rewrite decide_True; [done|]. destruct r; simpl in *. congruence.
      * rewrite decide_False; [done|]. by intros ->.
    + rewrite decide_False; [|intros ->; by apply Hr].
      unfold rec_at. by rewrite decide_False.
Qed.

Lemma insert_record_ok s a x buf :
  st_repr s a x → rm_ok a x → room a →
  (first_free_page_no (file_hdr_ x) = RM_NO_PAGE → is_s32 (num_pages (file_hdr_ x) + 1)) →
  record_size (file_hdr_ x) <= zlen buf → Forall is_u8 buf →
  ∃ rid s' a' x', insert_record buf s = (Ret rid, s') ∧ st_repr s' a' x' ∧ rm_ok a' x' ∧
    same_file x x' ∧ file_le (fd_ x) a a' ∧ in_file x' rid ∧ rec_at a x rid = None ∧
    ∀ r, rec_at a' x' r =
      if decide (r = rid) then Some (take (Z.to_nat (record_size (file_hdr_ x))) buf) else rec_at a x r.
Proof.
  intros Hs Hk Hroom Hs32 Hbl Hbu.
  destruct (create_page_handle_ok s a x Hs Hk Hroom Hs32) as
    (f & p & m & s1 & a1 & x1 & Hrun & Hs1 & Hk1 & Hsame & Hm & Hfirst & [Hp (m0 & Hm0 & Hused)] & Hle & Hrec).
  pose proof (sf_fd _ _ Hsame) as Hfd. pose proof (sf_size _ _ Hsame) as Hsz.
  rewrite <- Hfd in Hm, Hs1. rewrite Hm in Hm0. injection Hm0 as <-.
  set (h := file_hdr_ x1) in *. set (i := mkPageId (fd_ x1) p) in *.
  destruct (rk_page _ _ Hk1 p Hp) as (m0 & Hm0 & Hl & Hu & Hc). fold i in Hm0. rewrite Hm in Hm0. injection Hm0 as <-.
  pose proof (hdr_layout h (rk_hdr _ _ Hk1)) as (Hn & _).
  destruct (first_free_slot h m (rk_hdr _ _ Hk1) Hl Hu Hused) as (sl & Hfs & Hsl & Hbit).
  destruct (pg_write_slot h (rk_hdr _ _ Hk1) m _ _ _ _ sl buf (pg_self h m Hl Hu)) as (m1 & Hw1 & P1); [done|by rewrite Hsz|done|].
  destruct (pg_set h (rk_hdr _ _ Hk1) m1 _ _ _ _ sl P1 Hsl) as (m2 & Hw2 & P2).
  assert (is_s32 (page_count m + 1)) as Hc32 by (fold h in Hc; pose proof (used_bounds h m (rk_hdr _ _ Hk1)); unfold is_s32; lia).
  destruct (pg_add_count h (rk_hdr _ _ Hk1) m2 _ _ _ _ 1 P2 Hc32) as (m3 & Hw3 & P3).
  destruct (store_ok s1 a1 x1 i f m _ m1 Hs1 Hw1) as (s2 & Hst1 & Hs2); [apply P1|].
  destruct (store_ok s2 a1 x1 i f m1 (λ m, Bitmap.set m bitmap_off sl) m2 Hs2 Hw2) as (s3 & Hst2 & Hs3); [apply P2|].
  destruct (store_ok s3 a1 x1 i f m2 (add_num_records 1) m3 Hs3 Hw3) as (s4 & Hst3 & Hs4); [apply P3|].
  destruct (inserted_ok a1 x1 p m m3 sl (take (Z.to_nat (record_size h)) buf) Hk1 Hfirst Hp Hm Hsl Hbit P3) as [Hk2 Hrec2].
  fold h i in Hk2, Hrec2.
  set (nf := if page_count m + 1 =? num_records_per_page h then page_next m else p) in *.
  set (x2 := mkHandle (fd_ x1) (set_first_free nf h)) in *.
  assert (∃ s5, st_repr s5 (sess a1 i f m3) x2 ∧
    (if page_count m + 1 =? num_records_per_page h
     then let* nx := load f (λ m, load32 m next_free_off) in
          modify (λ s, set_hdr (set_first_free nx (hdr s)) s)
     else ret tt) s4 = (Ret tt, s5)) as (s5 & Hs5 & Hif).
  { unfold x2, nf. destruct (page_count m + 1 =? num_records_per_page h).
    - exists (set_hdr (set_first_free (page_next m) h) s4). split; [by apply (set_hdr_repr s4 _ x1)|].
      erewrite bind_Ret; [|eapply (load_ok s4); [done|apply sess_held|apply sess_view|by eapply load_next]].
      unfold modify, hdr. by rewrite (proj2 Hs4).
    - exists s4. split; [|done]. rewrite <- Hfirst. unfold h. by rewrite same_hdr. }
  destruct (unpin_dirty_ok s5 a1 x2 i f m3 Hs5) as (s6 & Hun & Hs6); [apply (rk_idle _ _ Hk1)|].
  exists (mkRid p sl), s6, (a_set i m3 a1), x2. split_and!; try done.
  - unfold insert_record. run Hrun. step.
    assert (hdr s1 = h) as -> by (unfold hdr; by rewrite (proj2 Hs1)).
    erewrite bind_Ret; [|eapply (load_ok s1); [done|apply sess_held|apply sess_view|exact Hfs]].
    cbn beta. run Hst1. run Hst2. run Hst3.
    erewrite bind_Ret; [|eapply (load_ok s4); [done|apply sess_held|apply sess_view|by eapply load_count]].
    cbn beta. run Hif. erewrite bind_Ret; [|eapply (page_id_ok s5); [done|apply sess_held|apply sess_view]].
    cbn beta. by run Hun.
  - by destruct Hsame.
  - rewrite <- Hfd. etrans; [by rewrite Hfd|]. apply (file_le_set i).
  - rewrite <- Hrec. rewrite (rec_at_page a1 x1 (mkRid p sl) m); [by simpl; rewrite Hbit|done|done].
  - intros r. change (rec_at (a_set i m3 a1) x2 r) with (rec_at (a_set i m3 a1) x1 r).
    rewrite Hrec2, Hrec. by rewrite <- Hsz.
Qed.

(** ** [delete_record] *)

(** The file after slot [sl] of page [p] was freed; [nx] is the next free
    page that the page now names. *)
Lemma deleted_ok a x p m m' sl nx b :
  rm_ok a x → 1 <= p < num_pages (file_hdr_ x) → a_view a !! mkPageId (fd_ x) p = Some m →
  0 <= sl < num_records_per_page (file_hdr_ x) → page_bit m sl = true →
  let full := page_count m =? num_records_per_page (file_hdr_ x) in
  nx = (if full then first_free_page_no (file_hdr_ x) else page_next m) →
  (∀ j, 0 <= j < num_records_per_page (file_hdr_ x) → b j = page_slot (file_hdr_ x) m j) →
  pg (file_hdr_ x) m' nx (page_count m - 1) (λ j, if decide (j = sl) then false else page_bit m j) b →
  rm_ok (a_set (mkPageId (fd_ x) p) m' a)
    (mkHandle (fd_ x) (set_first_free
      (if full then p else first_free_page_no (file_hdr_ x)) (file_hdr_ x))) ∧
  ∀ r, rec_at (a_set (mkPageId (fd_ x) p) m' a) x r =
    if decide (r = mkRid p sl) then None else rec_at a x r.
Proof.
  intros Hk Hp Hm Hsl Hbit full Hnx Hb Hpg. set (h := file_hdr_ x) in *.
  destruct (rk_page _ _ Hk p Hp) as (m0 & Hm0 & Hl & Hu & Hc). rewrite Hm in Hm0. injection Hm0 as <-.
  fold h in Hc.
  assert (page_used h m' = page_count m - 1) as Hused.
  { rewrite (used_write h m m' sl false (rk_hdr _ _ Hk) Hsl).
    - rewrite Hbit, Hc. simpl. lia.
    - intros j Hj. apply (pg_bits _ _ _ _ _ _ Hpg j Hj). }
  assert (page_used h m' < num_records_per_page h) as Hlt.
  { pose proof (used_bounds h m (rk_hdr _ _ Hk)). lia. }
  destruct (rk_chain _ _ Hk) as (l & Hch & Hnd & Hin). fold h in Hch.
  assert (p ∈ l ↔ page_used h m < num_records_per_page h) as Hpl.
  { rewrite Hin. unfold has_room. fold h. rewrite Hm. naive_solver. }
  split.
  - unfold full in *. destruct (Z.eqb_spec (page_count m) (num_records_per_page h)) as [Hf|Hf].
    + assert (p ∉ l) as Hnp by (rewrite Hpl; lia).
      apply rm_ok_set with (l := p :: l); try done; try apply Hpg; [by fold h; rewrite Hused; apply Hpg| | |].
      * split; [done|]. exists m'. split; [simpl; apply lookup_insert_eq|].
        rewrite (pg_next _ _ _ _ _ _ Hpg), Hnx. simpl. by apply chain_set.
      * by apply NoDup_cons.
      * intros q. fold h. case_decide as Hq; [subst q; split; [done|by left]|].
        rewrite elem_of_cons, <- Hin. naive_solver.
    + assert (page_used h m < num_records_per_page h) as Hr.
      { pose proof (used_bounds h m (rk_hdr _ _ Hk)). lia. }
      apply rm_ok_set with (l := l); try done; try apply Hpg; [by fold h; rewrite Hused; apply Hpg| |].
      * apply chain_set_next with m; [done|done|]. rewrite <- Hnx. apply Hpg.
      * intros q. fold h. case_decide as Hq; [|apply Hin]. subst q. rewrite Hpl. done.
  - intros r. rewrite rec_at_set by done. fold h.
    destruct (decide (rid_page_no r = p)) as [Hrp|Hrp].
    2:{ rewrite decide_False; [done|]. by intros ->. }
    destruct (decide (in_file x r)) as [Hr|Hr].
    + rewrite (pg_bits _ _ _ _ _ _ Hpg), (pg_slots _ _ _ _ _ _ Hpg), Hb by apply Hr.
      rewrite (rec_at_page a x r m Hr) by by rewrite Hrp.
      destruct (decide (rid_slot_no r = sl)) as [Hs|Hs].
      * rewrite decide_True; [done|]. destruct r; simpl in *. congruence.
      * rewrite decide_False; [done|]. by intros ->.
    + rewrite decide_False; [|intros ->; by apply Hr].
      unfold rec_at. by rewrite decide_False.
Qed.

(** The conditional [release_page_handle] of [delete_record]. *)
Lemma release_ok s a x i f m ct b sl :
  st_repr s (sess a i f m) x → hdr_wf (file_hdr_ x) → is_s32 (first_free_page_no (file_hdr_ x)) →
  pg (file_hdr_ x) m (page_next m) ct b sl →
  let full := ct =? num_records_per_page (file_hdr_ x) - 1 in
  ∃ s' m', (if full then release_page_handle f else ret tt) s = (Ret tt, s') ∧
    st_repr s' (sess a i f m') (mkHandle (fd_ x) (set_first_free
      (if full then page_no i else first_free_page_no (file_hdr_ x)) (file_hdr_ x))) ∧
    pg (file_hdr_ x) m' (if full then first_free_page_no (file_hdr_ x) else page_next m) ct b sl.
Proof.
  intros Hs Hw H32 Hpg full. destruct full.
  - destruct (pg_store_next _ Hw m _ _ _ _ _ Hpg H32) as (m' & Hst & Hpg').
    destruct (store_ok s a x i f m (λ m, store32 m next_free_off (first_free_page_no (file_hdr_ x))) m' Hs Hst)
      as (s1 & Hrun & Hs1); [apply Hpg'|].
    exists (set_hdr (set_first_free (page_no i) (file_hdr_ x)) s1), m'. split_and!; [|by apply (set_hdr_repr s1 _ x)|done].
    unfold release_page_handle. step.
    assert (hdr s = file_hdr_ x) as -> by (unfold hdr; by rewrite (proj2 Hs)).
    run Hrun. erewrite bind_Ret; [|eapply (page_id_ok s1); [done|apply sess_held|apply sess_view]].
    cbn beta. unfold modify, hdr. by rewrite (proj2 Hs1).
  - exists s, m. rewrite same_hdr. done.
Qed.

Lemma first_free_s32 a x : rm_ok a x → is_s32 (first_free_page_no (file_hdr_ x)).
Proof.
  intros Hk. destruct (rk_chain _ _ Hk) as (l & Hc & _ & Hin). pose proof (rk_max _ _ Hk).
  destruct l as [|p l]; simpl in Hc; [by rewrite Hc|]. destruct Hc as [-> _].
  assert (has_room a x p) as [? _] by (apply Hin; by left). unfold is_s32 in *. lia.
Qed.

Lemma delete_record_ok s a x r :
  st_repr s a x → rm_ok a x → room a → is_Some (rec_at a x r) →
  ∃ s' a' x', delete_record r s = (Ret tt, s') ∧ st_repr s' a' x' ∧ rm_ok a' x' ∧
    same_file x x' ∧ file_le (fd_ x) a a' ∧
    ∀ r', rec_at a' x' r' = if decide (r' = r) then None else rec_at a x r'.
Proof.
  intros Hs Hk Hroom [d Hd]. unfold rec_at in Hd. case_decide as Hr; [|done].
  pose proof Hr as [Hp Hsl]. set (p := rid_page_no r) in *. set (h := file_hdr_ x) in *.
  destruct (rk_page _ _ Hk _ Hp) as (m & Hm & Hl & Hu & Hc). rewrite Hm in Hd. simpl in Hd.
  destruct (page_bit m (rid_slot_no r)) eqn:Hbit; [|done]. fold h in Hc.
  pose proof (rk_idle _ _ Hk p) as Hi. set (i := mkPageId (fd_ x) p) in *.
  pose proof (hdr_layout h (rk_hdr _ _ Hk)) as (Hn & _).
  pose proof (used_bounds h m (rk_hdr _ _ Hk)) as Hub.
  assert (1 <= page_used h m).
  { destruct (decide (page_used h m = 0)) as [Hz|]; [|lia].
    assert (page_bit m (rid_slot_no r) = false); [|congruence].
    eapply (proj1 (Bitmap.count_clear _ _ _) Hz). lia. }
  destruct (fetch_handle_ok s a x p m Hs Hi Hroom Hm) as (f & s1 & Hf & _ & Hs1). fold i in Hs1.
  destruct (pg_reset h (rk_hdr _ _ Hk) m _ _ _ _ (rid_slot_no r) (pg_self h m Hl Hu) Hsl) as (m1 & Hw1 & P1).
  assert (is_s32 (page_count m + -1)) as Hc32 by (unfold is_s32; lia).
  destruct (pg_add_count h (rk_hdr _ _ Hk) m1 _ _ _ _ (-1) P1 Hc32) as (m2 & Hw2 & P2).
  destruct (store_ok s1 a x i f m (λ m, Bitmap.reset m bitmap_off (rid_slot_no r)) m1 Hs1 Hw1) as (s2 & Hst1 & Hs2); [apply P1|].
  destruct (store_ok s2 a x i f m1 (add_num_records (-1)) m2 Hs2 Hw2) as (s3 & Hst2 & Hs3); [apply P2|].
  pose proof (pg_next _ _ _ _ _ _ P2) as Hnx. rewrite <- Hnx in P2.
  destruct (release_ok s3 a x i f m2 _ _ _ Hs3 (rk_hdr _ _ Hk) (first_free_s32 _ _ Hk) P2) as (s4 & m3 & Hrel & Hs4 & P3).
  fold h in Hrel, Hs4, P3. rewrite Hnx in P3.
  replace (page_count m + -1 =? num_records_per_page h - 1) with (page_count m =? num_records_per_page h) in * by
    (destruct (Z.eqb_spec (page_count m) (num_records_per_page h)), (Z.eqb_spec (page_count m + -1) (num_records_per_page h - 1)); lia || done).
  destruct (unpin_dirty_ok s4 a _ i f m3 Hs4 Hi) as (s5 & Hun & Hs5).
  destruct (deleted_ok a x p m m3 (rid_slot_no r) _ _ Hk Hp Hm Hsl Hbit eq_refl (λ j _, eq_refl) P3) as [Hk' Hrec].
  fold h i in Hk', Hrec. simpl page_no in Hs5.
  eexists s5, (a_set i m3 a), _. split_and!; [|exact Hs5|exact Hk'|done|apply (file_le_set i)|].
  - unfold delete_record. fold p. run Hf. run Hst1. run Hst2.
    erewrite bind_Ret; [|eapply (load_ok s3); [done|apply sess_held|apply sess_view|by eapply load_count]].
    cbn beta. step. assert (hdr s3 = h) as -> by (unfold hdr; by rewrite (proj2 Hs3)).
    replace (page_count m + -1 =? num_records_per_page h - 1) with (page_count m =? num_records_per_page h) by
      (destruct (Z.eqb_spec (page_count m) (num_records_per_page h)), (Z.eqb_spec (page_count m + -1) (num_records_per_page h - 1)); lia || done).
    run Hrel. erewrite bind_Ret; [|eapply (page_id_ok s4); [done|apply sess_held|apply sess_view]].
    cbn beta. by rewrite Hun.
  - intros r'. etrans; [apply (rec_at_hdr (a_set i m3 a) x)|]. rewrite Hrec.
    assert (mkRid p (rid_slot_no r) = r) as -> by by destruct r. done.
Qed.

(** ** [RmScan] *)

(** The live slots of page [p] from slot [lo] on, and the live positions of
    the file from there on. *)
Definition is_live a x p sl : bool := bool_decide (is_Some (rec_at a x (mkRid p sl))).

Definition live_in a x p lo : list Rid :=
  mkRid p <$> filter (λ sl, is_live a x p sl = true) (seqZ lo (num_records_per_page (file_hdr_ x) - lo)).

Definition live_from a x p lo : list Rid :=
  live_in a x p lo ++
  mjoin ((λ q, live_in a x q 0) <$> seqZ (p + 1) (num_pages (file_hdr_ x) - (p + 1))).

(** All records of the file, in the order of their positions. *)
Definition live_records a x : list Rid := live_from a x RM_FIRST_RECORD_PAGE 0.

Lemma is_live_page a x p m sl :
  1 <= p < num_pages (file_hdr_ x) → a_view a !! mkPageId (fd_ x) p = Some m →
  0 <= sl < num_records_per_page (file_hdr_ x) → is_live a x p sl = page_bit m sl.
Proof.
  intros Hp Hm Hs. unfold is_live. rewrite (rec_at_page a x (mkRid p sl) m) by done. simpl.
  by destruct (page_bit m sl).
Qed.

Lemma live_from_end a x p : num_pages (file_hdr_ x) <= p → live_from a x p 0 = [].
Proof.
  intros Hp. unfold live_from. rewrite seqZ_nil by lia. simpl. rewrite app_nil_r.
  unfold live_in. rewrite filter_seqZ_none; [done|]. intros j _. unfold is_live, rec_at.
  rewrite bool_decide_eq_false, decide_False; [by intros []|]. intros [[_ Hc] _]. simpl in Hc. lia.
Qed.

Lemma live_from_next a x p :
  p < num_pages (file_hdr_ x) →
  mjoin ((λ q, live_in a x q 0) <$> seqZ (p + 1) (num_pages (file_hdr_ x) - (p + 1))) = live_from a x (p + 1) 0.
Proof.
  intros Hp. destruct (decide (p + 1 < num_pages (file_hdr_ x))).
  - rewrite seqZ_cons by lia. simpl. unfold live_from, Z.succ, Z.pred.
    by replace (num_pages (file_hdr_ x) - (p + 1) + -1) with (num_pages (file_hdr_ x) - (p + 1 + 1)) by lia.
  - rewrite live_from_end by lia. rewrite seqZ_nil by lia. done.
Qed.

Definition head_or_end (l : list Rid) : Rid := match l with [] => scan_end | r :: _ => r end.

Lemma scan_next_loop_ok fuel s a x p sl :
  st_repr s a x → rm_ok a x → room a →
  1 <= p → p <= num_pages (file_hdr_ x) → -1 <= sl < num_records_per_page (file_hdr_ x) →
  (p = num_pages (file_hdr_ x) → sl = -1) →
  num_pages (file_hdr_ x) - p < Z.of_nat fuel →
  ∃ s', scan_next_loop (file_hdr_ x) fuel (mkRid p sl) s
      = (Ret (head_or_end (live_from a x p (sl + 1))), s') ∧ st_repr s' a x.
Proof.
  intros Hs Hk Hroom. revert p sl s Hs. set (h := file_hdr_ x).
  induction fuel as [|fuel IH]; intros p sl s Hs Hp1 Hp Hsl Hend Hfuel; [lia|].
  simpl scan_next_loop. simpl rid_page_no. destruct (Z.ltb_spec p (num_pages h)) as [Hlt|Hge].
  2:{ assert (p = num_pages h) as -> by lia. rewrite Hend by done. rewrite live_from_end by (fold h; lia).
      exists s. done. }
  destruct (rk_page _ _ Hk p) as (m & Hm & Hl & Hu & _); [done|].
  pose proof (rk_idle _ _ Hk p) as Hi. set (i := mkPageId (fd_ x) p) in *.
  destruct (fetch_handle_ok s a x p m Hs Hi Hroom Hm) as (f & s1 & Hf & Hs1 & _). fold i in Hs1.
  destruct (Bitmap.next_bit_spec m bitmap_off (num_records_per_page h) (pg_fits h (rk_hdr _ _ Hk) m Hl Hu)
              true (num_records_per_page h) sl) as (r & Hr & Hfm); [lia|done|].
  destruct (unpin_clean_ok s1 a x i f Hs1 Hi) as (s2 & Hun & Hs2).
  assert (Hlive : ∀ j, 0 <= j < num_records_per_page h → is_live a x p j = page_bit m j)
    by (intros; by apply (is_live_page a x p m)).
  run Hf. erewrite bind_Ret; [|eapply (load_ok s1); [done|apply hold_held|exact Hm|exact Hr]].
  cbn beta. erewrite bind_Ret; [|eapply (page_id_ok s1); [done|apply hold_held|exact Hm]].
  cbn beta. run Hun. destruct Hfm as [[-> Hall]|(Hlo & Hbr & Hall)].
  - rewrite Z.ltb_irrefl. destruct (IH (p + 1) (-1) s2) as (s3 & Hrun & Hs3); try done; try lia.
    exists s3. split; [|done]. rewrite Hrun. do 2 f_equal.
    unfold live_from at 2. rewrite live_from_next by done.
    unfold live_in. rewrite filter_seqZ_none; [done|]. intros j Hj. fold h in Hj. rewrite Hlive by lia.
    apply Hall. lia.
  - rewrite (proj2 (Z.ltb_lt _ _)) by lia. exists s2. split; [|done].
    unfold live_from, live_in. fold h. rewrite (filter_seqZ_first _ (sl + 1) r); [done|lia| |].
    + intros j Hj. rewrite Hlive by lia. by apply Hall.
    + by rewrite Hlive by lia.
Qed.

(** After a position, the live positions continue where it stopped. *)
Lemma live_from_cons a x p lo r l :
  rm_ok a x → 1 <= p → 0 <= lo → live_from a x p lo = r :: l →
  l = live_from a x (rid_page_no r) (rid_slot_no r + 1) ∧
  p <= rid_page_no r < num_pages (file_hdr_ x) ∧ 0 <= rid_slot_no r < num_records_per_page (file_hdr_ x) ∧
  (rid_page_no r = p → lo <= rid_slot_no r).
Proof.
  intros Hk. set (h := file_hdr_ x).
  assert (Hn : ∀ k p lo, num_pages h - p <= Z.of_nat k → 1 <= p → 0 <= lo → live_from a x p lo = r :: l →
    l = live_from a x (rid_page_no r) (rid_slot_no r + 1) ∧
    p <= rid_page_no r < num_pages h ∧ 0 <= rid_slot_no r < num_records_per_page h ∧
    (rid_page_no r = p → lo <= rid_slot_no r));
    [|intros; by apply (Hn (Z.to_nat (num_pages h - p)) p lo); try lia].
  clear p lo. induction k as [|k IH]; intros p lo Hnp Hp Hlo Hcons.
  - exfalso. unfold live_from in Hcons. fold h in Hcons. rewrite seqZ_nil in Hcons by lia.
    unfold live_in in Hcons. rewrite filter_seqZ_none in Hcons; [done|]. intros j _. unfold is_live, rec_at.
    rewrite bool_decide_eq_false, decide_False; [by intros []|]. intros [[_ Hc] _]. simpl in Hc. fold h in Hc. lia.
  - destruct (live_in a x p lo) as [|r0 l0] eqn:Hin.
    + unfold live_from in Hcons. fold h in Hcons. rewrite Hin in Hcons. simpl in Hcons.
      destruct (decide (p < num_pages h)) as [Hlt|]; [|by rewrite seqZ_nil in Hcons by lia].
      pose proof (live_from_next a x p Hlt) as Hnext. fold h in Hnext. rewrite Hnext in Hcons.
      destruct (IH (p + 1) 0) as (? & ? & ? & ?); try done; try lia. split_and!; try done; lia.
    + assert (∃ j, lo <= j < num_records_per_page h ∧ is_live a x p j = true ∧
        (∀ k, lo <= k < j → is_live a x p k = false)) as (j & Hj & Hlj & Hmin).
      { destruct (find_from (is_live a x p) lo (Z.to_nat (num_records_per_page h - lo))) as [j|] eqn:Hfind.
        - apply find_from_Some in Hfind as (? & ? & ?). exists j. split_and!; try done; lia.
        - exfalso. unfold live_in in Hin. fold h in Hin. rewrite filter_seqZ_none in Hin; [done|].
          intros k' Hk'. apply (find_from_None _ _ _ Hfind). lia. }
      assert (1 <= p < num_pages h) as Hpr.
      { unfold is_live, rec_at in Hlj. apply bool_decide_eq_true in Hlj as [? Hd]. by case_decide as Hr; [apply Hr|]. }
      unfold live_from, live_in in Hcons. fold h in Hcons.
      rewrite (filter_seqZ_first _ lo j) in Hcons by done.
      simpl in Hcons. injection Hcons as <- <-. simpl.
      split_and!; [|lia..]. done.
Qed.

Lemma scan_next_ok s a x r :
  st_repr s a x → rm_ok a x → room a → in_file x r →
  ∃ s', scan_next r s = (Ret (head_or_end (live_from a x (rid_page_no r) (rid_slot_no r + 1))), s') ∧
    st_repr s' a x.
Proof.
  intros Hs Hk Hroom [Hp Hsl]. unfold scan_next. step.
  assert (hdr s = file_hdr_ x) as -> by (unfold hdr; by rewrite (proj2 Hs)).
  destruct r as [p sl]; simpl in Hp, Hsl.
  apply (scan_next_loop_ok (scan_fuel (file_hdr_ x) (mkRid p sl)) s a x p sl); try done; try lia.
  unfold scan_fuel. simpl rid_page_no. lia.
Qed.

(** What the cursor has before it: the records from its position on. *)
Definition rm_before a x (l : list Rid) (c : Rid) s : Prop :=
  st_repr s a x ∧ c = head_or_end l ∧
  match l with
  | [] => True
  | r :: l' => 1 <= rid_page_no r ∧ in_file x r ∧ live_from a x (rid_page_no r) (rid_slot_no r + 1) = l'
  end.

Lemma rm_before_from a x p sl l s :
  st_repr s a x → rm_ok a x → 1 <= p → 0 <= sl → live_from a x p sl = l → rm_before a x l (head_or_end l) s.
Proof.
  intros Hs Hk Hp Hsl Hl. split; [done|]. split; [done|]. destruct l as [|r l]; [done|].
  destruct (live_from_cons a x p sl r l Hk Hp Hsl Hl) as (Hl' & Hp' & Hs' & _). split; [lia|]. split; [split; [lia|done]|done].
Qed.

Lemma rm_scans a x : rm_ok a x → room a → scans (rm_before a x).
Proof.
  intros Hk Hroom. split.
  - by intros c s (_ & -> & _).
  - intros r l c s (Hs & -> & Hr & Hin & Hl). split.
    { cbn. unfold scan_is_end, RM_NO_PAGE. apply Z.eqb_neq. lia. }
    destruct (scan_next_ok s a x r Hs Hk Hroom Hin) as (s1 & Hn & Hs1). rewrite Hl in Hn.
    exists s, (head_or_end l), s1. split; [done|]. split; [exact Hn|].
    eapply rm_before_from; [done|done|exact Hr| |exact Hl]. destruct Hin; lia.
Qed.

(** The constructor of the scan finds the first record. *)
Lemma rm_scan_ok s a x :
  st_repr s a x → rm_ok a x → room a →
  ∃ s1, RmScan s = (Ret (head_or_end (live_records a x)), s1) ∧ st_repr s1 a x.
Proof.
  intros Hs Hk Hroom. unfold RmScan. step.
  assert (hdr s = file_hdr_ x) as -> by (unfold hdr; by rewrite (proj2 Hs)).
  cbn [rid_page_no]. unfold RM_FIRST_RECORD_PAGE. destruct (Z.leb_spec (num_pages (file_hdr_ x)) 1).
  - exists s. split; [|done]. unfold live_records, RM_FIRST_RECORD_PAGE. by rewrite live_from_end.
  - unfold scan_next. step. assert (hdr s = file_hdr_ x) as -> by (unfold hdr; by rewrite (proj2 Hs)).
    pose proof (hdr_layout _ (rk_hdr _ _ Hk)) as (? & _).
    apply (scan_next_loop_ok (scan_fuel (file_hdr_ x) (mkRid 1 (-1))) s a x 1 (-1)); try done; try lia.
    unfold scan_fuel. cbn [rid_page_no]. lia.
Qed.

(** The scan visits every record once, in order, and ends. *)
Lemma scan_all_ok s a x fuel :
  st_repr s a x → rm_ok a x → room a → (length (live_records a x) < fuel)%nat →
  ∃ s', scan_all fuel s = (Ret (live_records a x), s') ∧ st_repr s' a x.
Proof.
  intros Hs Hk Hroom Hf. unfold scan_all. destruct (rm_scan_ok s a x Hs Hk Hroom) as (s1 & Hrun & Hs1).
  destruct (collect_ok (rm_before a x) (live_records a x) (head_or_end (live_records a x)) s1 fuel) as (c & s2 & Hc & Hs2 & _).
  - by apply rm_scans.
  - by apply (rm_before_from a x RM_FIRST_RECORD_PAGE 0).
  - done.
  - exists s2. split; [|done]. run Hrun. by run Hc.
Qed.

(** Positions in the order of pages, then slots. *)
Definition rid_lt (r r' : Rid) : Prop :=
  rid_page_no r < rid_page_no r' ∨ (rid_page_no r = rid_page_no r' ∧ rid_slot_no r < rid_slot_no r').

Lemma live_from_sorted l a x p lo :
  rm_ok a x → 1 <= p → 0 <= lo → live_from a x p lo = l →
  StronglySorted rid_lt l ∧ Forall (rid_lt (mkRid p (lo - 1))) l.
Proof.
  intros Hk. revert p lo. induction l as [|r l IH]; intros p lo Hp Hlo Hl; [by split; constructor|].
  destruct (live_from_cons a x p lo r l Hk Hp Hlo Hl) as (Hl' & Hpr & Hsr & Hge).
  destruct (IH (rid_page_no r) (rid_slot_no r + 1)) as [Hs Hf]; [lia|lia|done|].
  replace (rid_slot_no r + 1 - 1) with (rid_slot_no r) in Hf by lia.
  assert (mkRid (rid_page_no r) (rid_slot_no r) = r) as Hr by by destruct r. rewrite Hr in Hf.
  assert (rid_lt (mkRid p (lo - 1)) r) as Hlt.
  { unfold rid_lt; simpl. destruct (decide (rid_page_no r = p)) as [He|]; [right|left; lia].
    specialize (Hge He). lia. }
  split; constructor; try done.
  eapply Forall_impl; [exact Hf|]. intros q. unfold rid_lt in *; simpl in *. lia.
Qed.

Lemma elem_of_live_records a x r : rm_ok a x → r ∈ live_records a x ↔ is_Some (rec_at a x r).
Proof.
  intros Hk. unfold live_records.
  assert (Hin : ∀ p, 1 <= p → r ∈ live_from a x p 0 ↔ p <= rid_page_no r ∧ is_Some (rec_at a x r)).
  { intros p Hp. unfold live_from, live_in. rewrite elem_of_app, list_elem_of_fmap. split.
    - intros [(sl & -> & [Hl Hs]%list_elem_of_filter)|Hj].
      + simpl. split; [lia|]. by apply bool_decide_eq_true in Hl.
      + apply list_elem_of_join in Hj as (l & Hr & (q & -> & Hq%elem_of_seqZ)%list_elem_of_fmap).
        apply list_elem_of_fmap in Hr as (sl & -> & [Hl Hs]%list_elem_of_filter).
        simpl. split; [lia|]. by apply bool_decide_eq_true in Hl.
    - intros [Hpr Hr]. assert (in_file x r) as [Hr1 Hr2].
      { destruct Hr as [d Hr]. unfold rec_at in Hr. by case_decide. }
      assert (r = mkRid (rid_page_no r) (rid_slot_no r)) as Heq by by destruct r.
      assert (∀ q, q = rid_page_no r → r ∈ mkRid q <$> filter (λ sl, is_live a x q sl = true)
        (seqZ 0 (num_records_per_page (file_hdr_ x) - 0))) as Hmem.
      { intros q ->. apply list_elem_of_fmap. exists (rid_slot_no r). split; [done|].
        apply list_elem_of_filter. split; [|apply elem_of_seqZ; lia].
        unfold is_live. rewrite <- Heq. by apply bool_decide_eq_true. }
      destruct (decide (rid_page_no r = p)) as [Hq|Hq].
      + left. apply list_elem_of_fmap. by apply Hmem.
      + right. apply list_elem_of_join. eexists. split; [by apply (Hmem (rid_page_no r))|].
        apply list_elem_of_fmap. exists (rid_page_no r). split; [done|]. apply elem_of_seqZ. lia. }
  rewrite Hin by done. split; [tauto|]. intros Hr. split; [|done].
  destruct Hr as [d Hr]. unfold rec_at in Hr. case_decide as Hf; [|done]. destruct Hf. unfold RM_FIRST_RECORD_PAGE. lia.
Qed.

End ops.
