(* ===== verification/RmManager.v ===== *)
(** The manager of record files, [src/src/record/rm_manager.h], and the
    constructor of [RmFileHandle], over the disk manager.

    The proofs follow a file through its life: [close_file] and a later
    [open_file] in a new process give back every record. *)
From S2P Require Import Prelude.
From S2P Require Import Defs.
From S2P Require Import Bitmap.
From S2P Require Import Replacer.
From S2P Require Import Disk.
From S2P Require Import BufferPool.
From S2P Require Import BufferPoolProofs.
From S2P Require Import PoolSpec.
From S2P Require Import Session.
From S2P Require Import RmFile.
From S2P Require Import RmPage.
From S2P Require Import RmFileProofs.
Import RmFileHandle.

#[local] Open Scope prog_scope.

Module RmManager.
Section ops.
  Context {F R : Type} `{Posix F} `{Replacer R}.
  Notation disk := (DiskManager.t F).
  Notation pool := (BufferPool.t (DiskManager.t F) R).

(** [file_hdr_] before the constructor fills it; it is never read. *)
Definition uninit : bytes := replicate 20 0.

(** The constructor of [RmFileHandle]. *)
Definition new_RmFileHandle (fd : Z) : M pool handle :=
  BufferPool.on_disk
    (let* b := DiskManager.with_buf uninit
        (DiskManager.read_page fd RM_FILE_HDR_PAGE sizeof_RmFileHdr ;;; gets fst) in
     let file_hdr_ := dec_RmFileHdr b in
     DiskManager.set_fd2pageno fd (num_pages file_hdr_) ;;;
     ret (mkHandle fd file_hdr_)).

(** The header of a new file: [file_hdr{}] clears it first. *)
Definition new_file_hdr (record_size : Z) : RmFileHdr :=
  let num_records_per_page :=
    Z.quot (Bitmap.BITMAP_WIDTH * (PAGE_SIZE - 1 - sizeof_RmFileHdr) + 1)
           (1 + record_size * Bitmap.BITMAP_WIDTH) in
  mkRmFileHdr record_size 1 num_records_per_page RM_NO_PAGE
    (Z.quot (num_records_per_page + Bitmap.BITMAP_WIDTH - 1) Bitmap.BITMAP_WIDTH).

Definition create_file (filename : string) (record_size : Z) : M pool unit :=
  if (record_size <? 1) || (RM_MAX_RECORD_SIZE <? record_size)
  then throw (InvalidRecordSizeError record_size)
  else
    BufferPool.on_disk (DiskManager.create_file filename) ;;;
    let* fd := BufferPool.on_disk (DiskManager.open_file filename) in
    BufferPool.on_disk
      (DiskManager.write_page fd RM_FILE_HDR_PAGE (enc_RmFileHdr (new_file_hdr record_size))) ;;;
    BufferPool.on_disk (DiskManager.close_file fd).

Definition destroy_file (filename : string) : M pool unit :=
  BufferPool.on_disk (DiskManager.destroy_file filename).

Definition open_file (filename : string) : M pool handle :=
  let* fd := BufferPool.on_disk (DiskManager.open_file filename) in
  new_RmFileHandle fd.

Definition close_file (file_handle : handle) : M pool unit :=
  BufferPool.on_disk
    (DiskManager.write_page (fd_ file_handle) RM_FILE_HDR_PAGE (enc_RmFileHdr (file_hdr_ file_handle))) ;;;
  BufferPool.FlushAllPages (fd_ file_handle) ;;;
  BufferPool.on_disk (DiskManager.close_file (fd_ file_handle)).

End ops.
End RmManager.
Import RmManager.

(** ** The header *)

Definition hdr_s32 (h : RmFileHdr) : Prop :=
  is_s32 (record_size h) ∧ is_s32 (num_pages h) ∧ is_s32 (num_records_per_page h) ∧
  is_s32 (first_free_page_no h) ∧ is_s32 (bitmap_size h).

Lemma length_enc_hdr h : zlen (enc_RmFileHdr h) = sizeof_RmFileHdr.
Proof. done. Qed.

Lemma dec_enc_hdr h : hdr_s32 h → dec_RmFileHdr (enc_RmFileHdr h) = h.
Proof.
  intros (H1 & H2 & H3 & H4 & H5). destruct h as [a b c d e]; simpl in *.
  assert (Hw : ∀ b z, b = enc32 z → is_s32 z → dec32 b = z).
  { intros ? z -> Hz. rewrite dec32_enc32. by apply to_s32_id. }
  unfold dec_RmFileHdr. f_equal; apply Hw; done.
Qed.

Lemma hdr_wf_s32 a x : rm_ok a x → hdr_s32 (file_hdr_ x).
Proof.
  intros Hk. pose proof (hdr_layout _ (rk_hdr _ _ Hk)) as (? & Hb & ? & ? & ?).
  pose proof (first_free_s32 _ _ Hk). pose proof (rk_max _ _ Hk).
  unfold slots_off, bitmap_off, sizeof_RmPageHdr, OFFSET_PAGE_HDR, PAGE_SIZE in *.
  unfold hdr_s32, is_s32 in *. split_and!; try lia; nia.
Qed.

Lemma new_file_hdr_wf rs : 1 <= rs <= RM_MAX_RECORD_SIZE → hdr_wf (new_file_hdr rs).
Proof. intros Hrs. by split. Qed.

(** ** Partial writes of page 0 *)

Lemma slice_write_before (m : bytes) pos bs k :
  0 <= k <= zlen m → k <= pos → slice (write_at m pos bs) 0 k = slice m 0 k.
Proof.
  intros Hk Hp. apply list_eq. intros j. rewrite !lookup_slice by lia. case_decide; [|done].
  rewrite write_at_lookup, decide_False, decide_True by lia. done.
Qed.

Lemma slice_write_at (m bs : bytes) : slice (write_at m 0 bs) 0 (zlen bs) = bs.
Proof.
  apply list_eq. intros j. rewrite lookup_slice by lia. case_decide.
  - rewrite write_at_lookup, decide_True by lia. f_equal. lia.
  - symmetry. apply lookup_ge_None. lia.
Qed.

Section life.
  Context {F : Type} `{PL : PosixLaws F} {R : Type} {RP : Replacer R} {RPL : ReplacerLaws R}.
  Notation disk := (DiskManager.t F).
  Notation pool := (BufferPool.t (DiskManager.t F) R).
  Implicit Types (d : disk) (s : pool) (a : Abs) (x : handle).

(** File [fd] is open on inode [i] and starts with the bytes [bs]; names and
    tables are those of [d0]. *)
Record header_on d0 (fd i : Z) (bs : bytes) d : Prop := {
  ho_inv : dm_inv d;
  ho_ino : ∀ y, fs_ino (DiskManager.os d) y = fs_ino (DiskManager.os d0) y;
  ho_fd : fs_ino (DiskManager.os d) fd = Some i;
  ho_dir : ∀ path, fs_dir (DiskManager.os d) path = fs_dir (DiskManager.os d0) path;
  ho_fd2path : DiskManager.fd2path_ d = DiskManager.fd2path_ d0;
  ho_path2fd : DiskManager.path2fd_ d = DiskManager.path2fd_ d0;
  ho_bytes : slice (fs_data (DiskManager.os d) i) 0 (zlen bs) = bs;
  ho_len : zlen bs <= zlen (fs_data (DiskManager.os d) i)
}.

Lemma header_on_write d0 fd i bs d p bs' d' :
  zlen bs <= PAGE_SIZE → header_on d0 fd i bs d → 1 <= p →
  DiskManager.write_page fd p bs' d = (Ret tt, d') → header_on d0 fd i bs d'.
Proof.
  intros Hbs [] Hp Hw.
  destruct (dm_write_raw d fd p bs' i) as (o & Hw' & Hd1 & Hd2 & Hino & Hdir & Hinv); [done|done|lia|].
  rewrite Hw in Hw'. injection Hw' as ->. split; simpl; try done.
  - intros y. by rewrite Hino.
  - by rewrite Hino.
  - intros path. by rewrite Hdir.
  - rewrite Hd1, slice_write_before; [done|lia|unfold PAGE_SIZE in *; lia].
  - rewrite Hd1, write_at_length by (unfold PAGE_SIZE; lia). lia.
Qed.

(** Writing the header keeps every other page. *)
Lemma write_header_ok d fd i bs :
  dm_inv d → fs_ino (DiskManager.os d) fd = Some i → zlen bs <= PAGE_SIZE →
  ∃ d', DiskManager.write_page fd RM_FILE_HDR_PAGE bs d = (Ret tt, d') ∧ header_on d fd i bs d' ∧
    (∀ fd' p y, (fd', p) ≠ (fd, 0) → dm_page_at d fd' p = Some y → dm_page_at d' fd' p = Some y) ∧
    (∀ fd' p, dm_valid d' fd' p ↔ dm_valid d fd' p) ∧
    (∀ fd', DiskManager.fd2pageno d' fd' = DiskManager.fd2pageno d fd').
Proof.
  intros Hd Hi Hbs.
  destruct (dm_write_raw d fd 0 bs i) as (o & Hw & Hd1 & Hd2 & Hino & Hdir & Hinv); [done|done|lia|].
  rewrite Z.mul_0_l in Hd1. exists (DiskManager.set_os o d). split_and!; try done.
  - split; simpl; try done.
    + by rewrite Hino.
    + rewrite Hd1. apply slice_write_at.
    + rewrite Hd1, write_at_length by lia. lia.
  - intros fd' p y Hne. unfold dm_page_at. simpl. rewrite Hino.
    destruct (fs_ino (DiskManager.os d) fd') as [j|] eqn:Hj; simpl; [|done].
    destruct (decide (j = i)) as [->|Hji]; [|by rewrite Hd2].
    assert (fd' = fd) as -> by (by eapply (proj2 Hd)). rewrite Hd1.
    case_decide as Hr; [|done]. intros [= <-]. unfold PAGE_SIZE in *.
    rewrite decide_True by (rewrite write_at_length by lia; lia). f_equal.
    assert (p ≠ 0) by congruence.
    apply list_eq. intros k. rewrite !lookup_slice by lia. case_decide; [|done].
    rewrite write_at_lookup, decide_False, decide_True by lia. done.
  - intros fd' p. unfold dm_valid. simpl. by rewrite Hino.
Qed.

(** ** [close_file] *)

Lemma close_file_ok s a x fn i :
  repr s a → rm_ok a x → DiskManager.fd2path_ (BufferPool.disk_manager_ s) !! fd_ x = Some fn →
  fs_ino (DiskManager.os (BufferPool.disk_manager_ s)) (fd_ x) = Some i →
  ∃ s2 o, close_file x s = (Ret tt, BufferPool.set_disk
      (DiskManager.set_paths
        (delete fn (DiskManager.path2fd_ (BufferPool.disk_manager_ s)))
        (delete (fd_ x) (DiskManager.fd2path_ (BufferPool.disk_manager_ s)))
        (DiskManager.set_os o (BufferPool.disk_manager_ s2))) s2) ∧
    repr s2 a ∧ BufferPool.page_table_ s2 = BufferPool.page_table_ s ∧
    header_on (BufferPool.disk_manager_ s) (fd_ x) i (enc_RmFileHdr (file_hdr_ x)) (BufferPool.disk_manager_ s2) ∧
    (∀ p m, a_view a !! mkPageId (fd_ x) p = Some m →
       dm_page_at (BufferPool.disk_manager_ s2) (fd_ x) p = Some m) ∧
    (∀ y, fs_data o y = fs_data (DiskManager.os (BufferPool.disk_manager_ s2)) y) ∧
    (∀ y, fs_ino o y = if decide (y = fd_ x) then None else fs_ino (DiskManager.os (BufferPool.disk_manager_ s2)) y) ∧
    (∀ path, fs_dir o path = fs_dir (DiskManager.os (BufferPool.disk_manager_ s)) path) ∧
    fs_healthy o ∧ fs_free o DiskManager.MAX_FD.
Proof.
  intros Hr Hk Hfn Hi. set (d := BufferPool.disk_manager_ s) in *. set (fd := fd_ x) in *.
  set (bs := enc_RmFileHdr (file_hdr_ x)).
  destruct (write_header_ok d fd i bs (i_disk _ _ (r_inv _ _ Hr)) Hi) as (d1 & Hw & Hho & Hpg & Hva & Hnx); [done|].
  assert (repr (BufferPool.set_disk d1 s) a) as Hr1.
  { apply (repr_set_disk s a d1 (mkPageId fd 0)).
    - done.
    - apply Hho.
    - apply (rk_beyond _ _ Hk). lia.
    - intros [fd' p] y Hj. unfold on_disk_at. simpl. apply Hpg. congruence.
    - intros [fd' p]. apply Hva.
    - done. }
  destruct (repr_flush_all _ a fd Hr1) as (s2 & Hfl & Hr2 & Hod).
  destruct (FlushAllPages_spec fd _ (r_inv _ _ Hr1)) as (s2' & Hfl' & _ & _ & _ & _ & Htab & _).
  rewrite Hfl in Hfl'. injection Hfl' as <-.
  assert (header_on d fd i bs (BufferPool.disk_manager_ s2)) as Hho2.
  { eapply (FlushAllPages_keeps (header_on d fd i bs) (λ j, 1 <= page_no j ∧ BufferPool.fd j = fd) fd); [|split|exact Hfl].
    - intros j b e e1 [Hj1 Hj2] He Hwr. rewrite Hj2 in Hwr.
      apply (header_on_write d fd i bs e (page_no j) b e1); [done|exact He|exact Hj1|exact Hwr].
    - done.
    - intros f p Hp Hu Hfd. split; [|done].
      pose proof (i_resident _ _ (r_inv _ _ Hr1) _ _ Hp Hu) as Ht.
      destruct (r_table _ _ Hr1 (id_ p)) as [y Hy]; [eauto|].
      destruct (decide (1 <= page_no (id_ p))); [done|]. exfalso.
      assert (id_ p = mkPageId fd (page_no (id_ p))) as Hid by (destruct (id_ p); simpl in *; congruence).
      rewrite Hid in Hy. unfold fd in Hy. rewrite (rk_beyond _ _ Hk) in Hy by (intros [? _]; done). done. }
  destruct (close_ok _ _ _ (ho_fd _ _ _ _ _ Hho2)) as (o & Hc & Hcd & Hci & Hch & Hcdir & Hcf).
  exists s2, o. split_and!; try done.
  - unfold close_file. fold fd bs. run (on_disk_Ret _ s _ _ Hw). run Hfl.
    assert (DiskManager.close_file fd (BufferPool.disk_manager_ s2) =
      (Ret tt, DiskManager.set_paths (delete fn (DiskManager.path2fd_ d)) (delete fd (DiskManager.fd2path_ d))
        (DiskManager.set_os o (BufferPool.disk_manager_ s2)))) as Hcl.
    { unfold DiskManager.close_file. step. rewrite (ho_fd2path _ _ _ _ _ Hho2), Hfn.
      unfold bind, DiskManager.sys. rewrite Hc. simpl. unfold modify. simpl.
      by rewrite (ho_path2fd _ _ _ _ _ Hho2), (ho_fd2path _ _ _ _ _ Hho2). }
    by apply on_disk_Ret.
  - intros p m Hm. by apply (Hod (mkPageId fd p)).
  - intros path. rewrite Hcdir. apply (ho_dir _ _ _ _ _ Hho2).
  - apply Hch. apply (ho_inv _ _ _ _ _ Hho2).
  - apply Hcf. pose proof (r_open _ _ Hr _ (rk_open _ _ Hk)) as (_ & ? & _). done.
Qed.

(** ** [open_file] *)

(** Opening a file that is not open. *)
Lemma dm_open_ok d fn i :
  dm_inv d → DiskManager.path2fd_ d !! fn = None → fs_dir (DiskManager.os d) fn = Some i →
  (∀ y, fs_ino (DiskManager.os d) y ≠ Some i) → fs_free (DiskManager.os d) DiskManager.MAX_FD →
  ∃ fd o, DiskManager.open_file fn d = (Ret fd,
      DiskManager.set_paths (<[fn := fd]> (DiskManager.path2fd_ d)) (<[fd := fn]> (DiskManager.fd2path_ d))
        (DiskManager.set_os o d)) ∧
    0 <= fd < DiskManager.MAX_FD ∧ fs_ino (DiskManager.os d) fd = None ∧
    (∀ y, fs_data o y = fs_data (DiskManager.os d) y) ∧
    (∀ y, fs_ino o y = if decide (y = fd) then Some i else fs_ino (DiskManager.os d) y) ∧
    (∀ path, fs_dir o path = fs_dir (DiskManager.os d) path) ∧
    dm_inv (DiskManager.set_os o d).
Proof.
  intros [Hh Hinj] Hp Hdir Hno Hfree.
  destruct (open_reg _ _ _ _ Hdir Hfree Hh) as (fd & o & Ho & Hfd & Hn & Hd & Hi & Hdo & Ho').
  exists fd, o. split_and!; try done; [|lia|lia|].
  - unfold DiskManager.open_file, DiskManager.is_file, DiskManager.stat_is. step.
    rewrite (stat_reg _ _ _ Hdir). simpl. step. rewrite decide_False by (rewrite Hp; by intros [? ?]).
    unfold bind, DiskManager.sys. rewrite Ho. rewrite (proj2 (Z.eqb_neq _ _)) by lia. done.
  - split; [done|]. simpl. intros y y' j. rewrite !Hi.
    repeat case_decide; subst; try done; [| |apply Hinj].
    + intros [= <-] Hc. by apply Hno in Hc.
    + intros Hc [= <-]. by apply Hno in Hc.
Qed.

(** The handle and the disk after [open_file] of a file whose first bytes are
    a header. *)
Lemma open_file_ok s fn i h :
  dm_inv (BufferPool.disk_manager_ s) →
  DiskManager.path2fd_ (BufferPool.disk_manager_ s) !! fn = None →
  fs_dir (DiskManager.os (BufferPool.disk_manager_ s)) fn = Some i →
  (∀ y, fs_ino (DiskManager.os (BufferPool.disk_manager_ s)) y ≠ Some i) →
  fs_free (DiskManager.os (BufferPool.disk_manager_ s)) DiskManager.MAX_FD →
  hdr_s32 h → slice (fs_data (DiskManager.os (BufferPool.disk_manager_ s)) i) 0 20 = enc_RmFileHdr h →
  20 <= zlen (fs_data (DiskManager.os (BufferPool.disk_manager_ s)) i) →
  ∃ fd d, RmManager.open_file fn s = (Ret (mkHandle fd h), BufferPool.set_disk d s) ∧
    0 <= fd < DiskManager.MAX_FD ∧ fs_ino (DiskManager.os (BufferPool.disk_manager_ s)) fd = None ∧
    dm_inv d ∧ fs_ino (DiskManager.os d) fd = Some i ∧
    (∀ y, y ≠ fd → fs_ino (DiskManager.os d) y = fs_ino (DiskManager.os (BufferPool.disk_manager_ s)) y) ∧
    (∀ y, fs_data (DiskManager.os d) y = fs_data (DiskManager.os (BufferPool.disk_manager_ s)) y) ∧
    (∀ y, DiskManager.fd2pageno d y = if decide (y = fd) then num_pages h
                            else DiskManager.fd2pageno (BufferPool.disk_manager_ s) y) ∧
    DiskManager.fd2path_ d !! fd = Some fn ∧ fs_dir (DiskManager.os d) fn = Some i.
Proof.
  intros Hd Hp Hdir Hno Hfree Hs Hb Hl. set (d0 := BufferPool.disk_manager_ s) in *.
  destruct (dm_open_ok d0 fn i Hd Hp Hdir Hno Hfree) as (fd & o & Hop & Hfd & Hnone & Hdat & Hino & Hdo & Hinv).
  set (d1 := DiskManager.set_paths _ _ _) in Hop.
  assert (fs_ino (DiskManager.os d1) fd = Some i) as Hi1 by (simpl; by rewrite Hino, decide_True).
  destruct (dm_read_raw d1 fd 0 20 uninit i Hinv Hi1) as (o2 & Hrd & Hdat2 & Hino2 & Hdo2 & Hinv2);
    [lia|lia|done|simpl; rewrite Hdat; lia|].
  rewrite Z.mul_0_l in Hrd. simpl DiskManager.os in Hrd. rewrite Hdat, Hb in Hrd.
  set (d2 := DiskManager.set_os o2 d1) in *.
  exists fd, (DiskManager.set_pageno (<[fd := num_pages h]> (DiskManager.fd2pageno_ d2)) d2).
  split_and!; try done; try lia.
  - unfold RmManager.open_file. run (on_disk_Ret _ s _ _ Hop).
    unfold new_RmFileHandle. refine (on_disk_Ret _ (BufferPool.set_disk d1 s) _ _ _).
    change (BufferPool.disk_manager_ (BufferPool.set_disk d1 s)) with d1.
    erewrite bind_Ret.
    2:{ unfold DiskManager.with_buf. unfold bind at 1. unfold RM_FILE_HDR_PAGE, sizeof_RmFileHdr. rewrite Hrd. done. }
    cbn beta. cbn [fst]. rewrite (dec_enc_hdr h Hs). unfold DiskManager.set_fd2pageno.
    assert (DiskManager.fd_in_bounds fd = true) as ->.
    { unfold DiskManager.fd_in_bounds. rewrite andb_true_iff, Z.leb_le, Z.ltb_lt. lia. }
    done.
  - simpl. by rewrite Hino2.
  - intros y Hy. simpl. rewrite Hino2. simpl. by rewrite Hino, decide_False.
  - intros y. simpl. rewrite Hdat2. simpl. by rewrite Hdat.
  - intros y. unfold DiskManager.fd2pageno. simpl. rewrite lookup_insert.
    destruct (decide (y = fd)) as [->|]; [by rewrite decide_True|by rewrite decide_False by congruence].
  - simpl. apply lookup_insert_eq.
  - simpl. rewrite Hdo2. simpl. by rewrite Hdo.
Qed.

(** ** The same file through another handle *)

(** The pages of a record file, under another descriptor. *)
Definition file_pages (V : gmap PageId bytes) (fd fd' n : Z) : gmap PageId bytes :=
  list_to_map ((λ p, (mkPageId fd' p, default [] (V !! mkPageId fd p))) <$> seqZ 1 (n - 1)).

Lemma file_pages_lookup V fd fd' n i :
  (∀ p, 1 <= p < n → is_Some (V !! mkPageId fd p)) →
  file_pages V fd fd' n !! i =
    if decide (BufferPool.fd i = fd' ∧ 1 <= page_no i < n) then V !! mkPageId fd (page_no i) else None.
Proof.
  intros Hall. unfold file_pages. set (l := _ <$> _).
  assert (NoDup l.*1) as Hnd.
  { unfold l. rewrite <- list_fmap_compose. apply NoDup_fmap_2; [|apply NoDup_seqZ].
    intros p q. simpl. congruence. }
  case_decide as Hi.
  - destruct Hi as [Hfd Hp]. destruct (Hall _ Hp) as [m Hm]. rewrite Hm.
    apply elem_of_list_to_map_1; [done|]. apply list_elem_of_fmap. exists (page_no i).
    split; [|apply elem_of_seqZ; lia]. rewrite Hm. simpl. destruct i; simpl in *; congruence.
  - apply not_elem_of_list_to_map_1. intros (y & Hy & Hin)%list_elem_of_fmap.
    apply list_elem_of_fmap in Hin as (p & -> & Hp%elem_of_seqZ). simpl in Hy. subst i. apply Hi. simpl. lia.
Qed.

Lemma chain_transport V V' fd fd' first l :
  (∀ p, p ∈ l → V' !! mkPageId fd' p = V !! mkPageId fd p) →
  chain V fd first l → chain V' fd' first l.
Proof.
  revert first. induction l as [|p l IH]; intros first Hv; simpl; [done|].
  intros (-> & m & Hm & Hc). split; [done|]. exists m. split; [rewrite Hv; [done|by left]|].
  apply IH; [|done]. intros q Hq. apply Hv. by right.
Qed.

Lemma rm_ok_transport a x a' fd' :
  rm_ok a x → (∀ p, a_view a' !! mkPageId fd' p = a_view a !! mkPageId (fd_ x) p) →
  fd' ∈ a_open a' → a_next a' fd' = num_pages (file_hdr_ x) → (∀ p, idle (mkPageId fd' p) a') →
  rm_ok a' (mkHandle fd' (file_hdr_ x)) ∧ ∀ r, rec_at a' (mkHandle fd' (file_hdr_ x)) r = rec_at a x r.
Proof.
  intros Hk Hv Ho Hn Hid. split.
  - split; simpl; try apply Hk; try done.
    + intros p Hp. rewrite Hv. by apply (rk_page _ _ Hk).
    + intros p Hp. rewrite Hv. by apply (rk_beyond _ _ Hk).
    + destruct (rk_chain _ _ Hk) as (l & Hc & Hnd & Hin). exists l. split_and!; [|done|].
      * apply (chain_transport (a_view a) _ (fd_ x)); [by intros|done].
      * intros p. rewrite Hin. unfold has_room. simpl. by rewrite Hv.
  - intros r. unfold rec_at. simpl. rewrite Hv. done.
Qed.

(** Close the file; a new process opens it again and finds every record. *)
Lemma reopen_ok s a x fn i n junk (r0 : R) :
  repr s a → rm_ok a x → DiskManager.fd2path_ (BufferPool.disk_manager_ s) !! fd_ x = Some fn →
  fs_ino (DiskManager.os (BufferPool.disk_manager_ s)) (fd_ x) = Some i →
  fs_dir (DiskManager.os (BufferPool.disk_manager_ s)) fn = Some i →
  0 <= n → repl_inv r0 → evictable r0 = ∅ → n <= capacity r0 →
  ∃ s' x' p' a', close_file x s = (Ret tt, s') ∧
    RmManager.open_file fn (BufferPool.create n junk
       (DiskManager.create (DiskManager.os (BufferPool.disk_manager_ s'))) r0) = (Ret x', p') ∧
    repr p' a' ∧ rm_ok a' x' ∧ file_hdr_ x' = file_hdr_ x ∧ a_held a' = ∅ ∧ a_size a' = n ∧
    ∀ r, rec_at a' x' r = rec_at a x r.
Proof.
  intros Hr Hk Hfn Hi Hdir Hn Hri Hre Hrc.
  destruct (close_file_ok s a x fn i Hr Hk Hfn Hi) as
    (s2 & o & Hcl & Hr2 & _ & Hho & Hpg & Hod & Hoi & Hodir & Hoh & Hof).
  set (d2 := BufferPool.disk_manager_ s2) in *. eexists. 
  set (p0 := BufferPool.create n junk (DiskManager.create o) r0).
  assert (dm_inv (DiskManager.create o)) as Hd0.
  { split; [done|]. simpl. intros y y' j. rewrite !Hoi. repeat case_decide; try done.
    apply (ho_inv _ _ _ _ _ Hho). }
  destruct (open_file_ok p0 fn i (file_hdr_ x)) as (fd' & d' & Hop & Hfd' & _ & Hd' & Hi' & _ & Hdat & Hpn & _ & _).
  - done.
  - done.
  - simpl. by rewrite Hodir.
  - simpl. intros y. rewrite Hoi. case_decide; [done|]. intros Hy.
    pose proof (proj2 (ho_inv _ _ _ _ _ Hho) _ _ _ Hy (ho_fd _ _ _ _ _ Hho)). done.
  - done.
  - by eapply hdr_wf_s32.
  - simpl. rewrite Hod. apply (ho_bytes _ _ _ _ _ Hho).
  - simpl. rewrite Hod. apply (ho_len _ _ _ _ _ Hho).
  - set (V := file_pages (a_view a) (fd_ x) fd' (num_pages (file_hdr_ x))).
    assert (Hall : ∀ p, 1 <= p < num_pages (file_hdr_ x) → is_Some (a_view a !! mkPageId (fd_ x) p)).
    { intros p Hp. destruct (rk_page _ _ Hk p Hp) as (m & Hm & _). eauto. }
    set (a' := mkAbs V ∅ ∅ (DiskManager.fd2pageno d') {[fd']} n).
    assert (repr (BufferPool.set_disk d' p0) a') as Hr'.
    { apply (repr_create n junk d' r0 V (DiskManager.fd2pageno d') {[fd']}); try done.
      - intros j y. unfold V. rewrite file_pages_lookup by done. case_decide as Hj; [|done].
        destruct Hj as [Hj1 Hj2]. intros Hy%Hpg. split.
        + unfold on_disk_at. simpl. unfold dm_page_at in *. rewrite Hj1, Hi'. simpl.
          rewrite (ho_fd _ _ _ _ _ Hho) in Hy. simpl in Hy. rewrite Hdat. simpl. by rewrite Hod.
        + split; [rewrite Hj1; eauto|]. rewrite Hj1. lia.
      - intros fd0 ->%elem_of_singleton. split; [eauto|]. lia. }
    destruct (rm_ok_transport a x a' fd' Hk) as [Hk' Hrec].
    + intros p. simpl. unfold V. rewrite file_pages_lookup by done. simpl.
      case_decide as Hp; [done|]. symmetry. apply (rk_beyond _ _ Hk). naive_solver.
    + simpl. set_solver.
    + simpl. by rewrite Hpn, decide_True.
    + intros p. split; [done|]. simpl. set_solver.
    + exists (mkHandle fd' (file_hdr_ x)), (BufferPool.set_disk d' p0), a'. split_and!; [exact Hcl|exact Hop|done..].
Qed.

(** ** [create_file] *)

(** Creating an empty file leaves descriptors, tables and other files alone. *)
Lemma dm_create_ok d fn :
  dm_inv d → sys_stat fn (DiskManager.os d) = None → fs_free (DiskManager.os d) DiskManager.MAX_FD →
  ∃ o i, DiskManager.create_file fn d = (Ret tt, DiskManager.set_os o d) ∧
    (∀ y, fs_ino (DiskManager.os d) y ≠ Some i) ∧ fs_data o i = [] ∧
    (∀ y, y ≠ i → fs_data o y = fs_data (DiskManager.os d) y) ∧
    (∀ y, fs_ino o y = fs_ino (DiskManager.os d) y) ∧ fs_dir o fn = Some i ∧
    fs_free o DiskManager.MAX_FD ∧ dm_inv (DiskManager.set_os o d).
Proof.
  intros [Hh Hinj] Hst Hfree.
  destruct (open_creat _ _ _ Hst Hfree Hh) as (fd & o1 & i & Ho & Hfd & Hn & Hno & Hdi & Hd1 & Hi1 & Hdir & Hh1).
  destruct (close_ok o1 fd i) as (o & Hc & Hd & Hi & Hhc & Hdirc & Hfr); [by rewrite Hi1, decide_True|].
  exists o, i. assert (∀ y, fs_ino o y = fs_ino (DiskManager.os d) y) as Hino.
  { intros y. rewrite Hi, Hi1. case_decide; [by subst|done]. }
  split_and!; try done.
  - unfold DiskManager.create_file, DiskManager.is_file, DiskManager.stat_is. step. rewrite Hst. simpl. step.
    unfold bind, DiskManager.sys. rewrite Ho. rewrite (proj2 (Z.eqb_neq _ _)) by lia. simpl. by rewrite Hc.
  - by rewrite Hd.
  - intros y Hy. by rewrite Hd, Hd1.
  - by rewrite Hdirc.
  - by apply Hfr.
  - split; [by apply Hhc|]. simpl. intros y y' j. rewrite !Hino. apply Hinj.
Qed.

(** The same disk for the pages of open files. *)
Lemma repr_same_pages s a d :
  repr s a → dm_inv d →
  (∀ y, is_Some (fs_ino (DiskManager.os (BufferPool.disk_manager_ s)) y) →
     fs_ino (DiskManager.os d) y = fs_ino (DiskManager.os (BufferPool.disk_manager_ s)) y) →
  (∀ y i, fs_ino (DiskManager.os (BufferPool.disk_manager_ s)) y = Some i →
     fs_data (DiskManager.os d) i = fs_data (DiskManager.os (BufferPool.disk_manager_ s)) i) →
  (∀ y, is_Some (fs_ino (DiskManager.os (BufferPool.disk_manager_ s)) y) →
     DiskManager.fd2pageno d y = DiskManager.fd2pageno (BufferPool.disk_manager_ s) y) →
  ∀ a', a_view a' = a_view a → a_held a' = a_held a → a_mod a' = a_mod a → a_size a' = a_size a →
    (∀ y, a_next a' y = DiskManager.fd2pageno d y) →
    (∀ y, y ∈ a_open a' → dm_valid d y 0) → repr (BufferPool.set_disk d s) a'.
Proof.
  intros Hr Hd Hino Hdat Hnx a' E1 E2 E3 E4 E5 E6. set (d0 := BufferPool.disk_manager_ s) in *.
  assert (Hval : ∀ j, valid_id d0 j → valid_id d j).
  { intros j (Hs & Hb & Hp). split; [|done]. rewrite (Hino _ Hs). done. }
  assert (Hat : ∀ j y, valid_id d0 j → on_disk_at d0 j = Some y → on_disk_at d j = Some y).
  { intros j y (Hs & _). unfold on_disk_at. simpl. unfold dm_page_at. rewrite (Hino _ Hs).
    destruct Hs as [k Hk]. rewrite Hk. simpl. by rewrite (Hdat _ _ Hk). }
  pose proof (r_inv _ _ Hr) as Hi. split; rewrite ?E1, ?E2, ?E3, ?E4.
  - pose proof (i_clean _ _ Hi) as Hc. pose proof (i_valid _ _ Hi) as Hv.
    destruct Hi. split; try done; simpl.
    + intros f p Hp Hu Hz Hne Hdirty. apply Hat; [by apply (Hv f p)|]. by apply (Hc f p).
    + intros f p Hp Hu. apply Hval. by apply (Hv f p).
  - intros j y Hy. destruct (r_view _ _ Hr _ _ Hy) as [Hv Hvl]. split; [|by apply Hval].
    unfold view in *; simpl. destruct (BufferPool.page_table_ s !! j); [done|]. by apply Hat.
  - apply (r_table _ _ Hr).
  - apply (r_held _ _ Hr).
  - apply (r_pins _ _ Hr).
  - intros j f n p Hh Hp Hm.
    destruct (r_rel _ _ Hr j f n p Hh Hp Hm) as [?|Hs]; [by left|right].
    destruct (r_held _ _ Hr _ _ _ Hh) as (Ht & _). destruct (i_table _ _ Hi _ _ Ht) as (q & Hq & Hid & Hu).
    change (BufferPool.frame s f = Some p) in Hp. rewrite Hp in Hq. injection Hq as <-.
    simpl. apply Hat; [|done]. by apply (i_valid _ _ Hi f p).
  - intros fd0. by rewrite E5.
  - intros fd0 Hfd. by apply E6.
  - apply (r_size _ _ Hr).
  - apply (r_mod _ _ Hr).
Qed.

Lemma create_file_ok s a fn rs :
  repr s a → 1 <= rs <= RM_MAX_RECORD_SIZE →
  sys_stat fn (DiskManager.os (BufferPool.disk_manager_ s)) = None →
  DiskManager.path2fd_ (BufferPool.disk_manager_ s) !! fn = None →
  fs_free (DiskManager.os (BufferPool.disk_manager_ s)) DiskManager.MAX_FD →
  ∃ d i, RmManager.create_file fn rs s = (Ret tt, BufferPool.set_disk d s) ∧
    repr (BufferPool.set_disk d s) a ∧ dm_inv d ∧
    DiskManager.path2fd_ d !! fn = None ∧ fs_dir (DiskManager.os d) fn = Some i ∧
    (∀ y, fs_ino (DiskManager.os d) y ≠ Some i) ∧ fs_free (DiskManager.os d) DiskManager.MAX_FD ∧
    fs_data (DiskManager.os d) i = enc_RmFileHdr (new_file_hdr rs).
Proof.
  intros Hr Hrs Hst Hp Hfree. set (d0 := BufferPool.disk_manager_ s) in *.
  pose proof (i_disk _ _ (r_inv _ _ Hr)) as Hd0.
  destruct (dm_create_ok d0 fn Hd0 Hst Hfree) as (o1 & i & Hcr & Hno & Hdi & Hdo & Hio & Hdir & Hfr & Hd1).
  set (d1 := DiskManager.set_os o1 d0) in *.
  destruct (dm_open_ok d1 fn i Hd1 Hp Hdir) as (fd & o2 & Hop & Hfd & Hnone & Hdat2 & Hino2 & Hdir2 & Hd2);
    [intros y; simpl; rewrite Hio; apply Hno|done|].
  set (d2 := DiskManager.set_paths _ _ (DiskManager.set_os o2 d1)) in Hop.
  assert (dm_inv d2) as Hd2' by done.
  assert (fs_ino (DiskManager.os d2) fd = Some i) as Hi2 by (simpl; by rewrite Hino2, decide_True).
  destruct (write_header_ok d2 fd i (enc_RmFileHdr (new_file_hdr rs)) Hd2' Hi2) as (d3 & Hw & Hho & _); [done|].
  destruct (dm_write_raw d2 fd 0 (enc_RmFileHdr (new_file_hdr rs)) i Hd2' Hi2) as
    (o3 & Hw' & Hd3i & Hd3o & Hino3 & Hdir3 & Hd3); [lia|].
  unfold RM_FILE_HDR_PAGE in Hw. rewrite Hw in Hw'. injection Hw' as ->.
  assert (fs_ino o3 fd = Some i) as Hi3 by (rewrite Hino3; done).
  destruct (close_ok o3 fd i Hi3) as (o4 & Hc & Hd4 & Hino4 & Hhc & Hdir4 & Hfr4).
  exists (DiskManager.set_paths (delete fn (DiskManager.path2fd_ d2)) (delete fd (DiskManager.fd2path_ d2))
            (DiskManager.set_os o4 (DiskManager.set_os o3 d2))), i.
  assert (Hino : ∀ y, fs_ino o4 y = fs_ino (DiskManager.os d0) y).
  { intros y. rewrite Hino4, Hino3. simpl. rewrite Hino2. case_decide as Hy.
    - subst y. by rewrite <- Hnone, <- (Hio fd).
    - simpl. by rewrite Hio. }
  assert (dm_inv (DiskManager.set_paths (delete fn (DiskManager.path2fd_ d2)) (delete fd (DiskManager.fd2path_ d2))
            (DiskManager.set_os o4 (DiskManager.set_os o3 d2)))) as Hd4'.
  { split; [simpl; apply Hhc, Hd3|]. simpl. intros y y' j. rewrite !Hino. apply Hd0. }
  assert (Hdata : ∀ y, y ≠ i → fs_data o4 y = fs_data (DiskManager.os d0) y).
  { intros y Hy. rewrite Hd4, Hd3o by done. simpl. rewrite Hdat2. simpl. by apply Hdo. }
  split_and!; try done.
  - unfold RmManager.create_file. rewrite (proj2 (Z.ltb_ge _ _)), (proj2 (Z.ltb_ge _ _)) by lia. simpl.
    run (on_disk_Ret _ s _ _ Hcr). run (on_disk_Ret _ (BufferPool.set_disk d1 s) _ _ Hop).
    unfold RM_FILE_HDR_PAGE. run (on_disk_Ret _ (BufferPool.set_disk d2 s) _ _ Hw).
    refine (on_disk_Ret _ (BufferPool.set_disk (DiskManager.set_os o3 d2) s) _ _ _). simpl BufferPool.disk_manager_.
    unfold DiskManager.close_file. step.
    replace (DiskManager.fd2path_ (DiskManager.set_os o3 d2) !! fd) with (Some fn) by (simpl; by rewrite lookup_insert_eq).
    unfold bind, DiskManager.sys. simpl DiskManager.os. rewrite Hc. done.
  - eapply (repr_same_pages s a); try done.
    + intros y j Hj. simpl. apply Hdata. intros ->. by apply Hno in Hj.
    + intros y. rewrite <- (r_next _ _ Hr). done.
    + intros y Hy%(r_open _ _ Hr). destruct Hy as (Hs & Hb). split; [|done]. simpl. rewrite Hino. done.
  - simpl. apply lookup_delete_eq.
  - simpl. rewrite Hdir4, Hdir3. simpl. by rewrite Hdir2.
  - simpl. intros y. rewrite Hino. apply Hno.
  - simpl. apply Hfr4. lia.
  - simpl. rewrite Hd4, Hd3i. simpl. rewrite Hdat2. simpl. rewrite Hdi. done.
Qed.

(** Creating a file and opening it in the same process. *)
Lemma create_open_ok s a fn rs :
  repr s a → 1 <= rs <= RM_MAX_RECORD_SIZE →
  sys_stat fn (DiskManager.os (BufferPool.disk_manager_ s)) = None →
  DiskManager.path2fd_ (BufferPool.disk_manager_ s) !! fn = None →
  fs_free (DiskManager.os (BufferPool.disk_manager_ s)) DiskManager.MAX_FD →
  ∃ s1 s2 a2 x, RmManager.create_file fn rs s = (Ret tt, s1) ∧
    RmManager.open_file fn s1 = (Ret x, s2) ∧ repr s2 a2 ∧ rm_ok a2 x ∧
    file_hdr_ x = RmManager.new_file_hdr rs ∧ a_view a2 = a_view a ∧ a_held a2 = a_held a ∧
    a_size a2 = a_size a ∧ (∀ r, rec_at a2 x r = None) ∧
    ∃ i, DiskManager.fd2path_ (BufferPool.disk_manager_ s2) !! fd_ x = Some fn ∧
      fs_ino (DiskManager.os (BufferPool.disk_manager_ s2)) (fd_ x) = Some i ∧
      fs_dir (DiskManager.os (BufferPool.disk_manager_ s2)) fn = Some i.
Proof.
  intros Hr Hrs Hst Hp Hfree.
  destruct (create_file_ok s a fn rs Hr Hrs Hst Hp Hfree) as
    (d & i & Hc & Hr1 & Hd & Hp1 & Hdir & Hno & Hfree1 & Hdat).
  pose proof (new_file_hdr_wf rs Hrs) as Hw. pose proof (hdr_layout _ Hw) as (L1 & L2 & L3 & L4 & L5).
  set (h := RmManager.new_file_hdr rs) in *.
  assert (hdr_s32 h) as H32.
  { unfold slots_off, bitmap_off, sizeof_RmPageHdr, OFFSET_PAGE_HDR, PAGE_SIZE in L5.
    assert (bitmap_size h <= 4096) by nia.
    unfold hdr_s32, is_s32. assert (num_pages h = 1 ∧ first_free_page_no h = -1) as [-> ->] by done. lia. }
  destruct (open_file_ok (BufferPool.set_disk d s) fn i h) as
    (fd & d2 & Hop & Hfd & Hnone & Hd2 & Hi2 & Hio & Hdat2 & Hnx & Hfp & Hfdir); try done.
  { simpl. by rewrite Hdat. }
  { simpl. by rewrite Hdat. }
  set (a2 := mkAbs (a_view a) (a_held a) (a_mod a) (DiskManager.fd2pageno d2) ({[fd]} ∪ a_open a) (a_size a)).
  assert (Hnofd : ∀ p, a_view a !! mkPageId fd p = None).
  { intros p. apply eq_None_not_Some. intros [y Hy]. destruct (r_view _ _ Hr1 _ _ Hy) as [_ (Hs & _)].
    simpl in Hs, Hnone. rewrite Hnone in Hs. by destruct Hs. }
  assert (repr (BufferPool.set_disk d2 (BufferPool.set_disk d s)) a2) as Hr2.
  { eapply (repr_same_pages (BufferPool.set_disk d s) a); try done.
    - intros y Hy. apply Hio. intros ->. rewrite Hnone in Hy. by destruct Hy.
    - intros y Hy. rewrite Hnx, decide_False; [done|]. intros ->. rewrite Hnone in Hy. by destruct Hy.
    - intros y [->%elem_of_singleton|Hy]%elem_of_union.
      + split; [eauto|]. lia.
      + destruct (r_open _ _ Hr1 y Hy) as (Hs & Hb). split; [|done]. rewrite Hio; [done|].
        intros ->. rewrite Hnone in Hs. by destruct Hs. }
  exists (BufferPool.set_disk d s), (BufferPool.set_disk d2 (BufferPool.set_disk d s)), a2, (mkHandle fd h).
  split_and!; try done.
  - split; simpl; try done.
    + set_solver.
    + by rewrite Hnx, decide_True.
    + intros p. split; simpl.
      * destruct (a_held a !! mkPageId fd p) as [[f n]|] eqn:Hh; [exfalso|done].
        destruct (r_held _ _ Hr1 _ _ _ Hh) as (_ & _ & _ & [y Hy]). by rewrite Hnofd in Hy.
      * intros Hm%(r_mod _ _ Hr1). destruct Hm as [[f n] Hh].
        destruct (r_held _ _ Hr1 _ _ _ Hh) as (_ & _ & _ & [y Hy]). by rewrite Hnofd in Hy.
    + intros p Hp'. lia.
    + exists []. split_and!; [done|apply NoDup_nil_2|].
      intros p. split; [by intros ?%elem_of_nil|]. intros [Hp' _]. simpl in Hp'. lia.
  - intros r. unfold rec_at. rewrite decide_False; [done|]. intros [Hp' _]. simpl in Hp'. lia.
  - by exists i.
Qed.

End life.
