(* ===== verification/DemoFile.v ===== *)
(** A concrete record file for the witnesses: a file ["r"] of 8-byte records,
    created and opened on the in-memory kernel with a pool of four frames,
    before and after one insertion. *)
From Stdlib Require Import Sorting.Sorted.
From S2P Require Import Prelude.
From S2P Require Import Defs.
From S2P Require Import Bitmap.
From S2P Require Import Replacer.
From S2P Require Import Disk.
From S2P Require Import ModelFs.
From S2P Require Import BufferPool.
From S2P Require Import BufferPoolProofs.
From S2P Require Import PoolSpec.
From S2P Require Import Session.
From S2P Require Import RmFile.
From S2P Require Import RmPage.
From S2P Require Import RmFileProofs.
From S2P Require Import RmManager.
Import RmFileHandle.

#[local] Open Scope prog_scope.

Module DemoFile.

Notation pool := (BufferPool.t (DiskManager.t ModelFs.t) LRUReplacer.t).
Notation st := (RmFileHandle.st (DiskManager.t ModelFs.t) LRUReplacer.t).

Definition pool0 : pool := BufferPool.BufferPoolManager 4 (λ _, 0) (DiskManager.create ModelFs.empty).
Definition name : string := "r".
Definition record : bytes := [1; 2; 3; 4; 5; 6; 7; 8].

Definition opened :=
  (RmManager.create_file name 8 ;;; RmManager.open_file name) pool0.

Definition file0 : st :=
  match opened with (Ret x, p) => mkSt x p | (_, p) => mkSt (mkHandle (-1) (RmManager.new_file_hdr 8)) p end.

Definition inserted := insert_record record file0.
Definition file1 : st := inserted.2.

Lemma pool0_repr : ∃ V N O, repr pool0 (mkAbs V ∅ ∅ N O 4) ∧ V = ∅ ∧ O = ∅.
Proof.
  exists ∅, (ps_next (DiskManager.create ModelFs.empty)), ∅. split; [|done]. unfold pool0, BufferPool.BufferPoolManager.
  apply repr_create; try done.
  - by apply LRUReplacer.create_inv.
Qed.

(** The empty file. *)
Lemma file0_ok : ∃ a x, st_repr file0 a x ∧ rm_ok a x ∧ room a ∧ record_size (file_hdr_ x) = 8 ∧
  num_pages (file_hdr_ x) = 1 ∧ (∀ r, rec_at a x r = None) ∧
  ∃ i, DiskManager.fd2path_ (BufferPool.disk_manager_ (bpm file0)) !! fd_ x = Some name ∧
    fs_ino (DiskManager.os (BufferPool.disk_manager_ (bpm file0))) (fd_ x) = Some i ∧
    fs_dir (DiskManager.os (BufferPool.disk_manager_ (bpm file0))) name = Some i.
Proof.
  destruct pool0_repr as (V & N & O & Hr & -> & ->).
  destruct (create_open_ok pool0 _ name 8 Hr) as
    (s1 & s2 & a & x & Hc & Ho & Hr2 & Hk & Hh & _ & He & Hz & Hrec & i & Hi); try done.
  assert (file0 = mkSt x s2) as ->.
  { unfold file0, opened. unfold bind. rewrite Hc, Ho. done. }
  exists a, x. split_and!; try done.
  - unfold room. by rewrite He, Hz.
  - by rewrite Hh.
  - by rewrite Hh.
  - by exists i.
Qed.

Lemma sorted_singleton l r : StronglySorted rid_lt l → (∀ q, q ∈ l ↔ q = r) → l = [r].
Proof.
  intros Hs Hl. destruct l as [|q l]; [by pose proof (proj2 (Hl r) eq_refl) as []%elem_of_nil|].
  rewrite (proj1 (Hl q) ltac:(by left)). f_equal. destruct l as [|q2 l]; [done|].
  apply StronglySorted_inv in Hs as [_ [Hlt _]%Forall_cons].
  rewrite (proj1 (Hl q) ltac:(by left)), (proj1 (Hl q2) ltac:(by right; left)) in Hlt. unfold rid_lt in Hlt. lia.
Qed.

(** The file after the insertion of [record]. *)
Lemma file1_ok : ∃ a x rid, inserted.1 = Ret rid ∧ st_repr file1 a x ∧ rm_ok a x ∧ room a ∧
  record_size (file_hdr_ x) = 8 ∧ rec_at a x rid = Some record ∧ in_file x rid ∧ live_records a x = [rid].
Proof.
  destruct file0_ok as (a & x & Hs & Hk & Hroom & Hsz & Hnp & Hnone & _).
  destruct (insert_record_ok file0 a x record Hs Hk Hroom) as
    (rid & s1 & a1 & x1 & Hrun & Hs1 & Hk1 & Hsame & Hle & Hin & _ & Hrec).
  - intros _. by rewrite Hnp.
  - by rewrite Hsz.
  - by repeat constructor.
  - exists a1, x1, rid. unfold file1, inserted. rewrite Hrun. clear Hrun Hs. split_and!; try done.
    + unfold room in *. by rewrite (fl_held _ _ _ Hle), (fl_size _ _ _ Hle).
    + by rewrite (sf_size _ _ Hsame).
    + rewrite Hrec, decide_True, Hsz by done. done.
    + apply (sorted_singleton (live_records a1 x1) rid); [by eapply (live_from_sorted _ a1 x1 RM_FIRST_RECORD_PAGE 0)|].
      intros r. rewrite elem_of_live_records, Hrec by done. case_decide; [naive_solver|]. rewrite Hnone.
      split; [by intros []|by intros ->].
Qed.

Lemma file1_fd : fh file1 = mkHandle 0 (file_hdr_ (fh file1)) ∧
  DiskManager.fd2path_ (BufferPool.disk_manager_ (bpm file1)) !! 0 = Some name ∧
  fs_ino (DiskManager.os (BufferPool.disk_manager_ (bpm file1))) 0 = Some 0 ∧
  fs_dir (DiskManager.os (BufferPool.disk_manager_ (bpm file1))) name = Some 0 ∧
  is_Some (BufferPool.page_table_ (bpm file1) !! mkPageId 0 1) ∧ inserted.1 = Ret (mkRid 1 0).
Proof.
  split_and!.
  - vm_compute. reflexivity.
  - vm_compute. reflexivity.
  - vm_compute. reflexivity.
  - vm_compute. reflexivity.
  - exists 0. vm_compute. reflexivity.
  - vm_compute. reflexivity.
Qed.

End DemoFile.

#[global] Opaque DemoFile.file0 DemoFile.file1.
