(* ===== verification/RecordThms.v ===== *)
(** The theorems about record files.

    The states are a record-file handle and a buffer pool that represents an
    abstract pool [a] ([st_repr]); [rm_ok] is the invariant of the file and
    [rec_at] its records.  The witnesses start from the files of [DemoFile]:
    [file0] is empty, [file1] holds one record. *)
From Stdlib Require Import Sorting.Sorted.
From S2P Require Import Prelude.
From S2P Require Import Defs.
From S2P Require Import Bitmap.
From S2P Require Import Replacer.
From S2P Require Import Disk.
From S2P Require Import ModelFs.
From S2P Require Import BufferPool.
From S2P Require Import BufferPoolProofs.
From S2P Require Import PoolSpec.
From S2P Require Import Session.
From S2P Require Import RmFile.
From S2P Require Import RmPage.
From S2P Require Import RmFileProofs.
From S2P Require Import RmManager.
From S2P Require Import Demo.
From S2P Require Import DemoFile.
Import RmFileHandle.

#[local] Open Scope prog_scope.

(** C11: The layout computed by [RmManager::create_file] is sound for every
    record size it accepts: at least 7 records fit, the bitmap has a bit for
    every slot, and LSN, page header, bitmap and slots stay inside the page. *)
Theorem record_layout_in_page rs :
  1 <= rs <= RM_MAX_RECORD_SIZE →
  let h := RmManager.new_file_hdr rs in
  7 <= num_records_per_page h ∧ num_records_per_page h <= 8 * bitmap_size h ∧
  bitmap_off + bitmap_size h = slots_off h ∧
  ∀ slot, 0 <= slot < num_records_per_page h →
    slots_off h <= get_slot h slot ∧ get_slot h slot + record_size h <= PAGE_SIZE.
Proof.
  intros Hrs h. pose proof (hdr_layout h (new_file_hdr_wf rs Hrs)) as (H1 & H2 & H3 & H4 & H5).
  pose proof (Z.div_mod (num_records_per_page h + 7) 8 ltac:(lia)).
  pose proof (Z.mod_pos_bound (num_records_per_page h + 7) 8 ltac:(lia)).
  split_and!; [lia|lia|done|]. intros slot Hs. unfold get_slot. nia.
Qed.

Section theorems.
  Context {D : Type} {PS : PageStore D} {PSL : PageStoreLaws D}
          {R : Type} {RP : Replacer R} {RPL : ReplacerLaws R}.
  Notation st := (RmFileHandle.st D R).
  Implicit Types (s : st) (a : Abs) (x : handle).

(** C7: [insert_record] puts the record at a position that held none, keeps
    every other record and the invariant of the file (free-page list, counts),
    and [get_record] of that position then returns the bytes inserted. *)
Theorem insert_then_get s a x buf :
  st_repr s a x → rm_ok a x → room a →
  (first_free_page_no (file_hdr_ x) = RM_NO_PAGE → is_s32 (num_pages (file_hdr_ x) + 1)) →
  record_size (file_hdr_ x) <= zlen buf → Forall is_u8 buf →
  ∃ rid s1 a1 x1, insert_record buf s = (Ret rid, s1) ∧ st_repr s1 a1 x1 ∧ rm_ok a1 x1 ∧
    file_le (fd_ x) a a1 ∧ rec_at a x rid = None ∧
    (∀ r, r ≠ rid → rec_at a1 x1 r = rec_at a x r) ∧
    ∃ s2, get_record rid s1 =
        (Ret (mkRmRecord (take (Z.to_nat (record_size (file_hdr_ x))) buf)), s2) ∧ st_repr s2 a1 x1.
Proof.
  intros Hs Hk Hroom H32 Hl Hu.
  destruct (insert_record_ok s a x buf Hs Hk Hroom H32 Hl Hu) as
    (rid & s1 & a1 & x1 & Hrun & Hs1 & Hk1 & Hsame & Hle & Hin & Hnone & Hrec).
  exists rid, s1, a1, x1. split_and!; try done.
  - intros r Hr. by rewrite Hrec, decide_False.
  - destruct (rk_page _ _ Hk1 _ (proj1 Hin)) as (m & Hm & _).
    destruct (get_record_ok s1 a1 x1 rid m Hs1 Hk1) as (s2 & Hg & Hs2); [|done|done|].
    { unfold room in *. by rewrite (fl_held _ _ _ Hle), (fl_size _ _ _ Hle). }
    exists s2. split; [|done]. rewrite Hg. do 3 f_equal.
    specialize (Hrec rid). rewrite decide_True in Hrec by done.
    rewrite (rec_at_page a1 x1 rid m Hin Hm) in Hrec. by destruct (page_bit m (rid_slot_no rid)); simplify_eq.
Qed.

(** C9: [delete_record] of a record removes it and nothing else, and keeps the
    invariant; a page that was full goes back to the free-page list. *)
Theorem delete_record_correct s a x rid :
  st_repr s a x → rm_ok a x → room a → is_Some (rec_at a x rid) →
  ∃ s1 a1 x1, delete_record rid s = (Ret tt, s1) ∧ st_repr s1 a1 x1 ∧ rm_ok a1 x1 ∧
    file_le (fd_ x) a a1 ∧ rec_at a1 x1 rid = None ∧
    (∀ r, r ≠ rid → rec_at a1 x1 r = rec_at a x r) ∧ has_room a1 x1 (rid_page_no rid).
Proof.
  intros Hs Hk Hroom Hr.
  destruct (delete_record_ok s a x rid Hs Hk Hroom Hr) as (s1 & a1 & x1 & Hrun & Hs1 & Hk1 & Hsame & Hle & Hrec).
  exists s1, a1, x1. split_and!; try done.
  - by rewrite Hrec, decide_True.
  - intros r Hne. by rewrite Hrec, decide_False.
  - assert (in_file x1 rid) as Hin.
    { destruct Hr as [d Hr]. unfold rec_at in Hr. case_decide as Hi; [|done]. destruct Hi, Hsame.
      split; [lia|]. by rewrite sf_n. }
    destruct (rk_page _ _ Hk1 _ (proj1 Hin)) as (m & Hm & _). split; [apply Hin|]. exists m. split; [done|].
    pose proof (used_bounds _ m (rk_hdr _ _ Hk1)) as Hb.
    destruct (decide (page_used (file_hdr_ x1) m = num_records_per_page (file_hdr_ x1))) as [Hf|]; [|lia].
    exfalso. unfold page_used in Hf. pose proof (hdr_layout _ (rk_hdr _ _ Hk1)).
    assert (page_bit m (rid_slot_no rid) = true) as Hbit.
    { eapply (proj1 (Bitmap.count_full _ _ (Z.to_nat (num_records_per_page (file_hdr_ x1)))));
        [rewrite Hf; lia|destruct Hin; lia]. }
    pose proof (Hrec rid) as Hn. rewrite decide_True, (rec_at_page a1 x1 rid m Hin Hm), Hbit in Hn by done. done.
Qed.

(** [update_record] overwrites the record at its position, which
    [get_record] then returns, and changes no other record, no count and no
    list. *)
Theorem update_then_get s a x rid buf :
  st_repr s a x → rm_ok a x → room a → is_Some (rec_at a x rid) →
  record_size (file_hdr_ x) <= zlen buf → Forall is_u8 buf →
  ∃ s1 a1, update_record rid buf s = (Ret tt, s1) ∧ st_repr s1 a1 x ∧ rm_ok a1 x ∧ file_le (fd_ x) a a1 ∧
    (∀ r, r ≠ rid → rec_at a1 x r = rec_at a x r) ∧
    ∃ s2, get_record rid s1 =
        (Ret (mkRmRecord (take (Z.to_nat (record_size (file_hdr_ x))) buf)), s2) ∧ st_repr s2 a1 x.
Proof.
  intros Hs Hk Hroom Hr Hl Hu.
  assert (in_file x rid) as Hin by (destruct Hr as [d Hr]; unfold rec_at in Hr; by case_decide).
  destruct (update_record_ok s a x rid buf Hs Hk Hroom Hin Hl Hu) as (s1 & a1 & Hrun & Hs1 & Hk1 & Hle & Hrec).
  exists s1, a1. split_and!; try done.
  - intros r Hne. rewrite Hrec, decide_False; [done|]. by intros [? _].
  - destruct (rk_page _ _ Hk1 _ (proj1 Hin)) as (m & Hm & _).
    destruct (get_record_ok s1 a1 x rid m Hs1 Hk1) as (s2 & Hg & Hs2); [|done|done|].
    { unfold room in *. by rewrite (fl_held _ _ _ Hle), (fl_size _ _ _ Hle). }
    exists s2. split; [|done]. rewrite Hg. do 3 f_equal.
    specialize (Hrec rid). rewrite decide_True in Hrec by done.
    rewrite (rec_at_page a1 x rid m Hin Hm) in Hrec. by destruct (page_bit m (rid_slot_no rid)); simplify_eq.
Qed.

(** C8: A scan ([RmScan], [next] until [is_end]) ends, visits exactly the
    records of the file, each once and in the order of their positions, and
    leaves no page pinned and nothing changed. *)
Theorem scan_visits_records s a x :
  st_repr s a x → rm_ok a x → room a →
  ∃ fuel l s', scan_all fuel s = (Ret l, s') ∧ st_repr s' a x ∧
    (∀ r, r ∈ l ↔ is_Some (rec_at a x r)) ∧ StronglySorted rid_lt l.
Proof.
  intros Hs Hk Hroom. exists (S (length (live_records a x))), (live_records a x).
  destruct (scan_all_ok s a x _ Hs Hk Hroom (Nat.lt_succ_diag_r _)) as (s' & Hrun & Hs').
  exists s'. split_and!; [done|done| |].
  - intros r. by apply elem_of_live_records.
  - by apply (live_from_sorted _ a x RM_FIRST_RECORD_PAGE 0 Hk).
Qed.

(** [is_record] answers whether a record is at a position of the file, but
    returns with the page still pinned: one frame less can be evicted for
    every call. *)
Theorem is_record_keeps_pin s a x rid :
  st_repr s a x → rm_ok a x → room a → in_file x rid →
  ∃ f s', is_record rid s = (Ret (bool_decide (is_Some (rec_at a x rid))), s') ∧
    st_repr s' (a_hold (mkPageId (fd_ x) (rid_page_no rid)) f 1 a) x ∧
    BufferPoolProofs.pins (bpm s') (mkPageId (fd_ x) (rid_page_no rid)) = 1.
Proof.
  intros Hs Hk Hroom Hin. destruct (rk_page _ _ Hk _ (proj1 Hin)) as (m & Hm & Hl & Hu & _).
  destruct (fetch_handle_ok s a x _ m Hs (rk_idle _ _ Hk _) Hroom Hm) as (f & s1 & Hf & Hs1 & _).
  exists f, s1. split_and!; [|done|].
  - unfold is_record. run Hf. rewrite (rec_at_page a x rid m Hin Hm).
    erewrite (load_ok s1); [|done|apply hold_held|exact Hm|].
    2:{ eapply (pg_is_set _ (rk_hdr _ _ Hk) m), (proj2 Hin). by apply pg_self. }
    by destruct (page_bit m (rid_slot_no rid)).
  - destruct Hs1 as [Hr1 _].
    destruct (r_held _ _ Hr1 (mkPageId (fd_ x) (rid_page_no rid)) f 1) as (_ & Hp & _); [apply hold_held|done].
Qed.

End theorems.

Section life.
  Context {F : Type} {PF : Posix F} {PL : PosixLaws F} {R : Type} {RP : Replacer R} {RPL : ReplacerLaws R}.
  Notation pool := (BufferPool.t (DiskManager.t F) R).
  Implicit Types (s : pool) (a : Abs) (x : handle).

(** C10: Records survive a restart: after [close_file], a new process (new disk
    manager, new buffer pool) that opens the file of that name gets a handle
    with the same header, the invariant holds and every record is where it
    was, with its bytes. *)
Theorem close_reopen_keeps_records s a x fn i n junk (r0 : R) :
  repr s a → rm_ok a x → DiskManager.fd2path_ (BufferPool.disk_manager_ s) !! fd_ x = Some fn →
  fs_ino (DiskManager.os (BufferPool.disk_manager_ s)) (fd_ x) = Some i →
  fs_dir (DiskManager.os (BufferPool.disk_manager_ s)) fn = Some i →
  0 <= n → repl_inv r0 → evictable r0 = ∅ → n <= capacity r0 →
  ∃ s' x' p' a', RmManager.close_file x s = (Ret tt, s') ∧
    RmManager.open_file fn (BufferPool.create n junk
       (DiskManager.create (DiskManager.os (BufferPool.disk_manager_ s'))) r0) = (Ret x', p') ∧
    repr p' a' ∧ rm_ok a' x' ∧ file_hdr_ x' = file_hdr_ x ∧ ∀ r, rec_at a' x' r = rec_at a x r.
Proof.
  intros Hr Hk Hf Hi Hd Hn Hri He Hc.
  destruct (reopen_ok s a x fn i n junk r0 Hr Hk Hf Hi Hd Hn Hri He Hc) as
    (s' & x' & p' & a' & H1 & H2 & H3 & H4 & H5 & _ & _ & H6).
  exists s', x', p', a'. by split_and!.
Qed.

(** [create_file] and [open_file] of a new name give an empty record file
    whose records have the size asked for, and touch no open file. *)
Theorem create_open_empty s a fn rs :
  repr s a → 1 <= rs <= RM_MAX_RECORD_SIZE →
  sys_stat fn (DiskManager.os (BufferPool.disk_manager_ s)) = None →
  DiskManager.path2fd_ (BufferPool.disk_manager_ s) !! fn = None →
  fs_free (DiskManager.os (BufferPool.disk_manager_ s)) DiskManager.MAX_FD →
  ∃ s1 s2 a2 x, RmManager.create_file fn rs s = (Ret tt, s1) ∧
    RmManager.open_file fn s1 = (Ret x, s2) ∧ repr s2 a2 ∧ rm_ok a2 x ∧
    record_size (file_hdr_ x) = rs ∧ a_view a2 = a_view a ∧ ∀ r, rec_at a2 x r = None.
Proof.
  intros Hr Hrs Hst Hp Hfree.
  destruct (create_open_ok s a fn rs Hr Hrs Hst Hp Hfree) as (s1 & s2 & a2 & x & H1 & H2 & H3 & H4 & H5 & H6 & _ & _ & H7 & _).
  exists s1, s2, a2, x. split_and!; try done. by rewrite H5.
Qed.

(** C12: Closing a file leaves its pages in the buffer pool under its
    descriptor.  The kernel gives the descriptor to the next file that is
    opened; fetching a page of that file returns the page of the closed file,
    whatever the disk holds. *)
Theorem closed_file_pages_stay s a x fn i p m :
  repr s a → rm_ok a x → DiskManager.fd2path_ (BufferPool.disk_manager_ s) !! fd_ x = Some fn →
  fs_ino (DiskManager.os (BufferPool.disk_manager_ s)) (fd_ x) = Some i →
  is_Some (BufferPool.page_table_ s !! mkPageId (fd_ x) p) →
  a_view a !! mkPageId (fd_ x) p = Some m →
  ∃ s', RmManager.close_file x s = (Ret tt, s') ∧
    ∀ d, ∃ f s'' q, BufferPool.FetchPage (mkPageId (fd_ x) p) (BufferPool.set_disk d s') = (Ret (Some f), s'') ∧
      BufferPool.frame s'' f = Some q ∧ data_ q = m.
Proof.
  intros Hr Hk Hfn Hi [f Ht] Hm.
  destruct (close_file_ok s a x fn i Hr Hk Hfn Hi) as (s2 & o & Hcl & Hr2 & Htab & _).
  eexists. split; [exact Hcl|]. intros d. rewrite <- Htab in Ht.
  pose proof (r_inv _ _ Hr2) as Hi2. destruct (i_table _ _ Hi2 _ _ Ht) as (q & Hq & _ & _).
  destruct (r_view _ _ Hr2 _ _ Hm) as [Hv _]. rewrite (view_resident s2 _ f q Ht Hq) in Hv.
  destruct (pin_law f (BufferPool.replacer_ s2) (i_repl _ _ Hi2)) as (r & Hpin & _).
  set (s3 := BufferPool.set_disk d _). set (q' := set_pin (pin_count_ q + 1) q).
  exists f, (BufferPool.set_replacer r (BufferPool.set_frame f q' s3)), q'. split_and!.
  - unfold BufferPool.FetchPage. step.
    replace (BufferPool.page_table_ s3 !! mkPageId (fd_ x) p) with (Some f) by (symmetry; exact Ht).
    run (upd_page_Some s3 f q (λ p, set_pin (pin_count_ p + 1) p) Hq).
    erewrite bind_Ret; [done|]. by apply on_replacer_Ret.
  - change (BufferPool.frame (BufferPool.set_frame f q' s3) f = Some q').
    by rewrite (frame_set_frame s3 f q), decide_True.
  - simpl. by injection Hv.
Qed.

End life.

(** ** Witnesses *)

Section witnesses.
Import DemoFile.

Lemma record_layout_in_page_witness : 1 <= 8 <= RM_MAX_RECORD_SIZE ∧
  7 <= num_records_per_page (RmManager.new_file_hdr 8).
Proof.
  assert (1 <= 8 <= RM_MAX_RECORD_SIZE) as H by done. split; [exact H|].
  exact (proj1 (record_layout_in_page 8 H)).
Defined.

Lemma insert_then_get_witness : ∃ rid s1 s2,
  insert_record record file0 = (Ret rid, s1) ∧ get_record rid s1 = (Ret (mkRmRecord record), s2).
Proof.
  destruct file0_ok as (a & x & Hs & Hk & Hroom & Hsz & Hnp & _).
  destruct (insert_then_get file0 a x record Hs Hk Hroom) as
    (rid & s1 & a1 & x1 & Hi & _ & _ & _ & _ & _ & s2 & Hg & _).
  - intros _. by rewrite Hnp.
  - by rewrite Hsz.
  - by repeat constructor.
  - rewrite Hsz in Hg. exists rid, s1, s2. split; [exact Hi|exact Hg].
Defined.

Lemma delete_record_correct_witness : ∃ rid s1 a1 x1, inserted.1 = Ret rid ∧
  delete_record rid file1 = (Ret tt, s1) ∧ rm_ok a1 x1 ∧ rec_at a1 x1 rid = None.
Proof.
  destruct file1_ok as (a & x & rid & Hi & Hs & Hk & Hroom & Hsz & Hr & Hin & _).
  destruct (delete_record_correct file1 a x rid Hs Hk Hroom) as (s1 & a1 & x1 & Hd & _ & Hk1 & _ & Hn & _).
  - by rewrite Hr.
  - exists rid, s1, a1, x1. split_and!; [exact Hi|exact Hd|exact Hk1|exact Hn].
Defined.

Lemma update_then_get_witness : ∃ rid s1 s2, inserted.1 = Ret rid ∧
  update_record rid (rev record) file1 = (Ret tt, s1) ∧
  get_record rid s1 = (Ret (mkRmRecord (rev record)), s2).
Proof.
  destruct file1_ok as (a & x & rid & Hi & Hs & Hk & Hroom & Hsz & Hr & Hin & _).
  destruct (update_then_get file1 a x rid (rev record) Hs Hk Hroom) as
    (s1 & a1 & Hu & _ & _ & _ & _ & s2 & Hg & _).
  - by rewrite Hr.
  - by rewrite Hsz.
  - by repeat constructor.
  - rewrite Hsz in Hg. exists rid, s1, s2. split_and!; [exact Hi|exact Hu|exact Hg].
Defined.

Lemma scan_visits_records_witness : ∃ fuel l s' rid, scan_all fuel file1 = (Ret l, s') ∧
  inserted.1 = Ret rid ∧ rid ∈ l.
Proof.
  destruct file1_ok as (a & x & rid & Hi & Hs & Hk & Hroom & Hsz & Hr & Hin & _).
  destruct (scan_visits_records file1 a x Hs Hk Hroom) as (fuel & l & s' & Hrun & _ & Hl & _).
  exists fuel, l, s', rid. split_and!; [exact Hrun|exact Hi|]. apply Hl. by rewrite Hr.
Defined.

Lemma is_record_keeps_pin_witness : ∃ rid s1, inserted.1 = Ret rid ∧
  is_record rid file1 = (Ret true, s1) ∧
  ∃ fd, BufferPoolProofs.pins (bpm s1) (mkPageId fd (rid_page_no rid)) = 1.
Proof.
  destruct file1_ok as (a & x & rid & Hi & Hs & Hk & Hroom & Hsz & Hr & Hin & _).
  destruct (is_record_keeps_pin file1 a x rid Hs Hk Hroom Hin) as (f & s1 & Hrun & _ & Hp).
  exists rid, s1. split_and!; [exact Hi| |by exists (fd_ x)].
  rewrite Hrun, bool_decide_eq_true_2; [done|by rewrite Hr].
Defined.

Lemma close_reopen_keeps_records_witness : ∃ x s' x' p', RmManager.close_file x (bpm file0) = (Ret tt, s') ∧
  RmManager.open_file name (BufferPool.create 4 (λ _, 0)
     (DiskManager.create (DiskManager.os (BufferPool.disk_manager_ s'))) (LRUReplacer.create 4)) = (Ret x', p') ∧
  file_hdr_ x' = file_hdr_ x.
Proof.
  destruct file0_ok as (a & x & [Hs Hx] & Hk & _ & _ & _ & _ & i & Hf & Hi & Hd).
  destruct (close_reopen_keeps_records (bpm file0) a x name i 4 (λ _, 0) (LRUReplacer.create 4) Hs Hk Hf Hi Hd)
    as (s' & x' & p' & a' & H1 & H2 & _ & _ & H3 & _); [done|by apply LRUReplacer.create_inv|done|done|].
  exists x, s', x', p'. split_and!; [exact H1|exact H2|exact H3].
Defined.

Lemma create_open_empty_witness : ∃ s1 s2 x, RmManager.create_file name 8 pool0 = (Ret tt, s1) ∧
  RmManager.open_file name s1 = (Ret x, s2) ∧ record_size (file_hdr_ x) = 8.
Proof.
  destruct pool0_repr as (V & N & O & Hr & -> & ->).
  destruct (create_open_empty pool0 _ name 8 Hr) as (s1 & s2 & a & x & H1 & H2 & _ & _ & H3 & _); try done.
  exists s1, s2, x. split_and!; [exact H1|exact H2|exact H3].
Defined.

Lemma closed_file_pages_stay_witness : ∃ x s' m, RmManager.close_file x (bpm file1) = (Ret tt, s') ∧
  fd_ x = 0 ∧
  ∃ f s'' q, BufferPool.FetchPage (mkPageId 0 1) (BufferPool.set_disk (Demo.disk 3 1) s') = (Ret (Some f), s'') ∧
      BufferPool.frame s'' f = Some q ∧ data_ q = m.
Proof.
  destruct file1_ok as (a & x & rid & Hrid & [Hs Hx] & Hk & Hroom & Hsz & Hr & Hin & _).
  destruct file1_fd as (Hfd & Hf & Hi & Hd & Ht & Hrid').
  assert (fd_ x = 0) as Hx0 by (by rewrite <- Hx, Hfd).
  assert (rid = mkRid 1 0) as -> by congruence.
  destruct (rk_page _ _ Hk _ (proj1 Hin)) as (m & Hm & _).
  destruct (closed_file_pages_stay (bpm file1) a x name 0 1 m Hs Hk) as (s' & Hc & Hd'); [..|exact Hm|].
  - by rewrite Hx0.
  - by rewrite Hx0.
  - by rewrite Hx0.
  - exists x, s', m. split_and!; [exact Hc|exact Hx0|]. rewrite Hx0 in Hd'. apply Hd'.
Defined.

End witnesses.
