(* ===== verification/IxNode.v ===== *)
(** B+ tree nodes: [src/src/index/ix_defs.h] and
    [src/src/index/ix_node_handle.{h,cpp}].

    A node is a page: a header of 24 bytes, then room for [btree_order + 1]
    keys of [col_len] bytes, then room for as many [Rid]s.  The operations of a
    node run on the bytes of its page (the state of the monad).  A pointer
    that an operation reads through is the memory it points to, from there to
    the end of its object, so a read past the end is undefined behaviour.  A
    [bool] byte other than 0 and 1 is undefined behaviour too. *)
From S2P Require Import Prelude.
From S2P Require Import Defs.

#[local] Open Scope prog_scope.

(** ** [ix_defs.h] *)

Module IxDefs.

(** [col_type] is the enumerator as the [int] the file holds. *)
Record IxFileHdr := mkIxFileHdr {
  first_free_page_no : Z;
  num_pages : Z;
  root_page : Z;
  col_type : Z;
  col_len : Z;
  btree_order : Z;
  keys_size : Z;
  first_leaf : Z;
  last_leaf : Z
}.

Definition sizeof_IxFileHdr : Z := 36.

Definition enc_IxFileHdr (h : IxFileHdr) : bytes :=
  enc32 (first_free_page_no h) ++ enc32 (num_pages h) ++ enc32 (root_page h) ++ enc32 (col_type h)
    ++ enc32 (col_len h) ++ enc32 (btree_order h) ++ enc32 (keys_size h) ++ enc32 (first_leaf h)
    ++ enc32 (last_leaf h).

Definition dec_IxFileHdr (b : bytes) : IxFileHdr :=
  let w i := dec32 (slice b (4 * i) 4) in
  mkIxFileHdr (w 0) (w 1) (w 2) (w 3) (w 4) (w 5) (w 6) (w 7) (w 8).

Definition set_num_pages (n : Z) (h : IxFileHdr) : IxFileHdr :=
  mkIxFileHdr (first_free_page_no h) n (root_page h) (col_type h) (col_len h) (btree_order h)
    (keys_size h) (first_leaf h) (last_leaf h).
Definition set_root_page (n : Z) (h : IxFileHdr) : IxFileHdr :=
  mkIxFileHdr (first_free_page_no h) (num_pages h) n (col_type h) (col_len h) (btree_order h)
    (keys_size h) (first_leaf h) (last_leaf h).
Definition set_last_leaf (n : Z) (h : IxFileHdr) : IxFileHdr :=
  mkIxFileHdr (first_free_page_no h) (num_pages h) (root_page h) (col_type h) (col_len h)
    (btree_order h) (keys_size h) (first_leaf h) n.

(** [IxPageHdr]: offsets of its fields, three bytes of padding after
    [is_leaf]. *)
Definition sizeof_IxPageHdr : Z := 24.
Definition off_next_free : Z := 0.
Definition off_parent : Z := 4.
Definition off_num_key : Z := 8.
Definition off_is_leaf : Z := 12.
Definition off_prev_leaf : Z := 16.
Definition off_next_leaf : Z := 20.

Record Iid := mkIid { iid_page_no : Z; iid_slot_no : Z }.

#[export] Instance Iid_eq_dec : EqDecision Iid.
Proof. solve_decision. Defined.

Definition Iid_eqb (x y : Iid) : bool :=
  (iid_page_no x =? iid_page_no y) && (iid_slot_no x =? iid_slot_no y).

Definition IX_NO_PAGE : Z := -1.
Definition IX_FILE_HDR_PAGE : Z := 0.
Definition IX_LEAF_HEADER_PAGE : Z := 1.
Definition IX_INIT_ROOT_PAGE : Z := 2.
Definition IX_INIT_NUM_PAGES : Z := 3.
Definition IX_MAX_COL_LEN : Z := 512.

(** The object representation of a [Rid]. *)
Definition sizeof_Rid : Z := 8.
Definition enc_Rid (r : Rid) : bytes := enc32 (rid_page_no r) ++ enc32 (rid_slot_no r).
Definition dec_Rid (b : bytes) : Rid := mkRid (dec32 (slice b 0 4)) (dec32 (slice b 4 4)).

End IxDefs.
Import IxDefs.

(** ** [ix_compare] *)

(** [binary32] values by their representation: [f32_val] orders the values
    that are not NaN as the numbers they stand for, and both zeros are 0. *)
Definition f32_mag (w : Z) : Z := to_u32 w mod 2 ^ 31.
Definition f32_nan (w : Z) : bool := 0x7f800000 <? f32_mag w.
Definition f32_val (w : Z) : Z := if to_u32 w <? 2 ^ 31 then f32_mag w else - f32_mag w.

Definition f32_lt (a b : Z) : bool :=
  negb (f32_nan a) && negb (f32_nan b) && (f32_val a <? f32_val b).

(** The sign of [memcmp] on two objects of the same size. *)
Fixpoint memcmp (a b : bytes) : Z :=
  match a, b with
  | x :: a', y :: b' => if x <? y then -1 else if y <? x then 1 else memcmp a' b'
  | _, _ => 0
  end.

(** The memory a pointer into an object gives access to. *)
Definition at_ptr (m : bytes) (off : Z) : bytes :=
  if 0 <=? off then drop (Z.to_nat off) m else [].

Definition ix_compare {S} (a b : bytes) (type col_len : Z) : M S Z :=
  match coltype_of_int type with
  | Some TYPE_INT =>
      let* ia := or_ub (load32 a 0) in
      let* ib := or_ub (load32 b 0) in
      ret (if ia <? ib then -1 else if ib <? ia then 1 else 0)
  | Some TYPE_FLOAT =>
      let* fa := or_ub (load32 a 0) in
      let* fb := or_ub (load32 b 0) in
      ret (if f32_lt fa fb then -1 else if f32_lt fb fa then 1 else 0)
  | Some TYPE_STRING =>
      let* sa := or_ub (mem_read a 0 col_len) in
      let* sb := or_ub (mem_read b 0 col_len) in
      ret (memcmp sa sb)
  | None => throw (InternalError "Unexpected data type")
  end.

(** ** [IxNodeHandle] *)

Module IxNodeHandle.

Section ops.
  (** [*file_hdr] *)
  Variable h : IxFileHdr.
  Notation node := (M bytes).

Definition load {A} (g : bytes → option A) : node A := λ m, or_ub (g m) m.
Definition store (g : bytes → option bytes) : node unit :=
  λ m, match g m with Some m' => (Ret tt, m') | None => (UB, m) end.

Definition load_word (off : Z) : node Z := load (λ m, load32 m off).
Definition store_word (off v : Z) : node unit := store (λ m, store32 m off v).

(** The constructor and [get_key], [get_rid]: addresses in the page. *)
Definition keys : Z := sizeof_IxPageHdr.
Definition rids : Z := keys + keys_size h.
Definition get_key (key_idx : Z) : Z := keys + key_idx * col_len h.
Definition get_rid (rid_idx : Z) : Z := rids + rid_idx * sizeof_Rid.

(** The memory from a key or a rid on, and a rid read through a pointer. *)
Definition key_ptr (key_idx : Z) : node bytes := gets (λ m, at_ptr m (get_key key_idx)).
Definition rid_ptr (rid_idx : Z) : node bytes := gets (λ m, at_ptr m (get_rid rid_idx)).
Definition read_rid (rid_idx : Z) : node Rid :=
  load (λ m, dec_Rid <$> mem_read m (get_rid rid_idx) sizeof_Rid).

Definition set_key (key_idx : Z) (key : bytes) : node unit :=
  store (λ m, k ← mem_read key 0 (col_len h); mem_write m (get_key key_idx) k).
Definition set_rid (rid_idx : Z) (rid : Rid) : node unit :=
  store (λ m, mem_write m (get_rid rid_idx) (enc_Rid rid)).

Definition GetSize : node Z := load_word off_num_key.
Definition SetSize (size : Z) : node unit := store_word off_num_key size.
Definition GetMaxSize : Z := btree_order h + 1.
Definition GetMinSize : Z := Z.quot GetMaxSize 2.
Definition KeyAt (i : Z) : node Z := load_word (get_key i).
Definition ValueAt (i : Z) : node Z := load_word (get_rid i).
Definition GetNextLeaf : node Z := load_word off_next_leaf.
Definition GetPrevLeaf : node Z := load_word off_prev_leaf.
Definition GetParentPageNo : node Z := load_word off_parent.
Definition SetNextLeaf (page_no : Z) : node unit := store_word off_next_leaf page_no.
Definition SetPrevLeaf (page_no : Z) : node unit := store_word off_prev_leaf page_no.
Definition SetParentPageNo (parent : Z) : node unit := store_word off_parent parent.
Definition IsRootPage : node bool := let* p := GetParentPageNo in ret (p =? INVALID_PAGE_ID).

Definition IsLeafPage : node bool :=
  load (λ m, b ← mem_read m off_is_leaf 1;
             match b with [0] => Some false | [1] => Some true | _ => None end).
Definition set_is_leaf (b : bool) : node unit := store (λ m, mem_write m off_is_leaf [Z.b2z b]).

(** The loop of [lower_bound] and [upper_bound]: [right c] says that a key
    that compares as [c] with the target is before the bound. *)
Fixpoint bound_loop (right : Z → bool) (target : bytes) (fuel : nat) (l r : Z) : node Z :=
  match fuel with
  | O => out_of_fuel
  | S fuel' =>
      if l <? r then
        let* sum := or_ub (s32 (l + r)) in
        let mid := Z.quot sum 2 in
        let* k := key_ptr mid in
        let* c := ix_compare k target (col_type h) (col_len h) in
        if right c then bound_loop right target fuel' (mid + 1) r
        else bound_loop right target fuel' l mid
      else ret l
  end.

Definition lower_bound (target : bytes) : node Z :=
  let* n := GetSize in bound_loop (λ c, c <? 0) target (S (Z.to_nat n)) 0 n.

Definition upper_bound (target : bytes) : node Z :=
  let* n := GetSize in bound_loop (λ c, c <=? 0) target (S (Z.to_nat n)) 0 n.

(** [idx < num_key && ix_compare(get_key(idx), key, ...) == 0] *)
Definition key_is_at (idx : Z) (key : bytes) : node bool :=
  let* n := GetSize in
  if idx <? n then
    let* k := key_ptr idx in
    let* c := ix_compare k key (col_type h) (col_len h) in ret (c =? 0)
  else ret false.

(** The out parameter [*value], the address of a rid, when it is found. *)
Definition LeafLookup (key : bytes) : node (option Z) :=
  let* idx := lower_bound key in
  let* b := key_is_at idx key in
  ret (if b : bool then Some (get_rid idx) else None).

Definition InternalLookup (key : bytes) : node Z :=
  let* idx := upper_bound key in ValueAt idx.

Definition insert_pairs (pos : Z) (key rid : bytes) (n : Z) : node unit :=
  let* num_key := GetSize in
  store (λ m, mem_move m (get_key (pos + n)) (get_key pos) ((num_key - pos) * col_len h)) ;;;
  store (λ m, mem_move m (get_rid (pos + n)) (get_rid pos) ((num_key - pos) * sizeof_Rid)) ;;;
  store (λ m, k ← mem_read key 0 (n * col_len h); mem_write m (get_key pos) k) ;;;
  store (λ m, r ← mem_read rid 0 (n * sizeof_Rid); mem_write m (get_rid pos) r) ;;;
  let* num_key := GetSize in
  let* v := or_ub (s32 (num_key + n)) in
  SetSize v.

Definition insert_pair (pos : Z) (key : bytes) (rid : Rid) : node unit :=
  insert_pairs pos key (enc_Rid rid) 1.

Definition Insert (key : bytes) (value : Rid) : node Z :=
  let* pos := lower_bound key in
  let* b := key_is_at pos key in
  if b : bool then GetSize
  else insert_pairs pos key (enc_Rid value) 1 ;;; GetSize.

Definition erase_pair (pos : Z) : node unit :=
  let* num_key := GetSize in
  store (λ m, mem_move m (get_key pos) (get_key (pos + 1)) ((num_key - pos - 1) * col_len h)) ;;;
  store (λ m, mem_move m (get_rid pos) (get_rid (pos + 1)) ((num_key - pos - 1) * sizeof_Rid)) ;;;
  let* num_key := GetSize in
  let* v := or_ub (s32 (num_key - 1)) in
  SetSize v.

Definition Remove (key : bytes) : node Z :=
  let* pos := lower_bound key in
  let* b := key_is_at pos key in
  when b (erase_pair pos) ;;;
  GetSize.

(** [child] is the number of the page of the child; [n] is the number of
    iterations left. *)
Fixpoint find_child_loop (child rid_idx : Z) (n : nat) : node Z :=
  match n with
  | O => ret rid_idx
  | S n' =>
      let* p := ValueAt rid_idx in
      if p =? child then ret rid_idx else find_child_loop child (rid_idx + 1) n'
  end.

Definition find_child (child : Z) : node Z :=
  let* n := GetSize in
  let* rid_idx := find_child_loop child 0 (Z.to_nat n) in
  assert (rid_idx <? n) ;;;
  ret rid_idx.

Definition RemoveAndReturnOnlyChild : node Z :=
  let* n := GetSize in
  assert (n =? 1) ;;;
  let* child_page_no := ValueAt 0 in
  erase_pair 0 ;;;
  let* n := GetSize in
  assert (n =? 0) ;;;
  ret child_page_no.

End ops.
End IxNodeHandle.
