(* ===== verification/IxOrder.v ===== *)
(** The order of index keys, and sorted lists of (key, rid) pairs.

    [kcmp] is the comparison [ix_compare] makes on complete keys; on valid keys
    (a [float] key is not NaN) it is the lexicographic order of [key_val], so
    one proof serves the three column types.  [ins], [del] and [assoc] are the
    reference operations on a sorted list of pairs. *)
From S2P Require Import Prelude.
From S2P Require Import Defs.
From S2P Require Import IxNode.
Import IxDefs.

(** ** [memcmp] is a total order on objects of one size *)

Lemma memcmp_range a b : memcmp a b = -1 ∨ memcmp a b = 0 ∨ memcmp a b = 1.
Proof.
  revert b. induction a as [|x a IH]; intros [|y b]; simpl; auto.
  destruct (x <? y); [auto|]. destruct (y <? x); auto.
Qed.

Lemma memcmp_anti a b : memcmp b a = - memcmp a b.
Proof.
  revert b. induction a as [|x a IH]; intros [|y b]; simpl; try done.
  destruct (Z.ltb_spec x y), (Z.ltb_spec y x); try lia. apply IH.
Qed.

Lemma memcmp_refl a : memcmp a a = 0.
Proof. pose proof (memcmp_anti a a). lia. Qed.

Lemma memcmp_eq a b : length a = length b → memcmp a b = 0 → a = b.
Proof.
  revert b. induction a as [|x a IH]; intros [|y b]; simpl; try done.
  intros [= Hl]. destruct (Z.ltb_spec x y), (Z.ltb_spec y x); try lia.
  intros Hm. f_equal; [lia|auto].
Qed.

Lemma memcmp_trans a b c :
  length a = length b → length b = length c →
  memcmp a b <= 0 → memcmp b c <= 0 →
  memcmp a c <= 0 ∧ (memcmp a b < 0 ∨ memcmp b c < 0 → memcmp a c < 0).
Proof.
  revert b c. induction a as [|x a IH]; intros [|y b] [|z c]; simpl; try done.
  - intros. lia.
  - intros [= H1] [= H2].
    destruct (Z.ltb_spec x y), (Z.ltb_spec y x), (Z.ltb_spec y z), (Z.ltb_spec z y),
      (Z.ltb_spec x z), (Z.ltb_spec z x); try lia.
    by apply IH.
Qed.

(** ** Keys *)

(** What an index file must satisfy: the fields agree with each other and the
    nodes fit in a page. *)
Record ix_wf (h : IxFileHdr) : Prop := {
  wf_type : is_Some (coltype_of_int (col_type h));
  wf_len : 1 <= col_len h <= IX_MAX_COL_LEN;
  wf_len4 : col_type h ≠ coltype_int TYPE_STRING → col_len h = 4;
  wf_order : 2 < btree_order h;
  wf_keys : keys_size h = (btree_order h + 1) * col_len h;
  wf_fit : sizeof_IxPageHdr + (btree_order h + 1) * (col_len h + sizeof_Rid) <= PAGE_SIZE
}.

Section order.
  Variable h : IxFileHdr.
  Implicit Types (k : bytes) (v : Rid) (l : list (bytes * Rid)).

(** What a key is compared by. *)
Definition key_val (k : bytes) : list Z :=
  match coltype_of_int (col_type h) with
  | Some TYPE_INT => [dec32 k]
  | Some TYPE_FLOAT => [f32_val (dec32 k)]
  | _ => k
  end.

Definition kcmp (a b : bytes) : Z := memcmp (key_val a) (key_val b).

Definition key_ok (k : bytes) : Prop :=
  zlen k = col_len h ∧ Forall is_u8 k ∧
  (col_type h = coltype_int TYPE_FLOAT → f32_nan (dec32 k) = false).

Lemma key_val_length a b : key_ok a → key_ok b → length (key_val a) = length (key_val b).
Proof. intros [Ha _] [Hb _]. unfold key_val. destruct (coltype_of_int (col_type h)) as [[]|]; lia || done. Qed.

Lemma kcmp_refl k : kcmp k k = 0.
Proof. apply memcmp_refl. Qed.

Lemma kcmp_anti a b : kcmp b a = - kcmp a b.
Proof. apply memcmp_anti. Qed.

Lemma kcmp_le_trans a b c :
  key_ok a → key_ok b → key_ok c → kcmp a b <= 0 → kcmp b c <= 0 →
  kcmp a c <= 0 ∧ (kcmp a b < 0 ∨ kcmp b c < 0 → kcmp a c < 0).
Proof. intros. by apply (memcmp_trans _ (key_val b)); try apply key_val_length. Qed.

(** Keys that compare equal compare alike with every key. *)
Lemma kcmp_eq_l a b c :
  key_ok a → key_ok b → key_ok c → kcmp a b = 0 → kcmp a c = kcmp b c.
Proof.
  intros Ha Hb Hc H0. pose proof (memcmp_eq _ _ (key_val_length a b Ha Hb) H0) as Heq.
  unfold kcmp. by rewrite Heq.
Qed.

Lemma kcmp_lt_l a b t :
  key_ok a → key_ok b → key_ok t → kcmp a b < 0 → kcmp b t <= 0 → kcmp a t < 0.
Proof. intros Ha Hb Ht H1 H2. apply (kcmp_le_trans a b t); auto; lia. Qed.

(** ** Sorted lists of pairs *)

Definition sorted l : Prop :=
  ∀ i j a b, (i < j)%nat → l !! i = Some a → l !! j = Some b → kcmp a.1 b.1 < 0.

Definition keys_ok l : Prop := ∀ k v, (k, v) ∈ l → key_ok k.

(** The reference operations. *)
Fixpoint ins k v l : list (bytes * Rid) :=
  match l with
  | [] => [(k, v)]
  | (k', v') :: l' =>
      if kcmp k' k <? 0 then (k', v') :: ins k v l'
      else if kcmp k' k =? 0 then l else (k, v) :: l
  end.

Fixpoint del k l : list (bytes * Rid) :=
  match l with
  | [] => []
  | (k', v') :: l' => if kcmp k' k =? 0 then l' else (k', v') :: del k l'
  end.

Fixpoint assoc k l : option Rid :=
  match l with
  | [] => None
  | (k', v') :: l' => if kcmp k' k =? 0 then Some v' else assoc k l'
  end.

Lemma keys_ok_cons k v l : keys_ok ((k, v) :: l) ↔ key_ok k ∧ keys_ok l.
Proof.
  unfold keys_ok. split.
  - intros H. split; [apply (H k v); left|]. intros k' v' ?. apply (H k' v'). by right.
  - intros [H1 H2] k' v' [[= -> ->]|?]%elem_of_cons; eauto.
Qed.

Lemma keys_ok_app l l' : keys_ok (l ++ l') ↔ keys_ok l ∧ keys_ok l'.
Proof.
  induction l as [|[k v] l IH]; simpl.
  - split; [|tauto]. intros H. split; [|done]. intros k v Hx. by apply elem_of_nil in Hx.
  - rewrite !keys_ok_cons, IH. tauto.
Qed.

Lemma sorted_cons k v l :
  sorted ((k, v) :: l) ↔ (∀ k' v', (k', v') ∈ l → kcmp k k' < 0) ∧ sorted l.
Proof.
  split.
  - intros H. split.
    + intros k' v' [i Hi]%list_elem_of_lookup. apply (H 0%nat (S i) (k, v) (k', v')); [lia|done|done].
    + intros i j a b Hij Ha Hb. apply (H (S i) (S j) a b); [lia|done|done].
  - intros [H1 H2] [|i] [|j] a b Hij Ha Hb; try lia; simpl in *.
    + injection Ha as <-. destruct b as [k' v']. apply (H1 k' v'). by apply list_elem_of_lookup_2 in Hb.
    + apply (H2 i j a b); [lia|done|done].
Qed.

Lemma assoc_lt k l : (∀ k' v', (k', v') ∈ l → kcmp k k' < 0) → assoc k l = None.
Proof.
  induction l as [|[k' v'] l IH]; intros H; simpl; [done|].
  pose proof (H k' v' ltac:(left)). pose proof (kcmp_anti k k').
  rewrite (proj2 (Z.eqb_neq _ _)) by lia. apply IH. intros. eapply H. by right.
Qed.

Lemma elem_of_ins k v l x : x ∈ ins k v l → x = (k, v) ∨ x ∈ l.
Proof.
  induction l as [|[k' v'] l IH]; simpl; [set_solver|].
  destruct (kcmp k' k <? 0); [set_solver|]. destruct (kcmp k' k =? 0); set_solver.
Qed.

Lemma elem_of_del k l x : x ∈ del k l → x ∈ l.
Proof.
  induction l as [|[k' v'] l IH]; simpl; [done|]. destruct (kcmp k' k =? 0); set_solver.
Qed.

Lemma keys_ok_ins k v l : key_ok k → keys_ok l → keys_ok (ins k v l).
Proof. intros Hk Hl k' v' [[= -> ->]|?]%elem_of_ins; eauto. Qed.

Lemma keys_ok_del k l : keys_ok l → keys_ok (del k l).
Proof. intros Hl k' v' Hx%elem_of_del. eauto. Qed.

Lemma sorted_ins k v l : key_ok k → keys_ok l → sorted l → sorted (ins k v l).
Proof.
  intros Hk. induction l as [|[k' v'] l IH]; simpl; intros Hok Hs.
  - apply sorted_cons. split; [by intros ? ? ?%elem_of_nil|]. by intros i j a b.
  - pose proof Hs as [H1 H2]%sorted_cons. apply keys_ok_cons in Hok as [Hk' Hok].
    destruct (Z.ltb_spec (kcmp k' k) 0) as [Hlt|Hge].
    + apply sorted_cons. split; [|auto]. intros k2 v2 [[= -> ->]|Hx]%elem_of_ins; [done|eauto].
    + destruct (Z.eqb_spec (kcmp k' k) 0) as [|Hne]; [done|].
      apply sorted_cons. split; [|done]. pose proof (kcmp_anti k' k).
      intros k2 v2 [[= -> ->]|Hx]%elem_of_cons; [lia|].
      apply (kcmp_lt_l k k' k2); [done|done|eauto|lia|]. specialize (H1 k2 v2 Hx). lia.
Qed.

Lemma sorted_del k l : sorted l → sorted (del k l).
Proof.
  induction l as [|[k' v'] l IH]; simpl; intros Hs; [done|].
  pose proof Hs as [H1 H2]%sorted_cons. destruct (kcmp k' k =? 0); [done|].
  apply sorted_cons. split; [|auto]. intros k2 v2 Hx%elem_of_del. eauto.
Qed.

(** [ins], [del] and [assoc] make a map: insertion keeps the value of a key
    that is there. *)
Lemma assoc_ins k v l k2 :
  key_ok k → key_ok k2 → keys_ok l → sorted l →
  assoc k2 (ins k v l) =
    if kcmp k k2 =? 0 then Some (default v (assoc k l)) else assoc k2 l.
Proof.
  intros Hk Hk2. induction l as [|[k' v'] l IH]; intros Hok Hs; simpl; [by destruct (kcmp k k2 =? 0)|].
  apply keys_ok_cons in Hok as [Hk' Hok]. apply sorted_cons in Hs as [H1 Hs].
  destruct (Z.ltb_spec (kcmp k' k) 0) as [Hlt|Hge].
  - simpl. rewrite IH by done. rewrite (proj2 (Z.eqb_neq (kcmp k' k) 0)) by lia.
    destruct (Z.eqb_spec (kcmp k k2) 0) as [He|]; [|done].
    rewrite (proj2 (Z.eqb_neq _ _)); [done|].
    pose proof (kcmp_lt_l k' k k2 Hk' Hk Hk2). lia.
  - destruct (Z.eqb_spec (kcmp k' k) 0) as [He|Hne]; simpl.
    + rewrite (kcmp_eq_l k' k k2) by done. by destruct (kcmp k k2 =? 0).
    + destruct (Z.eqb_spec (kcmp k k2) 0) as [|Hne2]; [|done].
      rewrite assoc_lt; [done|]. intros k3 v3 Hx.
      apply (kcmp_lt_l k k' k3); [done|done|eauto| |].
      * pose proof (kcmp_anti k' k). lia.
      * specialize (H1 k3 v3 Hx). lia.
Qed.

Lemma assoc_del k l k2 :
  key_ok k → key_ok k2 → keys_ok l → sorted l →
  assoc k2 (del k l) = if kcmp k k2 =? 0 then None else assoc k2 l.
Proof.
  intros Hk Hk2. induction l as [|[k' v'] l IH]; intros Hok Hs; simpl; [by destruct (kcmp k k2 =? 0)|].
  apply keys_ok_cons in Hok as [Hk' Hok]. apply sorted_cons in Hs as [H1 Hs].
  destruct (Z.eqb_spec (kcmp k' k) 0) as [He|Hne]; simpl.
  - rewrite (kcmp_eq_l k' k k2) by done. destruct (Z.eqb_spec (kcmp k k2) 0) as [H0|]; [|done].
    apply assoc_lt. intros k3 v3 Hx. assert (key_ok k3) by eauto.
    rewrite (kcmp_eq_l k2 k' k3); [eauto|done|done|done|].
    rewrite (kcmp_anti k' k2). rewrite (kcmp_eq_l k' k k2) by done. lia.
  - rewrite IH by done. destruct (Z.eqb_spec (kcmp k k2) 0) as [H0|]; [|done].
    rewrite (proj2 (Z.eqb_neq (kcmp k' k2) 0)); [done|].
    rewrite (kcmp_anti k2 k'), <- (kcmp_eq_l k k2 k'), <- (kcmp_anti k k') by done. done.
Qed.

(** ** Positions *)

(** [p] splits the list into the keys before the bound and the others. *)
Definition splits (right : Z → bool) (t : bytes) l (p : nat) : Prop :=
  ∀ i k v, l !! i = Some (k, v) → right (kcmp k t) = bool_decide (i < p)%nat.

Lemma splits_cons right t k v l p :
  splits right t ((k, v) :: l) (S p) ↔ right (kcmp k t) = true ∧ splits right t l p.
Proof.
  split.
  - intros H. split; [by apply (H 0%nat k v)|]. intros i k' v' Hi. rewrite (H (S i) k' v' Hi).
    apply bool_decide_ext. lia.
  - intros [H1 H2] [|i] k' v' Hi; simpl in Hi.
    + injection Hi as <- <-. by rewrite H1.
    + rewrite (H2 i k' v' Hi). apply bool_decide_ext. lia.
Qed.

(** The lower bound of a key, and the operations in terms of it. *)
Definition lb (t : bytes) l (p : nat) : Prop := splits (λ c, c <? 0) t l p.

Lemma lb_ops k v l p :
  lb k l p → (p <= length l)%nat →
  match l !! p with
  | Some (k', v') =>
      if kcmp k' k =? 0
      then ins k v l = l ∧ assoc k l = Some v' ∧ del k l = take p l ++ drop (S p) l
      else ins k v l = take p l ++ (k, v) :: drop p l ∧ (sorted l → keys_ok l → key_ok k → assoc k l = None ∧ del k l = l)
  | None => ins k v l = take p l ++ (k, v) :: drop p l ∧ assoc k l = None ∧ del k l = l
  end.
Proof.
  revert p. induction l as [|[k' v'] l IH]; intros p Hlb Hp; simpl in *.
  - by destruct p.
  - destruct p as [|p]; simpl.
    + pose proof (Hlb 0%nat k' v' eq_refl) as H0. rewrite bool_decide_eq_false_2 in H0 by lia.
      rewrite H0. apply Z.ltb_ge in H0. destruct (Z.eqb_spec (kcmp k' k) 0) as [|Hne]; [by rewrite drop_0|].
      split; [done|]. intros [H1 Hs]%sorted_cons [Hk' Hok]%keys_ok_cons Hk.
      assert (∀ k3 v3, (k3, v3) ∈ l → kcmp k k3 < 0) as Hlt.
      { intros k3 v3 Hx. apply (kcmp_lt_l k k' k3); [done|done|eauto| |].
        - pose proof (kcmp_anti k' k). lia.
        - specialize (H1 k3 v3 Hx). lia. }
      split; [by apply assoc_lt|]. f_equal. clear -Hlt.
      induction l as [|[k3 v3] l IH]; simpl; [done|].
      pose proof (Hlt k3 v3 ltac:(left)). pose proof (kcmp_anti k k3).
      rewrite (proj2 (Z.eqb_neq _ _)) by lia. f_equal. apply IH. intros. eapply Hlt. by right.
    + apply splits_cons in Hlb as [H0 Hlb]. rewrite H0. apply Z.ltb_lt in H0.
      rewrite (proj2 (Z.eqb_neq (kcmp k' k) 0)) by lia.
      specialize (IH p Hlb ltac:(lia)). destruct (l !! p) as [[k2 v2]|].
      * destruct (kcmp k2 k =? 0).
        -- destruct IH as (-> & -> & ->). done.
        -- destruct IH as [-> IH]. split; [done|]. intros [_ Hs]%sorted_cons [_ Hok]%keys_ok_cons Hk.
           destruct (IH Hs Hok Hk) as [-> ->]. done.
      * destruct IH as (-> & -> & ->). done.
Qed.

End order.
