(* ===== verification/IxNodeProofs.v ===== *)
(** The node operations against lists of (key, rid) pairs.

    [nd h m nh l] says that the page [m] is a node with header [nh] that holds
    the pairs [l]; every operation of [IxNodeHandle] is shown to act on [l]. *)
From S2P Require Import Prelude.
From S2P Require Import Defs.
From S2P Require Import IxNode.
From S2P Require Import IxOrder.
Import IxDefs IxNodeHandle.

#[local] Open Scope prog_scope.

(** ** Generic lemmas on memory *)

Lemma slice_splice_in m off bs off' len' :
  0 <= off → off + zlen bs <= zlen m → off <= off' → 0 <= len' → off' + len' <= off + zlen bs →
  slice (splice m off bs) off' len' = slice bs (off' - off) len'.
Proof.
  intros. apply list_eq. intros i. rewrite !lookup_slice by lia. case_decide; [|done].
  rewrite lookup_splice by lia. rewrite decide_True by lia. f_equal. lia.
Qed.

Lemma slice_slice m off len off' len' :
  0 <= off → 0 <= off' → 0 <= len' → off' + len' <= len →
  slice (slice m off len) off' len' = slice m (off + off') len'.
Proof.
  intros. apply list_eq. intros i. rewrite !lookup_slice by lia. case_decide; [|done].
  rewrite decide_True by lia. f_equal. lia.
Qed.

Lemma slice_drop m off off' len :
  0 <= off → 0 <= off' → slice (drop (Z.to_nat off) m) off' len = slice m (off + off') len.
Proof. intros. unfold slice. rewrite drop_drop. do 2 f_equal. lia. Qed.

(** An insertion into an array of [w]-byte elements: the elements from [pos]
    on move up by [n], then [new] is written. *)
Lemma array_insert (m : bytes) off w L n pos new m1 m2 :
  0 <= off → 0 <= w → 0 <= pos <= L → 0 <= n → zlen new = n * w → off + (L + n) * w <= zlen m →
  m1 = splice m (off + (pos + n) * w) (slice m (off + pos * w) ((L - pos) * w)) →
  m2 = splice m1 (off + pos * w) new →
  length m2 = length m ∧
  (∀ i, 0 <= i < pos → slice m2 (off + i * w) w = slice m (off + i * w) w) ∧
  (∀ i, pos <= i < pos + n → slice m2 (off + i * w) w = slice new ((i - pos) * w) w) ∧
  (∀ i, pos <= i < L → slice m2 (off + (i + n) * w) w = slice m (off + i * w) w) ∧
  (∀ o k, 0 <= o → 0 <= k → o + k <= off ∨ off + (L + n) * w <= o → slice m2 o k = slice m o k).
Proof.
  intros Ho Hw Hp Hn Hnew Hfit -> ->.
  set (mid := slice m (off + pos * w) ((L - pos) * w)).
  assert (zlen mid = (L - pos) * w) as Hmid by (apply length_slice; nia).
  assert (length (splice m (off + (pos + n) * w) mid) = length m) as Hl1 by (apply length_splice; nia).
  split_and!.
  - rewrite length_splice, Hl1; nia.
  - intros i Hi. rewrite slice_splice_disjoint by nia. by rewrite slice_splice_disjoint by nia.
  - intros i Hi. rewrite slice_splice_in by nia. f_equal. lia.
  - intros i Hi. rewrite slice_splice_disjoint by nia. rewrite slice_splice_in by nia.
    unfold mid. rewrite slice_slice by nia. f_equal. lia.
  - intros o k Ho' Hk Hd. rewrite slice_splice_disjoint by nia. by rewrite slice_splice_disjoint by nia.
Qed.

(** A deletion: the elements after [pos] move down by one. *)
Lemma array_erase (m : bytes) off w L pos m1 :
  0 <= off → 0 <= w → 0 <= pos < L → off + L * w <= zlen m →
  m1 = splice m (off + pos * w) (slice m (off + (pos + 1) * w) ((L - pos - 1) * w)) →
  length m1 = length m ∧
  (∀ i, 0 <= i < pos → slice m1 (off + i * w) w = slice m (off + i * w) w) ∧
  (∀ i, pos <= i < L - 1 → slice m1 (off + i * w) w = slice m (off + (i + 1) * w) w) ∧
  (∀ o k, 0 <= o → 0 <= k → o + k <= off ∨ off + L * w <= o → slice m1 o k = slice m o k).
Proof.
  intros Ho Hw Hp Hfit ->.
  set (mid := slice m (off + (pos + 1) * w) ((L - pos - 1) * w)).
  assert (zlen mid = (L - pos - 1) * w) as Hmid by (apply length_slice; nia).
  split_and!.
  - rewrite length_splice; nia.
  - intros i Hi. by rewrite slice_splice_disjoint by nia.
  - intros i Hi. assert (i * w + w <= (L - 1) * w) by nia. assert (pos * w <= i * w) by nia.
    rewrite slice_splice_in by lia. unfold mid. rewrite slice_slice by lia. f_equal. lia.
  - intros o k Ho' Hk Hd. by rewrite slice_splice_disjoint by nia.
Qed.

(** Writes to disjoint places commute. *)
Lemma splice_comm m a x b y :
  0 <= a → 0 <= b → a + zlen x <= zlen m → b + zlen y <= zlen m → a + zlen x <= b ∨ b + zlen y <= a →
  splice (splice m a x) b y = splice (splice m b y) a x.
Proof.
  intros Ha Hb Hx Hy Hd. apply list_eq. intros i.
  assert (length (splice m a x) = length m) by (apply length_splice; lia).
  assert (length (splice m b y) = length m) by (apply length_splice; lia).
  rewrite !lookup_splice by lia. repeat case_decide; try done; lia.
Qed.

(** The same for two arrays of one object, their copies interleaved as in
    [insert_pairs]. *)
Lemma two_arrays_insert (m key rid : bytes) koff c roff L n p :
  let m1 := splice m (koff + (p + n) * c) (slice m (koff + p * c) ((L - p) * c)) in
  let m2 := splice m1 (roff + (p + n) * 8) (slice m1 (roff + p * 8) ((L - p) * 8)) in
  let m3 := splice m2 (koff + p * c) (slice key 0 (n * c)) in
  let m4 := splice m3 (roff + p * 8) (slice rid 0 (n * 8)) in
  0 <= koff → 0 <= c → 0 <= n → 0 <= p <= L → n * c <= zlen key ∧ n * 8 <= zlen rid →
  koff + (L + n) * c <= roff → roff + (L + n) * 8 <= zlen m →
  (length m1 = length m ∧ length m2 = length m ∧ length m3 = length m ∧ length m4 = length m) ∧
  (∀ i, 0 <= i < p → slice m4 (koff + i * c) c = slice m (koff + i * c) c) ∧
  (∀ i, p <= i < p + n → slice m4 (koff + i * c) c = slice key ((i - p) * c) c) ∧
  (∀ i, p <= i < L → slice m4 (koff + (i + n) * c) c = slice m (koff + i * c) c) ∧
  (∀ i, 0 <= i < p → slice m4 (roff + i * 8) 8 = slice m (roff + i * 8) 8) ∧
  (∀ i, p <= i < p + n → slice m4 (roff + i * 8) 8 = slice rid ((i - p) * 8) 8) ∧
  (∀ i, p <= i < L → slice m4 (roff + (i + n) * 8) 8 = slice m (roff + i * 8) 8) ∧
  (∀ o k, 0 <= o → 0 <= k → o + k <= koff ∨ roff + (L + n) * 8 <= o → slice m4 o k = slice m o k).
Proof.
  intros m1 m2 m3 m4 Hko Hc Hn Hp [Hkey Hrid] Hk Hr.
  assert (0 <= p * c ∧ 0 <= n * c ∧ p * c <= L * c) as (P1 & P2 & P3) by (split_and!; nia).
  assert (Hsk : zlen (slice m (koff + p * c) ((L - p) * c)) = (L - p) * c) by (apply length_slice; lia).
  assert (Hnk : zlen (slice key 0 (n * c)) = n * c) by (apply length_slice; lia).
  assert (Hnr : zlen (slice rid 0 (n * 8)) = n * 8) by (apply length_slice; lia).
  assert (Hl1 : length m1 = length m) by (apply length_splice; lia).
  assert (Hsr : zlen (slice m1 (roff + p * 8) ((L - p) * 8)) = (L - p) * 8) by (apply length_slice; lia).
  assert (Hl2 : length m2 = length m) by (unfold m2; rewrite length_splice; lia).
  assert (Hl3 : length m3 = length m) by (unfold m3; rewrite length_splice; lia).
  set (mk := splice m1 (koff + p * c) (slice key 0 (n * c))).
  assert (Hlk : length mk = length m) by (unfold mk; rewrite length_splice; lia).
  assert (slice mk (roff + p * 8) ((L - p) * 8) = slice m1 (roff + p * 8) ((L - p) * 8)) as Esr.
  { unfold mk. apply slice_splice_disjoint; lia. }
  assert (m3 = splice mk (roff + (p + n) * 8) (slice mk (roff + p * 8) ((L - p) * 8))) as E3.
  { rewrite Esr. unfold m3, m2, mk. apply splice_comm; lia. }
  destruct (array_insert m koff c L n p (slice key 0 (n * c)) m1 mk) as (_ & A1 & A2 & A3 & A4); [lia..|done|done|].
  destruct (array_insert mk roff 8 L n p (slice rid 0 (n * 8)) m3 m4) as (B0 & B1 & B2 & B3 & B4); [lia..|done|done|].
  assert (Hlow : ∀ j, 0 <= j < L + n → slice m4 (koff + j * c) c = slice mk (koff + j * c) c).
  { intros j Hj. assert (0 <= j * c ∧ j * c + c <= (L + n) * c) as [??] by nia. apply B4; lia. }
  assert (Hhigh : ∀ j, 0 <= j < L → slice mk (roff + j * 8) 8 = slice m (roff + j * 8) 8).
  { intros j Hj. apply A4; lia. }
  split_and!; [done|done|done|lia|..].
  - intros i Hi. rewrite Hlow by lia. by apply A1.
  - intros i Hi. rewrite Hlow, A2 by lia. assert (0 <= (i - p) * c ∧ (i - p) * c + c <= n * c) as [??] by nia.
    rewrite slice_slice by lia. by rewrite Z.add_0_l.
  - intros i Hi. rewrite Hlow by lia. by apply A3.
  - intros i Hi. rewrite B1 by lia. apply Hhigh. lia.
  - intros i Hi. rewrite B2 by lia. rewrite slice_slice by lia. by rewrite Z.add_0_l.
  - intros i Hi. rewrite B3 by lia. apply Hhigh. lia.
  - intros o k Ho Hk' Hd. rewrite B4 by lia. apply A4; lia.
Qed.

Lemma dec_enc_Rid r : is_s32 (rid_page_no r) → is_s32 (rid_slot_no r) → dec_Rid (enc_Rid r) = r.
Proof.
  intros H1 H2. destruct r as [p s]. unfold dec_Rid.
  change (slice (enc_Rid (mkRid p s)) 0 4) with (enc32 p).
  change (slice (enc_Rid (mkRid p s)) 4 4) with (enc32 s).
  by rewrite !dec32_enc32, !to_s32_id.
Qed.

(** ** The node predicate *)

(** The header of a node but for [next_free_page_no], which is never read. *)
Record NodeHdr := mkNodeHdr { n_parent : Z; n_leaf : bool; n_prev : Z; n_next : Z }.

Record nd (h : IxFileHdr) (m : bytes) (nh : NodeHdr) (l : list (bytes * Rid)) : Prop := {
  nd_len : zlen m = PAGE_SIZE;
  nd_u8 : Forall is_u8 m;
  nd_size : dec32 (slice m off_num_key 4) = zlen l;
  nd_max : zlen l <= btree_order h + 1;
  nd_pair i k r : l !! i = Some (k, r) →
    slice m (get_key h (Z.of_nat i)) (col_len h) = k ∧
    dec_Rid (slice m (get_rid h (Z.of_nat i)) sizeof_Rid) = r;
  nd_parent : dec32 (slice m off_parent 4) = n_parent nh;
  nd_leaf : slice m off_is_leaf 1 = [Z.b2z (n_leaf nh)];
  nd_prev : dec32 (slice m off_prev_leaf 4) = n_prev nh;
  nd_next : dec32 (slice m off_next_leaf 4) = n_next nh
}.

Section node.
  Variable h : IxFileHdr.
  Hypothesis Hwf : ix_wf h.
  Implicit Types (m : bytes) (l : list (bytes * Rid)) (nh : NodeHdr).

Lemma wf_bounds : 1 <= col_len h <= 512 ∧ 4 <= btree_order h + 1 ∧ btree_order h + 1 <= 500 ∧
  keys_size h = (btree_order h + 1) * col_len h ∧
  24 + (btree_order h + 1) * (col_len h + 8) <= 4096.
Proof.
  destruct Hwf as [_ H1 _ H2 H3 H4]. unfold IX_MAX_COL_LEN, sizeof_IxPageHdr, sizeof_Rid, PAGE_SIZE in *.
  split_and!; nia.
Qed.

Ltac ix := unfold get_key, get_rid, rids, keys, sizeof_IxPageHdr, sizeof_Rid, off_num_key, off_parent,
  off_is_leaf, off_prev_leaf, off_next_leaf, off_next_free, PAGE_SIZE in *.

(** Where key and rid [i] are. *)
Lemma slots_in_page i : 0 <= i < btree_order h + 1 →
  24 <= get_key h i ∧ get_key h i + col_len h <= rids h ∧
  rids h <= get_rid h i ∧ get_rid h i + 8 <= PAGE_SIZE.
Proof. intros Hi. pose proof wf_bounds as (H1 & H2 & H3 & H4 & H5). ix. rewrite H4. nia. Qed.

Lemma load_word_ok m off : zlen m = PAGE_SIZE → 0 <= off → off + 4 <= PAGE_SIZE →
  load_word off m = (Ret (dec32 (slice m off 4)), m).
Proof. intros Hl H1 H2. unfold load_word, load, or_ub. by rewrite load32_Some by lia. Qed.

Lemma GetSize_ok m nh l : nd h m nh l → GetSize m = (Ret (zlen l), m).
Proof. intros Hn. unfold GetSize. rewrite load_word_ok, (nd_size _ _ _ _ Hn); [done|apply Hn|done|done]. Qed.

Lemma IsLeafPage_ok m nh l : nd h m nh l → IsLeafPage m = (Ret (n_leaf nh), m).
Proof.
  intros Hn. unfold IsLeafPage, load. pose proof (nd_len _ _ _ _ Hn). unfold PAGE_SIZE in *.
  rewrite mem_read_Some by (ix; lia). simpl. rewrite (nd_leaf _ _ _ _ Hn). by destruct (n_leaf nh).
Qed.

Lemma GetParent_ok m nh l : nd h m nh l → GetParentPageNo m = (Ret (n_parent nh), m).
Proof. intros Hn. unfold GetParentPageNo. rewrite load_word_ok, (nd_parent _ _ _ _ Hn); [done|apply Hn|done|done]. Qed.

Lemma GetNext_ok m nh l : nd h m nh l → GetNextLeaf m = (Ret (n_next nh), m).
Proof. intros Hn. unfold GetNextLeaf. rewrite load_word_ok, (nd_next _ _ _ _ Hn); [done|apply Hn|done|done]. Qed.

Lemma GetPrev_ok m nh l : nd h m nh l → GetPrevLeaf m = (Ret (n_prev nh), m).
Proof. intros Hn. unfold GetPrevLeaf. rewrite load_word_ok, (nd_prev _ _ _ _ Hn); [done|apply Hn|done|done]. Qed.

Lemma lookup_bound {A} (l : list A) i x : l !! i = Some x → Z.of_nat i < zlen l.
Proof. intros Hi%lookup_lt_Some. lia. Qed.

Lemma read_rid_ok m nh l i k v : nd h m nh l → l !! i = Some (k, v) →
  read_rid h (Z.of_nat i) m = (Ret v, m).
Proof.
  intros Hn Hi. pose proof (lookup_bound _ _ _ Hi). pose proof (nd_max _ _ _ _ Hn).
  destruct (slots_in_page (Z.of_nat i)) as (H1 & H2 & H3 & H4); [lia|]. pose proof wf_bounds. ix.
  unfold read_rid, load. ix. pose proof (nd_len _ _ _ _ Hn). unfold PAGE_SIZE in *.
  rewrite mem_read_Some by lia. simpl.
  destruct (nd_pair _ _ _ _ Hn _ _ _ Hi) as [_ Hv]. ix. by rewrite Hv.
Qed.

Lemma ValueAt_ok m nh l i k v : nd h m nh l → l !! i = Some (k, v) →
  ValueAt h (Z.of_nat i) m = (Ret (rid_page_no v), m).
Proof.
  intros Hn Hi. pose proof (lookup_bound _ _ _ Hi). pose proof (nd_max _ _ _ _ Hn).
  destruct (slots_in_page (Z.of_nat i)) as (H1 & H2 & H3 & H4); [lia|]. pose proof wf_bounds as (Hc & _ & _ & Hks & _).
  unfold ValueAt. rewrite load_word_ok; [|apply Hn|ix; nia|ix; nia].
  destruct (nd_pair _ _ _ _ Hn _ _ _ Hi) as [_ <-]. unfold dec_Rid. simpl.
  rewrite slice_slice; [|ix; nia|done|done|done]. by rewrite Z.add_0_r.
Qed.

(** ** Comparison *)

Lemma ix_compare_ok {S} (a b ka kb : bytes) (s : S) :
  slice a 0 (col_len h) = ka → slice b 0 (col_len h) = kb →
  col_len h <= zlen a → col_len h <= zlen b → key_ok h ka → key_ok h kb →
  ix_compare a b (col_type h) (col_len h) s = (Ret (kcmp h ka kb), s).
Proof.
  intros <- <- Ha Hb (Hla & _ & Hna) (Hlb & _ & Hnb).
  destruct Hwf as [[ty Hty] Hlen Hl4 _ _ _].
  assert (ty ≠ TYPE_STRING → col_len h = 4) as Hl.
  { intros Hs. apply Hl4. intros Hc. rewrite Hc in Hty. by injection Hty as <-. }
  assert (ty = TYPE_FLOAT → col_type h = coltype_int TYPE_FLOAT) as Hf.
  { intros ->. unfold coltype_of_int in Hty. repeat case_match; try done.
    match goal with H : (_ =? 1) = true |- _ => by apply Z.eqb_eq in H end. }
  unfold ix_compare, kcmp, key_val. rewrite Hty. unfold IX_MAX_COL_LEN in *.
  destruct ty.
  - pose proof (Hl ltac:(done)) as Hc. rewrite !load32_Some by lia. rewrite !Hc in *. simpl.
    unfold bind, or_ub, ret. by repeat case_match.
  - pose proof (Hl ltac:(done)) as Hc. rewrite !load32_Some by lia. rewrite !Hc in *. simpl.
    unfold bind, or_ub, ret, f32_lt. rewrite Hna, Hnb by auto. simpl. by repeat case_match.
  - rewrite !mem_read_Some by lia. done.
Qed.

Lemma key_ptr_slice m nh l i k v : nd h m nh l → l !! i = Some (k, v) →
  slice (at_ptr m (get_key h (Z.of_nat i))) 0 (col_len h) = k ∧
  col_len h <= zlen (at_ptr m (get_key h (Z.of_nat i))).
Proof.
  intros Hn Hi. pose proof (lookup_bound _ _ _ Hi). pose proof (nd_max _ _ _ _ Hn).
  destruct (slots_in_page (Z.of_nat i)) as (H1 & H2 & H3 & H4); [lia|].
  pose proof (nd_len _ _ _ _ Hn). pose proof wf_bounds.
  unfold at_ptr. rewrite (proj2 (Z.leb_le _ _)) by lia. split.
  - rewrite slice_drop, Z.add_0_r by lia. by apply (nd_pair _ _ _ _ Hn i k v).
  - rewrite length_drop. ix. lia.
Qed.

(** The comparison of key [i] with a complete key. *)
Lemma compare_at m nh l i k v t tk {S} (s : S) :
  nd h m nh l → keys_ok h l → l !! i = Some (k, v) →
  slice t 0 (col_len h) = tk → col_len h <= zlen t → key_ok h tk →
  ix_compare (at_ptr m (get_key h (Z.of_nat i))) t (col_type h) (col_len h) s = (Ret (kcmp h k tk), s).
Proof.
  intros Hn Hok Hi Ht Hl Hk. destruct (key_ptr_slice m nh l i k v Hn Hi).
  apply ix_compare_ok; try done. apply (Hok k v). by apply list_elem_of_lookup_2 in Hi.
Qed.

(** ** Binary search *)

(** A comparison result that decides a bound: it holds below a bound when it
    holds for a larger key. *)
Definition mono (right : Z → bool) (t : bytes) l : Prop :=
  ∀ i j a b, (i < j)%nat → l !! i = Some a → l !! j = Some b →
    right (kcmp h b.1 t) = true → right (kcmp h a.1 t) = true.

Lemma bound_loop_ok m nh l right t tk fuel lo hi :
  nd h m nh l → keys_ok h l → slice t 0 (col_len h) = tk → col_len h <= zlen t → key_ok h tk →
  mono right tk l → 0 <= lo <= hi → hi <= zlen l → (Z.to_nat (hi - lo) < fuel)%nat →
  (∀ i k v, l !! i = Some (k, v) → Z.of_nat i < lo → right (kcmp h k tk) = true) →
  (∀ i k v, l !! i = Some (k, v) → hi <= Z.of_nat i → right (kcmp h k tk) = false) →
  ∃ p, bound_loop h right t fuel lo hi m = (Ret (Z.of_nat p), m) ∧ (p <= length l)%nat ∧ splits h right tk l p.
Proof.
  intros Hn Hok Ht Hlen Hk Hm. pose proof wf_bounds as (_ & _ & Hmax & _). pose proof (nd_max _ _ _ _ Hn).
  revert lo hi. induction fuel as [|fuel IH]; intros lo hi Hlo Hhi Hf Hl Hr; [lia|]. simpl.
  destruct (Z.ltb_spec lo hi) as [Hlt|Hge].
  - rewrite s32_Some by (split; lia). unfold bind at 1. simpl. cbn zeta.
    rewrite Z.quot_div_nonneg by lia. set (mid := (lo + hi) / 2).
    assert (lo <= mid < hi) as Hmid by (subst mid; pose proof (Z.div_mod (lo + hi) 2); pose proof (Z.mod_pos_bound (lo + hi) 2); lia).
    destruct (lookup_lt_is_Some_2 l (Z.to_nat mid)) as [[k v] Hi]; [lia|].
    unfold key_ptr. rewrite bind_gets. rewrite <- (Z2Nat.id mid) by lia.
    run (compare_at m nh l (Z.to_nat mid) k v t tk m Hn Hok Hi Ht Hlen Hk).
    rewrite (Z2Nat.id mid) by lia. destruct (right (kcmp h k tk)) eqn:Hc.
    + apply IH; [lia|lia|lia| |done]. intros i k' v' Hi' Hb.
      destruct (decide (i = Z.to_nat mid)) as [->|].
      * rewrite Hi in Hi'. by injection Hi' as <- <-.
      * apply (Hm i (Z.to_nat mid) (k', v') (k, v)); [lia|done|done|done].
    + apply IH; [lia|lia|lia|done|]. intros i k' v' Hi' Hb.
      destruct (decide (i = Z.to_nat mid)) as [->|].
      * rewrite Hi in Hi'. by injection Hi' as <- <-.
      * destruct (right (kcmp h k' tk)) eqn:Hc'; [|done].
        pose proof (Hm (Z.to_nat mid) i (k, v) (k', v') ltac:(lia) Hi Hi' Hc'). simpl in *. congruence.
  - exists (Z.to_nat lo). rewrite Z2Nat.id by lia. split_and!; [done|lia|].
    intros i k v Hi. destruct (decide (Z.of_nat i < lo)) as [Hb|Hb].
    + rewrite (Hl i k v Hi Hb), bool_decide_eq_true_2; [done|lia].
    + rewrite (Hr i k v Hi), bool_decide_eq_false_2; [done|lia|lia].
Qed.

Lemma sorted_mono_lt l t : keys_ok h l → key_ok h t → sorted h l → mono (λ c, c <? 0) t l.
Proof.
  intros Hok Ht Hs i j [k v] [k' v'] Hij Hi Hj; simpl. rewrite !Z.ltb_lt. intros Hc.
  pose proof (Hs i j _ _ Hij Hi Hj) as Hlt. simpl in Hlt.
  apply list_elem_of_lookup_2 in Hi, Hj.
  apply (kcmp_lt_l h k k' t); eauto. lia.
Qed.

Lemma sorted_mono_le l t : keys_ok h l → key_ok h t → sorted h l → mono (λ c, c <=? 0) t l.
Proof.
  intros Hok Ht Hs i j [k v] [k' v'] Hij Hi Hj; simpl. rewrite !Z.leb_le. intros Hc.
  pose proof (Hs i j _ _ Hij Hi Hj) as Hlt. simpl in Hlt.
  apply list_elem_of_lookup_2 in Hi, Hj.
  pose proof (kcmp_lt_l h k k' t ltac:(eauto) ltac:(eauto) Ht). lia.
Qed.

(** Two neighbours with the key between them. *)
Lemma splits_between l t p k v k' v' :
  keys_ok h l → sorted h l → key_ok h t → l !! p = Some (k, v) → l !! S p = Some (k', v') →
  kcmp h k t <= 0 → 0 < kcmp h k' t → splits h (λ c, c <=? 0) t l (S p).
Proof.
  intros Hok Hs Ht Hp Hp' Hle Hgt i k2 v2 Hi. pose proof (sorted_mono_le l t Hok Ht Hs) as Hm.
  destruct (decide (i < S p)%nat).
  - rewrite bool_decide_eq_true_2 by done. destruct (decide (i = p)) as [->|].
    + rewrite Hi in Hp. injection Hp as <- <-. by apply Z.leb_le.
    + apply (Hm i p (k2, v2) (k, v)); [lia|done|done|by apply Z.leb_le].
  - rewrite bool_decide_eq_false_2 by done. apply Z.leb_gt. destruct (decide (i = S p)) as [->|].
    + rewrite Hi in Hp'. by injection Hp' as <- <-.
    + destruct (Z.leb_spec (kcmp h k2 t) 0) as [Hc|]; [|lia].
      pose proof (Hm (S p) i (k', v') (k2, v2) ltac:(lia) Hp' Hi ltac:(by apply Z.leb_le)) as Hc'.
      apply Z.leb_le in Hc'. simpl in Hc'. lia.
Qed.

Section search.
  Context (m : bytes) (nh : NodeHdr) (l : list (bytes * Rid)) (t tk : bytes).
  Hypotheses (Hn : nd h m nh l) (Hok : keys_ok h l) (Hs : sorted h l)
    (Ht : slice t 0 (col_len h) = tk) (Hlen : col_len h <= zlen t) (Hk : key_ok h tk).

Lemma lower_bound_ok :
  ∃ p, lower_bound h t m = (Ret (Z.of_nat p), m) ∧ (p <= length l)%nat ∧ lb h tk l p.
Proof.
  unfold lower_bound. run (GetSize_ok m nh l Hn). eapply bound_loop_ok; try done; try lia.
  - by apply sorted_mono_lt.
  - intros i k v Hi%lookup_bound. lia.
Qed.

Lemma upper_bound_ok :
  ∃ p, upper_bound h t m = (Ret (Z.of_nat p), m) ∧ (p <= length l)%nat ∧ splits h (λ c, c <=? 0) tk l p.
Proof.
  unfold upper_bound. run (GetSize_ok m nh l Hn). eapply bound_loop_ok; try done; try lia.
  - by apply sorted_mono_le.
  - intros i k v Hi%lookup_bound. lia.
Qed.

Lemma key_is_at_ok p : (p <= length l)%nat →
  key_is_at h (Z.of_nat p) t m =
    (Ret (match l !! p with Some (k, _) => kcmp h k tk =? 0 | None => false end), m).
Proof.
  intros Hp. unfold key_is_at. run (GetSize_ok m nh l Hn).
  destruct (l !! p) as [[k v]|] eqn:Hi.
  - pose proof (lookup_bound _ _ _ Hi). rewrite (proj2 (Z.ltb_lt _ _)) by done.
    unfold key_ptr. rewrite bind_gets. by run (compare_at m nh l p k v t tk m Hn Hok Hi Ht Hlen Hk).
  - apply lookup_ge_None in Hi. rewrite (proj2 (Z.ltb_ge _ _)) by lia. done.
Qed.

End search.


(** ** Writing *)

Lemma store_word_ok m off (v : Z) : zlen m = PAGE_SIZE → 0 <= off → off + 4 <= PAGE_SIZE →
  store_word off v m = (Ret tt, splice m off (enc32 v)).
Proof. intros Hl H1 H2. unfold store_word, store. by rewrite store32_Some by lia. Qed.

(** The pairs of a page are where they were. *)
Lemma nd_pairs_same m m' l :
  (∀ o k, 24 <= o → 0 <= k → slice m' o k = slice m o k) →
  zlen l <= btree_order h + 1 →
  (∀ i k r, l !! i = Some (k, r) →
    slice m (get_key h (Z.of_nat i)) (col_len h) = k ∧ dec_Rid (slice m (get_rid h (Z.of_nat i)) sizeof_Rid) = r) →
  ∀ i k r, l !! i = Some (k, r) →
    slice m' (get_key h (Z.of_nat i)) (col_len h) = k ∧ dec_Rid (slice m' (get_rid h (Z.of_nat i)) sizeof_Rid) = r.
Proof.
  intros Hs Hl Hp i k r Hi. pose proof (lookup_bound _ _ _ Hi). pose proof wf_bounds.
  destruct (slots_in_page (Z.of_nat i)); [lia|]. rewrite !Hs by (ix; lia). by apply Hp.
Qed.

(** A write to one word of the header. *)
Lemma nd_store_hdr m nh l off (v : Z) :
  nd h m nh l → is_s32 v → off ∈ [off_parent; off_prev_leaf; off_next_leaf] →
  ∃ m', store_word off v m = (Ret tt, m') ∧
    nd h m' (mkNodeHdr (if off =? off_parent then v else n_parent nh) (n_leaf nh)
                       (if off =? off_prev_leaf then v else n_prev nh)
                       (if off =? off_next_leaf then v else n_next nh)) l.
Proof.
  intros Hn Hv Hoff. pose proof (nd_len _ _ _ _ Hn) as Hlen.
  assert (off = 4 ∨ off = 16 ∨ off = 20) as Ho by (ix; set_solver).
  eexists. split; [apply store_word_ok; ix; lia|]. unfold PAGE_SIZE in *.
  assert (Hlenc : zlen (enc32 v) = 4) by done.
  split.
  - rewrite length_splice by lia. done.
  - apply Forall_splice; [apply Hn|apply enc32_u8].
  - ix. rewrite word_splice_other by lia. apply Hn.
  - apply Hn.
  - eapply (nd_pairs_same m); [|apply Hn|apply Hn]. intros o k Ho' Hk. apply slice_splice_disjoint; lia.
  - ix. simpl. destruct (Z.eqb_spec off 4) as [->|]; [by rewrite word_splice_same by (done || lia)|].
    rewrite word_splice_other by lia. apply Hn.
  - ix. simpl. rewrite slice_splice_disjoint by lia. apply Hn.
  - ix. simpl. destruct (Z.eqb_spec off 16) as [->|]; [by rewrite word_splice_same by (done || lia)|].
    rewrite word_splice_other by lia. apply Hn.
  - ix. simpl. destruct (Z.eqb_spec off 20) as [->|]; [by rewrite word_splice_same by (done || lia)|].
    rewrite word_splice_other by lia. apply Hn.
Qed.

(** The number of keys is written after the arrays changed. *)
Lemma nd_resized m m4 nh l l' :
  nd h m nh l → length m4 = length m → Forall is_u8 m4 →
  (∀ o k, 0 <= o → 0 <= k → o + k <= 24 → slice m4 o k = slice m o k) →
  zlen l' <= btree_order h + 1 →
  (∀ i k r, l' !! i = Some (k, r) →
    slice m4 (get_key h (Z.of_nat i)) (col_len h) = k ∧ dec_Rid (slice m4 (get_rid h (Z.of_nat i)) sizeof_Rid) = r) →
  GetSize m4 = (Ret (zlen l), m4) ∧ ∃ m', SetSize (zlen l') m4 = (Ret tt, m') ∧ nd h m' nh l'.
Proof.
  intros Hn Hl4 Hu Hhdr Hmax Hp. pose proof (nd_len _ _ _ _ Hn) as Hlen. pose proof wf_bounds as (_ & _ & Hb & _).
  split.
  - unfold GetSize. rewrite load_word_ok by (ix; lia). ix. rewrite Hhdr by lia.
    pose proof (nd_size _ _ _ _ Hn) as Hs. ix. by rewrite Hs.
  - unfold SetSize. eexists. split; [apply store_word_ok; ix; lia|].
    assert (Hlenc : zlen (enc32 (zlen l')) = 4) by done. unfold PAGE_SIZE in *.
    destruct Hn. split; ix; unfold PAGE_SIZE in *; try (rewrite slice_splice_disjoint by lia; rewrite Hhdr by lia; done).
    + rewrite length_splice by lia. lia.
    + apply Forall_splice; [done|apply enc32_u8].
    + rewrite word_splice_same by (unfold is_s32; lia). done.
    + lia.
    + eapply (nd_pairs_same m4); [|lia|done]. intros o k Ho' Hk. apply slice_splice_disjoint; lia.
Qed.

Lemma nd_SetSize m nh l l' :
  nd h m nh l → zlen l' <= btree_order h + 1 →
  (∀ i k r, l' !! i = Some (k, r) →
    slice m (get_key h (Z.of_nat i)) (col_len h) = k ∧ dec_Rid (slice m (get_rid h (Z.of_nat i)) sizeof_Rid) = r) →
  ∃ m', SetSize (zlen l') m = (Ret tt, m') ∧ nd h m' nh l'.
Proof. intros Hn Hmax Hp. apply (nd_resized m m nh l l'); try done. apply Hn. Qed.

(** The memory a pointer to [n] pairs gives: the keys and the rids. *)
Record pairs_at (key rid : bytes) (new : list (bytes * Rid)) : Prop := {
  pa_klen : zlen new * col_len h <= zlen key;
  pa_rlen : zlen new * 8 <= zlen rid;
  pa_ku8 : Forall is_u8 key;
  pa_ru8 : Forall is_u8 rid;
  pa_pair j k v : new !! j = Some (k, v) →
    slice key (Z.of_nat j * col_len h) (col_len h) = k ∧ dec_Rid (slice rid (Z.of_nat j * 8) 8) = v
}.

Lemma lookup_insert_at {A} (l new : list A) (pos i : nat) x :
  (pos <= length l)%nat → (take pos l ++ new ++ drop pos l) !! i = Some x →
  ((i < pos)%nat ∧ l !! i = Some x) ∨
  ((pos <= i < pos + length new)%nat ∧ new !! (i - pos)%nat = Some x) ∨
  ((pos + length new <= i < length l + length new)%nat ∧ l !! (i - length new)%nat = Some x).
Proof.
  intros Hp Hi. pose proof (lookup_lt_Some _ _ _ Hi) as Hlt. rewrite !length_app, length_take, length_drop in Hlt.
  destruct (decide (i < pos)%nat).
  - left. rewrite lookup_app_l in Hi by (rewrite length_take; lia). by rewrite lookup_take_lt in Hi by lia.
  - right. rewrite lookup_app_r in Hi by (rewrite length_take; lia). rewrite length_take, Nat.min_l in Hi by lia.
    destruct (decide (i < pos + length new)%nat).
    + left. rewrite lookup_app_l in Hi by lia. split; [lia|done].
    + right. rewrite lookup_app_r in Hi by lia. rewrite lookup_drop in Hi.
      split; [lia|]. rewrite <- Hi. f_equal. lia.
Qed.

(** The four copies of [insert_pairs]. *)
Lemma insert_arrays m nh l new key rid (pos : nat) :
  nd h m nh l → (pos <= length l)%nat → zlen l + zlen new <= btree_order h + 1 → pairs_at key rid new →
  let p := Z.of_nat pos in let n := zlen new in let L := zlen l in let c := col_len h in
  let m1 := splice m (get_key h (p + n)) (slice m (get_key h p) ((L - p) * c)) in
  let m2 := splice m1 (get_rid h (p + n)) (slice m1 (get_rid h p) ((L - p) * 8)) in
  let m3 := splice m2 (get_key h p) (slice key 0 (n * c)) in
  let m4 := splice m3 (get_rid h p) (slice rid 0 (n * 8)) in
  (length m1 = length m ∧ length m2 = length m ∧ length m3 = length m ∧ length m4 = length m) ∧ Forall is_u8 m4 ∧
  (∀ o k, 0 <= o → 0 <= k → o + k <= 24 → slice m4 o k = slice m o k) ∧
  (∀ i k r, (take pos l ++ new ++ drop pos l) !! i = Some (k, r) →
    slice m4 (get_key h (Z.of_nat i)) c = k ∧ dec_Rid (slice m4 (get_rid h (Z.of_nat i)) 8) = r).
Proof.
  intros Hn Hpos Hmax [Hkl Hrl Hku Hru Hpair] p n L c m1 m2 m3 m4.
  pose proof (nd_len _ _ _ _ Hn) as Hlen. pose proof wf_bounds as (Hc & _ & _ & Hks & Hfit). ix.
  fold L n c in Hmax, Hkl, Hrl, Hc, Hks, Hfit.
  assert (0 <= p <= L) as Hp by (subst p L; lia).
  destruct (two_arrays_insert m key rid 24 c (24 + keys_size h) L n p) as ((H1 & H2 & H3 & H4) & A1 & A2 & A3 & B1 & B2 & B3 & Hout);
    [lia|lia|subst n; lia|done|lia|nia|nia|].
  fold m1 in H1, H2, H3, H4. split_and!; [done..| | |].
  - unfold m4, m3, m2, m1, slice. repeat apply Forall_splice; auto using Forall_take, Forall_drop;
      repeat first [apply Forall_take|apply Forall_drop|apply Forall_splice]; try apply Hn; done.
  - intros o k Ho Hk Hok. by apply Hout; [..|left].
  - intros i k r Hi. destruct (lookup_insert_at _ _ _ _ _ Hpos Hi) as [[Hip Hl]|[[Hip Hl]|[Hip Hl]]].
    + destruct (nd_pair _ _ _ _ Hn _ _ _ Hl) as [Hk Hr]. ix. rewrite <- Hk, <- Hr.
      split; [apply A1|f_equal; apply B1]; lia.
    + destruct (Hpair _ _ _ Hl) as [Hk Hr]. rewrite <- Hk, <- Hr.
      replace (Z.of_nat (i - pos)) with (Z.of_nat i - p) by lia.
      split; [apply A2|f_equal; apply B2]; lia.
    + destruct (nd_pair _ _ _ _ Hn _ _ _ Hl) as [Hk Hr]. ix. rewrite <- Hk, <- Hr.
      replace (Z.of_nat i) with (Z.of_nat (i - length new) + n) by lia.
      split; [apply A3|f_equal; apply B3]; lia.
Qed.

Lemma store_Ret {B} (g : bytes → option bytes) m m' (k : unit → M bytes B) :
  g m = Some m' → bind (store g) k m = k tt m'.
Proof. intros Hg. unfold bind, store. by rewrite Hg. Qed.

Lemma insert_pairs_ok m nh l new key rid (pos : nat) :
  nd h m nh l → (pos <= length l)%nat → zlen l + zlen new <= btree_order h + 1 → pairs_at key rid new →
  ∃ m', insert_pairs h (Z.of_nat pos) key rid (zlen new) m = (Ret tt, m') ∧
    nd h m' nh (take pos l ++ new ++ drop pos l).
Proof.
  intros Hn Hpos Hmax Hpa.
  destruct (insert_arrays m nh l new key rid pos Hn Hpos Hmax Hpa) as ((H1 & H2 & H3 & H4) & Hu & Hhdr & Hp).
  pose proof (nd_len _ _ _ _ Hn) as Hlen. pose proof wf_bounds as (Hc & _ & Hb & Hks & Hfit).
  destruct Hpa as [Hkl Hrl _ _ _].
  assert (∀ x, 0 <= x <= zlen l + zlen new →
    0 <= get_key h x ∧ get_key h x + (zlen l + zlen new - x) * col_len h <= PAGE_SIZE ∧
    0 <= get_rid h x ∧ get_rid h x + (zlen l + zlen new - x) * 8 <= PAGE_SIZE) as Hin.
  { intros x Hx. ix. assert (0 <= x * col_len h ∧ (zlen l + zlen new) * col_len h <= (btree_order h + 1) * col_len h) as [??] by nia.
    split_and!; lia. }
  destruct (Hin (Z.of_nat pos) ltac:(lia)) as (K1 & K2 & R1 & R2).
  destruct (Hin (Z.of_nat pos + zlen new) ltac:(lia)) as (K3 & K4 & R3 & R4).
  assert (0 <= zlen new * col_len h ∧ 0 <= (zlen l - Z.of_nat pos) * col_len h) as [P1 P2] by nia.
  set (m1 := splice m _ _) in *. set (m2 := splice m1 _ _) in *. set (m3 := splice m2 _ _) in *. set (m4 := splice m3 _ _) in *.
  set (l' := take pos l ++ new ++ drop pos l) in *.
  assert (Hl' : zlen l' = zlen l + zlen new).
  { unfold l'. rewrite !length_app, length_take, length_drop. lia. }
  destruct (nd_resized m m4 nh l l' Hn H4 Hu Hhdr ltac:(lia) Hp) as (Hsize & m' & Hset & Hn').
  exists m'. split; [|done]. unfold insert_pairs. run (GetSize_ok m nh l Hn). ix. unfold PAGE_SIZE in *.
  rewrite (store_Ret _ m m1) by (apply mem_move_Some; lia).
  rewrite (store_Ret _ m1 m2) by (apply mem_move_Some; lia).
  rewrite (store_Ret _ m2 m3).
  2:{ rewrite mem_read_Some by lia. cbn [mbind option_bind]. apply mem_write_Some; [lia|]. rewrite length_slice; lia. }
  rewrite (store_Ret _ m3 m4).
  2:{ rewrite mem_read_Some by lia. cbn [mbind option_bind]. apply mem_write_Some; [lia|]. rewrite length_slice; lia. }
  run Hsize. rewrite s32_Some by (unfold is_s32; lia). unfold or_ub. rewrite <- Hl'. exact Hset.
Qed.

Lemma pairs_at_one k v :
  zlen k = col_len h → Forall is_u8 k → is_s32 (rid_page_no v) → is_s32 (rid_slot_no v) →
  pairs_at k (enc_Rid v) [(k, v)].
Proof.
  intros Hk Hu H1 H2. split.
  - change (zlen [(k, v)]) with 1. lia.
  - done.
  - done.
  - unfold enc_Rid. apply Forall_app_2; apply enc32_u8.
  - intros [|j] k' v'; [|done]. cbn [lookup list_lookup]. change (Z.of_nat 0) with 0. intros [= <- <-]. rewrite Z.mul_0_l. split.
    + unfold slice. simpl. rewrite drop_0. apply take_ge. lia.
    + rewrite <- (dec_enc_Rid v) at 2 by done. done.
Qed.

(** The pairs of a page from position [i] on, read through pointers. *)
Lemma pairs_at_page m nh l (i : nat) :
  nd h m nh l → (i <= length l)%nat →
  pairs_at (at_ptr m (get_key h (Z.of_nat i))) (at_ptr m (get_rid h (Z.of_nat i))) (drop i l).
Proof.
  intros Hn Hi. pose proof (nd_len _ _ _ _ Hn) as Hlen. pose proof (nd_max _ _ _ _ Hn).
  pose proof wf_bounds as (Hc & _ & Hb & Hks & Hfit).
  assert (0 <= Z.of_nat i * col_len h ∧ zlen l * col_len h <= (btree_order h + 1) * col_len h) as [??] by nia.
  assert (0 <= get_key h (Z.of_nat i) ∧ 0 <= get_rid h (Z.of_nat i)) as [Q1 Q2] by (ix; lia).
  unfold at_ptr. rewrite !(proj2 (Z.leb_le _ _)) by lia. split.
  - rewrite !length_drop. ix. lia.
  - rewrite !length_drop. ix. lia.
  - apply Forall_drop, Hn.
  - apply Forall_drop, Hn.
  - intros j k v Hj. rewrite lookup_drop in Hj. rewrite !slice_drop by lia.
    destruct (nd_pair _ _ _ _ Hn _ _ _ Hj) as [<- <-]. ix. split; [|f_equal]; f_equal; lia.
Qed.

Lemma erase_pair_ok m nh l (pos : nat) :
  nd h m nh l → (pos < length l)%nat →
  ∃ m', erase_pair h (Z.of_nat pos) m = (Ret tt, m') ∧ nd h m' nh (take pos l ++ drop (S pos) l).
Proof.
  intros Hn Hpos. pose proof (nd_len _ _ _ _ Hn) as Hlen. pose proof (nd_max _ _ _ _ Hn) as Hmax.
  pose proof wf_bounds as (Hc & _ & Hb & Hks & Hfit).
  set (p := Z.of_nat pos). set (L := zlen l) in *. set (c := col_len h) in *.
  set (m1 := splice m (get_key h p) (slice m (get_key h (p + 1)) ((L - p - 1) * c))).
  set (m2 := splice m1 (get_rid h p) (slice m1 (get_rid h (p + 1)) ((L - p - 1) * 8))).
  assert (0 <= p < L) as Hp by (subst p L; lia).
  assert (0 <= p * c ∧ L * c <= (btree_order h + 1) * c ∧ (p + 1) * c <= L * c) as (P1 & P2 & P3) by (split_and!; nia).
  ix. fold c in m1, m2, Hks, Hfit.
  assert (Hs1 : zlen (slice m (24 + (p + 1) * c) ((L - p - 1) * c)) = (L - p - 1) * c) by (apply length_slice; lia).
  assert (Hl1 : length m1 = length m) by (apply length_splice; lia).
  assert (Hs2 : zlen (slice m1 (24 + keys_size h + (p + 1) * 8) ((L - p - 1) * 8)) = (L - p - 1) * 8) by (apply length_slice; lia).
  assert (Hl2 : length m2 = length m) by (unfold m2; rewrite length_splice; lia).
  destruct (array_erase m 24 c L p m1) as (_ & A1 & A2 & A3); [lia..|done|].
  destruct (array_erase m1 (24 + keys_size h) 8 L p m2) as (_ & B1 & B2 & B3); [lia..|done|].
  assert (Hu : Forall is_u8 m2).
  { unfold m2, m1, slice. repeat first [apply Forall_splice|apply Forall_take|apply Forall_drop]; apply Hn. }
  assert (Hhdr : ∀ o k, 0 <= o → 0 <= k → o + k <= 24 → slice m2 o k = slice m o k).
  { intros o k Ho Hk Hd. rewrite B3 by lia. apply A3; lia. }
  set (l' := take pos l ++ drop (S pos) l).
  assert (Hl' : zlen l' = L - 1) by (unfold l'; rewrite length_app, length_take, length_drop; lia).
  assert (Hpairs : ∀ i k r, l' !! i = Some (k, r) →
    slice m2 (get_key h (Z.of_nat i)) (col_len h) = k ∧ dec_Rid (slice m2 (get_rid h (Z.of_nat i)) sizeof_Rid) = r).
  { intros i k r Hi. pose proof (lookup_bound _ _ _ Hi) as Hib. ix. fold c.
    assert (0 <= Z.of_nat i * c ∧ Z.of_nat i * c + c <= L * c) as [??] by nia.
    assert (Hlow : slice m2 (24 + Z.of_nat i * c) c = slice m1 (24 + Z.of_nat i * c) c) by (apply B3; lia).
    assert (Hhigh : ∀ j, 0 <= j < L → slice m1 (24 + keys_size h + j * 8) 8 = slice m (24 + keys_size h + j * 8) 8).
    { intros j Hj. apply A3; lia. }
    unfold l' in Hi. rewrite Hlow. destruct (decide (i < pos)%nat).
    - rewrite lookup_app_l in Hi by (rewrite length_take; lia). rewrite lookup_take_lt in Hi by lia.
      destruct (nd_pair _ _ _ _ Hn _ _ _ Hi) as [Hk Hr]. ix. rewrite A1, B1, Hhigh by lia. done.
    - rewrite lookup_app_r in Hi by (rewrite length_take; lia). rewrite length_take, Nat.min_l in Hi by lia.
      rewrite lookup_drop in Hi. replace (S pos + (i - pos))%nat with (S i) in Hi by lia.
      destruct (nd_pair _ _ _ _ Hn _ _ _ Hi) as [Hk Hr]. ix.
      replace (Z.of_nat (S i)) with (Z.of_nat i + 1) in Hk, Hr by lia.
      rewrite A2, B2, Hhigh by lia. done. }
  destruct (nd_resized m m2 nh l l' Hn ltac:(lia) Hu Hhdr ltac:(lia) Hpairs) as (Hsize & m' & Hset & Hn').
  exists m'. split; [|done]. unfold erase_pair. run (GetSize_ok m nh l Hn). ix. fold c L. unfold PAGE_SIZE in *.
  rewrite (store_Ret _ m m1) by (apply mem_move_Some; lia).
  rewrite (store_Ret _ m1 m2) by (apply mem_move_Some; lia).
  run Hsize. rewrite s32_Some by (unfold is_s32; lia). unfold or_ub. fold L. rewrite <- Hl'. exact Hset.
Qed.

(** ** The operations by key *)

Section bykey.
  Context (m : bytes) (nh : NodeHdr) (l : list (bytes * Rid)) (t tk : bytes).
  Hypotheses (Hn : nd h m nh l) (Hok : keys_ok h l) (Hs : sorted h l)
    (Ht : slice t 0 (col_len h) = tk) (Hlen : col_len h <= zlen t) (Hk : key_ok h tk).

(** The test that [LeafLookup], [Insert] and [Remove] start with. *)
Lemma search_ok :
  ∃ p, lower_bound h t m = (Ret (Z.of_nat p), m) ∧ (p <= length l)%nat ∧ lb h tk l p ∧
    key_is_at h (Z.of_nat p) t m =
      (Ret (match l !! p with Some (k, _) => kcmp h k tk =? 0 | None => false end), m).
Proof.
  destruct (lower_bound_ok m nh l t tk Hn Hok Hs Ht Hlen Hk) as (p & Hp & Hpl & Hlb).
  exists p. split_and!; try done. by eapply key_is_at_ok.
Qed.

Lemma LeafLookup_ok :
  ∃ p, LeafLookup h t m = (Ret (match assoc h tk l with Some _ => Some (get_rid h (Z.of_nat p)) | None => None end), m) ∧
    ∀ v, assoc h tk l = Some v → ∃ k, l !! p = Some (k, v).
Proof.
  destruct search_ok as (p & Hp & Hpl & Hlb & Hat). exists p.
  unfold LeafLookup. run Hp. run Hat. pose proof (lb_ops h tk (mkRid 0 0) l p Hlb Hpl) as Hop.
  destruct (l !! p) as [[k v]|] eqn:Hi.
  - destruct (kcmp h k tk =? 0).
    + destruct Hop as (_ & -> & _). split; [done|]. intros v' [= <-]. eauto.
    + destruct Hop as (_ & Hop). destruct (Hop Hs Hok Hk) as [-> _]. done.
  - destruct Hop as (_ & -> & _). done.
Qed.

Lemma Insert_ok v :
  Forall is_u8 t → is_s32 (rid_page_no v) → is_s32 (rid_slot_no v) → zlen l <= btree_order h →
  ∃ m', Insert h t v m = (Ret (zlen (ins h tk v l)), m') ∧ nd h m' nh (ins h tk v l).
Proof.
  intros Hu H1 H2 Hmax. destruct search_ok as (p & Hp & Hpl & Hlb & Hat).
  assert (Hpa : pairs_at t (enc_Rid v) [(tk, v)]).
  { destruct Hk as (Hkl & Hku & _). destruct (pairs_at_one tk v Hkl Hku H1 H2) as [A1 A2 A3 A4 A5].
    split; try done.
    - change (zlen [(tk, v)]) with 1. lia.
    - intros j k' v' Hj. destruct (A5 j k' v' Hj) as [B1 B2]. split; [|done].
      destruct j; [|done]. injection Hj as <- <-. done. }
  pose proof (lb_ops h tk v l p Hlb Hpl) as Hop. unfold Insert. run Hp. run Hat.
  assert (Hins : ins h tk v l = take p l ++ [(tk, v)] ++ drop p l →
    ∃ m', (insert_pairs h (Z.of_nat p) t (enc_Rid v) 1 ;;; GetSize) m = (Ret (zlen (ins h tk v l)), m') ∧
      nd h m' nh (ins h tk v l)).
  { intros ->. destruct (insert_pairs_ok m nh l [(tk, v)] t (enc_Rid v) p Hn Hpl) as (m' & Hrun & Hn'); [simpl; lia|done|].
    exists m'. split; [|done]. change (zlen [(tk, v)]) with 1 in Hrun. run Hrun. by apply (GetSize_ok m' nh). }
  destruct (l !! p) as [[k w]|] eqn:Hi.
  - destruct (kcmp h k tk =? 0).
    + destruct Hop as (-> & _ & _). exists m. split; [|done]. by apply (GetSize_ok m nh).
    + destruct Hop as (Hop & _). by apply Hins.
  - destruct Hop as (Hop & _ & _). by apply Hins.
Qed.

Lemma Remove_ok :
  ∃ m', Remove h t m = (Ret (zlen (del h tk l)), m') ∧ nd h m' nh (del h tk l).
Proof.
  destruct search_ok as (p & Hp & Hpl & Hlb & Hat).
  pose proof (lb_ops h tk (mkRid 0 0) l p Hlb Hpl) as Hop. unfold Remove. run Hp. run Hat.
  destruct (l !! p) as [[k w]|] eqn:Hi.
  - destruct (kcmp h k tk =? 0).
    + destruct Hop as (_ & _ & ->). apply lookup_lt_Some in Hi.
      destruct (erase_pair_ok m nh l p Hn Hi) as (m' & Hrun & Hn'). exists m'. split; [|done].
      unfold when. run Hrun. by apply (GetSize_ok m' nh).
    + destruct Hop as (_ & Hop). destruct (Hop Hs Hok Hk) as [_ ->]. exists m. split; [|done]. by apply (GetSize_ok m nh).
  - destruct Hop as (_ & _ & ->). exists m. split; [|done]. by apply (GetSize_ok m nh).
Qed.

(** The child an internal node sends a key to: the one after the last key that
    is not larger. *)
Lemma InternalLookup_ok p k v :
  splits h (λ c, c <=? 0) tk l p → l !! p = Some (k, v) →
  InternalLookup h t m = (Ret (rid_page_no v), m).
Proof.
  intros Hsp Hi. destruct (upper_bound_ok m nh l t tk Hn Hok Hs Ht Hlen Hk) as (q & Hq & Hql & Hsq).
  assert (q = p) as ->.
  { pose proof (lookup_lt_Some _ _ _ Hi). destruct (decide (p = q)) as [|Hne]; [done|exfalso].
    destruct (lookup_lt_is_Some_2 l (Nat.min p q)) as [[k' v'] Hm]; [lia|].
    pose proof (Hsp _ _ _ Hm) as B. pose proof (Hsq _ _ _ Hm) as A. cbn beta in A, B. rewrite B in A.
    destruct (decide (p < q)%nat).
    - rewrite (bool_decide_eq_false_2 (_ < p)%nat), (bool_decide_eq_true_2 (_ < q)%nat) in A by lia. done.
    - rewrite (bool_decide_eq_true_2 (_ < p)%nat), (bool_decide_eq_false_2 (_ < q)%nat) in A by lia. done. }
  unfold InternalLookup. run Hq. by apply (ValueAt_ok m nh l p k).
Qed.

End bykey.

(** ** Children *)

Lemma find_child_ok m nh l child (i : nat) k s :
  nd h m nh l → l !! i = Some (k, mkRid child s) →
  (∀ j k' v', (j < i)%nat → l !! j = Some (k', v') → rid_page_no v' ≠ child) →
  find_child h child m = (Ret (Z.of_nat i), m).
Proof.
  intros Hn Hi Hfirst. unfold find_child. run (GetSize_ok m nh l Hn).
  assert (Hl : (i < length l)%nat) by by apply lookup_lt_Some in Hi.
  assert (Hloop : ∀ n j, (j <= i)%nat → (i < j + n)%nat →
    find_child_loop h child (Z.of_nat j) n m = (Ret (Z.of_nat i), m)).
  { induction n as [|n IH]; intros j Hj Hd; [lia|]. simpl.
    destruct (lookup_lt_is_Some_2 l j) as [[k' v'] Hj']; [lia|].
    run (ValueAt_ok m nh l j k' v' Hn Hj').
    destruct (decide (j = i)) as [->|Hne].
    - rewrite Hi in Hj'. injection Hj' as <- <-. simpl. by rewrite Z.eqb_refl.
    - rewrite (proj2 (Z.eqb_neq _ _)) by (apply (Hfirst j k' v'); [lia|done]).
      replace (Z.of_nat j + 1) with (Z.of_nat (S j)) by lia. apply IH; lia. }
  rewrite (bind_Ret _ _ _ _ _ (Hloop (Z.to_nat (zlen l)) 0%nat ltac:(lia) ltac:(lia))).
  rewrite bind_assert; [done|]. apply Z.ltb_lt. lia.
Qed.

Lemma RemoveOnlyChild_ok m nh k v :
  nd h m nh [(k, v)] →
  ∃ m', RemoveAndReturnOnlyChild h m = (Ret (rid_page_no v), m') ∧ nd h m' nh [].
Proof.
  intros Hn. unfold RemoveAndReturnOnlyChild. run (GetSize_ok m nh _ Hn). rewrite bind_assert by done.
  run (ValueAt_ok m nh [(k, v)] 0 k v Hn eq_refl).
  destruct (erase_pair_ok m nh [(k, v)] 0 Hn ltac:(simpl; lia)) as (m' & Hrun & Hn'). simpl in Hn'.
  exists m'. split; [|done]. change (Z.of_nat 0) with 0 in Hrun. run Hrun.
  run (GetSize_ok m' nh _ Hn'). by rewrite bind_assert.
Qed.

End node.
