(* ===== verification/IxIndex.v ===== *)
(** The B+ tree index: [src/src/index/ix_index_handle.{h,cpp}] and
    [ix_scan.{h,cpp}].

    The state is the handle (descriptor and file header) and the buffer pool.
    An [IxNodeHandle *] is the frame its page is in, so a handle that is used
    after its page was unpinned reads whatever the frame holds then, as in the
    source.  [root_latch_] is held for the whole of [GetValue], [insert_entry]
    and [delete_entry], which are therefore one step each; the [transaction]
    parameters are not used by the code and left out.  Loops and recursions
    along the tree take the fuel [n] as an argument. *)
From S2P Require Import Prelude.
From S2P Require Import Defs.
From S2P Require Import RecScan.
From S2P Require Import Replacer.
From S2P Require Import Disk.
From S2P Require Import BufferPool.
From S2P Require Import IxNode.
Import IxDefs.

#[local] Open Scope prog_scope.

Module IxIndexHandle.

Record handle := mkHandle { fd_ : Z; file_hdr_ : IxFileHdr }.

Record st (D R : Type) := mkSt {
  ih : handle;
  bpm : BufferPool.t D R
}.
Arguments mkSt {D R} _ _.
Arguments ih {D R} _.
Arguments bpm {D R} _.

Section ops.
  Context {D R : Type} `{PageStore D} `{Replacer R}.
  Notation st := (st D R).

Definition set_ih (x : handle) (s : st) : st := mkSt x (bpm s).
Definition set_bpm (p : BufferPool.t D R) (s : st) : st := mkSt (ih s) p.
Definition on_pool {A} (m : M (BufferPool.t D R) A) : M st A := zoom bpm set_bpm m.

Definition hdr (s : st) : IxFileHdr := file_hdr_ (ih s).
Definition upd_hdr (g : IxFileHdr → IxFileHdr) : M st unit :=
  modify (λ s, set_ih (mkHandle (fd_ (ih s)) (g (hdr s))) s).

(** A node operation on the page in frame [f]; [file_hdr] points to the header
    of the index. *)
Definition on_node {A} (f : Z) (g : IxFileHdr → M bytes A) : M st A :=
  λ s, match BufferPool.frame (bpm s) f with
       | None => (UB, s)
       | Some p => let '(r, d) := g (hdr s) (data_ p) in
                   (r, set_bpm (BufferPool.set_frame f (set_data d p) (bpm s)) s)
       end.

Definition GetPageId (f : Z) : M st PageId :=
  let* p := on_pool (BufferPool.get_page f) in ret (id_ p).
Definition GetPageNo (f : Z) : M st Z := let* i := GetPageId f in ret (page_no i).

Definition Unpin (f : Z) (dirty : bool) : M st bool :=
  let* i := GetPageId f in on_pool (BufferPool.UnpinPage i dirty).
Definition unpin (f : Z) (dirty : bool) : M st unit := let* _ := Unpin f dirty in ret tt.

(** The members of [IxNodeHandle] used here. *)
Definition IsLeafPage (f : Z) : M st bool := on_node f (λ _, IxNodeHandle.IsLeafPage).
Definition IsRootPage (f : Z) : M st bool := on_node f (λ _, IxNodeHandle.IsRootPage).
Definition GetSize (f : Z) : M st Z := on_node f (λ _, IxNodeHandle.GetSize).
Definition GetParentPageNo (f : Z) : M st Z := on_node f (λ _, IxNodeHandle.GetParentPageNo).
Definition GetNextLeaf (f : Z) : M st Z := on_node f (λ _, IxNodeHandle.GetNextLeaf).
Definition GetPrevLeaf (f : Z) : M st Z := on_node f (λ _, IxNodeHandle.GetPrevLeaf).
Definition ValueAt (f i : Z) : M st Z := on_node f (λ h, IxNodeHandle.ValueAt h i).
Definition key_ptr (f i : Z) : M st bytes := on_node f (λ h, IxNodeHandle.key_ptr h i).
Definition rid_ptr (f i : Z) : M st bytes := on_node f (λ h, IxNodeHandle.rid_ptr h i).
Definition store_word (f off v : Z) : M st unit := on_node f (λ _, IxNodeHandle.store_word off v).
Definition SetParentPageNo (f p : Z) : M st unit := store_word f off_parent p.
Definition SetNextLeaf (f p : Z) : M st unit := store_word f off_next_leaf p.
Definition SetPrevLeaf (f p : Z) : M st unit := store_word f off_prev_leaf p.
Definition find_child (f child : Z) : M st Z :=
  let* c := GetPageNo child in on_node f (λ h, IxNodeHandle.find_child h c).

(** A null page is dereferenced. *)
Definition FetchNode (page_no : Z) : M st Z :=
  let* x := gets ih in
  let* page := on_pool (BufferPool.FetchPage (mkPageId (fd_ x) page_no)) in
  or_ub page.

Definition CreateNode : M st Z :=
  let* h := gets hdr in
  let* n := or_ub (s32 (num_pages h + 1)) in
  upd_hdr (set_num_pages n) ;;;
  let* x := gets ih in
  let* r := on_pool (BufferPool.NewPage (mkPageId (fd_ x) INVALID_PAGE_ID)) in
  or_ub r.1.

Definition release_node_handle : M st unit :=
  let* h := gets hdr in
  let* n := or_ub (s32 (num_pages h - 1)) in
  upd_hdr (set_num_pages n).

Definition maintain_child (node child_idx : Z) : M st unit :=
  let* leaf := IsLeafPage node in
  when (negb leaf)
    (let* child_page_no := ValueAt node child_idx in
     let* child := FetchNode child_page_no in
     let* p := GetPageNo node in
     SetParentPageNo child p ;;;
     unpin child true).

(** [memcmp] and [memcpy] of the first key of [curr] and key [rank] of
    [parent]. *)
Fixpoint maintain_parent (n : nat) (curr : Z) : M st unit :=
  match n with
  | O => out_of_fuel
  | S n' =>
      let* p := GetParentPageNo curr in
      if p =? IX_NO_PAGE then ret tt
      else
        let* parent := FetchNode p in
        let* rank := find_child parent curr in
        let* h := gets hdr in
        let* pk := key_ptr parent rank in
        let* ck := key_ptr curr 0 in
        let* parent_key := or_ub (mem_read pk 0 (col_len h)) in
        let* child_first_key := or_ub (mem_read ck 0 (col_len h)) in
        if memcmp parent_key child_first_key =? 0 then
          let* b := Unpin parent true in assert b
        else
          on_node parent (λ h, IxNodeHandle.set_key h rank child_first_key) ;;;
          let* b := Unpin parent true in assert b ;;;
          maintain_parent n' parent
  end.

Definition erase_leaf (leaf : Z) : M st unit :=
  let* b := IsLeafPage leaf in
  assert b ;;;
  let* p := GetPrevLeaf leaf in
  let* prev := FetchNode p in
  let* nx := GetNextLeaf leaf in
  SetNextLeaf prev nx ;;;
  unpin prev true ;;;
  let* nx := GetNextLeaf leaf in
  let* next := FetchNode nx in
  let* p := GetPrevLeaf leaf in
  SetPrevLeaf next p ;;;
  unpin next true.

(** ** Search *)

Fixpoint descend (n : nat) (key : bytes) (node : Z) : M st Z :=
  match n with
  | O => out_of_fuel
  | S n' =>
      let* leaf := IsLeafPage node in
      if leaf : bool then ret node
      else
        let* child_page_no := on_node node (λ h, IxNodeHandle.InternalLookup h key) in
        unpin node false ;;;
        let* node := FetchNode child_page_no in
        descend n' key node
  end.

Definition FindLeafPage (n : nat) (key : bytes) : M st Z :=
  let* h := gets hdr in
  let* node := FetchNode (root_page h) in
  descend n key node.

(** [LeafLookup] and the rid its out parameter points to. *)
Definition lookup_value (leaf : Z) (key : bytes) : M st (option Rid) :=
  on_node leaf (λ h,
    let* a := IxNodeHandle.LeafLookup h key in
    match a with
    | None => ret None
    | Some off =>
        let* r := IxNodeHandle.load (λ m, dec_Rid <$> mem_read m off sizeof_Rid) in
        ret (Some r)
    end).

(** The contents of the result vector before and after. *)
Definition GetValue (n : nat) (key : bytes) (result : list Rid) : M st (bool * list Rid) :=
  let* leaf := FindLeafPage n key in
  let* v := lookup_value leaf key in
  unpin leaf false ;;;
  ret (match v with Some r => (true, result ++ [r]) | None => (false, result) end).

(** ** Insertion *)

(** [Split] in two parts: the header and the pairs of the new node, then the
    links of the leaves or the parents of the children. *)
Definition split_pairs (node new_node : Z) : M st unit :=
  let* leaf := IsLeafPage node in
  on_node new_node (λ _, IxNodeHandle.set_is_leaf leaf) ;;;
  on_node new_node (λ _, IxNodeHandle.SetSize 0) ;;;
  let* p := GetParentPageNo node in
  SetParentPageNo new_node p ;;;
  store_word new_node off_next_free IX_NO_PAGE ;;;
  let* total := GetSize node in
  let mid := Z.quot (total + 1) 2 in
  let right_size := total - mid in
  let* k := key_ptr node mid in
  let* r := rid_ptr node mid in
  on_node new_node (λ h, IxNodeHandle.insert_pairs h 0 k r right_size) ;;;
  on_node node (λ _, IxNodeHandle.SetSize mid).

Definition split_links (node new_node : Z) : M st unit :=
  let* leaf := IsLeafPage node in
  if leaf : bool then
    let* nx := GetNextLeaf node in
    SetNextLeaf new_node nx ;;;
    let* p := GetPageNo node in
    SetPrevLeaf new_node p ;;;
    let* nx := GetNextLeaf node in
    when (negb (nx =? IX_NO_PAGE))
      (let* next_leaf := FetchNode nx in
       let* p := GetPageNo new_node in
       SetPrevLeaf next_leaf p ;;;
       unpin next_leaf true) ;;;
    let* p := GetPageNo new_node in
    SetNextLeaf node p
  else
    let* k := GetSize new_node in
    for_n 0 (Z.to_nat k) (λ i, maintain_child new_node i).

Definition Split (node : Z) : M st Z :=
  let* new_node := CreateNode in
  split_pairs node new_node ;;;
  split_links node new_node ;;;
  ret new_node.

(** [key] is read from the page of [new_node], which the code does not change
    before it copies the key. *)
Fixpoint InsertIntoParent (n : nat) (old_node : Z) (key : bytes) (new_node : Z) : M st unit :=
  match n with
  | O => out_of_fuel
  | S n' =>
      let* root := IsRootPage old_node in
      if root : bool then
        let* new_root := CreateNode in
        on_node new_root (λ _, IxNodeHandle.set_is_leaf false) ;;;
        on_node new_root (λ _, IxNodeHandle.SetSize 0) ;;;
        SetParentPageNo new_root IX_NO_PAGE ;;;
        store_word new_root off_next_free IX_NO_PAGE ;;;
        let* k0 := key_ptr old_node 0 in
        let* p0 := GetPageNo old_node in
        on_node new_root (λ h, IxNodeHandle.insert_pair h 0 k0 (mkRid p0 (-1))) ;;;
        let* p1 := GetPageNo new_node in
        on_node new_root (λ h, IxNodeHandle.insert_pair h 1 key (mkRid p1 (-1))) ;;;
        let* pr := GetPageNo new_root in
        SetParentPageNo old_node pr ;;;
        SetParentPageNo new_node pr ;;;
        upd_hdr (set_root_page pr) ;;;
        unpin new_root true
      else
        let* p := GetParentPageNo old_node in
        let* parent := FetchNode p in
        let* idx := find_child parent old_node in
        let* p1 := GetPageNo new_node in
        on_node parent (λ h, IxNodeHandle.insert_pair h (idx + 1) key (mkRid p1 (-1))) ;;;
        let* pp := GetPageNo parent in
        SetParentPageNo new_node pp ;;;
        let* size := GetSize parent in
        let* h := gets hdr in
        when (size =? IxNodeHandle.GetMaxSize h)
          (let* new_parent := Split parent in
           let* k := key_ptr new_parent 0 in
           InsertIntoParent n' parent k new_parent ;;;
           unpin new_parent true) ;;;
        unpin parent true
  end.

Definition insert_entry (n : nat) (key : bytes) (value : Rid) : M st bool :=
  let* leaf := FindLeafPage n key in
  let* new_size := on_node leaf (λ h, IxNodeHandle.Insert h key value) in
  let* h := gets hdr in
  when (new_size =? IxNodeHandle.GetMaxSize h)
    (let* p := GetPageNo leaf in
     let* h := gets hdr in
     let is_last_leaf := p =? last_leaf h in
     let* new_leaf := Split leaf in
     let* k := key_ptr new_leaf 0 in
     InsertIntoParent n leaf k new_leaf ;;;
     when is_last_leaf (let* p := GetPageNo new_leaf in upd_hdr (set_last_leaf p)) ;;;
     unpin new_leaf true) ;;;
  unpin leaf true ;;;
  ret true.

(** ** Deletion *)

Definition Redistribute (n : nat) (neighbor_node node parent index : Z) : M st unit :=
  if index =? 0 then
    let* size := GetSize node in
    let* k := key_ptr neighbor_node 0 in
    let* r := on_node neighbor_node (λ h, IxNodeHandle.read_rid h 0) in
    on_node node (λ h, IxNodeHandle.insert_pair h size k r) ;;;
    on_node neighbor_node (λ h, IxNodeHandle.erase_pair h 0) ;;;
    maintain_parent n neighbor_node ;;;
    let* size := GetSize node in
    maintain_child node (size - 1)
  else
    let* size := GetSize neighbor_node in
    let last := size - 1 in
    let* k := key_ptr neighbor_node last in
    let* r := on_node neighbor_node (λ h, IxNodeHandle.read_rid h last) in
    on_node node (λ h, IxNodeHandle.insert_pair h 0 k r) ;;;
    on_node neighbor_node (λ h, IxNodeHandle.erase_pair h last) ;;;
    maintain_parent n node ;;;
    maintain_child node 0.

Definition AdjustRoot (old_root_node : Z) : M st bool :=
  let* leaf := IsLeafPage old_root_node in
  let* size := GetSize old_root_node in
  if negb leaf && (size =? 1) then
    let* new_root_page := on_node old_root_node (λ h, IxNodeHandle.RemoveAndReturnOnlyChild h) in
    let* new_root := FetchNode new_root_page in
    SetParentPageNo new_root IX_NO_PAGE ;;;
    unpin new_root true ;;;
    upd_hdr (set_root_page new_root_page) ;;;
    release_node_handle ;;;
    ret true
  else if leaf && (size =? 0) then
    upd_hdr (set_root_page IX_NO_PAGE) ;;;
    release_node_handle ;;;
    ret true
  else ret false.

(** [Coalesce] without its last call, [CoalesceOrRedistribute] of the parent. *)
Definition Coalesce (neighbor_node node parent index : Z) : M st unit :=
  let left_node := if index =? 0 then node else neighbor_node in
  let right_node := if index =? 0 then neighbor_node else node in
  let* right_size := GetSize right_node in
  let* left_size := GetSize left_node in
  let* k := key_ptr right_node 0 in
  let* r := rid_ptr right_node 0 in
  on_node left_node (λ h, IxNodeHandle.insert_pairs h left_size k r right_size) ;;;
  let* leaf := IsLeafPage right_node in
  when (negb leaf)
    (for_n 0 (Z.to_nat right_size) (λ i,
       let* size := GetSize left_node in
       maintain_child left_node (size - right_size + i))) ;;;
  let* leaf := IsLeafPage right_node in
  when leaf
    (let* p := GetPageNo right_node in
     let* h := gets hdr in
     when (p =? last_leaf h) (let* q := GetPageNo left_node in upd_hdr (set_last_leaf q)) ;;;
     erase_leaf right_node) ;;;
  let* right_idx_in_parent := find_child parent right_node in
  on_node parent (λ h, IxNodeHandle.erase_pair h right_idx_in_parent) ;;;
  release_node_handle ;;;
  unpin right_node true ;;;
  let* i := GetPageId right_node in
  let* _ := on_pool (BufferPool.DeletePage i) in
  unpin left_node true.

(** [CoalesceOrRedistribute], with the tail call of [Coalesce]. *)
Fixpoint CoalesceOrRedistribute (n : nat) (node : Z) : M st bool :=
  match n with
  | O => out_of_fuel
  | S n' =>
      let* size := GetSize node in
      let* h := gets hdr in
      if IxNodeHandle.GetMinSize h <=? size then unpin node true ;;; ret false
      else
        let* root := IsRootPage node in
        if root : bool then
          let* deleted := AdjustRoot node in
          unpin node true ;;;
          ret deleted
        else
          let* p := GetParentPageNo node in
          let* parent := FetchNode p in
          let* idx := find_child parent node in
          let* c := ValueAt parent (if 0 <? idx then idx - 1 else idx + 1) in
          let* neighbor := FetchNode c in
          let* s1 := GetSize node in
          let* s2 := GetSize neighbor in
          let* h := gets hdr in
          if IxNodeHandle.GetMinSize h * 2 <=? s1 + s2 then
            Redistribute n' neighbor node parent idx ;;;
            unpin node true ;;;
            unpin neighbor true ;;;
            unpin parent true ;;;
            ret false
          else
            Coalesce neighbor node parent idx ;;;
            CoalesceOrRedistribute n' parent
  end.

Definition delete_entry (n : nat) (key : bytes) : M st bool :=
  let* leaf := FindLeafPage n key in
  let* old_size := GetSize leaf in
  let* new_size := on_node leaf (λ h, IxNodeHandle.Remove h key) in
  if new_size =? old_size then unpin leaf true ;;; ret false
  else
    let* _ := CoalesceOrRedistribute n leaf in ret true.

(** ** Positions *)

Definition get_rid (iid : Iid) : M st Rid :=
  let* node := FetchNode (iid_page_no iid) in
  let* size := GetSize node in
  if size <=? iid_slot_no iid then throw IndexEntryNotFoundError
  else
    unpin node false ;;;
    on_node node (λ h, IxNodeHandle.read_rid h (iid_slot_no iid)).

Definition leaf_begin : M st Iid := let* h := gets hdr in ret (mkIid (first_leaf h) 0).

Definition leaf_end : M st Iid :=
  let* h := gets hdr in
  let* node := FetchNode (last_leaf h) in
  let* size := GetSize node in
  unpin node false ;;;
  ret (mkIid (last_leaf h) size).

Definition lower_bound (n : nat) (key : bytes) : M st Iid :=
  let* node := FindLeafPage n key in
  let* key_idx := on_node node (λ h, IxNodeHandle.lower_bound h key) in
  let* p := GetPageNo node in
  unpin node false ;;;
  ret (mkIid p key_idx).

Definition upper_bound (n : nat) (key : bytes) : M st Iid :=
  let* node := FindLeafPage n key in
  let* key_idx := on_node node (λ h, IxNodeHandle.upper_bound h key) in
  let* size := GetSize node in
  let* iid := (if key_idx =? size then leaf_end
               else let* p := GetPageNo node in ret (mkIid p key_idx)) in
  unpin node false ;;;
  ret iid.

(** ** [IxScan]: the cursor [iid_] and the bound [end_] *)

Definition scan_is_end (iid_ end_ : Iid) : bool := Iid_eqb iid_ end_.

Definition scan_next (iid_ end_ : Iid) : M st Iid :=
  assert (negb (scan_is_end iid_ end_)) ;;;
  let* node := FetchNode (iid_page_no iid_) in
  let* leaf := IsLeafPage node in
  assert leaf ;;;
  let* size := GetSize node in
  assert (iid_slot_no iid_ <? size) ;;;
  let slot_no := iid_slot_no iid_ + 1 in
  let* h := gets hdr in
  let* size := GetSize node in
  if negb (iid_page_no iid_ =? last_leaf h) && (slot_no =? size)
  then let* nx := GetNextLeaf node in ret (mkIid nx 0)
  else ret (mkIid (iid_page_no iid_) slot_no).

Definition scan_rid (iid_ : Iid) : M st Rid := get_rid iid_.

#[export] Instance ix_rec_scan : RecScan st (Iid * Iid) := {
  next c := let* i := scan_next c.1 c.2 in ret (i, c.2);
  is_end c := scan_is_end c.1 c.2;
  rid c := scan_rid c.1 }.

End ops.
End IxIndexHandle.
