(* ===== verification/IxManager.v ===== *)
(** [IxManager], [src/src/index/ix_manager.h], and the constructor of
    [IxIndexHandle]: index files on the disk manager and the buffer pool. *)
From S2P Require Import Prelude.
From S2P Require Import Defs.
From S2P Require Import Replacer.
From S2P Require Import Disk.
From S2P Require Import BufferPool.
From S2P Require Import IxNode.
From S2P Require Import IxIndex.
Import IxDefs.

#[local] Open Scope prog_scope.

Module IxManager.

Section ops.
  Context {F : Type} `{Posix F} {R : Type} `{Replacer R}.
  Notation disk := (DiskManager.t F).
  Notation pool := (BufferPool.t disk R).
  Notation handle := IxIndexHandle.handle.

Definition get_index_name (filename : string) (index_no : Z) : string :=
  (filename ++ "." ++ to_string index_no ++ ".idx")%string.

Definition exists_index (filename : string) (index_no : Z) : M pool bool :=
  BufferPool.on_disk (DiskManager.is_file (get_index_name filename index_no)).

(** [static_cast<int>((PAGE_SIZE - sizeof(IxPageHdr)) / (col_len + sizeof(Rid)) - 1)],
    computed in [size_t]. *)
Definition btree_order_of (col_len : Z) : option Z :=
  let d := to_u64 (col_len + sizeof_Rid) in
  if d =? 0 then None
  else Some (to_s32 (to_u64 ((PAGE_SIZE - sizeof_IxPageHdr) / d - 1))).

Definition new_file_hdr (col_type : ColType) (col_len order : Z) : IxFileHdr :=
  mkIxFileHdr IX_NO_PAGE IX_INIT_NUM_PAGES IX_INIT_ROOT_PAGE (coltype_int col_type) col_len order
    ((order + 1) * col_len) IX_INIT_ROOT_PAGE IX_INIT_ROOT_PAGE.

(** The page header of an empty leaf, written over the start of [page_buf];
    the padding keeps what it holds. *)
Definition leaf_page (prev next : Z) (page_buf : bytes) : option bytes :=
  m ← store32 page_buf off_next_free IX_NO_PAGE;
  m ← store32 m off_parent IX_NO_PAGE;
  m ← store32 m off_num_key 0;
  m ← mem_write m off_is_leaf [1];
  m ← store32 m off_prev_leaf prev;
  store32 m off_next_leaf next.

(** [page_buf] is the indeterminate contents of the local array. *)
Definition create_index (filename : string) (index_no : Z) (col_type : ColType) (col_len : Z)
    (page_buf : bytes) : M pool unit :=
  let ix_name := get_index_name filename index_no in
  assert (0 <=? index_no) ;;;
  BufferPool.on_disk (DiskManager.create_file ix_name) ;;;
  let* fd := BufferPool.on_disk (DiskManager.open_file ix_name) in
  if IX_MAX_COL_LEN <? col_len then throw (InvalidColLengthError col_len)
  else
    let* order := or_ub (btree_order_of col_len) in
    assert (2 <? order) ;;;
    BufferPool.on_disk
      (DiskManager.write_page fd IX_FILE_HDR_PAGE (enc_IxFileHdr (new_file_hdr col_type col_len order))) ;;;
    let* page_buf := or_ub (leaf_page IX_INIT_ROOT_PAGE IX_INIT_ROOT_PAGE page_buf) in
    BufferPool.on_disk (DiskManager.write_page fd IX_LEAF_HEADER_PAGE page_buf) ;;;
    let* page_buf := or_ub (leaf_page IX_LEAF_HEADER_PAGE IX_LEAF_HEADER_PAGE page_buf) in
    BufferPool.on_disk (DiskManager.write_page fd IX_INIT_ROOT_PAGE page_buf) ;;;
    BufferPool.on_disk (DiskManager.set_fd2pageno fd (IX_INIT_NUM_PAGES - 1)) ;;;
    BufferPool.on_disk (DiskManager.close_file fd).

Definition destroy_index (filename : string) (index_no : Z) : M pool unit :=
  BufferPool.on_disk (DiskManager.destroy_file (get_index_name filename index_no)).

(** The constructor of [IxIndexHandle]; [file_hdr_] before it is filled is
    never read. *)
Definition new_IxIndexHandle (fd : Z) : M pool handle :=
  BufferPool.on_disk
    (let* b := DiskManager.with_buf (replicate (Z.to_nat sizeof_IxFileHdr) 0)
        (DiskManager.read_page fd IX_FILE_HDR_PAGE sizeof_IxFileHdr ;;; gets fst) in
     let* n := DiskManager.get_fd2pageno fd in
     let* n' := or_ub (s32 (n + 1)) in
     DiskManager.set_fd2pageno fd n' ;;;
     ret (IxIndexHandle.mkHandle fd (dec_IxFileHdr b))).

Definition open_index (filename : string) (index_no : Z) : M pool handle :=
  let* fd := BufferPool.on_disk (DiskManager.open_file (get_index_name filename index_no)) in
  new_IxIndexHandle fd.

Definition close_index (ih : handle) : M pool unit :=
  BufferPool.on_disk
    (DiskManager.write_page (IxIndexHandle.fd_ ih) IX_FILE_HDR_PAGE
       (enc_IxFileHdr (IxIndexHandle.file_hdr_ ih))) ;;;
  BufferPool.FlushAllPages (IxIndexHandle.fd_ ih) ;;;
  BufferPool.on_disk (DiskManager.close_file (IxIndexHandle.fd_ ih)).

End ops.
End IxManager.
