(* ===== verification/IxIndexProofs.v ===== *)
(** The index on the abstract pool.

    [st_repr s a x] says that the state of an index handle is the handle [x]
    on a buffer pool that represents [a].  [on_node_read] and [on_node_write]
    run node operations on held pages, [sess_comm] lets several pages be held
    at once.  [ix_one a x l] is an index whose root is a leaf with the pairs
    [l]; the lemmas run every public operation on it. *)
From S2P Require Import Prelude.
From S2P Require Import Defs.
From S2P Require Import Replacer.
From S2P Require Import Disk.
From S2P Require Import BufferPool.
From S2P Require Import BufferPoolProofs.
From S2P Require Import PoolSpec.
From S2P Require Import Session.
From S2P Require Import IxNode.
From S2P Require Import IxOrder.
From S2P Require Import IxNodeProofs.
From S2P Require Import IxIndex.
Import IxDefs IxIndexHandle.

#[local] Open Scope prog_scope.

(** The page of the index with a number. *)
Definition page_of (x : handle) (p : Z) : PageId := mkPageId (fd_ x) p.

Definition root_of (x : handle) : PageId := page_of x (root_page (file_hdr_ x)).

(** The index is one leaf. *)
Record ix_one (a : Abs) (x : handle) (l : list (bytes * Rid)) : Prop := {
  io_wf : ix_wf (file_hdr_ x);
  io_idle : idle (root_of x) a;
  io_page : ∃ m nh, a_view a !! root_of x = Some m ∧ nd (file_hdr_ x) m nh l ∧
    n_leaf nh = true ∧ n_parent nh = IX_NO_PAGE;
  io_sorted : sorted (file_hdr_ x) l;
  io_keys : keys_ok (file_hdr_ x) l;
  io_max : zlen l <= btree_order (file_hdr_ x);
  io_pages : is_s32 (num_pages (file_hdr_ x) - 1)
}.

(** There is a frame for one more page. *)
Definition room a : Prop := Z.of_nat (size (a_held a)) < a_size a.

Lemma sess_comm a i f m j g m' : i ≠ j →
  sess (sess a i f m) j g m' = sess (sess a j g m') i f m.
Proof.
  intros Hij. apply Abs_eq; simpl; try done.
  - by rewrite insert_insert_ne.
  - by rewrite insert_insert_ne.
  - apply leibniz_equiv. set_solver.
Qed.

Section index.
  Context {D : Type} {PS : PageStore D} {PSL : PageStoreLaws D}
          {R : Type} {RP : Replacer R} {RPL : ReplacerLaws R}.
  Notation st := (IxIndexHandle.st D R).
  Implicit Types (s : st) (a : Abs) (x : handle) (f : Z) (i : PageId) (m : bytes).

Definition st_repr s a x : Prop := repr (bpm s) a ∧ ih s = x.

Lemma ix_on_pool_Ret {A} (c : M (BufferPool.t D R) A) s y p :
  c (bpm s) = (Ret y, p) → on_pool c s = (Ret y, set_bpm p s).
Proof. apply (zoom_Ret bpm set_bpm). Qed.

Lemma ix_set_bpm_same s : set_bpm (bpm s) s = s.
Proof. by destruct s. Qed.

(** ** Steps *)

(** An operation that only reads the page in a frame, pinned or not. *)
Lemma on_node_frame {A} s f p (g : IxFileHdr → M bytes A) r :
  BufferPool.frame (bpm s) f = Some p → g (hdr s) (data_ p) = (r, data_ p) → on_node f g s = (r, s).
Proof.
  intros Hp Hg. remember (data_ p) as m eqn:Hd. symmetry in Hd. unfold on_node. rewrite Hp, Hd, Hg.
  assert (BufferPool.set_frame f (set_data m p) (bpm s) = bpm s) as ->; [|by rewrite ix_set_bpm_same].
  unfold BufferPool.frame in Hp. case_match; [|done].
  destruct p as [pi pd pdr pp]. simpl in Hd. subst pd. unfold BufferPool.set_frame, set_data; simpl.
  rewrite list_insert_id by done. by destruct (bpm s).
Qed.

Lemma on_node_read {A} s a x i f n m (g : IxFileHdr → M bytes A) r :
  st_repr s a x → a_held a !! i = Some (f, n) → a_view a !! i = Some m →
  g (file_hdr_ x) m = (r, m) → on_node f g s = (r, s).
Proof.
  intros [Hr Hx] Hh Hm Hg. destruct (held_page (bpm s) a i f n m Hr Hh Hm) as (p & (_ & Hp & _) & _ & Hd & _).
  apply (on_node_frame s f p); [done|]. unfold hdr. by rewrite Hx, Hd.
Qed.

Lemma on_node_write {A} s a x i f m (g : IxFileHdr → M bytes A) y m' :
  st_repr s (sess a i f m) x → g (file_hdr_ x) m = (Ret y, m') → zlen m' = PAGE_SIZE →
  ∃ s', on_node f g s = (Ret y, s') ∧ st_repr s' (sess a i f m') x.
Proof.
  intros [Hr Hx] Hg Hl.
  destruct (held_page (bpm s) _ i f 1 m Hr (sess_held _ _ _ _) (sess_view _ _ _ _)) as (p & (_ & Hp & _) & _ & Hd & _).
  destruct (repr_store (bpm s) _ i f 1 m (λ _, Some m') m' Hr (sess_held _ _ _ _) (sess_view _ _ _ _) eq_refl Hl)
    as (q & Hrun & Hr'). rewrite sess_write in Hr'.
  exists (set_bpm q s). split; [|done]. unfold on_node. rewrite Hp. unfold hdr. rewrite Hx, Hd, Hg.
  unfold BufferPool.store, bind, BufferPool.get_page, or_ub, modify in Hrun. rewrite Hp in Hrun. by injection Hrun as <-.
Qed.

Lemma GetPageId_ok s a x i f n m :
  st_repr s a x → a_held a !! i = Some (f, n) → a_view a !! i = Some m → GetPageId f s = (Ret i, s).
Proof.
  intros [Hr _] Hh Hm. destruct (repr_get (bpm s) a i f n m Hr Hh Hm) as (p & Hp & Hid & _).
  unfold GetPageId. run (ix_on_pool_Ret _ _ _ _ Hp). rewrite ix_set_bpm_same. by rewrite <- Hid.
Qed.

Lemma GetPageNo_ok s a x i f n m :
  st_repr s a x → a_held a !! i = Some (f, n) → a_view a !! i = Some m →
  GetPageNo f s = (Ret (page_no i), s).
Proof. intros Hs Hh Hm. unfold GetPageNo. by run (GetPageId_ok s a x i f n m Hs Hh Hm). Qed.

Lemma FetchNode_ok s a x p m :
  st_repr s a x → idle (page_of x p) a → room a → a_view a !! page_of x p = Some m →
  ∃ f s', FetchNode p s = (Ret f, s') ∧ st_repr s' (a_hold (page_of x p) f 1 a) x ∧
    st_repr s' (sess a (page_of x p) f m) x.
Proof.
  intros [Hr Hx] Hi Hroom Hm.
  destruct (sess_fetch (bpm s) a _ m Hr Hi Hm Hroom) as (f & p' & Hrun & Hr1 & Hr2).
  exists f, (set_bpm p' s). split; [|done]. unfold FetchNode. step. rewrite Hx.
  by run (ix_on_pool_Ret _ _ _ _ Hrun).
Qed.

Lemma ix_unpin_dirty_ok s a x i f m :
  st_repr s (sess a i f m) x → idle i a →
  ∃ s', unpin f true s = (Ret tt, s') ∧ st_repr s' (a_set i m a) x.
Proof.
  intros Hs Hi. pose proof Hs as [Hr Hx].
  destruct (repr_unpin (bpm s) _ i f 1 true Hr (sess_held _ _ _ _)) as (p & Hrun & Hr'); [by left|].
  rewrite sess_release in Hr' by done. exists (set_bpm p s). split; [|done].
  unfold unpin, Unpin. step. run (GetPageId_ok s _ x i f 1 m Hs (sess_held _ _ _ _) (sess_view _ _ _ _)).
  by run (ix_on_pool_Ret _ _ _ _ Hrun).
Qed.

Lemma ix_unpin_clean_ok s a x i f m :
  st_repr s (a_hold i f 1 a) x → idle i a → a_view a !! i = Some m →
  ∃ s', unpin f false s = (Ret tt, s') ∧ st_repr s' a x.
Proof.
  intros Hs Hi Hm. pose proof Hs as [Hr Hx].
  destruct (repr_unpin (bpm s) _ i f 1 false Hr (hold_held _ _ _)) as (p & Hrun & Hr'); [right; apply Hi|].
  rewrite hold_release in Hr' by done. exists (set_bpm p s). split; [|done].
  unfold unpin, Unpin. step. run (GetPageId_ok s _ x i f 1 m Hs (hold_held _ _ _) Hm).
  by run (ix_on_pool_Ret _ _ _ _ Hrun).
Qed.

Lemma upd_hdr_repr s a x g :
  st_repr s a x → ∃ s', upd_hdr g s = (Ret tt, s') ∧ st_repr s' a (mkHandle (fd_ x) (g (file_hdr_ x))).
Proof. intros [Hr <-]. eexists. by split. Qed.

Lemma gets_hdr s a x : st_repr s a x → hdr s = file_hdr_ x.
Proof. intros [_ Hx]. unfold hdr. by rewrite Hx. Qed.

(** ** An index that is one leaf *)

Section one.
  Context (a : Abs) (x : handle) (l : list (bytes * Rid)).
  Hypotheses (Hone : ix_one a x l) (Hroom : room a).
  Notation h := (file_hdr_ x).
  Notation i := (root_of x).

Lemma find_leaf_ok s n t m nh :
  st_repr s a x → a_view a !! i = Some m → nd h m nh l → n_leaf nh = true →
  ∃ f s', FindLeafPage (S n) t s = (Ret f, s') ∧ st_repr s' (a_hold i f 1 a) x ∧ st_repr s' (sess a i f m) x.
Proof.
  intros Hs Hm Hn Hleaf. pose proof (io_idle _ _ _ Hone) as Hi.
  destruct (FetchNode_ok s a x (root_page h) m Hs Hi Hroom Hm) as (f & s1 & Hf & H1 & H2).
  exists f, s1. split; [|done]. unfold FindLeafPage. rewrite bind_gets, (gets_hdr s a x Hs). run Hf. simpl.
  unfold IsLeafPage. rewrite (bind_Ret _ _ _ _ _ (on_node_read s1 (a_hold i f 1 a) x i f 1 m _ _ H1 (hold_held _ _ _) Hm
    (IsLeafPage_ok h m nh l Hn))). by rewrite Hleaf.
Qed.

(** The key of a call and the memory it is in. *)
Definition is_key (t tk : bytes) : Prop :=
  slice t 0 (col_len h) = tk ∧ col_len h <= zlen t ∧ Forall is_u8 t ∧ key_ok h tk.

Lemma GetValue_one s n t tk res :
  st_repr s a x → is_key t tk →
  ∃ s', GetValue (S n) t res s =
      (Ret (match assoc h tk l with Some v => (true, res ++ [v]) | None => (false, res) end), s') ∧
    st_repr s' a x.
Proof.
  intros Hs (Ht & Htl & _ & Hk). destruct (io_page _ _ _ Hone) as (m & nh & Hm & Hn & Hleaf & _).
  destruct (find_leaf_ok s n t m nh Hs Hm Hn Hleaf) as (f & s1 & Hf & H1 & _).
  destruct (LeafLookup_ok h (io_wf _ _ _ Hone) m nh l t tk Hn (io_keys _ _ _ Hone) (io_sorted _ _ _ Hone) Ht Htl Hk)
    as (p & Hl & Hp).
  assert (Hv : lookup_value f t s1 = (Ret (assoc h tk l), s1)).
  { unfold lookup_value. apply (on_node_read s1 (a_hold i f 1 a) x i f 1 m); [done|apply hold_held|done|].
    run Hl. destruct (assoc h tk l) as [v|] eqn:Ha; [|done].
    destruct (Hp v eq_refl) as [k Hi].
    pose proof (read_rid_ok h (io_wf _ _ _ Hone) m nh l p k v Hn Hi) as Hrd. unfold IxNodeHandle.read_rid in Hrd.
    by run Hrd. }
  destruct (ix_unpin_clean_ok s1 a x i f m H1 (io_idle _ _ _ Hone) Hm) as (s2 & Hu & H2).
  exists s2. split; [|done]. unfold GetValue. run Hf. run Hv. run Hu. by destruct (assoc h tk l).
Qed.

(** The leaf after a change of its pairs. *)
Lemma one_changed m' nh l' :
  nd h m' nh l' → n_leaf nh = true → n_parent nh = IX_NO_PAGE → sorted h l' → keys_ok h l' →
  zlen l' <= btree_order h → ix_one (a_set i m' a) x l'.
Proof.
  intros Hn Hleaf Hp Hs Hk Hl. destruct Hone. split; try done. exists m', nh. simpl. by rewrite lookup_insert_eq.
Qed.

Lemma insert_one s n t tk v :
  st_repr s a x → is_key t tk → is_s32 (rid_page_no v) → is_s32 (rid_slot_no v) →
  zlen (ins h tk v l) <= btree_order h →
  ∃ s' m', insert_entry (S n) t v s = (Ret true, s') ∧ st_repr s' (a_set i m' a) x ∧
    ix_one (a_set i m' a) x (ins h tk v l).
Proof.
  intros Hs (Ht & Htl & Hu & Hk) H1 H2 Hmax. destruct (io_page _ _ _ Hone) as (m & nh & Hm & Hn & Hleaf & Hpar).
  destruct (find_leaf_ok s n t m nh Hs Hm Hn Hleaf) as (f & s1 & Hf & _ & Hs1).
  destruct (Insert_ok h (io_wf _ _ _ Hone) m nh l t tk Hn (io_keys _ _ _ Hone) (io_sorted _ _ _ Hone) Ht Htl Hk v)
    as (m' & Hins & Hn'); [done|done|done|apply Hone|].
  destruct (on_node_write s1 a x i f m (λ h, IxNodeHandle.Insert h t v) _ m' Hs1 Hins) as (s2 & Hw & Hs2); [apply Hn'|].
  destruct (ix_unpin_dirty_ok s2 a x i f m' Hs2 (io_idle _ _ _ Hone)) as (s3 & Hup & Hs3).
  exists s3, m'. split_and!; [|done|].
  - unfold insert_entry. run Hf. run Hw. rewrite bind_gets, (gets_hdr s2 _ x Hs2).
    unfold IxNodeHandle.GetMaxSize. rewrite (proj2 (Z.eqb_neq _ _)) by lia. simpl. rewrite bind_ret. by run Hup.
  - apply (one_changed m' nh); try done; [apply sorted_ins|apply keys_ok_ins]; try done; apply Hone.
Qed.

Lemma delete_one s n t tk :
  st_repr s a x → is_key t tk → del h tk l ≠ [] →
  ∃ s' m', delete_entry (S n) t s = (Ret (negb (zlen (del h tk l) =? zlen l)), s') ∧
    st_repr s' (a_set i m' a) x ∧ ix_one (a_set i m' a) x (del h tk l).
Proof.
  intros Hs (Ht & Htl & Hu & Hk) Hne. destruct (io_page _ _ _ Hone) as (m & nh & Hm & Hn & Hleaf & Hpar).
  pose proof (io_wf _ _ _ Hone) as Hwf.
  destruct (find_leaf_ok s n t m nh Hs Hm Hn Hleaf) as (f & s1 & Hf & Hr1 & Hs1).
  assert (Hsz : GetSize f s1 = (Ret (zlen l), s1)).
  { apply (on_node_read s1 (a_hold i f 1 a) x i f 1 m _ _ Hr1 (hold_held _ _ _) Hm). by apply (GetSize_ok h m nh). }
  destruct (Remove_ok h Hwf m nh l t tk Hn (io_keys _ _ _ Hone) (io_sorted _ _ _ Hone) Ht Htl Hk) as (m' & Hrem & Hn').
  destruct (on_node_write s1 a x i f m (λ h, IxNodeHandle.Remove h t) _ m' Hs1 Hrem) as (s2 & Hw & Hs2); [apply Hn'|].
  destruct (ix_unpin_dirty_ok s2 a x i f m' Hs2 (io_idle _ _ _ Hone)) as (s3 & Hup & Hs3).
  exists s3, m'. split_and!; [|done|].
  2:{ assert (length (del h tk l) <= length l)%nat.
      { clear. induction l as [|[k v] l' IH]; simpl; [lia|]. destruct (_ =? 0); simpl; lia. }
      apply (one_changed m' nh); try done; [apply sorted_del, Hone|apply keys_ok_del, Hone|].
      pose proof (io_max _ _ _ Hone). lia. }
  unfold delete_entry. run Hf. run Hsz. run Hw.
  destruct (zlen (del h tk l) =? zlen l); simpl; [by run Hup|].
  assert (Hrd : ∀ {A} (g : IxFileHdr → M bytes A) y, g h m' = (Ret y, m') → on_node f g s2 = (Ret y, s2)).
  { intros A g y Hg. by apply (on_node_read s2 (sess a i f m') x i f 1 m' g _ Hs2 (sess_held _ _ _ _) (sess_view _ _ _ _)). }
  unfold GetSize at 1. rewrite (bind_assoc (on_node f _)). run (Hrd _ (λ _, IxNodeHandle.GetSize) _ (GetSize_ok h m' nh _ Hn')).
  rewrite bind_assoc, bind_gets, (gets_hdr s2 _ x Hs2).
  destruct (IxNodeHandle.GetMinSize h <=? zlen (del h tk l)).
  - rewrite bind_assoc. run Hup. done.
  - rewrite bind_assoc. unfold IsRootPage. rewrite (bind_Ret _ _ s2 true s2).
    2:{ apply Hrd. unfold IxNodeHandle.IsRootPage. run (GetParent_ok h m' nh _ Hn'). by rewrite Hpar. }
    assert (Hadj : AdjustRoot f s2 = (Ret false, s2)).
    { unfold AdjustRoot, IsLeafPage, GetSize. run (Hrd _ (λ _, IxNodeHandle.IsLeafPage) _ (IsLeafPage_ok h m' nh _ Hn')).
      run (Hrd _ (λ _, IxNodeHandle.GetSize) _ (GetSize_ok h m' nh _ Hn')). rewrite Hleaf. simpl.
      destruct (del h tk l); [done|]. by rewrite (proj2 (Z.eqb_neq _ _)) by (simpl; lia). }
    rewrite bind_assoc. run Hadj. rewrite bind_assoc. run Hup. done.
Qed.

End one.

End index.
