(* ===== verification/IxFileProofs.v ===== *)
(** Index files: what [IxManager::create_index] writes, and that [open_index]
    finds an empty index in it. *)
From S2P Require Import Prelude.
From S2P Require Import Defs.
From S2P Require Import Replacer.
From S2P Require Import Disk.
From S2P Require Import BufferPool.
From S2P Require Import BufferPoolProofs.
From S2P Require Import PoolSpec.
From S2P Require Import Session.
From S2P Require Import RmManager.
From S2P Require Import IxNode.
From S2P Require Import IxOrder.
From S2P Require Import IxNodeProofs.
From S2P Require Import IxIndex.
From S2P Require Import IxManager.
From S2P Require Import IxIndexProofs.
Import IxDefs IxIndexHandle IxManager.

#[local] Open Scope prog_scope.

(** ** Several writes to one file *)

Lemma slice_write_left (m : bytes) pos bs off k :
  0 <= off → 0 <= k → off + k <= zlen m → off + k <= pos → slice (write_at m pos bs) off k = slice m off k.
Proof.
  intros Ho Hk Hl Hp. apply list_eq. intros j. rewrite !lookup_slice by lia. case_decide; [|done].
  rewrite write_at_lookup, decide_False, decide_True by lia. done.
Qed.

Lemma slice_write_here (m : bytes) pos bs : 0 <= pos → slice (write_at m pos bs) pos (zlen bs) = bs.
Proof.
  intros Hp. apply list_eq. intros j. rewrite lookup_slice by lia. case_decide.
  - rewrite write_at_lookup, decide_True by lia. f_equal. lia.
  - symmetry. apply lookup_ge_None. lia.
Qed.

(** ** The header and the pages of a new index *)

(** Lengths that [create_table] lets a column of that type have. *)
Definition len_ok (ty : ColType) (len : Z) : Prop :=
  1 <= len <= IX_MAX_COL_LEN ∧ (ty ≠ TYPE_STRING → len = 4).

Lemma btree_order_ok len :
  1 <= len <= IX_MAX_COL_LEN →
  ∃ order, btree_order_of len = Some order ∧ 2 < order <= 4096 ∧
    sizeof_IxPageHdr + (order + 1) * (len + sizeof_Rid) <= PAGE_SIZE.
Proof.
  unfold btree_order_of, IX_MAX_COL_LEN, sizeof_Rid, sizeof_IxPageHdr, PAGE_SIZE. intros Hl.
  assert (∀ z, 0 <= z < 2 ^ 64 → to_u64 z = z) as Hu by (intros; unfold to_u64; by apply Z.mod_small).
  rewrite (Hu (len + 8)) by lia. rewrite (proj2 (Z.eqb_neq _ _)) by lia.
  pose proof (Z.mul_div_le (4096 - 24) (len + 8) ltac:(lia)) as H1.
  assert (7 <= (4096 - 24) / (len + 8)) by (apply Z.div_le_lower_bound; lia).
  assert ((4096 - 24) / (len + 8) <= 4072) by (apply Z.div_le_upper_bound; lia).
  rewrite Hu by lia. rewrite to_s32_id by (unfold is_s32; lia).
  eexists. split; [done|]. split; [lia|]. nia.
Qed.

Lemma new_hdr_wf ty len order :
  len_ok ty len → 2 < order → sizeof_IxPageHdr + (order + 1) * (len + sizeof_Rid) <= PAGE_SIZE →
  ix_wf (new_file_hdr ty len order).
Proof.
  intros [Hl H4] Ho Hf. split; simpl; try done.
  - destruct ty; simpl; eauto.
  - intros Hty. apply H4. by intros ->.
Qed.

Definition ix_hdr_s32 (h : IxFileHdr) : Prop :=
  is_s32 (first_free_page_no h) ∧ is_s32 (num_pages h) ∧ is_s32 (root_page h) ∧ is_s32 (col_type h) ∧
  is_s32 (col_len h) ∧ is_s32 (btree_order h) ∧ is_s32 (keys_size h) ∧ is_s32 (first_leaf h) ∧ is_s32 (last_leaf h).

Lemma ix_dec_enc_hdr h : ix_hdr_s32 h → dec_IxFileHdr (enc_IxFileHdr h) = h.
Proof.
  intros (H1 & H2 & H3 & H4 & H5 & H6 & H7 & H8 & H9). destruct h; simpl in *.
  assert (Hw : ∀ b z, b = enc32 z → is_s32 z → dec32 b = z).
  { intros ? z -> Hz. rewrite dec32_enc32. by apply to_s32_id. }
  unfold dec_IxFileHdr. f_equal; apply Hw; done.
Qed.

Lemma new_hdr_s32 ty len order : len_ok ty len → 2 < order <= 4096 → ix_hdr_s32 (new_file_hdr ty len order).
Proof.
  intros [Hl _] Ho. unfold IX_MAX_COL_LEN in Hl.
  unfold ix_hdr_s32, is_s32; simpl. unfold IX_NO_PAGE, IX_INIT_NUM_PAGES, IX_INIT_ROOT_PAGE.
  assert (0 <= coltype_int ty < 3) by (destruct ty; simpl; lia). split_and!; try lia; nia.
Qed.

(** An empty leaf, whatever the array held before. *)
Lemma leaf_page_ok h prev next buf :
  zlen buf = PAGE_SIZE → Forall is_u8 buf → is_s32 prev → is_s32 next → 0 <= btree_order h + 1 →
  ∃ m, leaf_page prev next buf = Some m ∧ nd h m (mkNodeHdr IX_NO_PAGE true prev next) [] ∧ zlen m = PAGE_SIZE ∧ Forall is_u8 m.
Proof.
  intros Hl Hu Hp Hn Ho. unfold PAGE_SIZE in *.
  unfold leaf_page, off_next_free, off_parent, off_num_key, off_is_leaf, off_prev_leaf, off_next_leaf.
  set (m1 := splice buf 0 (enc32 IX_NO_PAGE)). set (m2 := splice m1 4 (enc32 IX_NO_PAGE)).
  set (m3 := splice m2 8 (enc32 0)). set (m4 := splice m3 12 [1]).
  set (m5 := splice m4 16 (enc32 prev)). set (m6 := splice m5 20 (enc32 next)).
  assert (Hl4 : ∀ z, zlen (enc32 z) = 4) by done.
  assert (Hlen : ∀ m o v, zlen m = 4096 → 0 <= o → o + 4 <= 4096 → zlen (splice m o (enc32 v)) = 4096).
  { intros m o v Hm H1 H2. by rewrite length_splice by (rewrite ?Hl4; lia). }
  assert (L1 : zlen m1 = 4096) by (apply Hlen; lia).
  assert (L2 : zlen m2 = 4096) by (apply Hlen; lia).
  assert (L3 : zlen m3 = 4096) by (apply Hlen; lia).
  assert (L4 : zlen m4 = 4096) by (unfold m4; rewrite length_splice by (change (zlen [1]) with 1; lia); done).
  assert (L5 : zlen m5 = 4096) by (apply Hlen; lia).
  assert (L6 : zlen m6 = 4096) by (apply Hlen; lia).
  exists m6. split.
  { rewrite store32_Some by lia. fold m1. cbn [mbind option_bind]. rewrite store32_Some by lia. fold m2. cbn [mbind option_bind].
    rewrite store32_Some by lia. fold m3. cbn [mbind option_bind]. rewrite mem_write_Some by (change (zlen [1]) with 1; lia). fold m4. cbn [mbind option_bind].
    rewrite store32_Some by lia. fold m5. cbn [mbind option_bind]. by rewrite store32_Some by lia. }
  assert (U6 : Forall is_u8 m6) by (repeat apply Forall_splice; try apply enc32_u8; try done; by repeat constructor).
  split; [|done]. split; simpl; try done.
  - unfold off_prev_leaf, m6. rewrite word_splice_other by (rewrite ?Hl4; lia). apply (word_splice_same m4 16 prev); (lia || done).
  - apply (word_splice_same m5 20 next); (lia || done).
Qed.

(** What the bytes of an index file start with. *)
Record ix_file (data : bytes) (h : IxFileHdr) (m1 m2 : bytes) : Prop := {
  xf_hdr : slice data 0 sizeof_IxFileHdr = enc_IxFileHdr h;
  xf_leaf_hdr : slice data (IX_LEAF_HEADER_PAGE * PAGE_SIZE) PAGE_SIZE = m1;
  xf_root : slice data (IX_INIT_ROOT_PAGE * PAGE_SIZE) PAGE_SIZE = m2;
  xf_len : zlen data = IX_INIT_NUM_PAGES * PAGE_SIZE }.

Lemma three_writes h m1 m2 :
  zlen m1 = PAGE_SIZE → zlen m2 = PAGE_SIZE →
  ix_file (write_at (write_at (write_at [] (IX_FILE_HDR_PAGE * PAGE_SIZE) (enc_IxFileHdr h))
    (IX_LEAF_HEADER_PAGE * PAGE_SIZE) m1) (IX_INIT_ROOT_PAGE * PAGE_SIZE) m2) h m1 m2.
Proof.
  unfold IX_FILE_HDR_PAGE, IX_LEAF_HEADER_PAGE, IX_INIT_ROOT_PAGE, PAGE_SIZE. intros H1 H2.
  set (bs := enc_IxFileHdr h). assert (Hb : zlen bs = 36) by done.
  set (d1 := write_at [] (0 * 4096) bs). set (d2 := write_at d1 (1 * 4096) m1).
  assert (L1 : zlen d1 = 36) by (unfold d1; rewrite write_at_length by lia; simpl; lia).
  assert (L2 : zlen d2 = 8192) by (unfold d2; rewrite write_at_length by lia; lia).
  split; unfold sizeof_IxFileHdr, IX_LEAF_HEADER_PAGE, IX_INIT_ROOT_PAGE, IX_INIT_NUM_PAGES, PAGE_SIZE.
  - rewrite slice_write_left by lia. unfold d2. rewrite slice_write_left by lia.
    replace 36 with (zlen bs). by apply (slice_write_here [] (0 * 4096)).
  - rewrite slice_write_left by lia. pose proof (slice_write_here d1 (1 * 4096) m1 ltac:(lia)) as E. by rewrite H1 in E.
  - pose proof (slice_write_here d2 (2 * 4096) m2 ltac:(lia)) as E. by rewrite H2 in E.
  - rewrite write_at_length by lia. lia.
Qed.

Section files.
  Context {F : Type} `{PL : PosixLaws F} {R : Type} {RP : Replacer R} {RPL : ReplacerLaws R}.
  Notation disk := (DiskManager.t F).
  Notation pool := (BufferPool.t (DiskManager.t F) R).
  Implicit Types (d : disk) (s : pool) (a : Abs).

(** *** [create_index] *)

(** What a new file [i] of name [fn] leaves of the disk [d0]. *)
Record file_made d0 d (fn : string) (i : Z) : Prop := {
  fm_inv : dm_inv d;
  fm_closed : DiskManager.path2fd_ d !! fn = None;
  fm_dir : fs_dir (DiskManager.os d) fn = Some i;
  fm_new y : fs_ino (DiskManager.os d0) y ≠ Some i;
  fm_ino y : fs_ino (DiskManager.os d) y = fs_ino (DiskManager.os d0) y;
  fm_data y : y ≠ i → fs_data (DiskManager.os d) y = fs_data (DiskManager.os d0) y;
  fm_free : fs_free (DiskManager.os d) DiskManager.MAX_FD;
  fm_next y : is_Some (fs_ino (DiskManager.os d0) y) → DiskManager.fd2pageno d y = DiskManager.fd2pageno d0 y;
  fm_next32 y : is_s32 (DiskManager.fd2pageno d0 y + 1) → is_s32 (DiskManager.fd2pageno d y + 1) }.

(** The three writes of [create_index] to the file [i]. *)
Lemma ix_writes_ok d fd i h m1 m2 :
  dm_inv d → fs_ino (DiskManager.os d) fd = Some i →
  ∃ o3 o4 o5, DiskManager.write_page fd IX_FILE_HDR_PAGE (enc_IxFileHdr h) d = (Ret tt, DiskManager.set_os o3 d) ∧
    DiskManager.write_page fd IX_LEAF_HEADER_PAGE m1 (DiskManager.set_os o3 d) = (Ret tt, DiskManager.set_os o4 d) ∧
    DiskManager.write_page fd IX_INIT_ROOT_PAGE m2 (DiskManager.set_os o4 d) = (Ret tt, DiskManager.set_os o5 d) ∧
    fs_data o5 i = write_at (write_at (write_at (fs_data (DiskManager.os d) i) (IX_FILE_HDR_PAGE * PAGE_SIZE) (enc_IxFileHdr h))
      (IX_LEAF_HEADER_PAGE * PAGE_SIZE) m1) (IX_INIT_ROOT_PAGE * PAGE_SIZE) m2 ∧
    (∀ y, y ≠ i → fs_data o5 y = fs_data (DiskManager.os d) y) ∧
    (∀ y, fs_ino o5 y = fs_ino (DiskManager.os d) y) ∧ (∀ path, fs_dir o5 path = fs_dir (DiskManager.os d) path) ∧
    dm_inv (DiskManager.set_os o5 d).
Proof.
  intros Hd Hi.
  destruct (dm_write_raw d fd IX_FILE_HDR_PAGE (enc_IxFileHdr h) i Hd Hi) as (o3 & W3 & D3 & E3 & I3 & P3 & V3); [done|].
  destruct (dm_write_raw (DiskManager.set_os o3 d) fd IX_LEAF_HEADER_PAGE m1 i V3) as (o4 & W4 & D4 & E4 & I4 & P4 & V4);
    [by simpl; rewrite I3|done|].
  destruct (dm_write_raw (DiskManager.set_os o4 d) fd IX_INIT_ROOT_PAGE m2 i V4)
    as (o5 & W5 & D5 & E5 & I5 & P5 & V5); [by simpl; rewrite I4; simpl; rewrite I3|done|].
  simpl DiskManager.os in *. exists o3, o4, o5. split_and!; try done.
  - by rewrite D5, D4, D3.
  - intros y Hy. by rewrite E5, E4, E3.
  - intros y. by rewrite I5, I4, I3.
  - intros path. by rewrite P5, P4, P3.
Qed.

Lemma fd_bounds fd : 0 <= fd < DiskManager.MAX_FD → DiskManager.fd_in_bounds fd = true.
Proof. intros. unfold DiskManager.fd_in_bounds. rewrite andb_true_iff, Z.leb_le, Z.ltb_lt. lia. Qed.

Lemma create_index_ok s fn no ty len buf (d0 := BufferPool.disk_manager_ s) (name := get_index_name fn no) :
  dm_inv d0 → 0 <= no → len_ok ty len → zlen buf = PAGE_SIZE → Forall is_u8 buf →
  sys_stat name (DiskManager.os d0) = None → DiskManager.path2fd_ d0 !! name = None →
  fs_free (DiskManager.os d0) DiskManager.MAX_FD →
  ∃ d i order m1 m2, IxManager.create_index fn no ty len buf s = (Ret tt, BufferPool.set_disk d s) ∧
    file_made d0 d name i ∧ ix_file (fs_data (DiskManager.os d) i) (new_file_hdr ty len order) m1 m2 ∧
    btree_order_of len = Some order ∧ 2 < order <= 4096 ∧ ix_wf (new_file_hdr ty len order) ∧
    nd (new_file_hdr ty len order) m1 (mkNodeHdr IX_NO_PAGE true 2 2) [] ∧
    nd (new_file_hdr ty len order) m2 (mkNodeHdr IX_NO_PAGE true 1 1) [].
Proof.
  intros Hd0 Hno Hlen Hbl Hbu Hst Hp Hfree.
  destruct (btree_order_ok len (proj1 Hlen)) as (order & Hord & Ho & Hfit).
  pose proof (new_hdr_wf ty len order Hlen (proj1 Ho) Hfit) as Hwf. set (h := new_file_hdr ty len order) in *.
  destruct (leaf_page_ok h 2 2 buf Hbl Hbu) as (m1 & Hm1 & Hn1 & Hl1 & Hu1); [by unfold is_s32; lia..|simpl; lia|].
  destruct (leaf_page_ok h 1 1 m1 Hl1 Hu1) as (m2 & Hm2 & Hn2 & Hl2 & Hu2); [by unfold is_s32; lia..|simpl; lia|].
  destruct (dm_create_ok d0 name Hd0 Hst Hfree) as (o1 & i & Hcr & Hnew & Hdi & Hdo & Hio & Hdir & Hfr & Hd1).
  set (d1 := DiskManager.set_os o1 d0) in *.
  destruct (dm_open_ok d1 name i Hd1 Hp Hdir) as (fd & o2 & Hop & Hfd & Hnone & Hdat2 & Hino2 & Hdir2 & Hd2);
    [intros y; simpl; rewrite Hio; apply Hnew|done|].
  set (d2 := DiskManager.set_paths _ _ (DiskManager.set_os o2 d1)) in Hop.
  assert (Hd2' : dm_inv d2) by done.
  assert (Hi2 : fs_ino (DiskManager.os d2) fd = Some i) by (simpl; by rewrite Hino2, decide_True).
  destruct (ix_writes_ok d2 fd i h m1 m2 Hd2' Hi2) as (o3 & o4 & o5 & W3 & W4 & W5 & D5 & E5 & I5 & P5 & V5).
  simpl DiskManager.os in *.
  assert (Hi5 : fs_ino o5 fd = Some i) by by rewrite I5.
  destruct (close_ok o5 fd i Hi5) as (o6 & Hc & D6 & I6 & H6 & P6 & F6).
  set (d5 := DiskManager.set_os o5 d2) in *.
  set (d6 := DiskManager.set_pageno (<[fd := IX_INIT_NUM_PAGES - 1]> (DiskManager.fd2pageno_ d5)) d5).
  assert (Hino : ∀ y, fs_ino o6 y = fs_ino (DiskManager.os d0) y).
  { intros y. rewrite I6, I5. simpl. rewrite Hino2. case_decide as Hy; [subst y; by rewrite <- Hnone, <- (Hio fd)|apply Hio]. }
  exists (DiskManager.set_paths (delete name (DiskManager.path2fd_ d6)) (delete fd (DiskManager.fd2path_ d6))
    (DiskManager.set_os o6 d6)), i, order, m1, m2.
  split; [|split; [|split; [|split; [|split; [|split; [|split]]]]]]; try done.
  - unfold IxManager.create_index. fold name. rewrite (proj2 (Z.leb_le _ _)) by done. rewrite (bind_Ret _ _ _ tt s) by done.
    run (on_disk_Ret _ s _ _ Hcr). run (on_disk_Ret _ (BufferPool.set_disk d1 s) _ _ Hop).
    rewrite (proj2 (Z.ltb_ge _ _)) by apply Hlen. rewrite (bind_or_ub _ _ _ order) by done.
    rewrite (proj2 (Z.ltb_lt _ _)) by lia. fold h.
    rewrite (bind_Ret _ _ _ tt (BufferPool.set_disk d2 s)) by done.
    run (on_disk_Ret _ (BufferPool.set_disk d2 s) _ _ W3). rewrite (bind_or_ub _ _ _ m1) by done.
    run (on_disk_Ret _ (BufferPool.set_disk (DiskManager.set_os o3 d2) s) _ _ W4). rewrite (bind_or_ub _ _ _ m2) by done.
    run (on_disk_Ret _ (BufferPool.set_disk (DiskManager.set_os o4 d2) s) _ _ W5).
    rewrite (bind_Ret _ _ _ tt (BufferPool.set_disk d6 s)).
    2:{ refine (on_disk_Ret _ (BufferPool.set_disk d5 s) tt d6 _). unfold DiskManager.set_fd2pageno. by rewrite fd_bounds. }
    refine (on_disk_Ret _ (BufferPool.set_disk d6 s) _ _ _). simpl BufferPool.disk_manager_.
    unfold DiskManager.close_file. step.
    replace (DiskManager.fd2path_ d6 !! fd) with (Some name) by (simpl; by rewrite lookup_insert_eq).
    unfold bind, DiskManager.sys. simpl DiskManager.os. rewrite Hc. done.
  - split; simpl; try done.
    + split; [simpl; apply H6, V5|]. simpl. intros y y' j. rewrite !Hino. apply Hd0.
    + apply lookup_delete_eq.
    + rewrite P6, P5. simpl. by rewrite Hdir2.
    + intros y Hy. rewrite D6, E5 by done. simpl. rewrite Hdat2. by apply Hdo.
    + apply F6. lia.
    + intros y Hy. unfold DiskManager.fd2pageno. simpl. rewrite lookup_insert_ne; [done|].
      intros <-. rewrite <- Hio, Hnone in Hy. by destruct Hy.
    + intros y Hy. unfold DiskManager.fd2pageno in *. simpl. rewrite lookup_insert. case_decide; [|done].
      simpl. unfold is_s32, IX_INIT_NUM_PAGES. lia.
  - simpl. rewrite D6, D5. simpl. rewrite Hdat2. simpl. rewrite Hdi. by apply three_writes.
Qed.

(** *** [open_index] *)

Lemma open_index_ok s fn no i h m1 m2 (d0 := BufferPool.disk_manager_ s) (name := get_index_name fn no) :
  dm_inv d0 → DiskManager.path2fd_ d0 !! name = None → fs_dir (DiskManager.os d0) name = Some i →
  (∀ y, fs_ino (DiskManager.os d0) y ≠ Some i) → fs_free (DiskManager.os d0) DiskManager.MAX_FD →
  ix_hdr_s32 h → ix_file (fs_data (DiskManager.os d0) i) h m1 m2 →
  (∀ y, is_s32 (DiskManager.fd2pageno d0 y + 1)) →
  ∃ fd d, IxManager.open_index fn no s = (Ret (mkHandle fd h), BufferPool.set_disk d s) ∧
    0 <= fd < DiskManager.MAX_FD ∧ fs_ino (DiskManager.os d0) fd = None ∧ dm_inv d ∧
    fs_ino (DiskManager.os d) fd = Some i ∧
    (∀ y, y ≠ fd → fs_ino (DiskManager.os d) y = fs_ino (DiskManager.os d0) y) ∧
    (∀ y, fs_data (DiskManager.os d) y = fs_data (DiskManager.os d0) y) ∧
    (∀ y, y ≠ fd → DiskManager.fd2pageno d y = DiskManager.fd2pageno d0 y).
Proof.
  intros Hd Hp Hdir Hno Hfree Hs Hf Hn32.
  destruct (dm_open_ok d0 name i Hd Hp Hdir Hno Hfree) as (fd & o & Hop & Hfd & Hnone & Hdat & Hino & Hdo & Hinv).
  set (d1 := DiskManager.set_paths _ _ _) in Hop.
  assert (fs_ino (DiskManager.os d1) fd = Some i) as Hi1 by (simpl; by rewrite Hino, decide_True).
  destruct (dm_read_raw d1 fd IX_FILE_HDR_PAGE sizeof_IxFileHdr (replicate (Z.to_nat sizeof_IxFileHdr) 0) i Hinv Hi1)
    as (o2 & Hrd & Hdat2 & Hino2 & Hdo2 & Hinv2); [done|done|done|simpl; rewrite Hdat, (xf_len _ _ _ _ Hf); done|].
  unfold IX_FILE_HDR_PAGE in Hrd at 2. rewrite Z.mul_0_l in Hrd.
  simpl DiskManager.os in Hrd. rewrite Hdat, (xf_hdr _ _ _ _ Hf) in Hrd.
  set (d2 := DiskManager.set_os o2 d1) in *.
  pose proof (fd_bounds fd Hfd) as Hb.
  exists fd, (DiskManager.set_pageno (<[fd := DiskManager.fd2pageno d2 fd + 1]> (DiskManager.fd2pageno_ d2)) d2).
  split_and!; try done; try lia.
  - unfold IxManager.open_index. fold name. run (on_disk_Ret _ s _ _ Hop).
    unfold new_IxIndexHandle. refine (on_disk_Ret _ (BufferPool.set_disk d1 s) _ _ _).
    change (BufferPool.disk_manager_ (BufferPool.set_disk d1 s)) with d1.
    erewrite bind_Ret.
    2:{ unfold DiskManager.with_buf. unfold bind at 1. rewrite Hrd. done. }
    cbn beta. cbn [fst]. rewrite (ix_dec_enc_hdr h Hs).
    unfold DiskManager.get_fd2pageno. rewrite Hb. step.
    rewrite (bind_or_ub _ _ _ (DiskManager.fd2pageno d2 fd + 1)) by (apply s32_Some, Hn32).
    unfold DiskManager.set_fd2pageno. rewrite Hb. done.
  - simpl. by rewrite Hino2.
  - intros y Hy. simpl. rewrite Hino2. simpl. by rewrite Hino, decide_False.
  - intros y. simpl. rewrite Hdat2. simpl. by rewrite Hdat.
  - intros y Hy. unfold DiskManager.fd2pageno. simpl. by rewrite lookup_insert_ne.
Qed.

(** *** Both *)

(** Pages of a file that the pool has not seen join the abstract pool. *)
Lemma repr_more_pages s a (W : gmap PageId bytes) :
  repr s a → (∀ j m, W !! j = Some m → a_view a !! j = None ∧ on_disk_at (BufferPool.disk_manager_ s) j = Some m ∧
    valid_id (BufferPool.disk_manager_ s) j) →
  repr s (mkAbs (W ∪ a_view a) (a_held a) (a_mod a) (a_next a) (a_open a) (a_size a)).
Proof.
  intros Hr HW. destruct Hr as [Hi Hv Ht Hh Hp Hrel Hn Ho Hs Hm].
  assert (Hsome : ∀ j, is_Some (a_view a !! j) → is_Some ((W ∪ a_view a) !! j)).
  { intros j [m Hj]. rewrite lookup_union, Hj. destruct (W !! j); simpl; eauto. }
  split; simpl; try done.
  - intros j m. rewrite lookup_union_Some_raw. intros [Hj|[_ Hj]]; [|by apply Hv].
    destruct (HW j m Hj) as (Hnone & Hd & Hva). split; [|done]. unfold view.
    destruct (BufferPool.page_table_ s !! j) eqn:E; [|done].
    destruct (Ht j ltac:(eauto)) as [y Hy]. congruence.
  - intros j Hj. by apply Hsome, Ht.
  - intros j f n Hj. destruct (Hh j f n Hj) as (? & ? & ? & ?). eauto.
Qed.

(** The pages that are read through the pool. *)
Definition new_pages (x : handle) (m1 m2 : bytes) : gmap PageId bytes :=
  <[page_of x IX_INIT_ROOT_PAGE := m2]> {[page_of x IX_LEAF_HEADER_PAGE := m1]}.

Lemma new_pages_other x m1 m2 j : BufferPool.fd j ≠ fd_ x → new_pages x m1 m2 !! j = None.
Proof. intros Hj. unfold new_pages. rewrite lookup_insert_ne, lookup_singleton_ne; [done|..]; by intros <-. Qed.

Lemma new_pages_on_disk d x i h m1 m2 j m :
  fs_ino (DiskManager.os d) (fd_ x) = Some i → 0 <= fd_ x < DiskManager.MAX_FD →
  ix_file (fs_data (DiskManager.os d) i) h m1 m2 → new_pages x m1 m2 !! j = Some m →
  BufferPool.fd j = fd_ x ∧ on_disk_at d j = Some m ∧ valid_id d j.
Proof.
  intros Hi Hfd Hf.
  assert (Hat : ∀ p, 0 <= p < IX_INIT_NUM_PAGES → ∀ m', slice (fs_data (DiskManager.os d) i) (p * PAGE_SIZE) PAGE_SIZE = m' →
    BufferPool.fd (page_of x p) = fd_ x ∧ on_disk_at d (page_of x p) = Some m' ∧ valid_id d (page_of x p)).
  { intros p Hp m' <-. split; [done|]. split; [|split; simpl; [eauto|lia]].
    unfold on_disk_at. simpl. unfold dm_page_at. rewrite Hi. simpl. rewrite (xf_len _ _ _ _ Hf).
    by rewrite decide_True by (unfold IX_INIT_NUM_PAGES, PAGE_SIZE in *; lia). }
  unfold new_pages. intros [[<- <-]|[_ [<- <-]%lookup_singleton_Some]]%lookup_insert_Some; apply Hat; try done; apply Hf.
Qed.

Lemma empty_index a x m prev next :
  ix_wf (file_hdr_ x) → is_s32 (num_pages (file_hdr_ x) - 1) → idle (root_of x) a → a_view a !! root_of x = Some m →
  nd (file_hdr_ x) m (mkNodeHdr IX_NO_PAGE true prev next) [] → ix_one a x [].
Proof.
  intros Hwf Hn Hi Hv Hnd. split; try done.
  - by exists m, (mkNodeHdr IX_NO_PAGE true prev next).
  - intros k v Hk. by apply elem_of_nil in Hk.
  - pose proof (wf_order _ Hwf). simpl. lia.
Qed.

(** A descriptor that is free has no pages in the pool. *)
Lemma free_fd s a fd p :
  repr s a → fs_ino (DiskManager.os (BufferPool.disk_manager_ s)) fd = None →
  (fd ∉ a_open a) ∧ a_view a !! mkPageId fd p = None ∧ idle (mkPageId fd p) a.
Proof.
  intros Hr Hnone.
  assert (Hv : a_view a !! mkPageId fd p = None).
  { apply eq_None_not_Some. intros [y Hy]. destruct (r_view _ _ Hr _ _ Hy) as [_ (Hs & _)].
    simpl in Hs. rewrite Hnone in Hs. by destruct Hs. }
  assert (Hh : a_held a !! mkPageId fd p = None).
  { destruct (a_held a !! mkPageId fd p) as [[f n]|] eqn:E; [|done]. exfalso.
    destruct (r_held _ _ Hr _ _ _ E) as (_ & _ & _ & [y Hy]). congruence. }
  split; [|split; [done|split; [done|]]].
  - intros Hin. destruct (r_open _ _ Hr _ Hin) as (Hs & _). rewrite Hnone in Hs. by destruct Hs.
  - intros Hin%(r_mod _ _ Hr). rewrite Hh in Hin. by destruct Hin.
Qed.

(** A new index file, opened: an empty index, and nothing else changes. *)
Lemma new_index_ok s a fn no ty len buf (d0 := BufferPool.disk_manager_ s) (name := get_index_name fn no) :
  repr s a → 0 <= no → len_ok ty len → zlen buf = PAGE_SIZE → Forall is_u8 buf →
  sys_stat name (DiskManager.os d0) = None → DiskManager.path2fd_ d0 !! name = None →
  fs_free (DiskManager.os d0) DiskManager.MAX_FD → (∀ y, is_s32 (a_next a y + 1)) →
  ∃ s1 s2 a2 x order, IxManager.create_index fn no ty len buf s = (Ret tt, s1) ∧
    IxManager.open_index fn no s1 = (Ret x, s2) ∧ repr s2 a2 ∧ ix_one a2 x [] ∧
    btree_order_of len = Some order ∧ file_hdr_ x = new_file_hdr ty len order ∧ (fd_ x ∉ a_open a) ∧
    (∀ j, BufferPool.fd j ≠ fd_ x → a_view a2 !! j = a_view a !! j) ∧
    a_held a2 = a_held a ∧ a_mod a2 = a_mod a ∧ a_open a2 = {[fd_ x]} ∪ a_open a ∧ a_size a2 = a_size a ∧
    (∀ y, y ∈ a_open a → a_next a2 y = a_next a y).
Proof.
  intros Hr Hno Hlen Hbl Hbu Hst Hp Hfree Hn32. pose proof (i_disk _ _ (r_inv _ _ Hr)) as Hd0.
  assert (Hnx : ∀ y, DiskManager.fd2pageno d0 y = a_next a y) by (intros y; by rewrite <- (r_next _ _ Hr)).
  destruct (create_index_ok s fn no ty len buf Hd0 Hno Hlen Hbl Hbu Hst Hp Hfree)
    as (d & i & order & m1 & m2 & Hc & Hm & Hf & Hord & Ho & Hwf & Hn1 & Hn2). fold d0 name in Hm.
  set (h := new_file_hdr ty len order) in *.
  destruct (open_index_ok (BufferPool.set_disk d s) fn no i h m1 m2) as
    (fd & d2 & Hop & Hfd & Hnone & Hd2 & Hi2 & Hio & Hdat & Hpn); simpl; try done; try apply Hm.
  { intros y. rewrite (fm_ino _ _ _ _ Hm). apply Hm. }
  { by apply new_hdr_s32. }
  { intros y. apply (fm_next32 _ _ _ _ Hm). by rewrite Hnx. }
  simpl in Hnone, Hio, Hdat, Hpn. rewrite (fm_ino _ _ _ _ Hm) in Hnone. set (x := mkHandle fd h).
  assert (Hne : ∀ y, is_Some (fs_ino (DiskManager.os d0) y) → y ≠ fd) by (intros y [j Hj] ->; congruence).
  assert (Hopen : ∀ y, y ∈ a_open a → is_Some (fs_ino (DiskManager.os d0) y)) by (intros y Hy; apply (r_open _ _ Hr y Hy)).
  set (a1 := mkAbs (a_view a) (a_held a) (a_mod a) (DiskManager.fd2pageno d2) ({[fd]} ∪ a_open a) (a_size a)).
  assert (Hr1 : repr (BufferPool.set_disk d2 s) a1).
  { eapply (repr_same_pages s a); try done; fold d0.
    - intros y Hy. rewrite Hio, (fm_ino _ _ _ _ Hm); [done|by apply Hne].
    - intros y j Hj. rewrite Hdat, (fm_data _ _ _ _ Hm); [done|]. intros ->. by apply (fm_new _ _ _ _ Hm) in Hj.
    - intros y Hy. rewrite Hpn, (fm_next _ _ _ _ Hm); [done|done|by apply Hne].
    - intros y [->%elem_of_singleton|Hy]%elem_of_union; [split; [eauto|lia]|].
      destruct (r_open _ _ Hr y Hy) as (Hs & Hb). split; [|done]. rewrite Hio, (fm_ino _ _ _ _ Hm); [done|by apply Hne]. }
  assert (Hr2 : repr (BufferPool.set_disk d2 s) (mkAbs (new_pages x m1 m2 ∪ a_view a) (a_held a) (a_mod a)
    (DiskManager.fd2pageno d2) ({[fd]} ∪ a_open a) (a_size a))).
  { apply (repr_more_pages _ a1 _ Hr1). intros [f p] m Hj.
    destruct (new_pages_on_disk d2 x i h m1 m2 _ m Hi2 Hfd ltac:(by rewrite Hdat) Hj) as (Hjf & Hjd).
    split; [|done]. simpl in Hjf. subst f. by apply (free_fd s a fd p). }
  destruct (free_fd s a fd IX_INIT_ROOT_PAGE Hr Hnone) as (Hfree' & _ & Hidle).
  eexists _, _, _, x, order. split; [exact Hc|]. split; [exact Hop|]. split; [exact Hr2|]. split; [|split_and!; try done].
  - apply (empty_index _ x m2 1 1); try done. apply lookup_union_Some_l, lookup_insert_eq.
  - intros j Hj. simpl. apply lookup_union_r. by apply new_pages_other.
  - intros y Hy. simpl. rewrite Hpn, (fm_next _ _ _ _ Hm), Hnx; [done|by apply Hopen|by apply Hne, Hopen].
Qed.

End files.
