(* ===== verification/IxSplit.v ===== *)
(** [Split] of a leaf: the pages it reads and writes, and what it leaves. *)
From S2P Require Import Prelude.
From S2P Require Import Defs.
From S2P Require Import Replacer.
From S2P Require Import Disk.
From S2P Require Import BufferPool.
From S2P Require Import BufferPoolProofs.
From S2P Require Import PoolSpec.
From S2P Require Import Session.
From S2P Require Import IxNode.
From S2P Require Import IxOrder.
From S2P Require Import IxNodeProofs.
From S2P Require Import IxIndex.
From S2P Require Import IxIndexProofs.
Import IxDefs IxIndexHandle.

#[local] Open Scope prog_scope.

(** ** Node headers *)

Section header.
  Variable h : IxFileHdr.
  Hypothesis Hwf : ix_wf h.
  Implicit Types (m : bytes) (l : list (bytes * Rid)) (nh : NodeHdr).

#[local] Transparent zero_page.

(** A page that [NewPage] gives. *)
Lemma nd_zero_page : nd h zero_page (mkNodeHdr 0 false 0 0) [].
Proof.
  pose proof zero_page_length as Hl. unfold PAGE_SIZE in Hl. pose proof (wf_order _ Hwf).
  assert (Hz : ∀ off k, 0 <= off → 0 <= k → off + k <= 4096 → slice zero_page off k = replicate (Z.to_nat k) 0).
  { intros off k H1 H2 H3. apply list_eq. intros i. rewrite lookup_slice by lia. case_decide.
    - rewrite lookup_replicate_2 by lia. unfold zero_page. rewrite lookup_replicate_2 by (unfold PAGE_SIZE; lia). done.
    - symmetry. apply lookup_ge_None. rewrite length_replicate. lia. }
  split; try (rewrite Hz by (vm_compute; intros; discriminate); by vm_compute).
  - done.
  - apply zero_page_u8.
  - simpl. lia.
  - done.
Qed.

#[local] Opaque zero_page.

Lemma nd_store_free m nh l v : nd h m nh l →
  ∃ m', IxNodeHandle.store_word off_next_free v m = (Ret tt, m') ∧ nd h m' nh l.
Proof.
  intros Hn. pose proof (nd_len _ _ _ _ Hn) as Hlen.
  eexists. split; [apply store_word_ok; unfold off_next_free, PAGE_SIZE in *; lia|].
  assert (Hlenc : zlen (enc32 v) = 4) by done.
  unfold off_next_free, PAGE_SIZE in *.
  destruct Hn. split; unfold off_num_key, off_parent, off_is_leaf, off_prev_leaf, off_next_leaf, PAGE_SIZE in *;
    rewrite ?slice_splice_disjoint by lia; try done.
  - rewrite length_splice by lia. done.
  - by apply Forall_splice; [|apply enc32_u8].
  - eapply (nd_pairs_same h Hwf m); [|done|done]. intros o k Ho Hk. apply slice_splice_disjoint; lia.
Qed.

Lemma nd_set_leaf m nh l b : nd h m nh l →
  ∃ m', IxNodeHandle.set_is_leaf b m = (Ret tt, m') ∧
    nd h m' (mkNodeHdr (n_parent nh) b (n_prev nh) (n_next nh)) l.
Proof.
  intros Hn. pose proof (nd_len _ _ _ _ Hn) as Hlen. unfold PAGE_SIZE in *.
  assert (Hlenc : zlen [Z.b2z b] = 1) by done.
  eexists. split.
  { unfold IxNodeHandle.set_is_leaf, IxNodeHandle.store. rewrite mem_write_Some by (unfold off_is_leaf; lia). done. }
  destruct Hn. split; unfold off_num_key, off_parent, off_is_leaf, off_prev_leaf, off_next_leaf, PAGE_SIZE in *; simpl;
    rewrite ?slice_splice_disjoint by lia; try done.
  - rewrite length_splice by lia. done.
  - apply Forall_splice; [done|]. repeat constructor; by destruct b.
  - eapply (nd_pairs_same h Hwf m); [|done|done]. intros o k Ho Hk. apply slice_splice_disjoint; lia.
  - rewrite <- Hlenc at 1. by rewrite slice_splice_same by lia.
Qed.

End header.

(** ** Several pages held at once *)

Lemma a_bump_sess fd0 a i f m : a_bump fd0 (sess a i f m) = sess (a_bump fd0 a) i f m.
Proof. done. Qed.

Lemma a_set_sess a i f m k m' : i ≠ k → a_set k m' (sess a i f m) = sess (a_set k m' a) i f m.
Proof. intros Hne. apply Abs_eq; simpl; try done. by rewrite insert_insert_ne. Qed.

Lemma idle_sess a i f m k : i ≠ k → idle k a → idle k (sess a i f m).
Proof.
  intros Hne [H1 H2]. split; simpl; [by rewrite lookup_insert_ne|]. set_solver.
Qed.

(** The other held page of a nested session. *)
Lemma sess_inner_held a i f m j g z : i ≠ j → a_held (sess (sess a i f m) j g z) !! i = Some (f, 1).
Proof. intros Hne. simpl. rewrite lookup_insert_ne by done. apply lookup_insert_eq. Qed.

Lemma sess_inner_view a i f m j g z : i ≠ j → a_view (sess (sess a i f m) j g z) !! i = Some m.
Proof. intros Hne. simpl. rewrite lookup_insert_ne by done. apply lookup_insert_eq. Qed.

Lemma size_sess a i f m : idle i a → size (a_held (sess a i f m)) = S (size (a_held a)).
Proof. intros [Hh _]. simpl. by rewrite map_size_insert, Hh. Qed.

Section split.
  Context {D : Type} {PS : PageStore D} {PSL : PageStoreLaws D}
          {R : Type} {RP : Replacer R} {RPL : ReplacerLaws R}.
  Notation st := (IxIndexHandle.st D R).
  Implicit Types (s : st) (a : Abs) (x : handle) (f : Z) (i : PageId) (m : bytes).

(** The handle after [CreateNode]. *)
Definition grown x : handle :=
  mkHandle (fd_ x) (set_num_pages (num_pages (file_hdr_ x) + 1) (file_hdr_ x)).

Lemma grown_wf x : ix_wf (file_hdr_ x) → ix_wf (file_hdr_ (grown x)).
Proof. intros []. by split. Qed.

Lemma grown_nd x m nh l : nd (file_hdr_ x) m nh l → nd (file_hdr_ (grown x)) m nh l.
Proof. intros []. by split. Qed.

Lemma CreateNode_ok s a x :
  st_repr s a x → fd_ x ∈ a_open a → 0 <= a_next a (fd_ x) → is_s32 (num_pages (file_hdr_ x) + 1) →
  a_view a !! a_new_id (fd_ x) a = None → room a →
  ∃ f s', CreateNode s = (Ret f, s') ∧
    st_repr s' (sess (a_bump (fd_ x) a) (a_new_id (fd_ x) a) f zero_page) (grown x).
Proof.
  intros Hs Hop Hnn H32 Hno Hroom. unfold CreateNode. rewrite bind_gets, (gets_hdr s a x Hs).
  rewrite (bind_or_ub _ _ _ (num_pages (file_hdr_ x) + 1)) by by apply s32_Some.
  destruct (upd_hdr_repr s a x (set_num_pages (num_pages (file_hdr_ x) + 1)) Hs) as (s1 & H1 & Hs1).
  run H1. rewrite bind_gets. fold (grown x) in Hs1. destruct Hs1 as [Hr1 Hx1]. rewrite Hx1.
  destruct (repr_new (bpm s1) a (mkPageId (fd_ x) INVALID_PAGE_ID) Hr1 Hop Hnn Hno Hroom) as (f & p & Hrun & Hr2).
  exists f, (set_bpm p s1). split; [|done].
  by run (ix_on_pool_Ret _ _ _ _ Hrun).
Qed.

(** Runs a node operation that writes the outermost page. *)
Lemma write_step {A} s a x i f m (g : IxFileHdr → M bytes A) (P : bytes → Prop) y :
  st_repr s (sess a i f m) x → (∃ m', g (file_hdr_ x) m = (Ret y, m') ∧ P m') →
  (∀ m', P m' → zlen m' = PAGE_SIZE) →
  ∃ s' m', on_node f g s = (Ret y, s') ∧ st_repr s' (sess a i f m') x ∧ P m'.
Proof.
  intros Hs (m' & Hg & HP) Hl. destruct (on_node_write s a x i f m g y m' Hs Hg (Hl _ HP)) as (s' & Hw & Hs').
  eauto.
Qed.

(** A new node becomes a leaf with the pairs [l2] read from another page. *)
Lemma fill_leaf_ok s a x j g k r p l2 :
  ix_wf (file_hdr_ x) → st_repr s (sess a j g zero_page) x → is_s32 p →
  pairs_at (file_hdr_ x) k r l2 → zlen l2 <= btree_order (file_hdr_ x) + 1 →
  ∃ s1 s2 s3 s4 s5 m5,
    on_node g (λ _, IxNodeHandle.set_is_leaf true) s = (Ret tt, s1) ∧
    on_node g (λ _, IxNodeHandle.SetSize 0) s1 = (Ret tt, s2) ∧
    SetParentPageNo g p s2 = (Ret tt, s3) ∧
    store_word g off_next_free IX_NO_PAGE s3 = (Ret tt, s4) ∧
    on_node g (λ h, IxNodeHandle.insert_pairs h 0 k r (zlen l2)) s4 = (Ret tt, s5) ∧
    (∃ m2 m4, st_repr s2 (sess a j g m2) x ∧ st_repr s4 (sess a j g m4) x) ∧
    st_repr s5 (sess a j g m5) x ∧ nd (file_hdr_ x) m5 (mkNodeHdr p true 0 0) l2.
Proof.
  intros Hwf Hs Hp Hpa Hmax. set (h := file_hdr_ x) in *.
  assert (HL : ∀ nh l m', nd h m' nh l → zlen m' = PAGE_SIZE) by (intros ??? []; done).
  destruct (write_step s a x j g _ (λ _, IxNodeHandle.set_is_leaf true) _ tt Hs
    (nd_set_leaf h Hwf _ _ _ true (nd_zero_page h Hwf)) (HL _ _)) as (s1 & m1 & W1 & Hs1 & N1). simpl in N1.
  destruct (write_step s1 a x j g _ (λ _, IxNodeHandle.SetSize 0) _ tt Hs1
    (nd_SetSize h Hwf _ _ _ [] N1 ltac:(simpl; pose proof (wf_order _ Hwf); lia) ltac:(done)) (HL _ _)) as (s2 & m2 & W2 & Hs2 & N2).
  destruct (write_step s2 a x j g _ (λ _, IxNodeHandle.store_word off_parent p) _ tt Hs2
    (nd_store_hdr h Hwf _ _ _ off_parent p N2 Hp ltac:(left)) (HL _ _)) as (s3 & m3 & W3 & Hs3 & N3). simpl in N3.
  destruct (write_step s3 a x j g _ (λ _, IxNodeHandle.store_word off_next_free IX_NO_PAGE) _ tt Hs3
    (nd_store_free h Hwf _ _ _ IX_NO_PAGE N3) (HL _ _)) as (s4 & m4 & W4 & Hs4 & N4).
  destruct (write_step s4 a x j g _ (λ h, IxNodeHandle.insert_pairs h 0 k r (zlen l2)) _ tt Hs4
    (insert_pairs_ok h Hwf m4 _ [] l2 k r 0 N4 ltac:(lia) ltac:(simpl; lia) Hpa) (HL _ _)) as (s5 & m5 & W5 & Hs5 & N5).
  simpl in N5. rewrite app_nil_r in N5. exists s1, s2, s3, s4, s5, m5. split_and!; try done. by exists m2, m4.
Qed.

(** A page that does not exist is not in use. *)
Lemma absent_idle s a x j : st_repr s a x → a_view a !! j = None → idle j a.
Proof.
  intros [Hr _] Hv. assert (a_held a !! j = None) as Hh.
  { destruct (a_held a !! j) as [[f n]|] eqn:Hh; [|done].
    destruct (r_held _ _ Hr _ _ _ Hh) as (_ & _ & _ & [y Hy]). congruence. }
  split; [done|]. intros Hm%(r_mod _ _ Hr). destruct Hm. congruence.
Qed.

(** What a split needs: node [i] is a held leaf, its successor [k] is another
    node, the new page [j] does not exist, and there are frames for both. *)
Record splittable (a : Abs) (x : handle) (p f : Z) (m : bytes) (nh : NodeHdr) (l : list (bytes * Rid))
    (mn : bytes) (nhn : NodeHdr) (ln : list (bytes * Rid)) : Prop := {
  sp_wf : ix_wf (file_hdr_ x);
  sp_node : nd (file_hdr_ x) m nh l;
  sp_leaf : n_leaf nh = true;
  sp_old : is_Some (a_view a !! page_of x p);
  sp_old32 : is_s32 p;
  sp_idle : idle (page_of x p) a;
  sp_open : fd_ x ∈ a_open a;
  sp_next : 0 <= a_next a (fd_ x) < 2 ^ 31;
  sp_pages : is_s32 (num_pages (file_hdr_ x) + 1);
  sp_new : a_view a !! a_new_id (fd_ x) a = None;
  sp_succ : n_next nh ≠ IX_NO_PAGE ∧ n_next nh ≠ p;
  sp_sview : a_view a !! page_of x (n_next nh) = Some mn;
  sp_snode : nd (file_hdr_ x) mn nhn ln;
  sp_sidle : idle (page_of x (n_next nh)) a;
  sp_room : Z.of_nat (size (a_held a)) + 2 < a_size a
}.

(** The two parts of [Split], on the pages [i] and [j] held in frames [f] and
    [g]. *)
Section parts.
  Context (b : Abs) (y : handle) (i j : PageId) (f g : Z) (m : bytes) (nh : NodeHdr) (l : list (bytes * Rid)).
  Hypotheses (Hwf : ix_wf (file_hdr_ y)) (Hij : i ≠ j) (Hn : nd (file_hdr_ y) m nh l) (Hleaf : n_leaf nh = true).

(** The middle of the pairs. *)
Definition middle : nat := Z.to_nat (Z.quot (zlen l + 1) 2).

Lemma middle_le : (middle <= length l)%nat ∧ Z.quot (zlen l + 1) 2 = Z.of_nat middle.
Proof.
  unfold middle. rewrite Z.quot_div_nonneg by lia.
  pose proof (Z.div_mod (zlen l + 1) 2). pose proof (Z.mod_pos_bound (zlen l + 1) 2). split; lia.
Qed.

(** Reading the page that is held but not outermost. *)
Lemma inner_read {A} s z (gg : IxFileHdr → M bytes A) r :
  st_repr s (sess (sess b i f m) j g z) y → gg (file_hdr_ y) m = (r, m) → on_node f gg s = (r, s).
Proof.
  intros Hs Hg. eapply (on_node_read s _ y i f 1 m); [done|by apply sess_inner_held|by apply sess_inner_view|done].
Qed.

Lemma split_pairs_ok s :
  st_repr s (sess (sess b i f m) j g zero_page) y →
  ∃ s' m1 m2, split_pairs f g s = (Ret tt, s') ∧ st_repr s' (sess (sess b i f m1) j g m2) y ∧
    nd (file_hdr_ y) m1 nh (take middle l) ∧
    nd (file_hdr_ y) m2 (mkNodeHdr (n_parent nh) true 0 0) (drop middle l).
Proof.
  intros Hs. set (h := file_hdr_ y). destruct middle_le as [Hml Hmq].
  pose proof (nd_max _ _ _ _ Hn) as Hmax. fold h in Hmax.
  destruct (fill_leaf_ok s (sess b i f m) y j g (at_ptr m (IxNodeHandle.get_key h (Z.of_nat middle)))
    (at_ptr m (IxNodeHandle.get_rid h (Z.of_nat middle))) (n_parent nh) (drop middle l) Hwf Hs)
    as (s1 & s2 & s3 & s4 & s5 & m5 & W1 & W2 & W3 & W4 & W5 & (z2 & z4 & Hs2 & Hs4) & Hs5 & N5).
  { rewrite <- (nd_parent _ _ _ _ Hn). apply dec32_range. }
  { by apply (pairs_at_page h Hwf m nh l middle). }
  { rewrite length_drop. fold h. lia. }
  destruct (write_step s5 (sess b j g m5) y i f m (λ _, IxNodeHandle.SetSize (Z.of_nat middle)) (λ m', nd h m' nh (take middle l)) tt)
    as (s6 & m6 & W6 & Hs6 & N6).
  { rewrite sess_comm by done. done. }
  { destruct (nd_SetSize h Hwf m nh l (take middle l) Hn) as (m' & E & N).
    - rewrite length_take. lia.
    - intros o kk r Ho. apply lookup_take_Some in Ho as [Ho _]. by apply (nd_pair _ _ _ _ Hn).
    - exists m'. split; [|done]. rewrite <- E. f_equal. rewrite length_take. lia. }
  { intros ? []; done. }
  exists s6, m6, m5. split_and!; [|by rewrite sess_comm|done|done].
  unfold split_pairs, IsLeafPage, GetParentPageNo, GetSize, key_ptr, rid_ptr.
  run (inner_read s _ (λ _, IxNodeHandle.IsLeafPage) _ Hs (IsLeafPage_ok h m nh l Hn)). rewrite Hleaf. run W1. run W2.
  run (inner_read s2 _ (λ _, IxNodeHandle.GetParentPageNo) _ Hs2 (GetParent_ok h m nh l Hn)). run W3. run W4.
  run (inner_read s4 _ (λ _, IxNodeHandle.GetSize) _ Hs4 (GetSize_ok h m nh l Hn)). rewrite Hmq.
  run (inner_read s4 _ (λ h, IxNodeHandle.key_ptr h (Z.of_nat middle)) _ Hs4 eq_refl).
  run (inner_read s4 _ (λ h, IxNodeHandle.rid_ptr h (Z.of_nat middle)) _ Hs4 eq_refl).
  replace (zlen l - Z.of_nat middle) with (zlen (drop middle l)) by (rewrite length_drop; lia).
  by run W5.
Qed.

(** [k] is the successor of [i]. *)
Lemma split_links_ok s m2 nh2 l2 mn nhn ln :
  let k := page_of y (n_next nh) in
  st_repr s (sess (sess b i f m) j g m2) y → nd (file_hdr_ y) m2 nh2 l2 →
  n_next nh ≠ IX_NO_PAGE → is_s32 (page_no i) → is_s32 (page_no j) → idle i b → idle j b →
  k ≠ i → k ≠ j → idle k b → a_view b !! k = Some mn → nd (file_hdr_ y) mn nhn ln →
  Z.of_nat (size (a_held b)) + 2 < a_size b →
  ∃ s' m1' m2' mk, split_links f g s = (Ret tt, s') ∧
    st_repr s' (sess (sess (a_set k mk b) i f m1') j g m2') y ∧
    nd (file_hdr_ y) m1' (mkNodeHdr (n_parent nh) true (n_prev nh) (page_no j)) l ∧
    nd (file_hdr_ y) m2' (mkNodeHdr (n_parent nh2) (n_leaf nh2) (page_no i) (n_next nh)) l2 ∧
    nd (file_hdr_ y) mk (mkNodeHdr (n_parent nhn) (n_leaf nhn) (page_no j) (n_next nhn)) ln.
Proof.
  intros k Hs Hn2 Hnx Hi32 Hj32 Hib Hjb Hki Hkj Hkb Hkv Hkn Hroom. set (h := file_hdr_ y) in *.
  assert (HL : ∀ nh l m', nd h m' nh l → zlen m' = PAGE_SIZE) by (intros ??? []; done).
  assert (Hnx32 : is_s32 (n_next nh)) by (rewrite <- (nd_next _ _ _ _ Hn); apply dec32_range).
  destruct (write_step s (sess b i f m) y j g m2 (λ _, IxNodeHandle.store_word off_next_leaf (n_next nh)) _ tt Hs
    (nd_store_hdr h Hwf m2 _ _ off_next_leaf (n_next nh) Hn2 Hnx32 ltac:(set_solver)) (HL _ _)) as (s1 & m3 & W1 & Hs1 & N1).
  destruct (write_step s1 (sess b i f m) y j g m3 (λ _, IxNodeHandle.store_word off_prev_leaf (page_no i)) _ tt Hs1
    (nd_store_hdr h Hwf m3 _ _ off_prev_leaf (page_no i) N1 Hi32 ltac:(set_solver)) (HL _ _)) as (s2 & m4 & W2 & Hs2 & N2).
  simpl in N2. set (a2 := sess (sess b i f m) j g m4) in *.
  assert (idle k a2) as Hk2 by (apply idle_sess; [congruence|]; apply idle_sess; [congruence|done]).
  destruct (FetchNode_ok s2 a2 y (n_next nh) mn) as (fk & s3 & W3 & _ & Hs3); [done|done| | |].
  { unfold room, a2. rewrite size_sess, size_sess by first [done|by apply idle_sess|apply idle_sess; done]. simpl. lia. }
  { unfold a2. simpl. by rewrite !lookup_insert_ne by done. }
  fold k in Hs3.
  destruct (write_step s3 a2 y k fk mn (λ _, IxNodeHandle.store_word off_prev_leaf (page_no j)) _ tt Hs3
    (nd_store_hdr h Hwf mn _ _ off_prev_leaf (page_no j) Hkn Hj32 ltac:(set_solver)) (HL _ _)) as (s4 & mk & W4 & Hs4 & N4).
  destruct (ix_unpin_dirty_ok s4 a2 y k fk mk Hs4 Hk2) as (s5 & W5 & Hs5).
  unfold a2 in Hs5. rewrite a_set_sess, a_set_sess in Hs5 by done.
  destruct (write_step s5 (sess (a_set k mk b) j g m4) y i f m (λ _, IxNodeHandle.store_word off_next_leaf (page_no j))
    (λ m', nd h m' (mkNodeHdr (n_parent nh) true (n_prev nh) (page_no j)) l) tt) as (s6 & m6 & W6 & Hs6 & N6).
  { by rewrite sess_comm by done. }
  { rewrite <- Hleaf. apply (nd_store_hdr h Hwf m _ _ off_next_leaf (page_no j) Hn Hj32). set_solver. }
  { apply HL. }
  exists s6, m6, m4, mk. split_and!; [|by rewrite sess_comm|done|done|done].
  unfold split_links, IsLeafPage, GetNextLeaf, SetNextLeaf, SetPrevLeaf, store_word.
  run (inner_read s _ (λ _, IxNodeHandle.IsLeafPage) _ Hs (IsLeafPage_ok h m nh l Hn)). rewrite Hleaf.
  run (inner_read s _ (λ _, IxNodeHandle.GetNextLeaf) _ Hs (GetNext_ok h m nh l Hn)). run W1.
  run (GetPageNo_ok s1 _ y i f 1 m Hs1 (sess_inner_held _ _ _ _ _ _ _ Hij) (sess_inner_view _ _ _ _ _ _ _ Hij)).
  run W2. run (inner_read s2 _ (λ _, IxNodeHandle.GetNextLeaf) _ Hs2 (GetNext_ok h m nh l Hn)).
  rewrite (proj2 (Z.eqb_neq _ _)) by done. simpl. rewrite bind_assoc. run W3. rewrite bind_assoc.
  run (GetPageNo_ok s3 _ y j g 1 m4 Hs3 (sess_inner_held _ _ _ _ _ _ _ (not_eq_sym Hkj)) (sess_inner_view _ _ _ _ _ _ _ (not_eq_sym Hkj))).
  rewrite bind_assoc. run W4. run W5.
  run (GetPageNo_ok s5 _ y j g 1 m4 Hs5 (sess_held _ _ _ _) (sess_view _ _ _ _)).
  exact W6.
Qed.

End parts.

Lemma Split_leaf_ok s a x p f m nh l mn nhn ln :
  st_repr s (sess a (page_of x p) f m) x → splittable a x p f m nh l mn nhn ln →
  let h := file_hdr_ x in let q := a_next a (fd_ x) in
  ∃ g s' m1 m2 mk, Split f s = (Ret g, s') ∧
    st_repr s' (sess (sess (a_set (page_of x (n_next nh)) mk (a_bump (fd_ x) a)) (page_of x p) f m1)
                     (page_of x q) g m2) (grown x) ∧
    nd h m1 (mkNodeHdr (n_parent nh) true (n_prev nh) q) (take (middle l) l) ∧
    nd h m2 (mkNodeHdr (n_parent nh) true p (n_next nh)) (drop (middle l) l) ∧
    nd h mk (mkNodeHdr (n_parent nhn) (n_leaf nhn) q (n_next nhn)) ln.
Proof.
  intros Hs [Hwf Hn Hleaf Hold Hp32 Hi Hop Hnext H32 Hnew [Hnx1 Hnx2] Hkv Hkn Hk Hroom] h q.
  set (i := page_of x p) in *. set (k := page_of x (n_next nh)) in *.
  change (a_new_id (fd_ x) a) with (page_of x q) in Hnew. set (j := page_of x q) in *.
  assert (i ≠ j) as Hij by (intros Heq; rewrite Heq in Hold; destruct Hold; congruence).
  assert (k ≠ j) as Hkj by (intros Heq; rewrite Heq in Hkv; congruence).
  assert (k ≠ i) as Hki by (intros [= ?]; done).
  assert (a_view (sess a i f m) !! j = None) as Hnew' by (simpl; by rewrite lookup_insert_ne).
  pose proof (absent_idle s _ x j Hs Hnew') as [Hj1 Hj2]. simpl in Hj1, Hj2. rewrite lookup_insert_ne in Hj1 by done.
  destruct (CreateNode_ok s (sess a i f m) x Hs Hop (proj1 Hnext) H32 Hnew') as (g & s0 & HC & Hs0).
  { unfold room. rewrite size_sess by done. simpl. lia. }
  change (a_new_id (fd_ x) (sess a i f m)) with j in Hs0. rewrite a_bump_sess in Hs0.
  pose proof (grown_wf x Hwf) as Hgwf.
  destruct (split_pairs_ok _ (grown x) i j f g m nh l Hgwf Hij (grown_nd _ _ _ _ Hn) Hleaf s0 Hs0)
    as (s1 & m1 & m2 & W1 & Hs1 & N1 & N2).
  destruct (split_links_ok _ (grown x) i j f g m1 nh _ Hgwf Hij N1 Hleaf s1 m2 _ _ mn nhn ln Hs1 N2)
    as (s2 & m1' & m2' & mk & W2 & Hs2 & N1' & N2' & N3); try done; try (unfold is_s32; simpl; lia).
  { split; [done|set_solver]. }
  { by apply grown_nd. }
  exists g, s2, m1', m2', mk. split_and!; [|done|by destruct N1'|by destruct N2'|by destruct N3].
  unfold Split. run HC. run W1. by run W2.
Qed.

End split.
