(* ===== verification/IxMerge.v ===== *)
(** Deletion in a leaf that is not the root: [Redistribute], [maintain_parent] and
    the part of [CoalesceOrRedistribute] that borrows a pair from a sibling. *)
From S2P Require Import Prelude.
From S2P Require Import Defs.
From S2P Require Import Replacer.
From S2P Require Import Disk.
From S2P Require Import BufferPool.
From S2P Require Import BufferPoolProofs.
From S2P Require Import PoolSpec.
From S2P Require Import Session.
From S2P Require Import IxNode.
From S2P Require Import IxOrder.
From S2P Require Import IxNodeProofs.
From S2P Require Import IxIndex.
From S2P Require Import IxIndexProofs.
From S2P Require Import IxSplit.
Import IxDefs IxIndexHandle.

#[local] Open Scope prog_scope.

(** ** Pages *)

Section node.
  Variable h : IxFileHdr.
  Hypothesis Hwf : ix_wf h.
  Implicit Types (m : bytes) (l : list (bytes * Rid)) (nh : NodeHdr).

Lemma nd_key_length m nh l i k v : nd h m nh l → l !! i = Some (k, v) → zlen k = col_len h ∧ Forall is_u8 k.
Proof.
  intros Hn Hi. destruct (nd_pair _ _ _ _ Hn i k v Hi) as [<- _].
  pose proof (lookup_bound _ _ _ Hi). pose proof (nd_max _ _ _ _ Hn). pose proof (wf_bounds h Hwf).
  destruct (slots_in_page h Hwf (Z.of_nat i)) as (S1 & S2 & S3 & S4); [lia|].
  pose proof (nd_len _ _ _ _ Hn). unfold PAGE_SIZE in *. split.
  - apply length_slice; unfold IxNodeHandle.get_rid in *; lia.
  - apply Forall_take, Forall_drop, Hn.
Qed.

Lemma nd_rid_s32 m nh l i k v : nd h m nh l → l !! i = Some (k, v) → is_s32 (rid_page_no v) ∧ is_s32 (rid_slot_no v).
Proof. intros Hn Hi. destruct (nd_pair _ _ _ _ Hn i k v Hi) as [_ <-]. split; apply dec32_range. Qed.

Lemma set_key_ok m nh l i k v key :
  nd h m nh l → l !! i = Some (k, v) → zlen key = col_len h → Forall is_u8 key →
  ∃ m', IxNodeHandle.set_key h (Z.of_nat i) key m = (Ret tt, m') ∧ nd h m' nh (<[i := (key, v)]> l).
Proof.
  intros Hn Hi Hk Hu. pose proof (lookup_bound _ _ _ Hi) as Hib. pose proof (nd_max _ _ _ _ Hn) as Hmax.
  pose proof (wf_bounds h Hwf) as (Hc & _ & _ & Hks & _). pose proof (nd_len _ _ _ _ Hn) as Hlen.
  destruct (slots_in_page h Hwf (Z.of_nat i)) as (S1 & S2 & S3 & S4); [lia|]. unfold PAGE_SIZE in *.
  assert (Hfull : slice key 0 (col_len h) = key) by (unfold slice; simpl; rewrite drop_0; apply take_ge; lia).
  eexists. split.
  { unfold IxNodeHandle.set_key, IxNodeHandle.store. rewrite mem_read_Some by lia. cbn [mbind option_bind].
    rewrite Hfull, mem_write_Some by (unfold IxNodeHandle.get_rid in *; lia). done. }
  assert (Hsame : ∀ o n, 0 <= o → 0 <= n → o + n <= 24 ∨ IxNodeHandle.rids h <= o →
    slice (splice m (IxNodeHandle.get_key h (Z.of_nat i)) key) o n = slice m o n).
  { intros o n Ho Hn' Hd. apply slice_splice_disjoint; lia. }
  destruct Hn. split; unfold off_num_key, off_parent, off_is_leaf, off_prev_leaf, off_next_leaf, PAGE_SIZE in *;
    rewrite ?Hsame by lia; try done.
  - rewrite length_splice by (unfold IxNodeHandle.get_rid in *; lia). done.
  - by apply Forall_splice.
  - by rewrite length_insert.
  - by rewrite length_insert.
  - intros j k' v' Hj. destruct (slots_in_page h Hwf (Z.of_nat j)) as (J1 & J2 & J3 & J4).
    { apply lookup_lt_Some in Hj. rewrite length_insert in Hj. lia. }
    rewrite (Hsame (IxNodeHandle.get_rid h (Z.of_nat j))) by (unfold sizeof_Rid; lia). destruct (decide (j = i)) as [->|Hne].
    + rewrite list_lookup_insert_eq in Hj by (by eapply lookup_lt_Some). injection Hj as <- <-.
      split; [|by destruct (nd_pair i k v Hi)]. rewrite <- Hk. apply slice_splice_same; unfold IxNodeHandle.get_rid in *; lia.
    + rewrite list_lookup_insert_ne in Hj by done. destruct (nd_pair j k' v' Hj) as [<- <-]. split; [|done].
      apply slice_splice_disjoint; unfold IxNodeHandle.get_key, IxNodeHandle.keys in *; nia.
Qed.

(** One pair read from another page is put at position [pos]. *)
Lemma insert_one_ok m nh l (pos : nat) m2 nh2 l2 i k v :
  nd h m nh l → nd h m2 nh2 l2 → l2 !! i = Some (k, v) → (pos <= length l)%nat → zlen l < btree_order h + 1 →
  ∃ m', IxNodeHandle.insert_pair h (Z.of_nat pos) (at_ptr m2 (IxNodeHandle.get_key h (Z.of_nat i))) v m = (Ret tt, m') ∧
    nd h m' nh (take pos l ++ (k, v) :: drop pos l).
Proof.
  intros Hn Hn2 Hi Hpos Hmax.
  destruct (insert_pairs_ok h Hwf m nh l [(k, v)] (at_ptr m2 (IxNodeHandle.get_key h (Z.of_nat i))) (enc_Rid v) pos Hn Hpos)
    as (m' & Hrun & Hn'); [simpl; lia| |by exists m'].
  destruct (key_ptr_slice h Hwf m2 nh2 l2 i k v Hn2 Hi) as [Hs Hl]. destruct (nd_key_length _ _ _ _ _ _ Hn2 Hi) as [Hk Hu].
  destruct (nd_rid_s32 _ _ _ _ _ _ Hn2 Hi) as [R1 R2]. destruct (pairs_at_one h k v Hk Hu R1 R2) as [_ P2 _ P4 P5].
  split; [simpl; lia|done| |done|].
  - unfold at_ptr. case_match; [apply Forall_drop, Hn2|constructor].
  - intros [|j] k' v' Hj; [|done]. destruct (P5 0%nat k' v' Hj) as [_ Hv]. injection Hj as <- <-.
    split; [|done]. change (Z.of_nat 0 * col_len h) with 0. exact Hs.
Qed.

End node.

(** ** A page that is pinned twice *)

Section merge.
  Context {D : Type} {PS : PageStore D} {PSL : PageStoreLaws D}
          {R : Type} {RP : Replacer R} {RPL : ReplacerLaws R}.
  Notation st := (IxIndexHandle.st D R).
  Implicit Types (s : st) (a c : Abs) (x : handle) (e f g : Z) (i j q : PageId) (m : bytes).

(** A holder may claim to have changed what it holds. *)
Lemma repr_claim (p : BufferPool.t D R) a i :
  repr p a → is_Some (a_held a !! i) →
  repr p (mkAbs (a_view a) (a_held a) ({[i]} ∪ a_mod a) (a_next a) (a_open a) (a_size a)).
Proof.
  intros Hr Hi. pose proof (r_rel _ _ Hr) as Hrel. destruct Hr. split; simpl in *; try done.
  - intros j f n y Hj Hp Hm. apply (Hrel j f n y); [done|done|set_solver].
  - intros j [->%elem_of_singleton|Hj]%elem_of_union; [done|auto].
Qed.

Lemma fetch_held (p : BufferPool.t D R) a i f n f' p' :
  repr p a → a_held a !! i = Some (f, n) → BufferPool.FetchPage i p = (Ret (Some f'), p') → f' = f.
Proof.
  intros Hr Hh. destruct (r_held _ _ Hr _ _ _ Hh) as (Ht & _). unfold BufferPool.FetchPage. rewrite bind_gets, Ht.
  unfold bind. destruct (BufferPool.upd_page _ _ _) as [[] p1]; try done.
  destruct (BufferPool.on_replacer _ _) as [[] p2]; try done. by intros [= <-].
Qed.

(** [q] held and pinned once more. *)
Definition twice c q e m : Abs := a_hold q e 2 (sess c q e m).

Lemma refetch_ok s c x p e m :
  st_repr s (sess c (page_of x p) e m) x →
  ∃ s', FetchNode p s = (Ret e, s') ∧ st_repr s' (twice c (page_of x p) e m) x.
Proof.
  intros [Hr Hx].
  destruct (repr_fetch (bpm s) _ (page_of x p) m Hr (sess_view _ _ _ _)) as (f & p' & Hrun & Hr').
  { left. rewrite sess_held. eauto. }
  pose proof (fetch_held _ _ _ _ _ _ _ Hr (sess_held _ _ _ _) Hrun) as ->.
  assert (a_pins (page_of x p) (sess c (page_of x p) e m) = 1) as Hp by (unfold a_pins; by rewrite sess_held).
  rewrite Hp in Hr'. exists (set_bpm p' s). split; [|done]. unfold FetchNode. step. rewrite Hx.
  by run (ix_on_pool_Ret _ _ _ _ Hrun).
Qed.

Lemma twice_held c q e m : a_held (twice c q e m) !! q = Some (e, 2).
Proof. apply lookup_insert_eq. Qed.

Lemma unpin_twice_ok s c x q e m :
  st_repr s (twice c q e m) x → ∃ s', Unpin e true s = (Ret true, s') ∧ st_repr s' (sess c q e m) x.
Proof.
  intros Hs. pose proof Hs as [Hr Hx].
  destruct (repr_unpin (bpm s) _ q e 2 true Hr (twice_held _ _ _ _)) as (p & Hrun & Hr'); [by left|].
  exists (set_bpm p s). split.
  - unfold Unpin. run (GetPageId_ok s _ x q e 2 m Hs (twice_held _ _ _ _) (sess_view _ _ _ _)).
    exact (ix_on_pool_Ret _ _ _ _ Hrun).
  - split; [|done]. apply (repr_claim _ _ q) in Hr'; [|simpl; rewrite lookup_insert_eq; eauto]. simpl in Hr'.
    eapply eq_rect; [exact Hr'|]. apply Abs_eq; simpl; try done.
    + by rewrite !insert_insert_eq.
    + apply set_eq. intros y. destruct (decide (y = q)); set_solver.
Qed.

Lemma write_twice_ok {A} s c x q e m (gg : IxFileHdr → M bytes A) y m' :
  st_repr s (twice c q e m) x → gg (file_hdr_ x) m = (Ret y, m') → zlen m' = PAGE_SIZE →
  ∃ s', on_node e gg s = (Ret y, s') ∧ st_repr s' (twice c q e m') x.
Proof.
  intros [Hr Hx] Hg Hl.
  destruct (held_page (bpm s) _ q e 2 m Hr (twice_held _ _ _ _) (sess_view _ _ _ _)) as (p & (_ & Hp & _) & _ & Hd & _).
  destruct (repr_store (bpm s) _ q e 2 m (λ _, Some m') m' Hr (twice_held _ _ _ _) (sess_view _ _ _ _) eq_refl Hl)
    as (p' & Hrun & Hr').
  assert (a_write q m' (twice c q e m) = twice c q e m') as Heq.
  { apply Abs_eq; simpl; try done; [by rewrite insert_insert_eq|]. apply leibniz_equiv. set_solver. }
  rewrite Heq in Hr'. exists (set_bpm p' s). split; [|done]. unfold on_node. rewrite Hp. unfold hdr. rewrite Hx, Hd, Hg.
  unfold BufferPool.store, bind, BufferPool.get_page, or_ub, modify in Hrun. rewrite Hp in Hrun. by injection Hrun as <-.
Qed.

(** ** [maintain_parent] below the root *)

Section maintain.
  Context (c : Abs) (x : handle) (p e : Z) (mq : bytes) (nhq : NodeHdr) (lq : list (bytes * Rid)).
  Context (j : PageId) (g n : Z) (mj : bytes) (nhj : NodeHdr) (k0 : bytes) (v0 : Rid) (lj : list (bytes * Rid)).
  Context (r : nat) (kr : bytes) (sl : Z).
  Notation q := (page_of x p).
  Notation h := (file_hdr_ x).
  Hypotheses (Hwf : ix_wf h) (Hjq : j ≠ q) (Hheld : a_held c !! j = Some (g, n)) (Hview : a_view c !! j = Some mj)
    (Hj : nd h mj nhj ((k0, v0) :: lj)) (Hpar : n_parent nhj = p) (Hp : p ≠ IX_NO_PAGE)
    (Hq : nd h mq nhq lq) (Hroot : n_parent nhq = IX_NO_PAGE)
    (Hr : lq !! r = Some (kr, mkRid (page_no j) sl))
    (Hfirst : ∀ (o : nat) k' v', (o < r)%nat → lq !! o = Some (k', v') → rid_page_no v' ≠ page_no j).

Lemma maintain_root_ok s fuel :
  st_repr s (sess c q e mq) x →
  ∃ s' mq', maintain_parent (S (S fuel)) g s = (Ret tt, s') ∧ st_repr s' (sess c q e mq') x ∧
    nd h mq' nhq (<[r := (k0, mkRid (page_no j) sl)]> lq).
Proof.
  intros Hs.
  assert (HH : ∀ m, a_held (sess c q e m) !! j = Some (g, n)) by (intros; simpl; by rewrite lookup_insert_ne).
  assert (HV : ∀ m, a_view (sess c q e m) !! j = Some mj) by (intros; simpl; by rewrite lookup_insert_ne).
  assert (HH2 : ∀ m, a_held (twice c q e m) !! j = Some (g, n)) by (intros; simpl; by rewrite !lookup_insert_ne).
  assert (HV2 : ∀ m, a_view (twice c q e m) !! j = Some mj) by (intros; simpl; by rewrite lookup_insert_ne).
  destruct (refetch_ok s c x p e mq Hs) as (s1 & Hfetch & Hs1).
  destruct (nd_key_length h Hwf _ _ _ _ _ _ Hq Hr) as [Hkr _].
  destruct (nd_key_length h Hwf _ _ _ 0 k0 v0 Hj eq_refl) as [Hk0 Hu0].
  destruct (key_ptr_slice h Hwf mq nhq lq r kr _ Hq Hr) as [Eq Lq].
  destruct (key_ptr_slice h Hwf mj nhj _ 0 k0 v0 Hj eq_refl) as [Ej Lj]. change (Z.of_nat 0) with 0 in Ej, Lj.
  pose proof (wf_bounds h Hwf) as (Hc & _).
  assert (Hhead : maintain_parent (S (S fuel)) g s =
    (if memcmp kr k0 =? 0 then let* b := Unpin e true in assert b
     else on_node e (λ h, IxNodeHandle.set_key h (Z.of_nat r) k0) ;;;
          let* b := Unpin e true in assert b ;;; maintain_parent (S fuel) e) s1).
  { cbn [maintain_parent]. unfold GetParentPageNo at 1.
    run (on_node_read s _ x j g n mj (λ _, IxNodeHandle.GetParentPageNo) _ Hs (HH _) (HV _) (GetParent_ok h mj nhj _ Hj)).
    rewrite Hpar, (proj2 (Z.eqb_neq _ _)) by done. run Hfetch. unfold find_child. rewrite bind_assoc.
    run (GetPageNo_ok s1 _ x j g n mj Hs1 (HH2 _) (HV2 _)).
    run (on_node_read s1 _ x q e 2 mq (λ h, IxNodeHandle.find_child h (page_no j)) _ Hs1 (twice_held _ _ _ _) (sess_view _ _ _ _)
           (find_child_ok h Hwf mq nhq lq (page_no j) r kr sl Hq Hr Hfirst)).
    rewrite bind_gets, (gets_hdr s1 _ x Hs1). unfold key_ptr.
    run (on_node_read s1 _ x q e 2 mq (λ h, IxNodeHandle.key_ptr h (Z.of_nat r)) _ Hs1 (twice_held _ _ _ _) (sess_view _ _ _ _) eq_refl).
    run (on_node_read s1 _ x j g n mj (λ h, IxNodeHandle.key_ptr h 0) _ Hs1 (HH2 _) (HV2 _) eq_refl).
    rewrite !mem_read_Some by lia. rewrite Eq, Ej. done. }
  rewrite Hhead. destruct (Z.eqb_spec (memcmp kr k0) 0) as [Hm|Hm].
  - apply memcmp_eq in Hm as ->; [|lia]. rewrite list_insert_id by done.
    destruct (unpin_twice_ok s1 c x q e mq Hs1) as (s2 & Hun & Hs2). exists s2, mq. run Hun. done.
  - destruct (set_key_ok h Hwf mq nhq lq r kr _ k0 Hq Hr Hk0 Hu0) as (mq' & Hset & Hq').
    destruct (write_twice_ok s1 c x q e mq (λ h, IxNodeHandle.set_key h (Z.of_nat r) k0) tt mq' Hs1 Hset) as (s2 & Hw & Hs2); [apply Hq'|].
    destruct (unpin_twice_ok s2 c x q e mq' Hs2) as (s3 & Hun & Hs3). exists s3, mq'. split_and!; [|done|done].
    run Hw. run Hun. rewrite bind_assert by done. cbn [maintain_parent]. unfold GetParentPageNo.
    run (on_node_read s3 _ x q e 1 mq' (λ _, IxNodeHandle.GetParentPageNo) _ Hs3 (sess_held _ _ _ _) (sess_view _ _ _ _)
           (GetParent_ok h mq' nhq _ Hq')). by rewrite Hroot.
Qed.

End maintain.

(** ** [Redistribute] between two leaves *)

(** The parent, the neighbour and the node, all held. *)
Definition three a q e (mq : bytes) i f (mi : bytes) j g (mj : bytes) : Abs :=
  sess (sess (sess a q e mq) j g mj) i f mi.

Lemma three_j a q e mq i f mi j g mj : i ≠ j →
  three a q e mq i f mi j g mj = sess (sess (sess a q e mq) i f mi) j g mj.
Proof. intros Hij. unfold three. apply sess_comm. congruence. Qed.

Lemma three_q a q e mq i f mi j g mj : i ≠ q → j ≠ q →
  three a q e mq i f mi j g mj = sess (sess (sess a j g mj) i f mi) q e mq.
Proof. intros Hi Hj. unfold three. rewrite (sess_comm a q e mq j g mj), (sess_comm _ q e mq i f mi) by congruence. done. Qed.

Lemma maintain_child_leaf s a x i f n m nh l k :
  st_repr s a x → a_held a !! i = Some (f, n) → a_view a !! i = Some m → nd (file_hdr_ x) m nh l → n_leaf nh = true →
  maintain_child f k s = (Ret tt, s).
Proof.
  intros Hs Hh Hv Hn Hl. unfold maintain_child, IsLeafPage.
  run (on_node_read s a x i f n m (λ _, IxNodeHandle.IsLeafPage) _ Hs Hh Hv (IsLeafPage_ok _ m nh l Hn)). by rewrite Hl.
Qed.

Section redistribute.
  Context (a : Abs) (x : handle) (p e f g : Z) (i j : PageId).
  Context (mq mi mj : bytes) (nhq nhi nhj : NodeHdr) (lq li : list (bytes * Rid)).
  Context (r : nat) (kr : bytes) (sl : Z).
  Notation q := (page_of x p).
  Notation h := (file_hdr_ x).
  Hypotheses (Hwf : ix_wf h) (Hij : i ≠ j) (Hiq : i ≠ q) (Hjq : j ≠ q) (Hp : p ≠ IX_NO_PAGE)
    (Hq : nd h mq nhq lq) (Hroot : n_parent nhq = IX_NO_PAGE)
    (Hi : nd h mi nhi li) (Hleaf : n_leaf nhi = true) (Hroom : zlen li < btree_order h + 1).

(** The page whose first key the parent holds at [r]. *)
Definition separates (page : PageId) : Prop :=
  lq !! r = Some (kr, mkRid (page_no page) sl) ∧
  ∀ (o : nat) k' v', (o < r)%nat → lq !! o = Some (k', v') → rid_page_no v' ≠ page_no page.

Notation state := (three a q e mq i f mi j g mj).

(** The node is on the left: it gets the first pair of the neighbour. *)
Lemma Redistribute_left_ok s k v k1 v1 lj fuel :
  st_repr s state x → nd h mj nhj ((k, v) :: (k1, v1) :: lj) → n_parent nhj = p → separates j →
  ∃ s' mq' mi' mj', Redistribute (S (S fuel)) g f e 0 s = (Ret tt, s') ∧
    st_repr s' (three a q e mq' i f mi' j g mj') x ∧
    nd h mq' nhq (<[r := (k1, mkRid (page_no j) sl)]> lq) ∧
    nd h mi' nhi (li ++ [(k, v)]) ∧ nd h mj' nhj ((k1, v1) :: lj).
Proof.
  intros Hs Hj Hpar [Hr Hfirst].
  destruct (insert_one_ok h Hwf mi nhi li (length li) mj nhj _ 0 k v Hi Hj eq_refl ltac:(lia) Hroom) as (mi' & Hins & Hi').
  rewrite take_ge, drop_ge in Hi' by lia. change (Z.of_nat 0) with 0 in Hins.
  destruct (erase_pair_ok h Hwf mj nhj _ 0 Hj ltac:(simpl; lia)) as (mj' & Her & Hj'). simpl in Hj'. change (Z.of_nat 0) with 0 in Her.
  destruct (on_node_write s _ x i f mi (λ h0, IxNodeHandle.insert_pair h0 (zlen li) (at_ptr mj (IxNodeHandle.get_key h 0)) v) tt mi' Hs Hins)
    as (s1 & W1 & Hs1); [apply Hi'|].
  fold (three a q e mq i f mi' j g mj) in Hs1. rewrite three_j in Hs1 by done.
  destruct (on_node_write s1 _ x j g mj (λ h, IxNodeHandle.erase_pair h 0) tt mj' Hs1 Her) as (s2 & W2 & Hs2); [apply Hj'|].
  rewrite <- three_j, three_q in Hs2 by done.
  destruct (maintain_root_ok (sess (sess a j g mj') i f mi') x p e mq nhq lq j g 1 mj' nhj k1 v1 lj r kr sl Hwf Hjq)
    with (s := s2) (fuel := fuel) as (s3 & mq' & W3 & Hs3 & Hq'); try done.
  { simpl. rewrite lookup_insert_ne by done. apply lookup_insert_eq. }
  { simpl. rewrite lookup_insert_ne by done. apply lookup_insert_eq. }
  rewrite <- three_q in Hs3 by done.
  exists s3, mq', mi', mj'. split_and!; try done. unfold Redistribute. rewrite Z.eqb_refl. unfold GetSize, key_ptr.
  run (on_node_read s _ x i f 1 mi (λ _, IxNodeHandle.GetSize) _ Hs (sess_held _ _ _ _) (sess_view _ _ _ _) (GetSize_ok h mi nhi li Hi)).
  rewrite three_j in Hs by done.
  run (on_node_read s _ x j g 1 mj (λ h, IxNodeHandle.key_ptr h 0) _ Hs (sess_held _ _ _ _) (sess_view _ _ _ _) eq_refl).
  run (on_node_read s _ x j g 1 mj (λ h, IxNodeHandle.read_rid h 0) _ Hs (sess_held _ _ _ _) (sess_view _ _ _ _)
         (read_rid_ok h Hwf mj nhj _ 0 k v Hj eq_refl)).
  run W1. run W2. run W3.
  run (on_node_read s3 _ x i f 1 mi' (λ _, IxNodeHandle.GetSize) _ Hs3 (sess_held _ _ _ _) (sess_view _ _ _ _) (GetSize_ok h mi' nhi _ Hi')).
  by apply (maintain_child_leaf s3 _ x i f 1 mi' nhi _ _ Hs3 (sess_held _ _ _ _) (sess_view _ _ _ _) Hi').
Qed.

(** The node is on the right: it gets the last pair of the neighbour. *)
Lemma Redistribute_right_ok s k v lj index fuel :
  st_repr s state x → nd h mj nhj (lj ++ [(k, v)]) → n_parent nhi = p → separates i → index ≠ 0 →
  ∃ s' mq' mi' mj', Redistribute (S (S fuel)) g f e index s = (Ret tt, s') ∧
    st_repr s' (three a q e mq' i f mi' j g mj') x ∧
    nd h mq' nhq (<[r := (k, mkRid (page_no i) sl)]> lq) ∧
    nd h mi' nhi ((k, v) :: li) ∧ nd h mj' nhj lj.
Proof.
  intros Hs Hj Hpar [Hr Hfirst] Hindex.
  assert (Hlast : (lj ++ [(k, v)]) !! length lj = Some (k, v)) by (rewrite lookup_app_r, Nat.sub_diag by lia; done).
  destruct (insert_one_ok h Hwf mi nhi li 0 mj nhj _ (length lj) k v Hi Hj Hlast ltac:(lia) Hroom) as (mi' & Hins & Hi').
  simpl in Hi'. rewrite drop_0 in Hi'. change (Z.of_nat 0) with 0 in Hins.
  destruct (erase_pair_ok h Hwf mj nhj _ (length lj) Hj ltac:(rewrite length_app; simpl; lia)) as (mj' & Her & Hj').
  rewrite take_app_length, drop_ge, app_nil_r in Hj' by (rewrite length_app; simpl; lia).
  destruct (on_node_write s _ x i f mi (λ h0, IxNodeHandle.insert_pair h0 0 (at_ptr mj (IxNodeHandle.get_key h (zlen lj))) v) tt mi' Hs Hins)
    as (s1 & W1 & Hs1); [apply Hi'|].
  fold (three a q e mq i f mi' j g mj) in Hs1. rewrite three_j in Hs1 by done.
  destruct (on_node_write s1 _ x j g mj (λ h, IxNodeHandle.erase_pair h (zlen lj)) tt mj' Hs1 Her) as (s2 & W2 & Hs2); [apply Hj'|].
  rewrite <- three_j, three_q in Hs2 by done.
  destruct (maintain_root_ok (sess (sess a j g mj') i f mi') x p e mq nhq lq i f 1 mi' nhi k v li r kr sl Hwf Hiq)
    with (s := s2) (fuel := fuel) as (s3 & mq' & W3 & Hs3 & Hq'); try done.
  { apply lookup_insert_eq. }
  { apply lookup_insert_eq. }
  rewrite <- three_q in Hs3 by done.
  exists s3, mq', mi', mj'. split_and!; try done. unfold Redistribute. rewrite (proj2 (Z.eqb_neq _ _)) by done.
  unfold GetSize, key_ptr. pose proof Hs as Hs0. rewrite three_j in Hs0 by done.
  run (on_node_read s _ x j g 1 mj (λ _, IxNodeHandle.GetSize) _ Hs0 (sess_held _ _ _ _) (sess_view _ _ _ _) (GetSize_ok h mj nhj _ Hj)).
  replace (zlen (lj ++ [(k, v)]) - 1) with (zlen lj) by (rewrite length_app; simpl; lia).
  run (on_node_read s _ x j g 1 mj (λ h, IxNodeHandle.key_ptr h (zlen lj)) _ Hs0 (sess_held _ _ _ _) (sess_view _ _ _ _) eq_refl).
  run (on_node_read s _ x j g 1 mj (λ h, IxNodeHandle.read_rid h (zlen lj)) _ Hs0 (sess_held _ _ _ _) (sess_view _ _ _ _)
         (read_rid_ok h Hwf mj nhj _ (length lj) k v Hj Hlast)).
  run W1. run W2. run W3.
  by apply (maintain_child_leaf s3 _ x i f 1 mi' nhi _ _ Hs3 (sess_held _ _ _ _) (sess_view _ _ _ _) Hi').
Qed.

End redistribute.

(** ** Borrowing in [CoalesceOrRedistribute] *)

(** Where the sibling of child [idx] is. *)
Definition sibling (idx : nat) : nat := if decide (idx = 0)%nat then 1%nat else (idx - 1)%nat.

(** Leaf [pi], held in frame [f] with the pairs [li], too few, is child [idx] of the
    root [p]; its sibling [pj] has the pairs [lj]. *)
Record underfull (a : Abs) (x : handle) (pi p pj : Z) (idx : nat) (f : Z) (mi mq mj : bytes)
    (nhi nhq nhj : NodeHdr) (li lq lj : list (bytes * Rid)) : Prop := {
  cb_wf : ix_wf (file_hdr_ x);
  cb_node : nd (file_hdr_ x) mi nhi li;
  cb_leaf : n_leaf nhi = true;
  cb_parent : n_parent nhi = p;
  cb_notroot : p ≠ IX_NO_PAGE;
  cb_root : nd (file_hdr_ x) mq nhq lq;
  cb_rootpar : n_parent nhq = IX_NO_PAGE;
  cb_sib : nd (file_hdr_ x) mj nhj lj;
  cb_sibpar : n_parent nhj = p;
  cb_children : NoDup (map (λ kv, rid_page_no kv.2) lq);
  cb_child : ∃ k sl, lq !! idx = Some (k, mkRid pi sl);
  cb_sibchild : ∃ k sl, lq !! sibling idx = Some (k, mkRid pj sl);
  cb_pages : pi ≠ p ∧ pj ≠ p;
  cb_idle : idle (page_of x pi) a ∧ idle (page_of x p) a ∧ idle (page_of x pj) a;
  cb_views : a_view a !! page_of x p = Some mq ∧ a_view a !! page_of x pj = Some mj;
  cb_room : Z.of_nat (size (a_held a)) + 2 < a_size a;
  cb_under : zlen li < IxNodeHandle.GetMinSize (file_hdr_ x) }.

(** The leaf and its sibling together have pairs for two nodes. *)
Definition enough (x : handle) (li lj : list (bytes * Rid)) : Prop :=
  IxNodeHandle.GetMinSize (file_hdr_ x) * 2 <= zlen li + zlen lj.

(** A child is found at its own place. *)
Lemma first_child (lq : list (bytes * Rid)) (r : nat) k (child : Z) sl :
  NoDup (map (λ kv, rid_page_no kv.2) lq) → lq !! r = Some (k, mkRid child sl) →
  ∀ (o : nat) k' v', (o < r)%nat → lq !! o = Some (k', v') → rid_page_no v' ≠ child.
Proof.
  intros Hnd Hr o k' v' Ho Hv Heq. assert (o = r) as ->; [|lia].
  eapply (NoDup_lookup _ o r (rid_page_no v') Hnd); rewrite list_lookup_fmap; [by rewrite Hv|].
  rewrite Hr. simpl. by rewrite Heq.
Qed.

Section borrow.
  Context (a : Abs) (x : handle) (pi p pj : Z) (idx : nat) (f : Z) (mi mq mj : bytes).
  Context (nhi nhq nhj : NodeHdr) (li lq lj : list (bytes * Rid)).
  Hypothesis HB : underfull a x pi p pj idx f mi mq mj nhi nhq nhj li lq lj.
  Notation h := (file_hdr_ x).
  Notation i := (page_of x pi).
  Notation q := (page_of x p).
  Notation j := (page_of x pj).

Lemma child_first (r : nat) k (child : Z) sl :
  lq !! r = Some (k, mkRid child sl) → ∀ (o : nat) k' v', (o < r)%nat → lq !! o = Some (k', v') → rid_page_no v' ≠ child.
Proof. apply first_child, HB. Qed.

Lemma siblings_differ : pi ≠ pj.
Proof.
  intros ->. destruct HB. destruct cb_child0 as (k & sl & Hk). destruct cb_sibchild0 as (k' & sl' & Hk').
  assert (idx = sibling idx) as He.
  { eapply (NoDup_lookup _ idx (sibling idx) pj cb_children0); rewrite list_lookup_fmap; [by rewrite Hk|by rewrite Hk']. }
  unfold sibling in He. case_decide; lia.
Qed.

Lemma pages_differ : i ≠ j ∧ i ≠ q ∧ j ≠ q ∧ j ≠ i ∧ q ≠ i ∧ q ≠ j.
Proof.
  pose proof siblings_differ. destruct (cb_pages _ _ _ _ _ _ _ _ _ _ _ _ _ _ _ _ HB).
  unfold page_of. split_and!; intros [=]; congruence.
Qed.

Lemma min_bounds : 2 <= IxNodeHandle.GetMinSize h ∧ IxNodeHandle.GetMinSize h < btree_order h + 1.
Proof.
  unfold IxNodeHandle.GetMinSize, IxNodeHandle.GetMaxSize. pose proof (wf_order _ (cb_wf _ _ _ _ _ _ _ _ _ _ _ _ _ _ _ _ HB)).
  rewrite Z.quot_div_nonneg by lia. split; [apply Z.div_le_lower_bound; lia|apply Z.div_lt_upper_bound; lia].
Qed.

(** The pages after a pair moved from the sibling to the node. *)
Definition borrowed (mq' mi' mj' : bytes) (li' lj' : list (bytes * Rid)) : Prop :=
  nd h mi' nhi li' ∧ nd h mj' nhj lj' ∧ zlen li' = zlen li + 1 ∧ zlen lj' = zlen lj - 1 ∧
  (if decide (idx = 0)%nat then li' ++ lj' = li ++ lj else lj' ++ li' = lj ++ li) ∧
  ∃ k v t sl, (if decide (idx = 0)%nat then lj' else li') = (k, v) :: t ∧
    nd h mq' nhq (<[Nat.max idx (sibling idx) := (k, mkRid (if decide (idx = 0)%nat then pj else pi) sl)]> lq).

Lemma redistribute_ok s e g fuel :
  enough x li lj → st_repr s (three a q e mq i f mi j g mj) x →
  ∃ s' mq' mi' mj' li' lj', Redistribute (S (S fuel)) g f e (Z.of_nat idx) s = (Ret tt, s') ∧
    st_repr s' (three a q e mq' i f mi' j g mj') x ∧ borrowed mq' mi' mj' li' lj'.
Proof.
  intros cb_enough0 Hs. unfold enough in cb_enough0. pose proof pages_differ as (Dij & Diq & Djq & _). pose proof min_bounds as [Hm1 Hm2].
  pose proof child_first as CF. pose proof HB as [].
  destruct cb_child0 as (k & sl & Hk). destruct cb_sibchild0 as (k' & sl' & Hk').
  unfold borrowed, sibling in *.
  destruct (decide (idx = 0)%nat) as [->|H0].
  - destruct lj as [|[k0 v0] [|[k1 v1] lj']]; [simpl in *; lia..|].
    destruct (Redistribute_left_ok a x p e f g i j mq mi mj nhq nhi nhj lq li 1 k' sl' cb_wf0 Dij Diq Djq cb_notroot0
                cb_root0 cb_rootpar0 cb_node0 cb_leaf0 ltac:(lia) s k0 v0 k1 v1 lj' fuel Hs cb_sib0 cb_sibpar0)
      as (s' & mq' & mi' & mj' & Hrun & Hs' & Nq & Ni & Nj).
    { split; [done|]. exact (CF _ _ _ _ Hk'). }
    exists s', mq', mi', mj', (li ++ [(k0, v0)]), ((k1, v1) :: lj'). split_and!; try done.
    + rewrite length_app. simpl. lia.
    + simpl. lia.
    + by rewrite <- (assoc_L (++)).
    + by exists k1, v1, lj', sl'.
  - destruct lj as [|[k0 v0] lj' _] using rev_ind; [simpl in *; lia|].
    destruct (Redistribute_right_ok a x p e f g i j mq mi mj nhq nhi nhj lq li idx k sl cb_wf0 Dij Diq Djq cb_notroot0
                cb_root0 cb_rootpar0 cb_node0 cb_leaf0 ltac:(lia) s k0 v0 lj' (Z.of_nat idx) fuel Hs cb_sib0 cb_parent0)
      as (s' & mq' & mi' & mj' & Hrun & Hs' & Nq & Ni & Nj); [|lia|].
    { split; [done|]. exact (CF _ _ _ _ Hk). }
    exists s', mq', mi', mj', ((k0, v0) :: li), lj'. split_and!; try done.
    + simpl. lia.
    + rewrite length_app. simpl. lia.
    + by rewrite <- (assoc_L (++)).
    + exists k0, v0, li, sl. split; [done|]. by rewrite Nat.max_l by lia.
Qed.

(** The pins go back, one page after the other. *)
Lemma unpin_three s e g mq' mi' mj' :
  st_repr s (three a q e mq' i f mi' j g mj') x →
  ∃ s1 s2 s3, unpin f true s = (Ret tt, s1) ∧ unpin g true s1 = (Ret tt, s2) ∧ unpin e true s2 = (Ret tt, s3) ∧
    st_repr s3 (a_set q mq' (a_set j mj' (a_set i mi' a))) x.
Proof.
  intros Hs. pose proof pages_differ as (Dij & Diq & Djq & Dji & Dqi & Dqj). pose proof HB as [].
  destruct cb_idle0 as (Ii & Iq & Ij).
  destruct (ix_unpin_dirty_ok s (sess (sess a q e mq') j g mj') x i f mi' Hs) as (s1 & U1 & Hs1).
  { apply idle_sess; [congruence|]. apply idle_sess; [congruence|done]. }
  rewrite !a_set_sess in Hs1 by congruence.
  destruct (ix_unpin_dirty_ok s1 (sess (a_set i mi' a) q e mq') x j g mj' Hs1) as (s2 & U2 & Hs2).
  { apply idle_sess; [congruence|done]. }
  rewrite a_set_sess in Hs2 by congruence.
  destruct (ix_unpin_dirty_ok s2 (a_set j mj' (a_set i mi' a)) x q e mq' Hs2 Iq) as (s3 & U3 & Hs3).
  by exists s1, s2, s3.
Qed.

(** What [CoalesceOrRedistribute] does before it decides. *)
Lemma decide_ok s n :
  st_repr s (sess a i f mi) x →
  ∃ e g s2, st_repr s2 (three a q e mq i f mi j g mj) x ∧
    CoalesceOrRedistribute (S n) f s =
      (if IxNodeHandle.GetMinSize h * 2 <=? zlen li + zlen lj
       then Redistribute n g f e (Z.of_nat idx) ;;; unpin f true ;;; unpin g true ;;; unpin e true ;;; ret false
       else Coalesce g f e (Z.of_nat idx) ;;; CoalesceOrRedistribute n e) s2.
Proof.
  intros Hs. pose proof pages_differ as (Dij & Diq & Djq & Dji & Dqi & Dqj). pose proof child_first as CF. pose proof HB as [].
  destruct cb_idle0 as (Ii & Iq & Ij). destruct cb_views0 as [Vq Vj].
  destruct cb_child0 as (k & sl & Hk). destruct cb_sibchild0 as (k' & sl' & Hk').
  destruct (FetchNode_ok s (sess a i f mi) x p mq Hs) as (e & s1 & F1 & _ & Hs1).
  { apply idle_sess; [congruence|done]. }
  { unfold room. rewrite size_sess by done. simpl. lia. }
  { simpl. by rewrite lookup_insert_ne by congruence. }
  destruct (FetchNode_ok s1 (sess (sess a i f mi) q e mq) x pj mj Hs1) as (g & s2 & F2 & _ & Hs2).
  { apply idle_sess; [congruence|]. apply idle_sess; [congruence|done]. }
  { unfold room. rewrite !size_sess; [simpl; lia|done|]. apply idle_sess; [congruence|done]. }
  { simpl. by rewrite !lookup_insert_ne by congruence. }
  assert (H3 : st_repr s2 (three a q e mq i f mi j g mj) x).
  { rewrite three_j by congruence. by rewrite (sess_comm a q e mq i f mi) by congruence. }
  exists e, g, s2. split; [done|].
  assert (HQ : a_held (sess (sess a i f mi) q e mq) !! i = Some (f, 1)) by (simpl; rewrite lookup_insert_ne by congruence; apply lookup_insert_eq).
  assert (VQ : a_view (sess (sess a i f mi) q e mq) !! i = Some mi) by (simpl; rewrite lookup_insert_ne by congruence; apply lookup_insert_eq).
  cbn [CoalesceOrRedistribute]. unfold GetSize, IsRootPage, GetParentPageNo.
  run (on_node_read s _ x i f 1 mi (λ _, IxNodeHandle.GetSize) _ Hs (sess_held _ _ _ _) (sess_view _ _ _ _) (GetSize_ok h mi nhi li cb_node0)).
  rewrite bind_gets, (gets_hdr s _ x Hs), (proj2 (Z.leb_gt _ _)) by done.
  assert (Hroot : IxNodeHandle.IsRootPage mi = (Ret false, mi)).
  { unfold IxNodeHandle.IsRootPage. run (GetParent_ok h mi nhi li cb_node0). rewrite cb_parent0. unfold ret.
    by rewrite (proj2 (Z.eqb_neq _ _)). }
  run (on_node_read s _ x i f 1 mi (λ _, IxNodeHandle.IsRootPage) _ Hs (sess_held _ _ _ _) (sess_view _ _ _ _) Hroot).
  run (on_node_read s _ x i f 1 mi (λ _, IxNodeHandle.GetParentPageNo) _ Hs (sess_held _ _ _ _) (sess_view _ _ _ _) (GetParent_ok h mi nhi li cb_node0)).
  rewrite cb_parent0. run F1. unfold find_child. rewrite bind_assoc. run (GetPageNo_ok s1 _ x i f 1 mi Hs1 HQ VQ).
  run (on_node_read s1 _ x q e 1 mq (λ h, IxNodeHandle.find_child h pi) _ Hs1 (sess_held _ _ _ _) (sess_view _ _ _ _)
         (find_child_ok h cb_wf0 mq nhq lq pi idx k sl cb_root0 Hk (CF _ _ _ _ Hk))).
  assert ((if 0 <? Z.of_nat idx then Z.of_nat idx - 1 else Z.of_nat idx + 1) = Z.of_nat (sibling idx)) as ->.
  { unfold sibling. case_decide as E; [by rewrite E|]. rewrite (proj2 (Z.ltb_lt _ _)) by lia. lia. }
  unfold ValueAt. run (on_node_read s1 _ x q e 1 mq (λ h, IxNodeHandle.ValueAt h (Z.of_nat (sibling idx))) _ Hs1 (sess_held _ _ _ _) (sess_view _ _ _ _)
         (ValueAt_ok h cb_wf0 mq nhq lq _ _ _ cb_root0 Hk')).
  cbn [rid_page_no]. run F2.
  run (on_node_read s2 _ x i f 1 mi (λ _, IxNodeHandle.GetSize) _ H3 (sess_held _ _ _ _) (sess_view _ _ _ _) (GetSize_ok h mi nhi li cb_node0)).
  run (on_node_read s2 _ x j g 1 mj (λ _, IxNodeHandle.GetSize) _ Hs2 (sess_held _ _ _ _) (sess_view _ _ _ _) (GetSize_ok h mj nhj lj cb_sib0)).
  by rewrite bind_gets, (gets_hdr s2 _ x Hs2).
Qed.

Lemma borrow_ok s fuel :
  enough x li lj → st_repr s (sess a i f mi) x →
  ∃ s' mq' mi' mj' li' lj', CoalesceOrRedistribute (S (S (S fuel))) f s = (Ret false, s') ∧
    st_repr s' (a_set q mq' (a_set j mj' (a_set i mi' a))) x ∧ borrowed mq' mi' mj' li' lj'.
Proof.
  intros He Hs. destruct (decide_ok s (S (S fuel)) Hs) as (e & g & s2 & Hs2 & ->).
  destruct (redistribute_ok s2 e g fuel He Hs2) as (s3 & mq' & mi' & mj' & li' & lj' & W & Hs3 & Hb).
  destruct (unpin_three s3 e g mq' mi' mj' Hs3) as (s4 & s5 & s6 & U1 & U2 & U3 & Hs6).
  exists s6, mq', mi', mj', li', lj'. split_and!; [|done|done].
  rewrite (proj2 (Z.leb_le _ _)) by done. run W. run U1. run U2. by run U3.
Qed.

End borrow.

End merge.
