(* ===== verification/IxCoalesce.v ===== *)
(** Merging two leaves: [Coalesce], [erase_leaf] and [AdjustRoot], and the part of
    [CoalesceOrRedistribute] that uses them. *)
From S2P Require Import Prelude.
From S2P Require Import Defs.
From S2P Require Import Replacer.
From S2P Require Import Disk.
From S2P Require Import BufferPool.
From S2P Require Import BufferPoolProofs.
From S2P Require Import PoolSpec.
From S2P Require Import Session.
From S2P Require Import IxNode.
From S2P Require Import IxOrder.
From S2P Require Import IxNodeProofs.
From S2P Require Import IxIndex.
From S2P Require Import IxIndexProofs.
From S2P Require Import IxSplit.
From S2P Require Import IxMerge.
Import IxDefs IxIndexHandle.

#[local] Open Scope prog_scope.

(** ** Headers with the same layout *)

Definition like (h h' : IxFileHdr) : Prop :=
  col_type h' = col_type h ∧ col_len h' = col_len h ∧ btree_order h' = btree_order h ∧ keys_size h' = keys_size h.

Lemma like_sym h h' : like h h' → like h' h.
Proof. intros (?&?&?&?). by split_and!. Qed.

Lemma like_trans h1 h2 h3 : like h1 h2 → like h2 h3 → like h1 h3.
Proof. intros (?&?&?&?) (?&?&?&?). split_and!; congruence. Qed.

Lemma like_wf h h' : like h h' → ix_wf h → ix_wf h'.
Proof. intros (E1 & E2 & E3 & E4) []. split; rewrite ?E1, ?E2, ?E3, ?E4; try done. Qed.

Lemma like_nd h h' m nh l : like h h' → nd h m nh l → nd h' m nh l.
Proof.
  intros (E1 & E2 & E3 & E4) []. split; unfold IxNodeHandle.get_key, IxNodeHandle.get_rid, IxNodeHandle.keys, IxNodeHandle.rids in *;
    rewrite ?E2, ?E3, ?E4; done.
Qed.

Lemma like_sorted h h' l : like h h' → sorted h l → sorted h' l.
Proof.
  intros (E1 & _) Hs i j u v Hij Hu Hv. specialize (Hs i j u v Hij Hu Hv). revert Hs.
  unfold kcmp, key_val. by rewrite E1.
Qed.

Lemma like_keys_ok h h' l : like h h' → keys_ok h l → keys_ok h' l.
Proof.
  intros (E1 & E2 & _) Hk k v Hin. destruct (Hk k v Hin) as (H1 & H2 & H3). split_and!; [by rewrite E2|done|by rewrite E1].
Qed.

(** The pages a session holds. *)
Ltac held := simpl; rewrite ?lookup_insert_ne by done; first [done|apply lookup_insert_eq].

Section coalesce.
  Context {D : Type} {PS : PageStore D} {PSL : PageStoreLaws D}
          {R : Type} {RP : Replacer R} {RPL : ReplacerLaws R}.
  Notation st := (IxIndexHandle.st D R).
  Implicit Types (s : st) (a b c : Abs) (x y : handle) (e f g : Z) (i j : PageId) (m : bytes).

Lemma nd_page_size h m nh l : nd h m nh l → zlen m = PAGE_SIZE.
Proof. by intros []. Qed.

(** ** Pages given back *)

(** The page is unpinned and deleted, and its number read in between. *)
Lemma unpin_delete_ok s b x i f m :
  st_repr s (sess b i f m) x → idle i b →
  ∃ s1 s2, unpin f true s = (Ret tt, s1) ∧ GetPageId f s1 = (Ret i, s1) ∧
    on_pool (BufferPool.DeletePage i) s1 = (Ret true, s2) ∧ st_repr s2 (a_set i m b) x.
Proof.
  intros Hs Hi. pose proof Hs as [Hr Hx].
  destruct (repr_unpin (bpm s) _ i f 1 true Hr (sess_held _ _ _ _)) as (p & Hrun & Hr'); [by left|].
  destruct (unpin_frame (bpm s) _ i f 1 true p Hr (sess_held _ _ _ _) ltac:(by left) Hrun) as (pg & Hget%get_page_Some & Hid & _).
  rewrite sess_release in Hr' by done.
  destruct (repr_delete p _ i Hr' (proj1 Hi)) as (p' & Hdel & Hr2).
  exists (set_bpm p s), (set_bpm p' s). split_and!; [| | |done].
  - unfold unpin, Unpin. step. run (GetPageId_ok s _ x i f 1 m Hs (sess_held _ _ _ _) (sess_view _ _ _ _)).
    by run (ix_on_pool_Ret _ _ _ _ Hrun).
  - unfold GetPageId. run (ix_on_pool_Ret _ (set_bpm p s) _ _ Hget). by rewrite Hid.
  - by apply (ix_on_pool_Ret _ (set_bpm p s)).
Qed.

(** ** The list of leaves *)

Section erase.
  Context (b : Abs) (y : handle) (L R0 : Z) (fl fr : Z) (ml mr mn : bytes) (nhl nhr nhn : NodeHdr).
  Context (ll lr ln : list (bytes * Rid)).
  Notation h := (file_hdr_ y).
  Notation l := (page_of y L).
  Notation r := (page_of y R0).
  Notation k := (page_of y (n_next nhr)).
  Hypotheses (Hwf : ix_wf h) (Hl : nd h ml nhl ll) (Hr : nd h mr nhr lr) (Hn : nd h mn nhn ln)
    (Hleaf : n_leaf nhr = true) (Hprev : n_prev nhr = L)
    (Hlr : l ≠ r) (Hrl : r ≠ l) (Hkl : k ≠ l) (Hkr : k ≠ r) (Hlk : l ≠ k) (Hrk : r ≠ k)
    (Hil : idle l b) (Hir : idle r b) (Hik : idle k b) (Hview : a_view b !! k = Some mn)
    (Hroom : Z.of_nat (size (a_held b)) + 2 < a_size b).

(** The left neighbour of the right leaf is held already. *)
Lemma erase_leaf_ok s :
  st_repr s (sess (sess b r fr mr) l fl ml) y →
  ∃ s' ml' mk, erase_leaf fr s = (Ret tt, s') ∧ st_repr s' (sess (sess (a_set k mk b) r fr mr) l fl ml') y ∧
    nd h ml' (mkNodeHdr (n_parent nhl) (n_leaf nhl) (n_prev nhl) (n_next nhr)) ll ∧
    nd h mk (mkNodeHdr (n_parent nhn) (n_leaf nhn) L (n_next nhn)) ln.
Proof.
  intros Hs. set (c := sess b r fr mr).
  assert (Hnx32 : is_s32 (n_next nhr)) by (rewrite <- (nd_next _ _ _ _ Hr); apply dec32_range).
  assert (HL32 : is_s32 L) by (rewrite <- Hprev, <- (nd_prev _ _ _ _ Hr); apply dec32_range).
  destruct (refetch_ok s c y L fl ml Hs) as (s1 & F1 & Hs1).
  destruct (nd_store_hdr h Hwf ml nhl ll off_next_leaf (n_next nhr) Hl Hnx32 ltac:(set_solver)) as (ml' & Wl & Nl). simpl in Nl.
  destruct (write_twice_ok s1 c y l fl ml (λ _, IxNodeHandle.store_word off_next_leaf (n_next nhr)) tt ml' Hs1 Wl)
    as (s2 & W2 & Hs2); [by eapply nd_page_size|].
  destruct (unpin_twice_ok s2 c y l fl ml' Hs2) as (s3 & U3 & Hs3).
  assert (Hk3 : idle k (sess c l fl ml')) by (apply idle_sess; [done|]; by apply idle_sess).
  destruct (FetchNode_ok s3 _ y (n_next nhr) mn Hs3 Hk3) as (fk & s4 & F4 & _ & Hs4).
  { unfold room, c. rewrite !size_sess by first [done|by apply idle_sess]. simpl. lia. }
  { unfold c. by held. }
  destruct (nd_store_hdr h Hwf mn nhn ln off_prev_leaf L Hn HL32 ltac:(set_solver)) as (mk & Wk & Nk). simpl in Nk.
  destruct (on_node_write s4 _ y k fk mn (λ _, IxNodeHandle.store_word off_prev_leaf L) tt mk Hs4 Wk)
    as (s5 & W5 & Hs5); [by eapply nd_page_size|].
  destruct (ix_unpin_dirty_ok s5 _ y k fk mk Hs5 Hk3) as (s6 & U6 & Hs6).
  unfold c in Hs6. rewrite !a_set_sess in Hs6 by done.
  exists s6, ml', mk. split_and!; [|done|done|done].
  unfold erase_leaf, IsLeafPage, GetPrevLeaf, GetNextLeaf, SetNextLeaf, SetPrevLeaf, store_word, unpin.
  run (on_node_read s _ y r fr _ mr (λ _, IxNodeHandle.IsLeafPage) _ Hs ltac:(held) ltac:(held) (IsLeafPage_ok h mr nhr lr Hr)).
  rewrite Hleaf, bind_assert by done.
  run (on_node_read s _ y r fr _ mr (λ _, IxNodeHandle.GetPrevLeaf) _ Hs ltac:(held) ltac:(held) (GetPrev_ok h mr nhr lr Hr)).
  rewrite Hprev. run F1.
  run (on_node_read s1 _ y r fr _ mr (λ _, IxNodeHandle.GetNextLeaf) _ Hs1 ltac:(held) ltac:(held) (GetNext_ok h mr nhr lr Hr)).
  run W2. step. run U3. step.
  run (on_node_read s3 _ y r fr _ mr (λ _, IxNodeHandle.GetNextLeaf) _ Hs3 ltac:(held) ltac:(held) (GetNext_ok h mr nhr lr Hr)).
  run F4.
  run (on_node_read s4 _ y r fr _ mr (λ _, IxNodeHandle.GetPrevLeaf) _ Hs4 ltac:(held) ltac:(held) (GetPrev_ok h mr nhr lr Hr)).
  rewrite Hprev. run W5. exact U6.
Qed.

End erase.

(** ** [Coalesce] of two leaves *)

(** The header after the right leaf [R0] was merged into [L]: [last_leaf] moves,
    and one page less is counted. *)
Definition relast (L R0 : Z) (h : IxFileHdr) : IxFileHdr := if R0 =? last_leaf h then set_last_leaf L h else h.
Definition merged_hdr (L R0 : Z) (h : IxFileHdr) : IxFileHdr := set_num_pages (num_pages h - 1) (relast L R0 h).

Lemma relast_like L R0 h : like h (relast L R0 h).
Proof. unfold relast, like. by destruct (_ =? _). Qed.

Lemma relast_pages L R0 h : num_pages (relast L R0 h) = num_pages h.
Proof. unfold relast. by destruct (_ =? _). Qed.

Lemma merged_like L R0 h : like h (merged_hdr L R0 h).
Proof. destruct (relast_like L R0 h) as (?&?&?&?). by split_and!. Qed.

(** Leaves [L] and [R0] are neighbours in the list of leaves, both children of [p],
    which has [R0] at [rank]; their pairs fit in one node. *)
Record can_merge (a : Abs) (x : handle) (p L R0 : Z) (rank : nat) (ml mr mq mn : bytes)
    (nhl nhr nhq nhn : NodeHdr) (ll lr lq ln : list (bytes * Rid)) : Prop := {
  cm_wf : ix_wf (file_hdr_ x);
  cm_left : nd (file_hdr_ x) ml nhl ll;
  cm_right : nd (file_hdr_ x) mr nhr lr;
  cm_parent : nd (file_hdr_ x) mq nhq lq;
  cm_next : nd (file_hdr_ x) mn nhn ln;
  cm_leaves : n_leaf nhl = true ∧ n_leaf nhr = true;
  cm_prev : n_prev nhr = L;
  cm_rank : ∃ k sl, lq !! rank = Some (k, mkRid R0 sl);
  cm_children : NoDup (map (λ kv, rid_page_no kv.2) lq);
  cm_pages : NoDup [L; R0; p; n_next nhr];
  cm_idle : Forall (λ z, idle (page_of x z) a) [L; R0; p; n_next nhr];
  cm_view : a_view a !! page_of x (n_next nhr) = Some mn;
  cm_room : Z.of_nat (size (a_held a)) + 3 < a_size a;
  cm_fit : zlen ll + zlen lr <= btree_order (file_hdr_ x) + 1;
  cm_count : is_s32 (num_pages (file_hdr_ x) - 1) }.

Lemma page_of_ne x (p q : Z) : p ≠ q → page_of x p ≠ page_of x q.
Proof. intros Hne [= ?]. done. Qed.

Section merge_leaves.
  Context (a : Abs) (x : handle) (p L R0 : Z) (rank : nat) (e fl fr : Z) (ml mr mq mn : bytes).
  Context (nhl nhr nhq nhn : NodeHdr) (ll lr lq ln : list (bytes * Rid)).
  Hypothesis HM : can_merge a x p L R0 rank ml mr mq mn nhl nhr nhq nhn ll lr lq ln.
  Notation h := (file_hdr_ x).
  Notation l := (page_of x L).
  Notation r := (page_of x R0).
  Notation q := (page_of x p).
  Notation k := (page_of x (n_next nhr)).

Lemma merge_pages :
  (l ≠ r ∧ l ≠ q ∧ l ≠ k ∧ r ≠ q ∧ r ≠ k ∧ q ≠ k) ∧ (r ≠ l ∧ q ≠ l ∧ k ≠ l ∧ q ≠ r ∧ k ≠ r ∧ k ≠ q).
Proof.
  pose proof (cm_pages _ _ _ _ _ _ _ _ _ _ _ _ _ _ _ _ _ _ HM) as Hnd.
  rewrite !NoDup_cons, !not_elem_of_cons in Hnd. destruct Hnd as ((LR & LP & LN & _) & (RP0 & RN & _) & (PN & _) & _ & _).
  split; split_and!; apply page_of_ne; congruence.
Qed.

Lemma merge_idle : idle l a ∧ idle r a ∧ idle q a ∧ idle k a.
Proof.
  pose proof (cm_idle _ _ _ _ _ _ _ _ _ _ _ _ _ _ _ _ _ _ HM) as Hi. rewrite !Forall_cons in Hi. tauto.
Qed.

(** The pairs of the right leaf are appended to the left one. *)
Lemma append_ok s c :
  r ≠ l → st_repr s (sess (sess c r fr mr) l fl ml) x →
  ∃ s' ml', on_node fl (λ h0, IxNodeHandle.insert_pairs h0 (zlen ll) (at_ptr mr (IxNodeHandle.get_key h 0))
              (at_ptr mr (IxNodeHandle.get_rid h 0)) (zlen lr)) s = (Ret tt, s') ∧
    st_repr s' (sess (sess c r fr mr) l fl ml') x ∧ nd h ml' nhl (ll ++ lr).
Proof.
  intros Hne Hs. destruct HM.
  pose proof (pairs_at_page h cm_wf0 mr nhr lr 0 cm_right0 ltac:(lia)) as Hp. rewrite drop_0 in Hp. change (Z.of_nat 0) with 0 in Hp.
  destruct (insert_pairs_ok h cm_wf0 ml nhl ll lr _ _ (length ll) cm_left0 ltac:(lia) ltac:(lia) Hp) as (ml' & W & Nl).
  rewrite take_ge, drop_ge, app_nil_r in Nl by lia.
  destruct (on_node_write s _ x l fl ml (λ h0, IxNodeHandle.insert_pairs h0 (zlen ll) (at_ptr mr (IxNodeHandle.get_key h 0))
    (at_ptr mr (IxNodeHandle.get_rid h 0)) (zlen lr)) tt ml' Hs W) as (s' & Hrun & Hs'); [by eapply nd_page_size|].
  by exists s', ml'.
Qed.

(** The last leaf may change. *)
Lemma relast_ok s c m m2 :
  r ≠ l → st_repr s (sess (sess c r fr m2) l fl m) x →
  ∃ s', (when (R0 =? last_leaf h) (let* z := GetPageNo fl in upd_hdr (set_last_leaf z))) s = (Ret tt, s') ∧
    st_repr s' (sess (sess c r fr m2) l fl m) (mkHandle (fd_ x) (relast L R0 h)).
Proof.
  intros Hne Hs. unfold relast. destruct (R0 =? last_leaf h); simpl.
  - run (GetPageNo_ok s _ x l fl 1 m Hs (sess_held _ _ _ _) (sess_view _ _ _ _)). by apply upd_hdr_repr.
  - exists s. split; [done|]. by destruct x.
Qed.

(** The parent forgets the right leaf, which is deleted. *)
Lemma drop_right_ok s b y m :
  fd_ y = fd_ x → like h (file_hdr_ y) → is_s32 (num_pages (file_hdr_ y) - 1) →
  l ≠ r → l ≠ q → r ≠ q → q ≠ r → idle l b → idle r b → idle q b →
  st_repr s (sess (sess (sess b q e mq) r fr mr) l fl m) y →
  ∃ s' mq', (let* right_idx_in_parent := find_child e fr in
      on_node e (λ h, IxNodeHandle.erase_pair h right_idx_in_parent) ;;;
      release_node_handle ;;;
      unpin fr true ;;;
      let* i := GetPageId fr in
      let* _ := on_pool (BufferPool.DeletePage i) in
      unpin fl true) s = (Ret tt, s') ∧
    st_repr s' (sess (a_set l m (a_set r mr b)) q e mq')
      (mkHandle (fd_ y) (set_num_pages (num_pages (file_hdr_ y) - 1) (file_hdr_ y))) ∧
    nd h mq' nhq (take rank lq ++ drop (S rank) lq).
Proof.
  intros Hfd Hlike H32 Dlr Dlq Drq Dqr Il Ir Iq Hs. destruct HM. destruct cm_rank0 as (kr & sl & Hkr).
  pose proof (like_wf _ _ Hlike cm_wf0) as Hwf'. pose proof (like_nd _ _ _ _ _ Hlike cm_parent0) as Nq.
  set (y' := mkHandle (fd_ y) (set_num_pages (num_pages (file_hdr_ y) - 1) (file_hdr_ y))).
  assert (Hsq : st_repr s (sess (sess (sess b r fr mr) l fl m) q e mq) y).
  { rewrite (sess_comm _ l fl m q e mq), (sess_comm b r fr mr q e mq) by done. done. }
  destruct (erase_pair_ok _ Hwf' mq nhq lq rank Nq ltac:(by eapply lookup_lt_Some)) as (mq' & We & Nq').
  destruct (on_node_write s _ y q e mq (λ h, IxNodeHandle.erase_pair h (Z.of_nat rank)) tt mq' Hsq We) as (s1 & W1 & Hs1);
    [by eapply nd_page_size|].
  destruct (upd_hdr_repr s1 _ y (set_num_pages (num_pages (file_hdr_ y) - 1)) Hs1) as (s2 & W2 & Hs2). fold y' in Hs2.
  assert (Hs2' : st_repr s2 (sess (sess (sess b q e mq') l fl m) r fr mr) y').
  { rewrite (sess_comm _ l fl m r fr mr), (sess_comm b q e mq' r fr mr), (sess_comm _ q e mq' l fl m) by done. done. }
  destruct (unpin_delete_ok s2 _ y' r fr mr Hs2') as (s3 & s4 & W3 & G3 & W4 & Hs4).
  { apply idle_sess; [done|]. by apply idle_sess. }
  rewrite !a_set_sess in Hs4 by done.
  destruct (ix_unpin_dirty_ok s4 _ y' l fl m Hs4) as (s5 & W5 & Hs5).
  { apply idle_sess; [done|]. by apply idle_set. }
  rewrite !a_set_sess in Hs5 by done.
  exists s5, mq'. split_and!; [|exact Hs5|].
  2:{ eapply like_nd; [|exact Nq']. destruct Hlike as (?&?&?&?). by split_and!. }
  unfold find_child. rewrite bind_assoc.
  run (GetPageNo_ok s _ y r fr _ mr Hs ltac:(held) ltac:(held)).
  run (on_node_read s _ y q e _ mq (λ h, IxNodeHandle.find_child h R0) _ Hsq ltac:(held) ltac:(held)
    (find_child_ok _ Hwf' mq nhq lq R0 rank kr sl Nq Hkr (first_child _ _ _ _ _ cm_children0 Hkr))).
  run W1. unfold release_node_handle. rewrite !bind_assoc, bind_gets, (gets_hdr s1 _ y Hs1), bind_assoc.
  rewrite (bind_or_ub _ _ _ (num_pages (file_hdr_ y) - 1)) by by apply s32_Some.
  run W2. run W3. run G3. run W4. exact W5.
Qed.

(** The pool and the header afterwards; [ml'], [mk] and [mq'] are the left leaf, the
    leaf after the right one and the parent. *)
Definition merged (mk ml' : bytes) : Abs := a_set l ml' (a_set r mr (a_set k mk a)).

Lemma Coalesce_ok s index node neighbor :
  (if index =? 0 then node else neighbor) = fl → (if index =? 0 then neighbor else node) = fr →
  st_repr s (sess (sess (sess a q e mq) r fr mr) l fl ml) x →
  ∃ s' mk ml' mq', Coalesce neighbor node e index s = (Ret tt, s') ∧
    st_repr s' (sess (merged mk ml') q e mq') (mkHandle (fd_ x) (merged_hdr L R0 h)) ∧
    nd h ml' (mkNodeHdr (n_parent nhl) true (n_prev nhl) (n_next nhr)) (ll ++ lr) ∧
    nd h mk (mkNodeHdr (n_parent nhn) (n_leaf nhn) L (n_next nhn)) ln ∧
    nd h mq' nhq (take rank lq ++ drop (S rank) lq).
Proof.
  intros Eleft Eright Hs. pose proof append_ok as AP. pose proof relast_ok as RL. pose proof drop_right_ok as DR.
  pose proof merge_pages as ((Dlr & Dlq & Dlk & Drq & Drk & Dqk) & Drl & Dql & Dkl & Dqr & Dkr & Dkq).
  pose proof merge_idle as (Il & Ir & Iq & Ik). pose proof HM as []. destruct cm_leaves0 as [Hll Hlr].
  destruct (AP s (sess a q e mq) Drl Hs) as (s1 & m1 & W1 & Hs1 & N1).
  destruct (RL s1 (sess a q e mq) m1 mr Drl Hs1) as (s2 & W2 & Hs2).
  set (y := mkHandle (fd_ x) (relast L R0 h)) in *. pose proof (relast_like L R0 h) as Hy. change (relast L R0 h) with (file_hdr_ y) in Hy.
  destruct (erase_leaf_ok (sess a q e mq) y L R0 fl fr m1 mr mn nhl nhr nhn (ll ++ lr) lr ln) with (s := s2)
    as (s3 & m2 & mk & W3 & Hs3 & N3 & Nk); try done; try (by eapply like_nd).
  { by eapply like_wf. }
  { by apply idle_sess. }
  { by apply idle_sess. }
  { by apply idle_sess. }
  { by held. }
  { rewrite size_sess by done. simpl. lia. }
  change (page_of y (n_next nhr)) with k in Hs3. change (page_of y R0) with r in Hs3. change (page_of y L) with l in Hs3.
  rewrite a_set_sess in Hs3 by done.
  destruct (DR s3 (a_set k mk a) y m2) as (s4 & mq' & W4 & Hs4 & Nq); try done.
  { simpl. by rewrite relast_pages. }
  exists s4, mk, m2, mq'. split_and!; [| | | |done].
  2:{ unfold merged, merged_hdr. rewrite <- (relast_pages L R0 h). exact Hs4. }
  2:{ rewrite <- Hll. eapply like_nd; [by apply like_sym|exact N3]. }
  2:{ eapply like_nd; [by apply like_sym|exact Nk]. }
  unfold Coalesce. rewrite Eleft, Eright. unfold GetSize, IsLeafPage, key_ptr, rid_ptr.
  run (on_node_read s _ x r fr _ mr (λ _, IxNodeHandle.GetSize) _ Hs ltac:(held) ltac:(held) (GetSize_ok h mr nhr lr cm_right0)).
  run (on_node_read s _ x l fl _ ml (λ _, IxNodeHandle.GetSize) _ Hs ltac:(held) ltac:(held) (GetSize_ok h ml nhl ll cm_left0)).
  run (on_node_read s _ x r fr _ mr (λ h, IxNodeHandle.key_ptr h 0) _ Hs ltac:(held) ltac:(held) eq_refl).
  run (on_node_read s _ x r fr _ mr (λ h, IxNodeHandle.rid_ptr h 0) _ Hs ltac:(held) ltac:(held) eq_refl).
  run W1. pose proof (IsLeafPage_ok h mr nhr lr cm_right0) as Hleaf. rewrite Hlr in Hleaf.
  run (on_node_read s1 _ x r fr _ mr (λ _, IxNodeHandle.IsLeafPage) _ Hs1 ltac:(held) ltac:(held) Hleaf). simpl. step.
  run (on_node_read s1 _ x r fr _ mr (λ _, IxNodeHandle.IsLeafPage) _ Hs1 ltac:(held) ltac:(held) Hleaf). simpl. step.
  run (GetPageNo_ok s1 _ x r fr _ mr Hs1 ltac:(held) ltac:(held)). step. rewrite (gets_hdr s1 _ x Hs1). run W2. run W3.
  exact W4.
Qed.

End merge_leaves.

(** ** The root afterwards *)

Section root.
  Context (b : Abs) (y : handle) (p e : Z) (mq : bytes) (nhq : NodeHdr) (lq : list (bytes * Rid)).
  Notation h := (file_hdr_ y).
  Notation q := (page_of y p).
  Hypotheses (Hwf : ix_wf h) (Hq : nd h mq nhq lq) (Hroot : n_parent nhq = IX_NO_PAGE) (Hinner : n_leaf nhq = false)
    (Iq : idle q b).

Lemma root_reads s : st_repr s (sess b q e mq) y →
  GetSize e s = (Ret (zlen lq), s) ∧ IsRootPage e s = (Ret true, s) ∧ IsLeafPage e s = (Ret false, s).
Proof.
  intros Hs. split_and!.
  - by apply (on_node_read s _ y q e _ mq _ _ Hs (sess_held _ _ _ _) (sess_view _ _ _ _)), (GetSize_ok h mq nhq lq).
  - apply (on_node_read s _ y q e _ mq _ _ Hs (sess_held _ _ _ _) (sess_view _ _ _ _)).
    unfold IxNodeHandle.IsRootPage. run (GetParent_ok h mq nhq lq Hq). by rewrite Hroot.
  - apply (on_node_read s _ y q e _ mq _ _ Hs (sess_held _ _ _ _) (sess_view _ _ _ _)).
    rewrite <- Hinner. by apply (IsLeafPage_ok h mq nhq lq).
Qed.

(** A root with several children stays. *)
Lemma root_stays_ok s n :
  2 <= zlen lq → st_repr s (sess b q e mq) y →
  ∃ s', CoalesceOrRedistribute (S n) e s = (Ret false, s') ∧ st_repr s' (a_set q mq b) y.
Proof.
  intros H2 Hs. destruct (ix_unpin_dirty_ok s b y q e mq Hs Iq) as (s' & U & Hs'). exists s'. split; [|done].
  destruct (root_reads s Hs) as (R1 & R2 & R3). cbn [CoalesceOrRedistribute]. run R1. step.
  destruct (_ <=? _); [by run U|]. run R2. unfold AdjustRoot. step. run R3. step. run R1. simpl.
  rewrite (proj2 (Z.eqb_neq _ _)) by lia. step. by run U.
Qed.

(** A root with one child gives way to it. *)
Lemma root_shrinks_ok s n k v mc nhc lc :
  lq = [(k, v)] → rid_page_no v ≠ p → idle (page_of y (rid_page_no v)) b →
  a_view b !! page_of y (rid_page_no v) = Some mc → nd h mc nhc lc → Z.of_nat (size (a_held b)) + 1 < a_size b →
  is_s32 (num_pages h - 1) → st_repr s (sess b q e mq) y →
  ∃ s' mq' mc', CoalesceOrRedistribute (S n) e s = (Ret true, s') ∧
    st_repr s' (a_set q mq' (a_set (page_of y (rid_page_no v)) mc' b))
      (mkHandle (fd_ y) (set_num_pages (num_pages h - 1) (set_root_page (rid_page_no v) h))) ∧
    nd h mc' (mkNodeHdr IX_NO_PAGE (n_leaf nhc) (n_prev nhc) (n_next nhc)) lc ∧ nd h mq' nhq [].
Proof.
  intros Elq Hcp Ic Vc Nc Hroom H32 Hs. destruct (root_reads s Hs) as (R1 & R2 & R3). subst lq. set (cp := rid_page_no v) in *.
  pose proof (page_of_ne y _ _ Hcp) as Dcq. pose proof (not_eq_sym Dcq) as Dqc.
  destruct (RemoveOnlyChild_ok h Hwf mq nhq k v Hq) as (mq' & Wr & Nq'). fold cp in Wr.
  destruct (on_node_write s b y q e mq (λ h, IxNodeHandle.RemoveAndReturnOnlyChild h) cp mq' Hs Wr) as (s1 & W1 & Hs1);
    [by eapply nd_page_size|].
  assert (Ic' : idle (page_of y cp) (sess b q e mq')) by by apply idle_sess.
  destruct (FetchNode_ok s1 _ y cp mc Hs1 Ic') as (g & s2 & F2 & _ & Hs2).
  { unfold room. rewrite size_sess by done. simpl. lia. }
  { by held. }
  destruct (nd_store_hdr h Hwf mc nhc lc off_parent IX_NO_PAGE Nc ltac:(done) ltac:(left)) as (mc' & Wc & Nc'). simpl in Nc'.
  destruct (on_node_write s2 _ y _ g mc (λ _, IxNodeHandle.store_word off_parent IX_NO_PAGE) tt mc' Hs2 Wc) as (s3 & W3 & Hs3);
    [by eapply nd_page_size|].
  destruct (ix_unpin_dirty_ok s3 _ y _ g mc' Hs3 Ic') as (s4 & U4 & Hs4). rewrite a_set_sess in Hs4 by done.
  destruct (upd_hdr_repr s4 _ y (set_root_page cp) Hs4) as (s5 & W5 & Hs5).
  destruct (upd_hdr_repr s5 _ _ (set_num_pages (num_pages h - 1)) Hs5) as (s6 & W6 & Hs6).
  destruct (ix_unpin_dirty_ok s6 _ _ q e mq' Hs6 Iq) as (s7 & U7 & Hs7).
  exists s7, mq', mc'. split_and!; [|exact Hs7|exact Nc'|exact Nq'].
  cbn [CoalesceOrRedistribute]. run R1. rewrite bind_gets, (gets_hdr s _ y Hs).
  pose proof (wf_order _ Hwf). rewrite (proj2 (Z.leb_gt _ _)).
  2:{ unfold IxNodeHandle.GetMinSize, IxNodeHandle.GetMaxSize. rewrite Z.quot_div_nonneg by lia. simpl.
      apply Z.lt_le_trans with 2; [lia|]. apply Z.div_le_lower_bound; lia. }
  run R2. unfold AdjustRoot. rewrite !bind_assoc. run R3. rewrite bind_assoc. run R1. simpl. rewrite !bind_assoc. run W1.
  rewrite bind_assoc. run F2. rewrite bind_assoc. unfold SetParentPageNo, store_word. run W3. rewrite bind_assoc. run U4.
  rewrite bind_assoc. run W5. rewrite bind_assoc. unfold release_node_handle.
  rewrite bind_assoc, bind_gets, (gets_hdr s5 _ _ Hs5), bind_assoc.
  rewrite (bind_or_ub _ _ _ (num_pages h - 1)) by by apply s32_Some. run W6. step. by run U7.
Qed.

End root.

(** ** A leaf that is merged with its sibling *)

(** What belongs to the left one of child [idx] and its sibling, when [u] belongs to
    the child. *)
Definition side {A} (idx : nat) (u v : A) : A := if decide (idx = 0)%nat then u else v.

(** The two leaves have too few pairs for two nodes, and are neighbours in the list
    of leaves; [mn] is the next leaf of the right one. *)
Record mergeable (a : Abs) (x : handle) (pi p pj : Z) (idx : nat) (mn : bytes)
    (nhi nhq nhj nhn : NodeHdr) (li lj ln : list (bytes * Rid)) : Prop := {
  mg_leaf : n_leaf nhj = true;
  mg_inner : n_leaf nhq = false;
  mg_prev : n_prev (side idx nhj nhi) = side idx pi pj;
  mg_next : nd (file_hdr_ x) mn nhn ln;
  mg_apart : n_next (side idx nhj nhi) ≠ pi ∧ n_next (side idx nhj nhi) ≠ pj ∧ n_next (side idx nhj nhi) ≠ p;
  mg_view : a_view a !! page_of x (n_next (side idx nhj nhi)) = Some mn;
  mg_idle : idle (page_of x (n_next (side idx nhj nhi))) a;
  mg_room : Z.of_nat (size (a_held a)) + 3 < a_size a;
  mg_poor : zlen li + zlen lj < IxNodeHandle.GetMinSize (file_hdr_ x) * 2;
  mg_count : 2 < num_pages (file_hdr_ x) < 2 ^ 31 }.

Section merge.
  Context (a : Abs) (x : handle) (pi p pj : Z) (idx : nat) (f : Z) (mi mq mj mn : bytes).
  Context (nhi nhq nhj nhn : NodeHdr) (li lq lj ln : list (bytes * Rid)).
  Hypothesis HB : underfull a x pi p pj idx f mi mq mj nhi nhq nhj li lq lj.
  Hypothesis HM : mergeable a x pi p pj idx mn nhi nhq nhj nhn li lj ln.
  Notation h := (file_hdr_ x).
  Notation L := (side idx pi pj).
  Notation R0 := (side idx pj pi).
  Notation rank := (Nat.max idx (sibling idx)).
  Notation nhl := (side idx nhi nhj).
  Notation nhr := (side idx nhj nhi).
  Notation ll := (side idx li lj).
  Notation lr := (side idx lj li).
  Notation ml := (side idx mi mj).
  Notation mr := (side idx mj mi).

Lemma merge_fit : zlen li + zlen lj <= btree_order h.
Proof.
  destruct HM. destruct HB. pose proof (wf_order _ cb_wf). revert mg_poor0.
  unfold IxNodeHandle.GetMinSize, IxNodeHandle.GetMaxSize. rewrite Z.quot_div_nonneg by lia.
  pose proof (Z.mul_div_le (btree_order h + 1) 2). lia.
Qed.

Lemma can_merge_sides : can_merge a x p L R0 rank ml mr mq mn nhl nhr nhq nhn ll lr lq ln.
Proof.
  pose proof merge_fit as Hfit.
  pose proof (siblings_differ a x pi p pj idx f mi mq mj nhi nhq nhj li lq lj HB) as Hne.
  destruct HB, HM. destruct mg_apart0 as (A1 & A2 & A3). destruct cb_pages as [P1 P2]. destruct cb_idle as (I1 & I2 & I3).
  unfold side, sibling in *. destruct (decide (idx = 0)%nat) as [->|H0]; simpl in *.
  - split; try done.
    + repeat (apply NoDup_cons; split; [set_solver|]). apply NoDup_nil_2.
    + by rewrite !Forall_cons, Forall_nil.
    + lia.
    + unfold is_s32. lia.
  - replace (Nat.max idx (idx - 1)) with idx by lia. split; try done.
    + repeat (apply NoDup_cons; split; [set_solver|]). apply NoDup_nil_2.
    + by rewrite !Forall_cons, Forall_nil.
    + lia.
    + unfold is_s32. lia.
Qed.

(** Up to the call for the parent. *)
Lemma merge_step s n :
  st_repr s (sess a (page_of x pi) f mi) x →
  ∃ e s3 mk ml' mq', CoalesceOrRedistribute (S n) f s = CoalesceOrRedistribute n e s3 ∧
    st_repr s3 (sess (merged a x L R0 mr nhr mk ml') (page_of x p) e mq') (mkHandle (fd_ x) (merged_hdr L R0 h)) ∧
    nd h ml' (mkNodeHdr (n_parent nhl) true (n_prev nhl) (n_next nhr)) (ll ++ lr) ∧
    nd h mk (mkNodeHdr (n_parent nhn) (n_leaf nhn) L (n_next nhn)) ln ∧
    nd h mq' nhq (take rank lq ++ drop (S rank) lq).
Proof.
  intros Hs. destruct (decide_ok a x pi p pj idx f mi mq mj nhi nhq nhj li lq lj HB s n Hs) as (e & g & s2 & Hs2 & Hrun).
  destruct (pages_differ a x pi p pj idx f mi mq mj nhi nhq nhj li lq lj HB) as (Dij & Diq & Djq & Dji & Dqi & Dqj).
  rewrite (proj2 (Z.leb_gt _ _)) in Hrun by (apply HM).
  destruct (Coalesce_ok a x p L R0 rank e (side idx f g) (side idx g f) ml mr mq mn nhl nhr nhq nhn ll lr lq ln
    can_merge_sides s2 (Z.of_nat idx) f g) as (s3 & mk & ml' & mq' & W & Hs3 & N1 & N2 & N3).
  { unfold side. case_decide as E; [by rewrite E|]. by rewrite (proj2 (Z.eqb_neq _ _)) by lia. }
  { unfold side. case_decide as E; [by rewrite E|]. by rewrite (proj2 (Z.eqb_neq _ _)) by lia. }
  { unfold three in Hs2. unfold side. case_decide; [done|]. by rewrite (sess_comm _ (page_of x pi) f mi (page_of x pj)) by done. }
  exists e, s3, mk, ml', mq'. split_and!; [|done..]. rewrite Hrun. by run W.
Qed.

(** The header when the left leaf became the root. *)
Definition shrunk_hdr : IxFileHdr := set_num_pages (num_pages h - 2) (set_root_page L (relast L R0 h)).
Definition shrunk : handle := mkHandle (fd_ x) shrunk_hdr.

Lemma shrunk_like : like h shrunk_hdr.
Proof. destruct (relast_like L R0 h) as (?&?&?&?). by split_and!. Qed.

Lemma children_left : length lq = 2%nat → ∃ k sl, take rank lq ++ drop (S rank) lq = [(k, mkRid L sl)].
Proof.
  intros Hlen. destruct HB. destruct cb_child as (k & sl & Hk). destruct cb_sibchild as (k' & sl' & Hk').
  pose proof (lookup_lt_Some _ _ _ Hk). unfold side, sibling in *. destruct lq as [|u [|v [|]]]; try done.
  case_decide as E; simpl in *.
  - subst idx. exists k, sl. simpl in *. by injection Hk as ->.
  - assert (idx = 1%nat) as -> by lia. exists k', sl'. simpl in *. by injection Hk' as ->.
Qed.

Lemma merged_root :
  length lq = 2%nat → sorted h (ll ++ lr) → keys_ok h (ll ++ lr) → ∀ s fuel,
  st_repr s (sess a (page_of x pi) f mi) x →
  ∃ s' a' mk, CoalesceOrRedistribute (S (S fuel)) f s = (Ret true, s') ∧ st_repr s' a' shrunk ∧
    ix_one a' shrunk (ll ++ lr) ∧ a_held a' = a_held a ∧ a_size a' = a_size a ∧
    a_view a' !! page_of x (n_next nhr) = Some mk ∧ nd h mk (mkNodeHdr (n_parent nhn) (n_leaf nhn) L (n_next nhn)) ln.
Proof.
  intros Hlen Hsort Hkeys s fuel Hs. pose proof merge_fit as Hfit. pose proof can_merge_sides as HC. pose proof shrunk_like as Hlike.
  destruct (merge_step s (S fuel) Hs) as (e & s3 & mk & ml' & mq' & Hrun & Hs3 & Nl & Nk & Nq).
  destruct (children_left Hlen) as (kl & sl & Echild). rewrite Echild in Nq.
  pose proof (merged_like L R0 h) as Hy.
  destruct (merge_pages a x p L R0 rank ml mr mq mn nhl nhr nhq nhn ll lr lq ln HC) as ((_ & Dlq & Dlk & _ & Drk & Dqk) & _ & Dql & _).
  destruct (merge_idle a x p L R0 rank ml mr mq mn nhl nhr nhq nhn ll lr lq ln HC) as (Il & Ir & Iq & Ik).
  assert (L ≠ p) as LP by congruence. destruct HC. destruct HM. destruct HB.
  set (y := mkHandle (fd_ x) (merged_hdr L R0 h)) in *. change (merged_hdr L R0 h) with (file_hdr_ y) in Hy.
  assert (Hn : num_pages (file_hdr_ y) = num_pages h - 1) by done.
  destruct (root_shrinks_ok (merged a x L R0 mr nhr mk ml') y p e mq' nhq [(kl, mkRid L sl)] (like_wf _ _ Hy cb_wf)
    (like_nd _ _ _ _ _ Hy Nq) cb_rootpar mg_inner0 Iq s3 fuel kl (mkRid L sl) ml'
    (mkNodeHdr (n_parent nhl) true (n_prev nhl) (n_next nhr)) (ll ++ lr) eq_refl LP Il) as
    (s4 & mq2 & mc & Hrun2 & Hs4 & Nc & _).
  { apply lookup_insert_eq. }
  { by eapply like_nd. }
  { simpl. lia. }
  { rewrite Hn. unfold is_s32. lia. }
  { exact Hs3. }
  replace (set_num_pages _ _) with shrunk_hdr in Hs4.
  2:{ unfold shrunk_hdr. rewrite Hn. replace (num_pages h - 1 - 1) with (num_pages h - 2) by lia. done. }
  eexists s4, _, mk. split_and!; [by rewrite Hrun|exact Hs4| |done|done| |done].
  - split.
    + by eapply like_wf.
    + exact Il.
    + exists mc, (mkNodeHdr IX_NO_PAGE true (n_prev nhl) (n_next nhr)). split; [simpl; rewrite lookup_insert_ne by done; apply lookup_insert_eq|].
      split; [|by split]. eapply like_nd; [|exact Nc]. exact (like_trans _ _ _ (like_sym _ _ Hy) Hlike).
    + by eapply like_sorted.
    + by eapply like_keys_ok.
    + change (file_hdr_ shrunk) with shrunk_hdr. destruct Hlike as (_ & _ & -> & _). rewrite length_app. unfold side. case_decide; lia.
    + simpl. unfold is_s32. lia.
  - simpl. rewrite !lookup_insert_ne by done. apply lookup_insert_eq.
Qed.

End merge.

End coalesce.
