(* ===== verification/IxScanProofs.v ===== *)
(** Index scans over the list of leaves: what [get_rid] and [IxScan::next] do to the
    pool, and that the loop of a scan visits the pairs of the leaves in order. *)
From S2P Require Import Prelude.
From S2P Require Import Defs.
From S2P Require Import RecScan.
From S2P Require Import Replacer.
From S2P Require Import Disk.
From S2P Require Import BufferPool.
From S2P Require Import BufferPoolProofs.
From S2P Require Import PoolSpec.
From S2P Require Import Session.
From S2P Require Import IxNode.
From S2P Require Import IxOrder.
From S2P Require Import IxNodeProofs.
From S2P Require Import IxIndex.
From S2P Require Import IxIndexProofs.
From S2P Require Import IxMerge.
Import IxDefs IxIndexHandle.

#[local] Open Scope prog_scope.

(** ** Pins that are not given back *)

Definition pins_are (c : Abs) (i : PageId) (n : nat) : Prop :=
  match n with O => a_held c !! i = None | _ => ∃ f, a_held c !! i = Some (f, Z.of_nat n) end.

(** [c] is [a] with [n i] more pins of the pages [i] of [P], which [a] does not hold. *)
Record leaked (P : PageId → Prop) (n : PageId → nat) (a c : Abs) : Prop := {
  lk_view : a_view c = a_view a;
  lk_mod : a_mod c = a_mod a;
  lk_next : a_next c = a_next a;
  lk_open : a_open c = a_open a;
  lk_size : a_size c = a_size a;
  lk_pins i : P i → pins_are c i (n i);
  lk_rest i : ¬ P i → a_held c !! i = a_held a !! i }.

Lemma pins_are_pins c i n : pins_are c i n → a_pins i c = Z.of_nat n.
Proof. unfold a_pins. destruct n; simpl; [by intros ->|]. by intros [f ->]. Qed.

Section scan.
  Context {D : Type} {PS : PageStore D} {PSL : PageStoreLaws D}
          {R : Type} {RP : Replacer R} {RPL : ReplacerLaws R}.
  Notation st := (IxIndexHandle.st D R).
  Implicit Types (s : st) (a c : Abs) (x : handle) (i : PageId) (m : bytes).

(** A page that may be held already gets one pin more. *)
Lemma pin_ok s c x p m n :
  st_repr s c x → pins_are c (page_of x p) n → a_view c !! page_of x p = Some m → (n = 0%nat → room c) →
  ∃ f s', FetchNode p s = (Ret f, s') ∧ st_repr s' (a_hold (page_of x p) f (Z.of_nat (S n)) c) x ∧
    (n ≠ 0%nat → a_held c !! page_of x p = Some (f, Z.of_nat n)).
Proof.
  intros [Hr Hx] Hn Hv Hroom.
  destruct (repr_fetch (bpm s) c (page_of x p) m Hr Hv) as (f & p' & Hrun & Hr').
  { destruct n; [right; by apply Hroom|left]. destruct Hn as [g ->]. eauto. }
  rewrite (pins_are_pins _ _ _ Hn) in Hr'. replace (Z.of_nat n + 1) with (Z.of_nat (S n)) in Hr' by lia.
  exists f, (set_bpm p' s). split_and!; [|done|].
  - unfold FetchNode. step. rewrite Hx. by run (ix_on_pool_Ret _ _ _ _ Hrun).
  - intros Hne. destruct n; [done|]. destruct Hn as [g Hg].
    by rewrite (fetch_held _ _ _ _ _ _ _ Hr Hg Hrun).
Qed.

(** And loses it again; the frame is read after that. *)
Lemma unpin_clean_held s c x p f m n :
  st_repr s (a_hold (page_of x p) f (Z.of_nat (S n)) c) x → pins_are c (page_of x p) n →
  (n ≠ 0%nat → a_held c !! page_of x p = Some (f, Z.of_nat n)) → page_of x p ∉ a_mod c →
  a_view c !! page_of x p = Some m →
  ∃ s' pg, unpin f false s = (Ret tt, s') ∧ st_repr s' c x ∧
    BufferPool.frame (bpm s') f = Some pg ∧ data_ pg = m.
Proof.
  intros Hs Hn Hf Hm Hv. pose proof Hs as [Hr Hx]. set (i := page_of x p) in *.
  assert (Hh : a_held (a_hold i f (Z.of_nat (S n)) c) !! i = Some (f, Z.of_nat (S n))) by apply lookup_insert_eq.
  destruct (repr_unpin (bpm s) _ i f _ false Hr Hh) as (q & Hrun & Hr'); [by right|].
  destruct (unpin_frame (bpm s) _ i f _ false q Hr Hh ltac:(by right) Hrun) as (pg & Hpg & _ & Hd).
  exists (set_bpm q s), pg. split_and!; [| |done|].
  - unfold unpin, Unpin. step. run (GetPageId_ok s _ x i f _ m Hs Hh Hv).
    by run (ix_on_pool_Ret _ _ _ _ Hrun).
  - split; [|done]. simpl. eapply eq_rect; [exact Hr'|]. apply Abs_eq; simpl; try done.
    case_decide as E.
    + assert (n = 0%nat) as -> by lia. by apply delete_insert_id.
    + rewrite insert_insert_eq. replace (Z.of_nat (S n) - 1) with (Z.of_nat n) by lia.
      apply insert_id, Hf. lia.
  - simpl in Hd. congruence.
Qed.

Section position.
  Context (c : Abs) (x : handle) (p : Z) (m : bytes) (nh : NodeHdr) (l : list (bytes * Rid)) (n : nat).
  Notation i := (page_of x p).
  Hypotheses (Hwf : ix_wf (file_hdr_ x)) (Hv : a_view c !! i = Some m) (Hn : nd (file_hdr_ x) m nh l)
    (Hpins : pins_are c i n) (Hroom : n = 0%nat → room c) (Hm : i ∉ a_mod c).

(** The pair at a position is read without a trace. *)
Lemma get_rid_ok s (sl : nat) k v :
  st_repr s c x → l !! sl = Some (k, v) →
  ∃ s', get_rid (mkIid p (Z.of_nat sl)) s = (Ret v, s') ∧ st_repr s' c x.
Proof.
  intros Hs Hsl. destruct (pin_ok s c x p m n Hs Hpins Hv Hroom) as (f & s1 & F1 & Hs1 & Hf).
  destruct (unpin_clean_held s1 c x p f m n Hs1 Hpins Hf Hm Hv) as (s2 & pg & U2 & Hs2 & Hpg & Hd).
  exists s2. split; [|done]. unfold get_rid. cbn [iid_page_no iid_slot_no]. run F1. unfold GetSize.
  run (on_node_read s1 _ x i f _ m (λ _, IxNodeHandle.GetSize) _ Hs1 ltac:(apply lookup_insert_eq) Hv (GetSize_ok _ m nh l Hn)).
  pose proof (lookup_bound _ _ _ Hsl). rewrite (proj2 (Z.leb_gt _ _)) by lia. run U2.
  apply (on_node_frame s2 f pg); [done|]. rewrite Hd, (gets_hdr s2 c x Hs2).
  by apply (read_rid_ok _ Hwf m nh l sl k v).
Qed.

(** A position past the pairs is an exception, and the page stays pinned. *)
Lemma get_rid_past s (sl : Z) :
  st_repr s c x → zlen l <= sl →
  ∃ f s', get_rid (mkIid p sl) s = (Throw IndexEntryNotFoundError, s') ∧ st_repr s' (a_hold i f (Z.of_nat (S n)) c) x.
Proof.
  intros Hs Hsl. destruct (pin_ok s c x p m n Hs Hpins Hv Hroom) as (f & s1 & F1 & Hs1 & _).
  exists f, s1. split; [|done]. unfold get_rid. cbn [iid_page_no iid_slot_no]. run F1. unfold GetSize.
  run (on_node_read s1 _ x i f _ m (λ _, IxNodeHandle.GetSize) _ Hs1 ltac:(apply lookup_insert_eq) Hv (GetSize_ok _ m nh l Hn)).
  by rewrite (proj2 (Z.leb_le _ _)) by lia.
Qed.

(** The position after: in the next leaf, after the last pair of a leaf that is not
    the last one. *)
Definition after (sl : nat) : Iid :=
  if negb (p =? last_leaf (file_hdr_ x)) && (Z.of_nat sl + 1 =? zlen l) then mkIid (n_next nh) 0
  else mkIid p (Z.of_nat sl + 1).

(** [next] leaves a pin. *)
Lemma ix_scan_next_ok s (sl : nat) end_ :
  st_repr s c x → n_leaf nh = true → (sl < length l)%nat → mkIid p (Z.of_nat sl) ≠ end_ →
  ∃ f s', scan_next (mkIid p (Z.of_nat sl)) end_ s = (Ret (after sl), s') ∧
    st_repr s' (a_hold i f (Z.of_nat (S n)) c) x.
Proof.
  intros Hs Hleaf Hsl Hne. destruct (pin_ok s c x p m n Hs Hpins Hv Hroom) as (f & s1 & F1 & Hs1 & _).
  exists f, s1. split; [|done]. unfold scan_next. rewrite bind_assert.
  2:{ unfold scan_is_end, Iid_eqb. destruct end_ as [ep es]. cbn [iid_page_no iid_slot_no] in *.
      destruct (Z.eqb_spec p ep) as [->|]; [|done]. destruct (Z.eqb_spec (Z.of_nat sl) es) as [<-|]; done. }
  cbn [iid_page_no iid_slot_no]. run F1. unfold IsLeafPage, GetSize, GetNextLeaf.
  assert (Hh : a_held (a_hold i f (Z.of_nat (S n)) c) !! i = Some (f, Z.of_nat (S n))) by apply lookup_insert_eq.
  run (on_node_read s1 _ x i f _ m (λ _, IxNodeHandle.IsLeafPage) _ Hs1 Hh Hv (IsLeafPage_ok _ m nh l Hn)).
  rewrite Hleaf, bind_assert by done.
  run (on_node_read s1 _ x i f _ m (λ _, IxNodeHandle.GetSize) _ Hs1 Hh Hv (GetSize_ok _ m nh l Hn)).
  rewrite bind_assert by (apply Z.ltb_lt; lia). rewrite bind_gets, (gets_hdr s1 _ x Hs1).
  run (on_node_read s1 _ x i f _ m (λ _, IxNodeHandle.GetSize) _ Hs1 Hh Hv (GetSize_ok _ m nh l Hn)).
  unfold after. destruct (_ && _); [|done].
  by run (on_node_read s1 _ x i f _ m (λ _, IxNodeHandle.GetNextLeaf) _ Hs1 Hh Hv (GetNext_ok _ m nh l Hn)).
Qed.

End position.

End scan.

(** ** The leaves of an index *)

Record leaf := mkLeaf { lf_no : Z; lf_mem : bytes; lf_hdr : NodeHdr; lf_pairs : list (bytes * Rid) }.

(** The positions of a leaf from [sl] to [j], with the leaf they are in. *)
Definition slots (lf : leaf) (sl j : nat) : list (Z * Rid) :=
  map (λ kv, (lf_no lf, kv.2)) (take (j - sl) (drop sl (lf_pairs lf))).

Lemma slots_cons lf sl j k v :
  lf_pairs lf !! sl = Some (k, v) → (sl < j)%nat → slots lf sl j = (lf_no lf, v) :: slots lf (S sl) j.
Proof.
  intros Hv Hj. unfold slots. rewrite (drop_S _ _ _ Hv).
  replace (j - sl)%nat with (S (j - S sl)) by lia. done.
Qed.

Definition all_slots (lf : leaf) : list (Z * Rid) := slots lf 0 (length (lf_pairs lf)).

Lemma all_slots_eq lf : all_slots lf = map (λ kv, (lf_no lf, kv.2)) (lf_pairs lf).
Proof. unfold all_slots, slots. by rewrite Nat.sub_0_r, drop_0, take_ge. Qed.

(** How many of the positions are in leaf [p]. *)
Definition visits (p : Z) (t : list (Z * Rid)) : nat := length (filter (λ q, q.1 = p) t).

Lemma visits_app p t u : visits p (t ++ u) = (visits p t + visits p u)%nat.
Proof. unfold visits. by rewrite filter_app, length_app. Qed.

Lemma visits_one p q v : visits p [(q, v)] = if decide (q = p) then 1%nat else 0%nat.
Proof. unfold visits. rewrite filter_cons. simpl. by case_decide. Qed.

Lemma visits_map p q (l : list (bytes * Rid)) :
  visits p (map (λ kv, (q, kv.2)) l) = if decide (q = p) then length l else 0%nat.
Proof.
  unfold visits. induction l as [|kv l IH]; simpl; [by case_decide|].
  rewrite filter_cons. simpl. destruct (decide (q = p)); simpl; by rewrite IH.
Qed.

Lemma visits_slots p lf : visits p (all_slots lf) = if decide (lf_no lf = p) then length (lf_pairs lf) else 0%nat.
Proof. rewrite all_slots_eq. apply visits_map. Qed.

Section leaves.
  Context (a : Abs) (x : handle) (ls : list leaf).
  Notation h := (file_hdr_ x).
  Notation page lf := (page_of x (lf_no lf)).

Definition leaf_page (i : PageId) : Prop := ∃ lf, lf ∈ ls ∧ i = page lf.

(** Every leaf is on its page, and there are frames for all of them. *)
Record leaves_ok : Prop := {
  lo_wf : ix_wf h;
  lo_leaf lf : lf ∈ ls → a_view a !! page lf = Some (lf_mem lf) ∧ nd h (lf_mem lf) (lf_hdr lf) (lf_pairs lf) ∧
    n_leaf (lf_hdr lf) = true ∧ idle (page lf) a;
  lo_distinct : NoDup (map lf_no ls);
  lo_frames : Z.of_nat (size (a_held a)) + zlen ls <= a_size a }.

(** What a scan from a position to [end_] has before it. *)
Inductive rest (end_ : Iid) : Iid → list (Z * Rid) → Prop :=
  | rest_end : rest end_ end_ []
  | rest_step lf sl k v t :
      lf ∈ ls → lf_pairs lf !! sl = Some (k, v) → mkIid (lf_no lf) (Z.of_nat sl) ≠ end_ →
      rest end_ (after x (lf_no lf) (lf_hdr lf) (lf_pairs lf) sl) t →
      rest end_ (mkIid (lf_no lf) (Z.of_nat sl)) ((lf_no lf, v) :: t).

(** Positions of one leaf, up to [j]. *)
Lemma rest_within end_ lf (sl j : nat) t :
  lf ∈ ls → (sl <= j <= length (lf_pairs lf))%nat → (lf_no lf = last_leaf h ∨ (j < length (lf_pairs lf))%nat) →
  (∀ o, (sl <= o < j)%nat → mkIid (lf_no lf) (Z.of_nat o) ≠ end_) →
  rest end_ (mkIid (lf_no lf) (Z.of_nat j)) t → rest end_ (mkIid (lf_no lf) (Z.of_nat sl)) (slots lf sl j ++ t).
Proof.
  intros Hin [Hsl Hj] Hlast Hne Ht. remember (j - sl)%nat as d eqn:Hd. revert sl Hsl Hne Hd.
  induction d as [|d IH]; intros sl Hsl Hne Hd.
  - assert (sl = j) as -> by lia. unfold slots. by rewrite Nat.sub_diag.
  - destruct (lookup_lt_is_Some_2 (lf_pairs lf) sl) as [[k v] Hv]; [lia|].
    rewrite (slots_cons lf sl j k v) by (done || lia). simpl. apply (rest_step _ _ _ k); [done|done|apply Hne; lia|].
    assert (after x (lf_no lf) (lf_hdr lf) (lf_pairs lf) sl = mkIid (lf_no lf) (Z.of_nat (S sl))) as ->.
    { unfold after. replace (Z.of_nat sl + 1) with (Z.of_nat (S sl)) by lia. destruct Hlast as [->|?]; [by rewrite Z.eqb_refl|].
      rewrite (proj2 (Z.eqb_neq _ (zlen _))) by lia. by rewrite andb_false_r. }
    apply IH; [lia| |lia]. intros o Ho. apply Hne. lia.
Qed.

(** The leaves in the order of their links, up to the last one. *)
Fixpoint linked (l : list leaf) : Prop :=
  match l with
  | [] => False
  | lf :: l' =>
      match l' with
      | [] => lf_no lf = last_leaf h
      | lf' :: _ => n_next (lf_hdr lf) = lf_no lf' ∧ lf_no lf ≠ last_leaf h ∧ lf_pairs lf ≠ [] ∧ linked l'
      end
  end.

Definition leaves_end (l : list leaf) : Iid :=
  mkIid (last_leaf h) (from_option (λ lf, zlen (lf_pairs lf)) 0 (last l)).

Lemma linked_rest l : linked l → l ⊆ ls → rest (leaves_end l) (mkIid (from_option lf_no 0 (head l)) 0) (concat (map all_slots l)).
Proof.
  induction l as [|lf l IH]; [done|]. intros Hl Hsub. assert (lf ∈ ls) as Hin by (apply Hsub; left).
  destruct l as [|lf' l].
  - simpl in *. rewrite app_nil_r. unfold leaves_end. simpl. rewrite <- (app_nil_r (all_slots lf)).
    apply (rest_within _ lf 0 (length (lf_pairs lf))); [done|lia|by left| |].
    + intros o Ho [= _ ?]. lia.
    + rewrite Hl. constructor.
  - destruct Hl as (Hnext & Hne & Hpairs & Hl). specialize (IH Hl ltac:(set_solver)).
    change (leaves_end (lf :: lf' :: l)) with (leaves_end (lf' :: l)). cbn [map concat]. cbn [map concat] in IH.
    destruct (lf_pairs lf) as [|kv0 l0] eqn:Hp; [done|]. rewrite <- Hp in Hpairs.
    set (n := length l0). assert (Hn : length (lf_pairs lf) = S n) by by rewrite Hp.
    assert (all_slots lf = slots lf 0 n ++ slots lf n (S n)) as ->.
    { unfold all_slots, slots. rewrite Hn, drop_0, !Nat.sub_0_r. rewrite <- map_app. f_equal.
      replace (S n - n)%nat with 1%nat by lia. rewrite (take_ge (lf_pairs lf)) by lia.
      rewrite (take_ge (drop n _)) by (rewrite length_drop; lia). by rewrite take_drop. }
    rewrite <- (assoc_L (++)). apply (rest_within _ lf 0 n); [done|lia|right; lia| |].
    + intros o _ [= Ho _]. done.
    + destruct (lookup_lt_is_Some_2 (lf_pairs lf) n) as [[k v] Hv]; [lia|].
      rewrite (slots_cons lf n (S n) k v) by (done || lia). unfold slots at 1. rewrite Nat.sub_diag. simpl.
      apply (rest_step _ _ _ k); [done|done|by intros [= Ho _]|].
      assert (after x (lf_no lf) (lf_hdr lf) (lf_pairs lf) n = mkIid (lf_no lf') 0) as ->; [|exact IH].
      unfold after. rewrite (proj2 (Z.eqb_neq _ _)) by done. rewrite (proj2 (Z.eqb_eq _ _)) by lia. simpl. by rewrite Hnext.
Qed.

Lemma linked_last l : linked l → ∃ lf, last l = Some lf ∧ lf_no lf = last_leaf h.
Proof.
  induction l as [|lf [|lf' l] IH]; [done| |].
  - intros Hl. by exists lf.
  - intros (_ & _ & _ & Hl). exact (IH Hl).
Qed.

(** Each leaf of a list without repetitions is visited once for each pair. *)
Lemma visits_concat l lf :
  NoDup (map lf_no l) → lf ∈ l → visits (lf_no lf) (concat (map all_slots l)) = length (lf_pairs lf).
Proof.
  assert (Hno : ∀ l, lf_no lf ∉ map lf_no l → visits (lf_no lf) (concat (map all_slots l)) = 0%nat).
  { clear l. induction l as [|lf' l IH]; [done|]. simpl. rewrite not_elem_of_cons, visits_app, visits_slots. intros [Hne Hl].
    by rewrite decide_False, IH by done. }
  induction l as [|lf' l IH]; simpl; [by intros _ ?%elem_of_nil|].
  rewrite NoDup_cons, visits_app, visits_slots. intros [Hn Hnd] [->|Hin]%elem_of_cons.
  - rewrite decide_True by done. rewrite Hno by done. lia.
  - rewrite decide_False; [by apply IH|]. intros E. apply Hn. rewrite E. by apply list_elem_of_fmap_2.
Qed.

Lemma snd_slots l : map snd (concat (map all_slots l)) = map snd (concat (map lf_pairs l)).
Proof.
  rewrite !concat_map, !map_map. f_equal. apply map_ext. intros lf. by rewrite all_slots_eq, map_map.
Qed.

End leaves.

(** ** The loop over them *)

Lemma size_of_list (l : list PageId) : (size (list_to_set l : gset PageId) <= length l)%nat.
Proof.
  induction l as [|i l IH]; simpl; [done|]. rewrite size_union_alt, size_singleton.
  assert ((list_to_set l : gset PageId) ∖ {[i]} ⊆ list_to_set l) as Hd%subseteq_size by set_solver. lia.
Qed.

Lemma leaked_start (P : PageId → Prop) a : (∀ i, P i → a_held a !! i = None) → leaked P (λ _, 0%nat) a a.
Proof. intros HP. by split. Qed.

(** One pin more. *)
Lemma leaked_pin (P : PageId → Prop) n a c i f :
  leaked P n a c → P i →
  leaked P (λ j, if decide (j = i) then S (n j) else n j) a (a_hold i f (Z.of_nat (S (n i))) c).
Proof.
  intros [] Hi. split; simpl; try done.
  - intros j Hj. case_decide as E; [subst j; exists f; apply lookup_insert_eq|].
    specialize (lk_pins0 j Hj). unfold pins_are in *. simpl. by rewrite lookup_insert_ne by done.
  - intros j Hj. rewrite lookup_insert_ne; [by apply lk_rest0|]. by intros ->.
Qed.

Lemma leaked_ext (P : PageId → Prop) n n' a c : leaked P n a c → (∀ i, P i → n i = n' i) → leaked P n' a c.
Proof. intros [] Hn. split; try done. intros i Hi. rewrite <- Hn by done. auto. Qed.

Section loop.
  Context {D : Type} {PS : PageStore D} {PSL : PageStoreLaws D}
          {R : Type} {RP : Replacer R} {RPL : ReplacerLaws R}.
  Notation st := (IxIndexHandle.st D R).
  Context (a : Abs) (x : handle) (ls : list leaf).
  Hypothesis Hok : leaves_ok a x ls.
  Notation page lf := (page_of x (lf_no lf)).
  Notation P := (leaf_page x ls).

(** There is a frame for a leaf that is not held. *)
Lemma leaves_room c n lf : leaked P n a c → lf ∈ ls → n (page lf) = 0%nat → room c.
Proof.
  intros Hc Hin H0. pose proof (lk_pins _ _ _ _ Hc (page lf) ltac:(by exists lf)) as Hp. rewrite H0 in Hp. simpl in Hp.
  assert (Hsub : {[page lf]} ∪ dom (a_held c) ⊆@{gset PageId} dom (a_held a) ∪ list_to_set (map (λ lf, page lf) ls)).
  { intros i [->%elem_of_singleton|Hi]%elem_of_union; apply elem_of_union.
    - right. apply elem_of_list_to_set, list_elem_of_fmap. by exists lf.
    - destruct (decide (i ∈ map (λ lf, page lf) ls)) as [Hl|Hl]; [right; by apply elem_of_list_to_set|left].
      apply elem_of_dom. rewrite <- (lk_rest _ _ _ _ Hc i); [by apply elem_of_dom in Hi|].
      intros (lf' & Hlf & ->). apply Hl, list_elem_of_fmap. by exists lf'. }
  apply subseteq_size in Hsub. rewrite size_union in Hsub.
  2:{ intros i ->%elem_of_singleton Hi. apply elem_of_dom in Hi. rewrite Hp in Hi. by destruct Hi. }
  rewrite size_singleton in Hsub. pose proof (lo_frames _ _ _ Hok) as Hf. rewrite <- (lk_size _ _ _ _ Hc) in Hf.
  rewrite <- !(size_dom (D := gset PageId)) in Hf.
  assert (size (list_to_set (map (λ lf, page lf) ls) : gset PageId) <= length ls)%nat as Hl.
  { etrans; [apply size_of_list|]. by rewrite length_map. }
  assert (size (dom (a_held a) ∪ list_to_set (map (λ lf, page lf) ls) : gset PageId)
          <= size (dom (a_held a) : gset PageId) + size (list_to_set (map (λ lf, page lf) ls) : gset PageId))%nat.
  { rewrite size_union_alt. assert (Hd : (list_to_set (map (λ lf, page lf) ls) : gset PageId) ∖ dom (a_held a)
      ⊆ list_to_set (map (λ lf, page lf) ls)) by set_solver. apply subseteq_size in Hd. lia. }
  unfold room. rewrite <- (size_dom (D := gset PageId) (a_held c)). lia.
Qed.

(** What the scan has before it, and the pins it left. *)
Definition ix_before (end_ : Iid) (all : list (Z * Rid)) (l : list Rid) (c : Iid * Iid) (s : st) : Prop :=
  ∃ past t b, all = past ++ t ∧ map snd t = l ∧ c.2 = end_ ∧ rest x ls end_ c.1 t ∧ st_repr s b x ∧
    leaked P (λ i, visits (page_no i) past) a b.

Lemma ix_scans end_ all : scans (ix_before end_ all).
Proof.
  split.
  - intros [i e] s (past & t & b & _ & Ht & [= ->] & Hr & _). destruct t; [|done]. simpl in Hr. inversion Hr; subst.
    cbn. unfold scan_is_end, Iid_eqb. by rewrite !Z.eqb_refl.
  - intros r l [i e] s (past & t & b & -> & Ht & [= ->] & Hr & Hs & Hb). simpl in Hr. rename end_ into e.
    destruct Hr as [|lf sl k v t Hin Hv Hne Hr]; [done|]. simpl in Ht. injection Ht as <- <-.
    destruct (lo_leaf _ _ _ Hok lf Hin) as (Hview & Hn & Hleaf & _ & Hmod). pose proof (lo_wf _ _ _ Hok) as Hwf.
    assert (Hv' : a_view b !! page lf = Some (lf_mem lf)) by by rewrite (lk_view _ _ _ _ Hb).
    assert (Hm' : page lf ∉ a_mod b) by by rewrite (lk_mod _ _ _ _ Hb).
    assert (HP : P (page lf)) by by exists lf.
    pose proof (lk_pins _ _ _ _ Hb _ HP) as Hpins. cbn [page_no page_of] in Hpins.
    assert (Hroom : visits (lf_no lf) past = 0%nat → room b) by (intros H0; by apply (leaves_room b _ lf Hb Hin)).
    destruct (get_rid_ok b x (lf_no lf) (lf_mem lf) (lf_hdr lf) (lf_pairs lf) _ Hwf Hv' Hn Hpins Hroom Hm' s sl k v Hs Hv)
      as (s1 & Hrid & Hs1).
    destruct (ix_scan_next_ok b x (lf_no lf) (lf_mem lf) (lf_hdr lf) (lf_pairs lf) _ Hv' Hn Hpins Hroom Hm' s1 sl e Hs1 Hleaf)
      as (f & s2 & Hnext & Hs2); [by eapply lookup_lt_Some|done|].
    split.
    { cbn. unfold scan_is_end, Iid_eqb. destruct e as [ep es]. cbn [iid_page_no iid_slot_no].
      destruct (Z.eqb_spec (lf_no lf) ep) as [E1|]; [|done]. destruct (Z.eqb_spec (Z.of_nat sl) es) as [E2|]; [|done].
      exfalso. apply Hne. by rewrite E1, E2. }
    exists s1. eexists _, s2. split; [exact Hrid|]. split; [cbn; by run Hnext|].
    exists (past ++ [(lf_no lf, v)]), t. eexists. split; [by rewrite <- (assoc_L (++))|]. split; [done|]. split; [done|]. split; [exact Hr|].
    split; [exact Hs2|]. eapply leaked_ext; [by apply (leaked_pin _ _ _ _ (page lf) f Hb HP)|].
    intros j (lf' & Hlf' & ->). rewrite visits_app, visits_one. simpl.
    case_decide as E1; case_decide as E2; simpl; try lia; exfalso; [injection E1 as E1; congruence|by rewrite E2 in E1].
Qed.

Lemma collect_rest s end_ i t fuel :
  st_repr s a x → rest x ls end_ i t → (length t < fuel)%nat →
  ∃ s' b, collect fuel (i, end_) s = (Ret (map snd t, (end_, end_)), s') ∧ st_repr s' b x ∧
    leaked P (λ j, visits (page_no j) t) a b.
Proof.
  intros Hs Hr Hf. destruct (collect_ok (ix_before end_ t) (map snd t) (i, end_) s fuel (ix_scans end_ t)) as (c & s' & Hrun & Hc).
  - exists [], t, a. split_and!; try done. apply leaked_start.
    intros j (lf & Hin & ->). by destruct (lo_leaf _ _ _ Hok lf Hin) as (_ & _ & _ & ? & _).
  - by rewrite length_map.
  - destruct Hc as (past & u & b & Hall & Hu & He & Hrest & Hb & Hl). destruct u; [|done]. rewrite app_nil_r in Hall. subst past.
    exists s', b. split_and!; [|done|done]. rewrite Hrun. destruct c as [ci ce]. simpl in *. subst ce. by inversion Hrest; subst.
Qed.

End loop.
