(* ===== verification/DemoIndex.v ===== *)
(** A concrete index for the witnesses: column 0 of ["t"], 512-byte strings,
    created and opened on the in-memory kernel with a pool of eight frames.  A
    node has room for 7 pairs, so 6 is the most a node keeps.  Also an index of
    the same file with two leaves, the left one with too few pairs. *)
From S2P Require Import Prelude.
From S2P Require Import Defs.
From S2P Require Import Replacer.
From S2P Require Import Disk.
From S2P Require Import ModelFs.
From S2P Require Import BufferPool.
From S2P Require Import BufferPoolProofs.
From S2P Require Import PoolSpec.
From S2P Require Import Session.
From S2P Require Import IxNode.
From S2P Require Import IxOrder.
From S2P Require Import IxNodeProofs.
From S2P Require Import IxIndex.
From S2P Require Import IxManager.
From S2P Require Import IxIndexProofs.
Import IxDefs IxIndexHandle.

#[local] Open Scope prog_scope.

(** ** Checking a page against its pairs *)

Definition pair_ok (h : IxFileHdr) (m : bytes) (i : nat) (kr : bytes * Rid) : bool :=
  bool_decide (slice m (IxNodeHandle.get_key h (Z.of_nat i)) (col_len h) = kr.1) &&
  bool_decide (dec_Rid (slice m (IxNodeHandle.get_rid h (Z.of_nat i)) sizeof_Rid) = kr.2).

Definition pairs_ok (h : IxFileHdr) (m : bytes) (l : list (bytes * Rid)) : bool := forallb id (imap (pair_ok h m) l).

Definition nd_check (h : IxFileHdr) (m : bytes) (nh : NodeHdr) (l : list (bytes * Rid)) : bool :=
  (zlen m =? PAGE_SIZE) && forallb (λ z, (0 <=? z) && (z <? 256)) m &&
  (dec32 (slice m off_num_key 4) =? zlen l) && (zlen l <=? btree_order h + 1) && pairs_ok h m l &&
  (dec32 (slice m off_parent 4) =? n_parent nh) && bool_decide (slice m off_is_leaf 1 = [Z.b2z (n_leaf nh)]) &&
  (dec32 (slice m off_prev_leaf 4) =? n_prev nh) && (dec32 (slice m off_next_leaf 4) =? n_next nh).

Lemma u8_forallb (m : bytes) : forallb (λ z, (0 <=? z) && (z <? 256)) m = true → Forall is_u8 m.
Proof.
  intros Hb. apply Forall_forall. intros y Hy. rewrite forallb_forall in Hb.
  specialize (Hb y). rewrite andb_true_iff, Z.leb_le, Z.ltb_lt in Hb. apply Hb. by apply list_elem_of_In.
Qed.

Lemma nd_checked h m nh l : nd_check h m nh l = true → nd h m nh l.
Proof.
  unfold nd_check. rewrite !andb_true_iff, !Z.eqb_eq, Z.leb_le, bool_decide_eq_true.
  intros ((((((((Hl & Hu) & Hn) & Hm) & Hp) & Hpar) & Hleaf) & Hprev) & Hnext). split; try done.
  - by apply u8_forallb.
  - intros i k r Hi. unfold pairs_ok in Hp. rewrite forallb_forall in Hp.
    assert (pair_ok h m i (k, r) = true) as Hb.
    { apply Hp, list_elem_of_In, list_elem_of_lookup. exists i. by rewrite list_lookup_imap, Hi. }
    unfold pair_ok in Hb. by rewrite andb_true_iff, !bool_decide_eq_true in Hb.
Qed.

Module DemoIndex.

Notation pool := (BufferPool.t (DiskManager.t ModelFs.t) LRUReplacer.t).
Notation st := (IxIndexHandle.st (DiskManager.t ModelFs.t) LRUReplacer.t).

Definition pool0 : pool := BufferPool.BufferPoolManager 8 (λ _, 0) (DiskManager.create ModelFs.empty).

Definition opened :=
  (IxManager.create_index "t" 0 TYPE_STRING 512 zero_page ;;; IxManager.open_index "t" 0) pool0.

(** The machine after a new process opened the index. *)
Definition reopened :=
  IxManager.open_index "t" 0 (BufferPool.create 8 (λ _, 0)
    (DiskManager.create (DiskManager.os (BufferPool.disk_manager_
       (IxManager.create_index "t" 0 TYPE_STRING 512 zero_page pool0).2))) (LRUReplacer.create 8)).

Definition index0 : st :=
  match opened with (Ret x, p) => mkSt x p | (_, p) => mkSt (mkHandle 0 (dec_IxFileHdr [])) p end.

Definition disk0 : DiskManager.t ModelFs.t := BufferPool.disk_manager_ (bpm index0).

(** The keys used: one byte and zeros. *)
Definition key (i : Z) : bytes := i :: replicate 511 0.

(** [insert_entry] of the keys [i, i + 1, ...]. *)
Fixpoint inserts (n : nat) (i : Z) : M st unit :=
  match n with
  | O => ret tt
  | S n' => let* _ := insert_entry 10 (key i) (mkRid i i) in inserts n' (i + 1)
  end.

Definition header : IxFileHdr := mkIxFileHdr (-1) 3 2 2 512 6 3584 2 2.
Definition handle0 : handle := mkHandle 0 header.

Definition list_head : bytes := default [] (on_disk_at disk0 (mkPageId 0 1)).
Definition root_bytes : bytes := default [] (on_disk_at disk0 (mkPageId 0 2)).

Lemma index0_handle : ih index0 = handle0.
Proof. vm_compute. reflexivity. Qed.

Lemma index0_pool : bpm index0 = BufferPool.create 8 (λ _, 0) disk0 (LRUReplacer.create 8).
Proof. vm_compute. reflexivity. Qed.

Lemma reopened_Ret : ∃ s', reopened = (Ret handle0, s').
Proof.
  exists reopened.2. assert (reopened.1 = Ret handle0) as <- by (vm_compute; reflexivity). by destruct reopened.
Qed.

(** One file, under descriptor 0. *)
Definition one_file (d : DiskManager.t ModelFs.t) : Prop :=
  ∃ o, ModelFs.fds (DiskManager.os d) = {[0 := (0, o)]} ∧
    ModelFs.paths (DiskManager.os d) = {["t.0.idx"%string := 0]} ∧ ModelFs.next_ino (DiskManager.os d) = 1.

Section one_file.
  Context (d : DiskManager.t ModelFs.t) (Hd : one_file d).

Lemma one_file_ino x i : ModelFs.ino (DiskManager.os d) x = Some i → x = 0 ∧ i = 0.
Proof.
  unfold ModelFs.ino. destruct Hd as (o & -> & _). destruct (decide (x = 0)) as [->|Hx].
  - rewrite lookup_singleton_eq. by intros [= <-].
  - by rewrite lookup_singleton_ne.
Qed.

Lemma one_file_inv : ps_inv d.
Proof.
  destruct Hd as (o & Hf & Hp & Hn). split.
  - split; [by intros x i [_ ->]%one_file_ino; rewrite Hn|].
    intros p i. rewrite Hp, Hn. by intros [_ <-]%lookup_singleton_Some.
  - intros a b i [-> _]%one_file_ino [-> _]%one_file_ino. done.
Qed.

Lemma one_file_valid p : 0 <= p → valid_id d (mkPageId 0 p).
Proof.
  destruct Hd as (o & Hf & _). intros Hp. split_and!; simpl; unfold DiskManager.MAX_FD; try lia.
  exists 0. unfold ModelFs.ino. by rewrite Hf, lookup_singleton_eq.
Qed.

(** A new pool of eight frames on the file. *)
Lemma one_file_repr view x :
  (∀ i m, view !! i = Some m → on_disk_at d i = Some m ∧ BufferPool.fd i = 0 ∧ 0 <= BufferPool.page_no i) →
  st_repr (mkSt x (BufferPool.create 8 (λ _, 0) d (LRUReplacer.create 8)))
    (mkAbs view ∅ ∅ (λ fd0, ps_next d fd0) {[0]} 8) x.
Proof.
  intros Hv. split; [|done]. apply repr_create.
  - lia.
  - exact one_file_inv.
  - by apply LRUReplacer.create_inv.
  - reflexivity.
  - simpl. lia.
  - intros [fd0 p] m Hm. destruct (Hv _ _ Hm) as (Hon & Hfd & Hp). simpl in Hfd. subst. split; [done|]. by apply one_file_valid.
  - reflexivity.
  - intros fd0 ->%elem_of_singleton. by apply (one_file_valid 0).
Qed.

End one_file.

Lemma disk0_one : one_file disk0.
Proof. exists 36. split_and!; vm_compute; reflexivity. Qed.

Lemma disk0_root : on_disk_at disk0 (mkPageId 0 2) = Some root_bytes.
Proof. vm_compute. reflexivity. Qed.

Lemma disk0_list_head : on_disk_at disk0 (mkPageId 0 1) = Some list_head.
Proof. vm_compute. reflexivity. Qed.

Lemma disk0_next : ps_next disk0 0 = 3.
Proof. vm_compute. reflexivity. Qed.

#[global] Opaque index0 disk0 root_bytes list_head.

Definition abs0 : Abs :=
  mkAbs {[mkPageId 0 2 := root_bytes; mkPageId 0 1 := list_head]} ∅ ∅ (λ fd0, ps_next disk0 fd0) {[0]} 8.

Lemma index0_eq : index0 = mkSt handle0 (BufferPool.create 8 (λ _, 0) disk0 (LRUReplacer.create 8)).
Proof. rewrite <- index0_pool, <- index0_handle. by destruct index0. Qed.

Lemma index0_repr : st_repr index0 abs0 handle0.
Proof.
  rewrite index0_eq. apply one_file_repr; [exact disk0_one|].
  intros i x [[<- <-]|[_ [<- <-]%lookup_singleton_Some]]%lookup_insert_Some.
  - split; [exact disk0_root|]. simpl. lia.
  - split; [exact disk0_list_head|]. simpl. lia.
Qed.

Lemma header_wf : ix_wf header.
Proof. by split. Qed.

Lemma root_nd : nd header root_bytes (mkNodeHdr (-1) true 1 1) [].
Proof. apply nd_checked. vm_compute. reflexivity. Qed.

Lemma list_head_nd : nd header list_head (mkNodeHdr (-1) true 2 2) [].
Proof. apply nd_checked. vm_compute. reflexivity. Qed.

Lemma index0_one : ix_one abs0 handle0 [].
Proof.
  split.
  - apply header_wf.
  - split; [reflexivity|apply not_elem_of_empty].
  - exists root_bytes, (mkNodeHdr (-1) true 1 1). split; [apply lookup_insert_eq|].
    split; [exact root_nd|]. by split.
  - intros i j a b _ Ha. discriminate Ha.
  - intros k v Hk. by apply elem_of_nil in Hk.
  - simpl. lia.
  - simpl. unfold is_s32. lia.
Qed.

Lemma index0_room : room abs0.
Proof. done. Qed.

Lemma key_is_key i : 0 <= i < 256 → is_key handle0 (key i) (key i).
Proof.
  intros Hi. assert (Forall is_u8 (key i)).
  { unfold key. constructor; [done|]. apply Forall_replicate. by split. }
  split_and!; try done.
Qed.

(** ** Two leaves *)

(** Change a leaf alone. *)
Definition edit {A} (p : Z) (c : IxFileHdr → M bytes A) : M st unit :=
  let* f := FetchNode p in let* _ := on_node f c in unpin f true.

(** Seven insertions split the root; a [rich] right leaf gets one pair more, two
    are taken from the left one, and everything is written out. *)
Definition two_leaves (rich : bool) : st :=
  ((inserts 7 1 ;;; when rich (edit 3 (λ h, IxNodeHandle.Insert h (key 8) (mkRid 8 8))) ;;;
    edit 2 (λ h, IxNodeHandle.Remove h (key 1)) ;;; edit 2 (λ h, IxNodeHandle.Remove h (key 2)) ;;;
    on_pool (BufferPool.FlushAllPages 0)) index0).2.

Definition disk1 (rich : bool) : DiskManager.t ModelFs.t := BufferPool.disk_manager_ (bpm (two_leaves rich)).

Definition header1 : IxFileHdr := mkIxFileHdr (-1) 5 4 2 512 6 3584 2 3.
Definition handle1 : handle := mkHandle 0 header1.

(** The index opened in a new pool. *)
Definition index1 (rich : bool) : st := mkSt handle1 (BufferPool.create 8 (λ _, 0) (disk1 rich) (LRUReplacer.create 8)).

Definition page1 (rich : bool) (p : Z) : bytes := default [] (on_disk_at (disk1 rich) (mkPageId 0 p)).
Definition pairs (l : list Z) : list (bytes * Rid) := map (λ z, (key z, mkRid z z)) l.
Definition right_keys (rich : bool) : list Z := if rich then [5; 6; 7; 8] else [5; 6; 7].
Definition children : list (bytes * Rid) := [(key 1, mkRid 2 (-1)); (key 5, mkRid 3 (-1))].

Lemma two_leaves_handle rich : ih (two_leaves rich) = handle1.
Proof. destruct rich; vm_compute; reflexivity. Qed.

Lemma left_nd rich : nd header1 (page1 rich 2) (mkNodeHdr 4 true 1 3) (pairs [3; 4]).
Proof. apply nd_checked. destruct rich; vm_compute; reflexivity. Qed.

Lemma right_nd rich : nd header1 (page1 rich 3) (mkNodeHdr 4 true 2 1) (pairs (right_keys rich)).
Proof. apply nd_checked. destruct rich; vm_compute; reflexivity. Qed.

Lemma parent_nd rich : nd header1 (page1 rich 4) (mkNodeHdr (-1) false 0 0) children.
Proof. apply nd_checked. destruct rich; vm_compute; reflexivity. Qed.

Lemma head_nd rich : nd header1 (page1 rich 1) (mkNodeHdr (-1) true 3 2) [].
Proof. apply nd_checked. destruct rich; vm_compute; reflexivity. Qed.

Lemma disk1_one rich : one_file (disk1 rich).
Proof. destruct rich; eexists; split_and!; vm_compute; reflexivity. Qed.

Lemma disk1_page rich p : p ∈ [1; 2; 3; 4] → on_disk_at (disk1 rich) (mkPageId 0 p) = Some (page1 rich p).
Proof.
  intros Hp. destruct rich;
    repeat (apply elem_of_cons in Hp as [->|Hp]; [vm_compute; reflexivity|]); by apply elem_of_nil in Hp.
Qed.

#[global] Opaque disk1 page1.

Definition abs1 (rich : bool) : Abs :=
  mkAbs {[mkPageId 0 1 := page1 rich 1; mkPageId 0 2 := page1 rich 2; mkPageId 0 3 := page1 rich 3;
          mkPageId 0 4 := page1 rich 4]} ∅ ∅ (λ fd0, ps_next (disk1 rich) fd0) {[0]} 8.

Lemma abs1_view rich p : p ∈ [1; 2; 3; 4] → a_view (abs1 rich) !! page_of handle1 p = Some (page1 rich p).
Proof.
  intros Hp. unfold abs1, page_of. simpl. repeat (apply elem_of_cons in Hp as [->|Hp];
    [repeat (rewrite lookup_insert_ne by done); first [apply lookup_insert_eq|apply lookup_singleton_eq]|]).
  by apply elem_of_nil in Hp.
Qed.

Lemma abs1_idle rich p : idle (page_of handle1 p) (abs1 rich).
Proof. split; [reflexivity|apply not_elem_of_empty]. Qed.

Lemma index1_repr rich : st_repr (index1 rich) (abs1 rich) handle1.
Proof.
  apply one_file_repr; [apply disk1_one|]. intros i x Hv. unfold abs1 in Hv. simpl in Hv.
  repeat (apply lookup_insert_Some in Hv as [[<- <-]|[_ Hv]]; [split; [apply disk1_page; set_solver|simpl; lia]|]).
  apply lookup_singleton_Some in Hv as [<- <-]. split; [apply disk1_page; set_solver|simpl; lia].
Qed.

End DemoIndex.
