(* ===== verification/IxThms.v ===== *)
(** The theorems about indexes.

    The first group is about one node: binary search, and insertion, removal
    and lookup as operations of a sorted map.  The second runs whole indexes:
    an index that fits in one leaf behaves as a sorted map, and splitting a
    leaf keeps its pairs and the leaf list.  The last group shows where the
    code departs from a B+ tree. *)
From S2P Require Import Prelude.
From S2P Require Import Defs.
From S2P Require Import Replacer.
From S2P Require Import Disk.
From S2P Require Import ModelFs.
From S2P Require Import BufferPool.
From S2P Require Import BufferPoolProofs.
From S2P Require Import PoolSpec.
From S2P Require Import Session.
From S2P Require Import IxNode.
From S2P Require Import IxOrder.
From S2P Require Import IxNodeProofs.
From S2P Require Import IxIndex.
From S2P Require Import IxManager.
From S2P Require Import IxIndexProofs.
From S2P Require Import IxSplit.
From S2P Require Import DemoIndex.
Import IxDefs IxIndexHandle.

#[local] Open Scope prog_scope.

(** ** One node *)

Section node_claims.
  Context (h : IxFileHdr) (m : bytes) (nh : NodeHdr) (l : list (bytes * Rid)) (t tk : bytes).

(** On a node whose keys are sorted, the binary searches end and split the
    keys: [lower_bound] returns the number of keys below the target,
    [upper_bound] the number of keys that are not above it. *)
Theorem node_bounds_correct :
  ix_wf h → nd h m nh l → keys_ok h l → sorted h l →
  slice t 0 (col_len h) = tk → col_len h <= zlen t → key_ok h tk →
  ∃ p q, IxNodeHandle.lower_bound h t m = (Ret (Z.of_nat p), m) ∧
    IxNodeHandle.upper_bound h t m = (Ret (Z.of_nat q), m) ∧ (p <= length l)%nat ∧ (q <= length l)%nat ∧
    ∀ i k v, l !! i = Some (k, v) → (kcmp h k tk < 0 ↔ (i < p)%nat) ∧ (kcmp h k tk <= 0 ↔ (i < q)%nat).
Proof.
  intros Hwf Hn Hok Hs Ht Hl Hk.
  destruct (lower_bound_ok h Hwf m nh l t tk Hn Hok Hs Ht Hl Hk) as (p & Hp & Hpl & Hlb).
  destruct (upper_bound_ok h Hwf m nh l t tk Hn Hok Hs Ht Hl Hk) as (q & Hq & Hql & Hub).
  exists p, q. split_and!; try done. intros i k v Hi.
  pose proof (Hlb i k v Hi) as H1. pose proof (Hub i k v Hi) as H2. cbn beta in H1, H2. split.
  - rewrite <- Z.ltb_lt, H1. apply bool_decide_eq_true.
  - rewrite <- Z.leb_le, H2. apply bool_decide_eq_true.
Qed.

(** [Insert] on a node with a free slot keeps the keys sorted and acts as
    insertion into a map that does not replace: the key then has its old value
    or else the new one, every other key has the value it had; the result is
    the new number of pairs. *)
Theorem node_insert_correct v :
  ix_wf h → nd h m nh l → keys_ok h l → sorted h l →
  slice t 0 (col_len h) = tk → col_len h <= zlen t → Forall is_u8 t → key_ok h tk →
  is_s32 (rid_page_no v) → is_s32 (rid_slot_no v) → zlen l <= btree_order h →
  ∃ m' l', IxNodeHandle.Insert h t v m = (Ret (zlen l'), m') ∧ nd h m' nh l' ∧ sorted h l' ∧ keys_ok h l' ∧
    ∀ k2, key_ok h k2 → assoc h k2 l' =
      if kcmp h tk k2 =? 0 then Some (default v (assoc h tk l)) else assoc h k2 l.
Proof.
  intros Hwf Hn Hok Hs Ht Hl Hu Hk H1 H2 Hmax.
  destruct (Insert_ok h Hwf m nh l t tk Hn Hok Hs Ht Hl Hk v Hu H1 H2 Hmax) as (m' & Hrun & Hn').
  exists m', (ins h tk v l). split_and!; [done|done|by apply sorted_ins|by apply keys_ok_ins|].
  intros k2 Hk2. by apply assoc_ins.
Qed.

(** [Remove] keeps the keys sorted and removes exactly the key: no lookup
    finds it any more and every other key has the value it had. *)
Theorem node_remove_correct :
  ix_wf h → nd h m nh l → keys_ok h l → sorted h l →
  slice t 0 (col_len h) = tk → col_len h <= zlen t → key_ok h tk →
  ∃ m' l', IxNodeHandle.Remove h t m = (Ret (zlen l'), m') ∧ nd h m' nh l' ∧ sorted h l' ∧ keys_ok h l' ∧
    ∀ k2, key_ok h k2 → assoc h k2 l' = if kcmp h tk k2 =? 0 then None else assoc h k2 l.
Proof.
  intros Hwf Hn Hok Hs Ht Hl Hk.
  destruct (Remove_ok h Hwf m nh l t tk Hn Hok Hs Ht Hl Hk) as (m' & Hrun & Hn').
  exists m', (del h tk l). split_and!; [done|done|by apply sorted_del|by apply keys_ok_del|].
  intros k2 Hk2. by apply assoc_del.
Qed.

(** In an internal node whose keys are the first keys of its children,
    [InternalLookup] does not return the child whose range holds the key (the
    one before the first larger key) but the next one. *)
Theorem internal_lookup_next_child p k v k' v' :
  ix_wf h → nd h m nh l → keys_ok h l → sorted h l →
  slice t 0 (col_len h) = tk → col_len h <= zlen t → key_ok h tk →
  l !! p = Some (k, v) → l !! S p = Some (k', v') → kcmp h k tk <= 0 → 0 < kcmp h k' tk →
  IxNodeHandle.InternalLookup h t m = (Ret (rid_page_no v'), m).
Proof.
  intros Hwf Hn Hok Hs Ht Hl Hk Hp Hp' Hle Hgt.
  apply (InternalLookup_ok h Hwf m nh l t tk Hn Hok Hs Ht Hl Hk (S p) k' v'); [|done].
  by apply (splits_between h l tk p k v k' v').
Qed.

End node_claims.

(** ** An index in one leaf *)

Inductive ix_call := CGet (k : bytes) | CInsert (k : bytes) (v : Rid) | CDelete (k : bytes).
Inductive ix_result := RGet (r : bool * list Rid) | RDone (b : bool).

(** The calls on a sorted list of pairs. *)
Definition spec_call (h : IxFileHdr) (c : ix_call) (l : list (bytes * Rid)) : ix_result * list (bytes * Rid) :=
  match c with
  | CGet k => (RGet (match assoc h k l with Some v => (true, [v]) | None => (false, []) end), l)
  | CInsert k v => (RDone true, ins h k v l)
  | CDelete k => (RDone (bool_decide (is_Some (assoc h k l))), del h k l)
  end.

Fixpoint spec_calls h (cs : list ix_call) l : list ix_result :=
  match cs with
  | [] => []
  | c :: cs' => (spec_call h c l).1 :: spec_calls h cs' (spec_call h c l).2
  end.

(** The leaf neither overflows nor loses its last pair. *)
Fixpoint one_leaf h (cs : list ix_call) l : Prop :=
  match cs with
  | [] => True
  | c :: cs' => let l' := (spec_call h c l).2 in
      zlen l' <= btree_order h ∧ (∀ k, c = CDelete k → l' ≠ []) ∧ one_leaf h cs' l'
  end.

Definition valid_call (x : handle) (c : ix_call) : Prop :=
  match c with
  | CGet k | CDelete k => is_key x k k
  | CInsert k v => is_key x k k ∧ is_s32 (rid_page_no v) ∧ is_s32 (rid_slot_no v)
  end.

Section index_claims.
  Context {D : Type} {PS : PageStore D} {PSL : PageStoreLaws D}
          {R : Type} {RP : Replacer R} {RPL : ReplacerLaws R}.
  Notation st := (IxIndexHandle.st D R).
  Implicit Types (s : st) (a : Abs) (x : handle).

(** The calls on the code; [n] is the fuel of each. *)
Definition run_call (n : nat) (c : ix_call) : M st ix_result :=
  match c with
  | CGet k => let* r := GetValue n k [] in ret (RGet r)
  | CInsert k v => let* b := insert_entry n k v in ret (RDone b)
  | CDelete k => let* b := delete_entry n k in ret (RDone b)
  end.

Fixpoint run_calls (n : nat) (cs : list ix_call) : M st (list ix_result) :=
  match cs with
  | [] => ret []
  | c :: cs' => let* r := run_call n c in let* rs := run_calls n cs' in ret (r :: rs)
  end.

Lemma del_length h k l : zlen (del h k l) = zlen l - (if bool_decide (is_Some (assoc h k l)) then 1 else 0).
Proof.
  induction l as [|[k' v'] l IH]; [done|]. cbn [del assoc]. destruct (kcmp h k' k =? 0).
  - rewrite bool_decide_eq_true_2 by eauto. cbn [length]. lia.
  - cbn [length]. rewrite !Nat2Z.inj_succ, IH. lia.
Qed.

Lemma run_call_ok s a x l n c :
  st_repr s a x → ix_one a x l → room a → valid_call x c →
  zlen (spec_call (file_hdr_ x) c l).2 <= btree_order (file_hdr_ x) →
  (∀ k, c = CDelete k → (spec_call (file_hdr_ x) c l).2 ≠ []) →
  ∃ s' a', run_call (S n) c s = (Ret (spec_call (file_hdr_ x) c l).1, s') ∧ st_repr s' a' x ∧
    ix_one a' x (spec_call (file_hdr_ x) c l).2 ∧ room a'.
Proof.
  intros Hs Ho Hroom Hv Hmax Hne. destruct c as [k|k v|k]; simpl in *.
  - destruct (GetValue_one a x l Ho Hroom s n k k [] Hs Hv) as (s' & Hrun & Hs').
    exists s', a. split_and!; try done. by run Hrun.
  - destruct Hv as (Hv & H1 & H2).
    destruct (insert_one a x l Ho Hroom s n k k v Hs Hv H1 H2 Hmax) as (s' & m' & Hrun & Hs' & Ho').
    exists s', (a_set (root_of x) m' a). split_and!; try done. by run Hrun.
  - destruct (delete_one a x l Ho Hroom s n k k Hs Hv (Hne k eq_refl)) as (s' & m' & Hrun & Hs' & Ho').
    exists s', (a_set (root_of x) m' a). split_and!; try done. run Hrun. unfold ret. do 3 f_equal.
    rewrite del_length. case_bool_decide.
    + by rewrite (proj2 (Z.eqb_neq _ _)) by lia.
    + by rewrite (proj2 (Z.eqb_eq _ _)) by lia.
Qed.

Lemma run_calls_ok s a x l n cs :
  st_repr s a x → ix_one a x l → room a → Forall (valid_call x) cs → one_leaf (file_hdr_ x) cs l →
  ∃ s' a', run_calls (S n) cs s = (Ret (spec_calls (file_hdr_ x) cs l), s') ∧ st_repr s' a' x.
Proof.
  intros Hs Ho Hroom Hv. revert s a l Hs Ho Hroom.
  induction Hv as [|c cs Hc Hv IH]; intros s a l Hs Ho Hroom; [by exists s, a|].
  intros (Hmax & Hne & Hrest).
  destruct (run_call_ok s a x l n c Hs Ho Hroom Hc Hmax Hne) as (s1 & a1 & Hrun & Hs1 & Ho1 & Hr1).
  destruct (IH s1 a1 _ Hs1 Ho1 Hr1 Hrest) as (s2 & a2 & Hrun2 & Hs2).
  exists s2, a2. split; [|done]. simpl. run Hrun. by run Hrun2.
Qed.

(** C13: As long as the pairs fit in the root leaf and no deletion takes the last of
    them, the index refines a sorted map: every such sequence of [GetValue],
    [insert_entry] and [delete_entry] returns what the same calls return on the map,
    with any fuel above 0.  (After the last pair is deleted the index is of no use, see
    [index_unusable_after_last_delete]; what an overflow leads to is in [IxTree].) *)
Theorem index_refines_map s a x l n cs :
  st_repr s a x → ix_one a x l → room a → Forall (valid_call x) cs → one_leaf (file_hdr_ x) cs l →
  ∃ s', run_calls (S n) cs s = (Ret (spec_calls (file_hdr_ x) cs l), s').
Proof.
  intros Hs Ho Hroom Hv Hl. destruct (run_calls_ok s a x l n cs Hs Ho Hroom Hv Hl) as (s' & a' & Hrun & _). eauto.
Qed.

(** C14: [Split] of a leaf allocates the next page, keeps the first half of the
    pairs (rounded up) in the old leaf and moves the others in order to the new
    one, with the same parent, and links it between the old leaf and its
    successor; no other page changes. *)
Theorem split_leaf_correct s a x p f m nh l mn nhn ln :
  st_repr s (sess a (page_of x p) f m) x → splittable a x p f m nh l mn nhn ln →
  let q := a_next a (fd_ x) in
  ∃ g s' a' m1 m2 mk l1 l2, Split f s = (Ret g, s') ∧ st_repr s' a' (grown x) ∧
    a_view a' !! page_of x p = Some m1 ∧ nd (file_hdr_ x) m1 (mkNodeHdr (n_parent nh) true (n_prev nh) q) l1 ∧
    a_view a' !! page_of x q = Some m2 ∧ nd (file_hdr_ x) m2 (mkNodeHdr (n_parent nh) true p (n_next nh)) l2 ∧
    a_view a' !! page_of x (n_next nh) = Some mk ∧
    nd (file_hdr_ x) mk (mkNodeHdr (n_parent nhn) (n_leaf nhn) q (n_next nhn)) ln ∧
    l = l1 ++ l2 ∧ (length l2 <= length l1 <= S (length l2))%nat ∧
    ∀ j, j ≠ page_of x p → j ≠ page_of x q → j ≠ page_of x (n_next nh) → a_view a' !! j = a_view a !! j.
Proof.
  intros Hs Hsp q. pose proof Hsp as [_ _ _ Hold _ _ _ _ _ Hnew [_ Hnx] Hkv _ _ _].
  change (a_new_id (fd_ x) a) with (page_of x q) in Hnew.
  destruct (Split_leaf_ok s a x p f m nh l mn nhn ln Hs Hsp) as (g & s' & m1 & m2 & mk & Hrun & Hs' & N1 & N2 & N3).
  assert (page_of x p ≠ page_of x q) as H1 by (intros Heq; rewrite Heq in Hold; destruct Hold; congruence).
  assert (page_of x (n_next nh) ≠ page_of x q) as H2 by (intros Heq; rewrite Heq in Hkv; congruence).
  assert (page_of x (n_next nh) ≠ page_of x p) as H3 by (intros [= ?]; done).
  eexists g, s', _, m1, m2, mk, (take (middle l) l), (drop (middle l) l).
  split; [exact Hrun|]. split; [exact Hs'|]. fold q in N1, N3 |- *. simpl. split_and!; try done.
  - rewrite lookup_insert_ne by done. apply lookup_insert_eq.
  - apply lookup_insert_eq.
  - rewrite !lookup_insert_ne by done. apply lookup_insert_eq.
  - by rewrite take_drop.
  - rewrite length_take, length_drop. destruct (middle_le l) as [? Hq]. rewrite Z.quot_div_nonneg in Hq by lia.
    pose proof (Z.div_mod (zlen l + 1) 2). pose proof (Z.mod_pos_bound (zlen l + 1) 2). lia.
  - rewrite length_take, length_drop. destruct (middle_le l) as [? Hq]. rewrite Z.quot_div_nonneg in Hq by lia.
    pose proof (Z.div_mod (zlen l + 1) 2). pose proof (Z.mod_pos_bound (zlen l + 1) 2). lia.
  - intros j Hj1 Hj2 Hj3. by rewrite !lookup_insert_ne by done.
Qed.

End index_claims.

(** ** Departures from a B+ tree *)

(** The index loses keys at its first split.  The index of [DemoIndex] (six
    pairs per node) takes seven insertions, which all succeed, and then
    [GetValue] does not find the first key inserted, although it found it after
    the first six. *)
Theorem index_loses_keys_after_split :
  (DemoIndex.inserts 6 1 DemoIndex.index0).1 = Ret tt ∧
  (GetValue 10 (DemoIndex.key 1) [] (DemoIndex.inserts 6 1 DemoIndex.index0).2).1 = Ret (true, [mkRid 1 1]) ∧
  (DemoIndex.inserts 7 1 DemoIndex.index0).1 = Ret tt ∧
  (GetValue 10 (DemoIndex.key 1) [] (DemoIndex.inserts 7 1 DemoIndex.index0).2).1 = Ret (false, []).
Proof. split_and!; vm_compute; reflexivity. Qed.

(** Deleting the last pair of an index sets the root to [IX_NO_PAGE] and no
    operation tests for it: the next insertion (and lookup) fetches page -1
    and fails. *)
Theorem index_unusable_after_last_delete :
  let s := ((DemoIndex.inserts 1 1 ;;; delete_entry 10 (DemoIndex.key 1)) DemoIndex.index0).2 in
  root_page (hdr s) = IX_NO_PAGE ∧
  (insert_entry 10 (DemoIndex.key 1) (mkRid 1 1) s).1 = Throw UnixError ∧
  (GetValue 10 (DemoIndex.key 1) [] s).1 = Throw UnixError.
Proof. split_and!; vm_compute; reflexivity. Qed.

Section reopen.
  Context {F : Type} {PF : Posix F} {R : Type} {RP : Replacer R}.
  Notation disk := (DiskManager.t F).

(** What [open_file] and [read_page] do to the page counters. *)
Lemma open_file_pageno fn (d : disk) :
  DiskManager.fd2pageno_ (DiskManager.open_file fn d).2 = DiskManager.fd2pageno_ d.
Proof.
  unfold DiskManager.open_file, bind, DiskManager.is_file, DiskManager.stat_is, DiskManager.sys, gets, throw, ret, modify.
  repeat (case_match; simplify_eq; try done).
Qed.

Lemma read_page_pageno fd p n (b : bytes) (d : disk) :
  DiskManager.fd2pageno_ (DiskManager.read_page fd p n (b, d)).2.2 = DiskManager.fd2pageno_ d.
Proof.
  unfold DiskManager.read_page, DiskManager.on_disk, DiskManager.read_into, DiskManager.sys, bind, zoom, throw, ret.
  simpl. repeat (case_match; simplify_eq; simpl in *; try done).
Qed.

(** A new process that opens an index starts to allocate its pages at
    number 1, whatever the size of the file: the first page [CreateNode] would
    ask for is the leaf header page of the index itself. *)
Theorem reopened_index_allocates_header n junk (o : F) (r : R) fn k x s' :
  IxManager.open_index fn k (BufferPool.create n junk (DiskManager.create o) r) = (Ret x, s') →
  (DiskManager.AllocatePage (fd_ x) (BufferPool.disk_manager_ s')).1 = Ret IX_LEAF_HEADER_PAGE.
Proof.
  intros Hrun. unfold IxManager.open_index, bind at 1 in Hrun.
  unfold BufferPool.on_disk at 1, zoom at 1 in Hrun. cbn [BufferPool.disk_manager_ BufferPool.create] in Hrun.
  pose proof (open_file_pageno (IxManager.get_index_name fn k) (DiskManager.create o)) as Hp.
  destruct (DiskManager.open_file _ _) as [[fd| | | |] d1]; try done. simpl in Hp.
  unfold IxManager.new_IxIndexHandle, BufferPool.on_disk, zoom in Hrun. cbn [BufferPool.disk_manager_ BufferPool.set_disk] in Hrun.
  unfold DiskManager.with_buf, bind, gets, ret in Hrun.
  pose proof (read_page_pageno fd IX_FILE_HDR_PAGE sizeof_IxFileHdr (replicate (Z.to_nat sizeof_IxFileHdr) 0) d1) as Hq.
  destruct (DiskManager.read_page fd _ _ _) as [[[]| | | |] [b d2]]; try done. simpl in Hq.
  unfold DiskManager.get_fd2pageno, DiskManager.set_fd2pageno, gets, modify in Hrun.
  assert (Hz : DiskManager.fd2pageno d2 fd = 0) by (unfold DiskManager.fd2pageno; rewrite Hq, Hp; done).
  destruct (DiskManager.fd_in_bounds fd) eqn:Hb; [|done]. rewrite Hz in Hrun. cbn in Hrun. injection Hrun as <- <-. simpl.
  unfold DiskManager.AllocatePage. rewrite Hb. unfold bind, gets, modify, ret. simpl.
  unfold DiskManager.fd2pageno. simpl. by rewrite lookup_insert_eq.
Qed.

End reopen.

(** ** Witnesses *)

Section witnesses.
Import DemoIndex.

(** The list of pairs of the witnesses for nodes. *)
Lemma root_search i : 0 <= i < 256 →
  ix_wf header ∧ keys_ok header [] ∧ sorted header [] ∧ slice (key i) 0 (col_len header) = key i ∧
  col_len header <= zlen (key i) ∧ Forall is_u8 (key i) ∧ key_ok header (key i).
Proof.
  intros Hi. destruct (key_is_key i Hi) as (H1 & H2 & H3 & H4). destruct index0_one.
  split_and!; try done.
Qed.

(** A node with two pairs. *)
Lemma two_pairs : ∃ m, nd header m (mkNodeHdr (-1) true 1 1) [(key 1, mkRid 1 1); (key 2, mkRid 2 2)].
Proof.
  destruct (root_search 1) as (W & K & S & A & B & C & E); [lia|].
  destruct (root_search 2) as (_ & _ & _ & A' & B' & C' & E'); [lia|].
  destruct (Insert_ok header W root_bytes _ [] (key 1) (key 1) root_nd K S A B E (mkRid 1 1) C) as (m1 & _ & N1); try done.
  destruct (Insert_ok header W m1 _ _ (key 2) (key 2) N1 (keys_ok_ins header _ _ _ E K)
    (sorted_ins header _ _ _ E K S) A' B' E' (mkRid 2 2) C') as (m2 & _ & N2); try done.
  exists m2. exact N2.
Qed.

Lemma two_ok : keys_ok header [(key 1, mkRid 1 1); (key 2, mkRid 2 2)] ∧
  sorted header [(key 1, mkRid 1 1); (key 2, mkRid 2 2)].
Proof.
  destruct (root_search 1) as (_ & K & S & _ & _ & _ & E); [lia|].
  destruct (root_search 2) as (_ & _ & _ & _ & _ & _ & E'); [lia|].
  split.
  - apply keys_ok_cons. split; [done|]. apply keys_ok_cons. done.
  - change [(key 1, mkRid 1 1); (key 2, mkRid 2 2)] with (ins header (key 2) (mkRid 2 2) (ins header (key 1) (mkRid 1 1) [])).
    apply sorted_ins; [done|by apply keys_ok_ins|by apply sorted_ins].
Qed.

Lemma node_bounds_correct_witness : ∃ m p q, IxNodeHandle.lower_bound header (key 2) m = (Ret (Z.of_nat p), m) ∧
  IxNodeHandle.upper_bound header (key 2) m = (Ret (Z.of_nat q), m).
Proof.
  destruct (root_search 2) as (W & _ & _ & A & B & _ & E); [lia|].
  destruct two_pairs as [m N]. destruct two_ok as [K S].
  destruct (node_bounds_correct header m _ _ (key 2) (key 2) W N K S A B E) as (p & q & H1 & H2 & _).
  exists m, p, q. split; [exact H1|exact H2].
Defined.

Lemma node_insert_correct_witness : ∃ m' l', IxNodeHandle.Insert header (key 1) (mkRid 1 1) root_bytes = (Ret (zlen l'), m') ∧
  assoc header (key 1) l' = Some (mkRid 1 1).
Proof.
  destruct (root_search 1) as (W & K & S & A & B & C & E); [lia|].
  destruct (node_insert_correct header root_bytes _ [] (key 1) (key 1) (mkRid 1 1) W root_nd K S A B C E)
    as (m' & l' & H1 & _ & _ & _ & H2); [by split|by split|done|].
  exists m', l'. split; [exact H1|]. rewrite (H2 (key 1) E). by rewrite kcmp_refl.
Defined.

Lemma node_remove_correct_witness : ∃ m m' l', IxNodeHandle.Remove header (key 1) m = (Ret (zlen l'), m') ∧
  assoc header (key 1) l' = None.
Proof.
  destruct (root_search 1) as (W & _ & _ & A & B & _ & E); [lia|].
  destruct two_pairs as [m N]. destruct two_ok as [K S].
  destruct (node_remove_correct header m _ _ (key 1) (key 1) W N K S A B E) as (m' & l' & H1 & _ & _ & _ & H2).
  exists m, m', l'. split; [exact H1|]. rewrite (H2 (key 1) E). by rewrite kcmp_refl.
Defined.

Lemma internal_lookup_next_child_witness : ∃ m, IxNodeHandle.InternalLookup header (key 1) m = (Ret 2, m).
Proof.
  destruct (root_search 1) as (W & _ & _ & A & B & _ & E); [lia|].
  destruct two_pairs as [m N]. destruct two_ok as [K S]. exists m.
  refine (internal_lookup_next_child header m _ _ (key 1) (key 1) 0%nat _ _ _ _ W N K S A B E eq_refl eq_refl _ _).
  - by rewrite kcmp_refl.
  - vm_compute. reflexivity.
Defined.

Lemma index_refines_map_witness : ∃ s',
  run_calls 1 [CInsert (key 2) (mkRid 1 1); CInsert (key 1) (mkRid 1 0); CGet (key 2); CDelete (key 2); CGet (key 2)] index0 =
    (Ret [RDone true; RDone true; RGet (true, [mkRid 1 1]); RDone true; RGet (false, [])], s').
Proof.
  destruct (index_refines_map index0 abs0 handle0 [] 0
    [CInsert (key 2) (mkRid 1 1); CInsert (key 1) (mkRid 1 0); CGet (key 2); CDelete (key 2); CGet (key 2)]
    index0_repr index0_one index0_room) as (s' & H).
  - assert (K1 : is_key handle0 (key 1) (key 1)) by (apply key_is_key; lia).
    assert (K2 : is_key handle0 (key 2) (key 2)) by (apply key_is_key; lia).
    repeat constructor; assumption || (unfold is_s32; simpl; lia).
  - repeat split; try (vm_compute; discriminate); intros k; discriminate || (intros _; vm_compute; discriminate).
  - exists s'. rewrite H. f_equal.
Defined.

Lemma split_leaf_correct_witness : ∃ f s g s', FetchNode 2 index0 = (Ret f, s) ∧ Split f s = (Ret g, s').
Proof.
  destruct (FetchNode_ok index0 abs0 handle0 2 root_bytes index0_repr) as (f & s & Hf & _ & Hs).
  - split; [reflexivity|apply not_elem_of_empty].
  - exact index0_room.
  - apply lookup_insert_eq.
  - assert (HN : a_next abs0 (fd_ handle0) = 3) by exact disk0_next.
    destruct (split_leaf_correct s abs0 handle0 2 f root_bytes (mkNodeHdr (-1) true 1 1) []
      list_head (mkNodeHdr (-1) true 2 2) [] Hs) as (g & s' & _ & _ & _ & _ & _ & _ & Hrun & _).
    + split.
      * exact header_wf.
      * exact root_nd.
      * reflexivity.
      * exists root_bytes. apply lookup_insert_eq.
      * by split.
      * split; [reflexivity|apply not_elem_of_empty].
      * apply (proj2 (elem_of_singleton (C := gset Z) 0 0)). reflexivity.
      * rewrite HN. lia.
      * by split.
      * unfold a_new_id. rewrite HN. reflexivity.
      * by split.
      * reflexivity.
      * exact list_head_nd.
      * split; [reflexivity|apply not_elem_of_empty].
      * reflexivity.
    + exists f, s, g, s'. split; [exact Hf|exact Hrun].
Defined.

Lemma reopened_index_allocates_header_witness : ∃ s', reopened = (Ret handle0, s') ∧
  (DiskManager.AllocatePage 0 (BufferPool.disk_manager_ s')).1 = Ret IX_LEAF_HEADER_PAGE.
Proof.
  destruct reopened_Ret as [s' H]. exists s'. split; [exact H|].
  exact (reopened_index_allocates_header 8 _ _ _ "t" 0 handle0 s' H).
Defined.

End witnesses.
