(* ===== verification/IxTree.v ===== *)
(** Search in a tree of several levels, with the lookup of [ix_node_handle.cpp] as
    it is: which leaf it ends in, and which keys it never finds. *)
From S2P Require Import Prelude.
From S2P Require Import Defs.
From S2P Require Import Replacer.
From S2P Require Import Disk.
From S2P Require Import ModelFs.
From S2P Require Import BufferPool.
From S2P Require Import PoolSpec.
From S2P Require Import Session.
From S2P Require Import IxNode.
From S2P Require Import IxOrder.
From S2P Require Import IxNodeProofs.
From S2P Require Import IxIndex.
From S2P Require Import IxIndexProofs.
From S2P Require Import DemoIndex.
From S2P Require Import IxThms.
Import IxDefs IxIndexHandle DemoIndex.

#[local] Open Scope prog_scope.

(** ** Well-formed trees *)

Section tree.
  Context (a : Abs) (x : handle).
  Notation h := (file_hdr_ x).
  Implicit Types (l : list (bytes * Rid)) (lo tk : bytes).

(** The page of a node, with its keys sorted and none below [lo]. *)
Record node_at (p : Z) lo (m : bytes) (nh : NodeHdr) (seps : list (bytes * Rid)) : Prop := {
  na_idle : idle (page_of x p) a;
  na_view : a_view a !! page_of x p = Some m;
  na_nd : nd h m nh seps;
  na_keys : keys_ok h seps;
  na_sorted : sorted h seps;
  na_lo k v : (k, v) ∈ seps → 0 <= kcmp h k lo }.

(** The tree of height [n] at page [p], with the pairs [l] of its leaves from left to
    right: the separator of a child is a lower bound of its keys, and the next
    separator an upper bound. *)
Fixpoint tree (n : nat) (p : Z) lo l : Prop :=
  ∃ m nh seps, node_at p lo m nh seps ∧
    match n with
    | O => n_leaf nh = true ∧ seps = l
    | S n' => n_leaf nh = false ∧ seps ≠ [] ∧ ∃ subs, length subs = length seps ∧ l = concat subs ∧
        ∀ i k v li, seps !! i = Some (k, v) → subs !! i = Some li →
          tree n' (rid_page_no v) k li ∧
          ∀ k2 v2, seps !! S i = Some (k2, v2) → ∀ kk vv, (kk, vv) ∈ li → key_ok h kk ∧ kcmp h kk k2 < 0
    end.

Lemma lo_trans a1 b c : key_ok h a1 → key_ok h b → key_ok h c → 0 <= kcmp h a1 b → 0 <= kcmp h b c → 0 <= kcmp h a1 c.
Proof.
  intros Ha Hb Hc H1 H2. pose proof (kcmp_anti h a1 b). pose proof (kcmp_anti h b c). pose proof (kcmp_anti h a1 c).
  destruct (kcmp_le_trans h c b a1 Hc Hb Ha); lia.
Qed.

(** The bytes of a node determine its pairs. *)
Lemma node_at_unique p lo m nh seps m' nh' seps' : node_at p lo m nh seps → node_at p lo m' nh' seps' → seps = seps'.
Proof.
  intros [_ Hv Hn _ _ _] [_ Hv' Hn' _ _ _]. rewrite Hv in Hv'. injection Hv' as <-.
  assert (Hl : length seps = length seps') by (pose proof (nd_size _ _ _ _ Hn); pose proof (nd_size _ _ _ _ Hn'); lia).
  apply list_eq. intros i. destruct (seps !! i) as [[k v]|] eqn:Hi.
  - destruct (lookup_lt_is_Some_2 seps' i) as [[k' v'] Hi']; [rewrite <- Hl; by eapply lookup_lt_Some|].
    destruct (nd_pair _ _ _ _ Hn i k v Hi) as [<- <-]. destruct (nd_pair _ _ _ _ Hn' i k' v' Hi') as [<- <-]. done.
  - symmetry. apply lookup_ge_None. rewrite <- Hl. by apply lookup_ge_None.
Qed.

(** All pairs are at or above the bound of their tree. *)
Lemma tree_lo n p lo l k v : tree n p lo l → key_ok h lo → (k, v) ∈ l → key_ok h k ∧ 0 <= kcmp h k lo.
Proof.
  intros Ht Hlo Hin. revert p lo l Ht Hlo Hin. induction n as [|n IH]; intros p lo l (m & nh & seps & Hn & Ht) Hlo Hin.
  - destruct Ht as [_ ->]. split; [by apply (na_keys _ _ _ _ _ Hn k v)|by apply (na_lo _ _ _ _ _ Hn k v)].
  - destruct Ht as (_ & _ & subs & Hlen & -> & Hsub).
    apply list_elem_of_In, in_concat in Hin as (li & Hli & Hin%list_elem_of_In).
    apply list_elem_of_In, list_elem_of_lookup in Hli as [i Hli].
    destruct (lookup_lt_is_Some_2 seps i) as [[ki vi] Hi]; [rewrite <- Hlen; by eapply lookup_lt_Some|].
    destruct (Hsub i ki vi li Hi Hli) as [Hti _]. apply list_elem_of_lookup_2 in Hi.
    pose proof (na_keys _ _ _ _ _ Hn ki vi Hi) as Hki.
    destruct (IH _ _ _ Hti Hki Hin) as [Hk Hge]. split; [done|].
    apply (lo_trans k ki lo); try done. by apply (na_lo _ _ _ _ _ Hn ki vi).
Qed.

(** A pair that is stored lies below the separator that its key selects, and the next
    separator, if any, is the bound of the next child. *)
Lemma tree_child n p lo l k v :
  tree (S n) p lo l → (k, v) ∈ l → ∃ m nh seps i ki vi, node_at p lo m nh seps ∧ n_leaf nh = false ∧
    seps !! i = Some (ki, vi) ∧ 0 <= kcmp h k ki ∧
    ∀ k2 v2, seps !! S i = Some (k2, v2) → kcmp h k k2 < 0 ∧ ∃ l2, tree n (rid_page_no v2) k2 l2.
Proof.
  intros (m & nh & seps & Hn & Hleaf & _ & subs & Hlen & -> & Hsub) Hin.
  apply list_elem_of_In, in_concat in Hin as (li & Hli & Hin%list_elem_of_In).
  apply list_elem_of_In, list_elem_of_lookup in Hli as [i Hli].
  destruct (lookup_lt_is_Some_2 seps i) as [[ki vi] Hi]; [rewrite <- Hlen; by eapply lookup_lt_Some|].
  destruct (Hsub i ki vi li Hi Hli) as [Hti Hup]. pose proof (list_elem_of_lookup_2 _ _ _ Hi) as Hie.
  pose proof (na_keys _ _ _ _ _ Hn ki vi Hie) as Hki. destruct (tree_lo n _ _ _ k v Hti Hki Hin) as [Hk Hge].
  exists m, nh, seps, i, ki, vi. split_and!; try done. intros k2 v2 H2. split; [by apply (Hup k2 v2 H2 k v)|].
  destruct (lookup_lt_is_Some_2 subs (S i)) as [l2 Hl2]; [rewrite Hlen; by eapply lookup_lt_Some|].
  exists l2. by apply (Hsub (S i) k2 v2).
Qed.

End tree.

(** ** The search *)

Section search.
  Context {D : Type} {PS : PageStore D} {PSL : PageStoreLaws D}
          {R : Type} {RP : Replacer R} {RPL : ReplacerLaws R}.
  Notation st := (IxIndexHandle.st D R).
  Context (a : Abs) (x : handle) (Hwf : ix_wf (file_hdr_ x)) (Hroom : room a).
  Notation h := (file_hdr_ x).
  Implicit Types (s : st) (l : list (bytes * Rid)) (lo t tk : bytes).

(** [GetValue] from the page [p] on. *)
Definition find_from (n : nat) (t : bytes) (p : Z) : M st (option Rid) :=
  let* node := FetchNode p in
  let* leaf := descend n t node in
  let* v := lookup_value leaf t in
  unpin leaf false ;;; ret v.

Lemma GetValue_find n t res s :
  GetValue n t res s = bind (find_from n t (root_page (hdr s)))
    (λ v, ret (match v with Some r => (true, res ++ [r]) | None => (false, res) end)) s.
Proof.
  unfold GetValue, FindLeafPage, find_from, bind, gets.
  destruct (FetchNode (root_page (hdr s)) s) as [[f| | | |] s1]; try done.
  destruct (descend n t f s1) as [[g| | | |] s2]; try done.
  destruct (lookup_value g t s2) as [[v| | | |] s3]; try done. by destruct (unpin g false s3) as [[]].
Qed.

(** A step down. *)
Lemma find_from_node n p lo m nh seps s t tk i k v :
  st_repr s a x → node_at a x p lo m nh seps → n_leaf nh = false → is_key x t tk →
  splits h (λ c, c <=? 0) tk seps i → seps !! i = Some (k, v) →
  ∃ s', find_from (S n) t p s = find_from n t (rid_page_no v) s' ∧ st_repr s' a x.
Proof.
  intros Hs [Hi Hm Hn Hok Hso _] Hleaf (Ht & Htl & _ & Hk) Hsp Hv.
  destruct (FetchNode_ok s a x p m Hs Hi Hroom Hm) as (f & s1 & Hf & H1 & _).
  destruct (ix_unpin_clean_ok s1 a x _ f m H1 Hi Hm) as (s2 & Hu & H2).
  exists s2. split; [|done]. unfold find_from at 1. run Hf. cbn [descend]. unfold IsLeafPage.
  rewrite bind_assoc. run (on_node_read s1 _ x _ f 1 m (λ _, IxNodeHandle.IsLeafPage) _ H1 (hold_held _ _ _) Hm (IsLeafPage_ok h m nh _ Hn)).
  rewrite Hleaf, bind_assoc.
  run (on_node_read s1 _ x _ f 1 m (λ h, IxNodeHandle.InternalLookup h t) _ H1 (hold_held _ _ _) Hm
    (InternalLookup_ok h Hwf m nh seps t tk Hn Hok Hso Ht Htl Hk i k v Hsp Hv)).
  rewrite bind_assoc. run Hu. by rewrite bind_assoc.
Qed.

(** The end of the search. *)
Lemma find_from_leaf n p lo m nh l s t tk :
  st_repr s a x → node_at a x p lo m nh l → n_leaf nh = true → is_key x t tk →
  ∃ s', find_from (S n) t p s = (Ret (assoc h tk l), s') ∧ st_repr s' a x.
Proof.
  intros Hs [Hi Hm Hn Hok Hso _] Hleaf (Ht & Htl & _ & Hk).
  destruct (FetchNode_ok s a x p m Hs Hi Hroom Hm) as (f & s1 & Hf & H1 & _).
  destruct (ix_unpin_clean_ok s1 a x _ f m H1 Hi Hm) as (s2 & Hu & H2).
  destruct (LeafLookup_ok h Hwf m nh l t tk Hn Hok Hso Ht Htl Hk) as (q & Hl & Hq).
  exists s2. split; [|done]. unfold find_from. run Hf. cbn [descend]. unfold IsLeafPage.
  rewrite bind_assoc. run (on_node_read s1 _ x _ f 1 m (λ _, IxNodeHandle.IsLeafPage) _ H1 (hold_held _ _ _) Hm (IsLeafPage_ok h m nh _ Hn)).
  rewrite Hleaf, bind_ret.
  assert (Hv : lookup_value f t s1 = (Ret (assoc h tk l), s1)).
  { unfold lookup_value. apply (on_node_read s1 (a_hold (page_of x p) f 1 a) x (page_of x p) f 1 m); [done|apply hold_held|done|].
    run Hl. destruct (assoc h tk l) as [v|] eqn:Ha; [|done]. destruct (Hq v eq_refl) as [k Hki].
    pose proof (read_rid_ok h Hwf m nh l q k v Hn Hki) as Hrd. unfold IxNodeHandle.read_rid in Hrd. by run Hrd. }
  run Hv. by run Hu.
Qed.

(** A key below all keys of a tree goes to its leftmost leaf, which does not have it. *)
Lemma find_below n p lo l s t tk N :
  st_repr s a x → tree a x n p lo l → is_key x t tk → key_ok h lo → kcmp h tk lo < 0 → (n < N)%nat →
  ∃ s', find_from N t p s = (Ret None, s') ∧ st_repr s' a x.
Proof.
  intros Hs Ht Hkey. pose proof Hkey as (_ & _ & _ & Hk).
  revert p lo l s N Hs Ht. induction n as [|n IH]; intros p lo l s N Hs (m & nh & seps & Hn & Ht) Hlo Hlt HN;
    (destruct N as [|N]; [lia|]).
  all: assert (Habove : ∀ k v, (k, v) ∈ seps → kcmp h tk k < 0) by
    (intros k v Hin; apply (kcmp_lt_l h tk lo k); try done; [by apply (na_keys _ _ _ _ _ _ _ Hn k v)|];
     rewrite kcmp_anti; pose proof (na_lo _ _ _ _ _ _ _ Hn k v Hin); lia).
  - destruct Ht as [Hleaf ->]. destruct (find_from_leaf N p lo m nh l s t tk Hs Hn Hleaf Hkey) as (s' & Hrun & Hs').
    exists s'. split; [|done]. by rewrite Hrun, assoc_lt.
  - destruct Ht as (Hleaf & Hne & subs & Hlen & -> & Hsub). destruct seps as [|[k v] seps]; [done|].
    destruct subs as [|l0 subs]; [done|]. destruct (Hsub 0%nat k v l0 eq_refl eq_refl) as [Ht0 _].
    assert (Hin : (k, v) ∈ (k, v) :: seps) by by left.
    destruct (find_from_node N p lo m nh _ s t tk 0 k v Hs Hn Hleaf Hkey) as (s1 & Hrun & Hs1); [|done|].
    { intros i k' v' Hi. rewrite bool_decide_eq_false_2 by lia. apply Z.leb_gt.
      rewrite kcmp_anti. pose proof (Habove k' v' (list_elem_of_lookup_2 _ _ _ Hi)). lia. }
    rewrite Hrun. apply (IH _ k l0); try done; [|by apply (Habove k v)|lia].
    by apply (na_keys _ _ _ _ _ _ _ Hn k v).
Qed.

(** C32: From the first split on, an index does not find what it stores.  In a well-formed tree of two
    or more levels (keys sorted, every separator between the keys of its children), a key that is
    stored below a child of the root, other than the last one, is looked up in the next child,
    goes down to the leftmost leaf there, and [GetValue] answers that it does not exist. *)
Theorem tree_loses_keys s n N lo l t tk v res :
  st_repr s a x → tree a x (S n) (root_page h) lo l → is_key x t tk → (tk, v) ∈ l → (S n < N)%nat →
  (∃ m nh seps k w, node_at a x (root_page h) lo m nh seps ∧ last seps = Some (k, w) ∧ kcmp h tk k < 0) →
  ∃ s', GetValue N t res s = (Ret (false, res), s') ∧ st_repr s' a x.
Proof.
  intros Hs Ht Hkey Hin HN (m' & nh' & seps' & kl & wl & Hn' & Hlast & Hkl).
  destruct (tree_child a x n _ lo l tk v Ht Hin) as (m & nh & seps & i & ki & vi & Hn & Hleaf & Hi & Hge & Hnext).
  pose proof Hkey as (_ & _ & _ & Hk).
  assert (Hki : key_ok h ki) by (apply (na_keys _ _ _ _ _ _ _ Hn ki vi); by eapply list_elem_of_lookup_2).
  assert (Hle : kcmp h ki tk <= 0) by (rewrite kcmp_anti; lia).
  destruct (seps !! S i) as [[k2 v2]|] eqn:H2.
  2:{ exfalso. apply lookup_ge_None in H2. pose proof (lookup_lt_Some _ _ _ Hi).
      rewrite <- (node_at_unique a x _ _ _ _ _ _ _ _ Hn Hn'), last_lookup in Hlast.
    replace (pred (length seps)) with i in Hlast by lia. rewrite Hi in Hlast. injection Hlast as <- <-. lia. }
  destruct (Hnext k2 v2 eq_refl) as [Hlt (l2 & Ht2)].
  assert (Hk2 : key_ok h k2) by (apply (na_keys _ _ _ _ _ _ _ Hn k2 v2); by eapply list_elem_of_lookup_2).
  destruct N as [|N]; [lia|].
  destruct (find_from_node N _ lo m nh seps s t tk (S i) k2 v2 Hs Hn Hleaf Hkey) as (s1 & Hrun & Hs1); [|done|].
  { apply (splits_between h seps tk i ki vi k2 v2); try done; [apply Hn|apply Hn|]. rewrite kcmp_anti. lia. }
  destruct (find_below n _ k2 l2 s1 t tk N Hs1 Ht2 Hkey Hk2 Hlt ltac:(lia)) as (s2 & Hrun2 & Hs2).
  exists s2. split; [|done]. rewrite GetValue_find, (gets_hdr s a x Hs). by rewrite (bind_Ret _ _ _ None s2) by (by rewrite Hrun).
Qed.

End search.

(** ** Witness: the two leaves of [DemoIndex] *)

(** Pairs inserted one by one are in order. *)
Lemma built_ok (zs : list (Z * Rid)) l :
  Forall (λ z, 0 <= z.1 < 256) zs → foldr (λ z, ins header1 (key z.1) z.2) [] zs = l → sorted header1 l ∧ keys_ok header1 l.
Proof.
  intros Hz <-. assert (K : ∀ i, 0 <= i < 256 → key_ok header1 (key i)) by (intros i Hi; by destruct (key_is_key i Hi) as (_ & _ & _ & ?)).
  induction Hz as [|z zs Hi _ [IH1 IH2]]; simpl.
  { split; [intros i j u v _ Hi; discriminate Hi|intros k v Hk; by apply elem_of_nil in Hk]. }
  split; [by apply sorted_ins; [apply K| |]|by apply keys_ok_ins; [apply K|]].
Qed.

Definition at_least (lo : Z) (l : list (bytes * Rid)) : bool := forallb (λ kv, 0 <=? kcmp header1 kv.1 (key lo)) l.

Lemma at_least_ok lo l : at_least lo l = true → ∀ k v, (k, v) ∈ l → 0 <= kcmp header1 k (key lo).
Proof.
  unfold at_least. rewrite forallb_forall. intros Hl k v Hin%list_elem_of_In. by apply Z.leb_le, (Hl (k, v)).
Qed.

Lemma demo_node lo p nh seps zs :
  p ∈ [2; 3; 4] → nd header1 (page1 true p) nh seps → foldr (λ z, ins header1 (key z.1) z.2) [] zs = seps →
  Forall (λ z, 0 <= z.1 < 256) zs → at_least lo seps = true → node_at (abs1 true) handle1 p (key lo) (page1 true p) nh seps.
Proof.
  intros Hp Hn Hb Hz Hlo. destruct (built_ok zs seps Hz Hb). split.
  - apply abs1_idle.
  - apply abs1_view. set_solver.
  - exact Hn.
  - done.
  - done.
  - by apply at_least_ok.
Qed.

Lemma demo_left : tree (abs1 true) handle1 0 2 (key 1) (pairs [3; 4]).
Proof.
  exists (page1 true 2), (mkNodeHdr 4 true 1 3), (pairs [3; 4]). split; [|done].
  apply (demo_node 1 2 _ _ [(4, mkRid 4 4); (3, mkRid 3 3)]); [set_solver|apply left_nd|vm_compute; reflexivity|by repeat constructor|vm_compute; reflexivity].
Qed.

Lemma demo_right : tree (abs1 true) handle1 0 3 (key 5) (pairs (right_keys true)).
Proof.
  exists (page1 true 3), (mkNodeHdr 4 true 2 1), (pairs (right_keys true)). split; [|done].
  apply (demo_node 5 3 _ _ [(8, mkRid 8 8); (7, mkRid 7 7); (6, mkRid 6 6); (5, mkRid 5 5)]);
    [set_solver|apply right_nd|vm_compute; reflexivity|by repeat constructor|vm_compute; reflexivity].
Qed.

Lemma demo_root : node_at (abs1 true) handle1 4 (key 1) (page1 true 4) (mkNodeHdr (-1) false 0 0) children.
Proof.
  apply (demo_node 1 4 _ _ [(5, mkRid 3 (-1)); (1, mkRid 2 (-1))]);
    [set_solver|apply parent_nd|vm_compute; reflexivity|by repeat constructor|vm_compute; reflexivity].
Qed.

Lemma demo_tree : tree (abs1 true) handle1 1 4 (key 1) (pairs [3; 4] ++ pairs (right_keys true)).
Proof.
  exists (page1 true 4), (mkNodeHdr (-1) false 0 0), children. split; [exact demo_root|]. split; [reflexivity|]. split; [discriminate|].
  exists [pairs [3; 4]; pairs (right_keys true)]. split; [reflexivity|]. split; [reflexivity|].
  intros i k v li Hi Hli. destruct i as [|[|i]]; [| |discriminate Hi]; injection Hi as <- <-; injection Hli as <-.
  - split; [exact demo_left|]. intros k2 v2 H2. injection H2 as <- <-. intros kk vv Hin.
    destruct (built_ok [(4, mkRid 4 4); (3, mkRid 3 3)] (pairs [3; 4])) as [_ Hk]; [by repeat constructor|vm_compute; reflexivity|].
    split; [by apply (Hk kk vv)|].
    apply elem_of_cons in Hin as [[= -> ->]|[[= -> ->]|[]%elem_of_nil]%elem_of_cons]; vm_compute; reflexivity.
  - split; [exact demo_right|]. intros k2 v2 H2. discriminate H2.
Qed.

Lemma demo_wf : ix_wf header1.
Proof. by split. Qed.

Lemma tree_loses_keys_witness : ∃ s', GetValue 3 (key 3) [] (index1 true) = (Ret (false, []), s').
Proof.
  destruct (tree_loses_keys (abs1 true) handle1 demo_wf ltac:(done) (index1 true) 0 3 (key 1) _ (key 3) (key 3) (mkRid 3 3) []
    (index1_repr true) demo_tree) as (s' & Hrun & _).
  - by apply key_is_key.
  - by left.
  - lia.
  - exists (page1 true 4), (mkNodeHdr (-1) false 0 0), children, (key 5), (mkRid 3 (-1)).
    split; [exact demo_root|]. split; [reflexivity|vm_compute; reflexivity].
  - exists s'. exact Hrun.
Defined.
