(* ===== verification/IxMergeThms.v ===== *)
(** What a deletion does to a tree of two levels: a leaf borrows a pair from its
    sibling, or is merged with it; and the indexes of [DemoIndex] on which both
    happen. *)
From S2P Require Import Prelude.
From S2P Require Import Defs.
From S2P Require Import Replacer.
From S2P Require Import Disk.
From S2P Require Import ModelFs.
From S2P Require Import BufferPool.
From S2P Require Import BufferPoolProofs.
From S2P Require Import PoolSpec.
From S2P Require Import Session.
From S2P Require Import IxNode.
From S2P Require Import IxOrder.
From S2P Require Import IxNodeProofs.
From S2P Require Import IxIndex.
From S2P Require Import IxIndexProofs.
From S2P Require Import IxSplit.
From S2P Require Import IxMerge.
From S2P Require Import IxCoalesce.
From S2P Require Import DemoIndex.
From S2P Require Import IxThms.
Import IxDefs IxIndexHandle.

#[local] Open Scope prog_scope.

(** ** Borrowing *)

Section borrow_claim.
Context {D : Type} {PS : PageStore D} {PSL : PageStoreLaws D}
        {R : Type} {RP : Replacer R} {RPL : ReplacerLaws R}.
Notation st := (IxIndexHandle.st D R).

(** C15: [CoalesceOrRedistribute] on a leaf with too few pairs, whose parent is the
    root and whose sibling has with it the pairs of two nodes (with fewer the two are
    merged), moves one pair: the nearest one of the
    sibling comes to the leaf, the pairs of the two leaves stay the same in the
    same order, the separator of the right one of the two in the parent becomes
    its first key, and every other page, the headers of the three nodes and all
    pins are as before.  It returns false: no page becomes free. *)
Theorem borrow_correct (s : st) a x pi p pj idx f mi mq mj nhi nhq nhj li lq lj fuel :
  st_repr s (sess a (page_of x pi) f mi) x → underfull a x pi p pj idx f mi mq mj nhi nhq nhj li lq lj → enough x li lj →
  ∃ s' a' mq' mi' mj' li' lj', CoalesceOrRedistribute (S (S (S fuel))) f s = (Ret false, s') ∧ st_repr s' a' x ∧
    a_held a' = a_held a ∧ a_next a' = a_next a ∧
    a_view a' !! page_of x pi = Some mi' ∧ nd (file_hdr_ x) mi' nhi li' ∧ zlen li' = zlen li + 1 ∧
    a_view a' !! page_of x pj = Some mj' ∧ nd (file_hdr_ x) mj' nhj lj' ∧ zlen lj' = zlen lj - 1 ∧
    (if decide (idx = 0)%nat then li' ++ lj' = li ++ lj else lj' ++ li' = lj ++ li) ∧
    (∃ k v t sl, (if decide (idx = 0)%nat then lj' else li') = (k, v) :: t ∧
       a_view a' !! page_of x p = Some mq' ∧
       nd (file_hdr_ x) mq' nhq
         (<[Nat.max idx (sibling idx) := (k, mkRid (if decide (idx = 0)%nat then pj else pi) sl)]> lq)) ∧
    ∀ y, y ≠ page_of x pi → y ≠ page_of x pj → y ≠ page_of x p → a_view a' !! y = a_view a !! y.
Proof.
  intros Hs HB He. destruct (borrow_ok a x pi p pj idx f mi mq mj nhi nhq nhj li lq lj HB s fuel He Hs)
    as (s' & mq' & mi' & mj' & li' & lj' & Hrun & Hs' & Ni & Nj & Zi & Zj & Happ & k & v & t & sl & Hk & Nq).
  destruct (pages_differ a x pi p pj idx f mi mq mj nhi nhq nhj li lq lj HB) as (Dij & Diq & Djq & _).
  eexists s', _, mq', mi', mj', li', lj'. split; [exact Hrun|]. split; [exact Hs'|]. simpl. split_and!; try done.
  - rewrite lookup_insert_ne by done. rewrite lookup_insert_ne by done. apply lookup_insert_eq.
  - rewrite lookup_insert_ne by done. apply lookup_insert_eq.
  - exists k, v, t, sl. split_and!; [done| |done]. apply lookup_insert_eq.
  - intros y Hi Hj Hq. by rewrite !lookup_insert_ne by done.
Qed.


End borrow_claim.

(** ** An index with two leaves *)

Section borrow_witness.
Import DemoIndex.

Lemma demo_underfull rich f : underfull (abs1 rich) handle1 2 4 3 0 f (page1 rich 2) (page1 rich 4) (page1 rich 3)
  (mkNodeHdr 4 true 1 3) (mkNodeHdr (-1) false 0 0) (mkNodeHdr 4 true 2 1) (pairs [3; 4]) children (pairs (right_keys rich)).
Proof.
  constructor.
  - by split.
  - apply left_nd.
  - reflexivity.
  - reflexivity.
  - discriminate.
  - apply parent_nd.
  - reflexivity.
  - apply right_nd.
  - reflexivity.
  - apply (bool_decide_unpack _). vm_compute. exact I.
  - by exists (key 1), (-1).
  - by exists (key 5), (-1).
  - by split.
  - split_and!; apply abs1_idle.
  - split; apply abs1_view; set_solver.
  - reflexivity.
  - reflexivity.
Qed.

Lemma demo_fetch2 rich : ∃ f s, FetchNode 2 (index1 rich) = (Ret f, s) ∧
  st_repr s (sess (abs1 rich) (page_of handle1 2) f (page1 rich 2)) handle1.
Proof.
  destruct (FetchNode_ok (index1 rich) (abs1 rich) handle1 2 (page1 rich 2) (index1_repr rich)) as (f & s & Hf & _ & Hs).
  - apply abs1_idle.
  - reflexivity.
  - apply abs1_view. set_solver.
  - exists f, s. split; [exact Hf|exact Hs].
Qed.

Lemma borrow_correct_witness : ∃ f s s', FetchNode 2 (index1 true) = (Ret f, s) ∧
  CoalesceOrRedistribute 3 f s = (Ret false, s').
Proof.
  destruct (demo_fetch2 true) as (f & s & Hf & Hs).
  destruct (borrow_correct s (abs1 true) handle1 2 4 3 0 f (page1 true 2) (page1 true 4) (page1 true 3) _ _ _ _ _ _ 0 Hs
    (demo_underfull true f) ltac:(done)) as (s' & _ & _ & _ & _ & _ & _ & Hrun & _).
  exists f, s, s'. split; [exact Hf|exact Hrun].
Defined.




End borrow_witness.
