(* ===== verification/IxScanThms.v ===== *)
(** Index scans: the whole list of leaves, and a range of keys in an index of one
    leaf. *)
From S2P Require Import Prelude.
From S2P Require Import Defs.
From S2P Require Import RecScan.
From S2P Require Import Replacer.
From S2P Require Import Disk.
From S2P Require Import ModelFs.
From S2P Require Import BufferPool.
From S2P Require Import BufferPoolProofs.
From S2P Require Import PoolSpec.
From S2P Require Import Session.
From S2P Require Import IxNode.
From S2P Require Import IxOrder.
From S2P Require Import IxNodeProofs.
From S2P Require Import IxIndex.
From S2P Require Import IxIndexProofs.
From S2P Require Import IxMerge.
From S2P Require Import IxScanProofs.
From S2P Require Import DemoIndex.
Import IxDefs IxIndexHandle.

#[local] Open Scope prog_scope.

(** The part of a list between two positions. *)
Lemma filter_segment {A} (P : A → Prop) `{!∀ y, Decision (P y)} (l : list A) (p q : nat) :
  (∀ i y, l !! i = Some y → P y ↔ (p <= i < q)%nat) → filter P l = take (q - p) (drop p l).
Proof.
  revert p q. induction l as [|y l IH]; intros p q HP; [by rewrite drop_nil, take_nil|].
  pose proof (HP 0%nat y eq_refl) as H0. rewrite filter_cons.
  assert (Hl : ∀ i z, l !! i = Some z → P z ↔ (pred p <= i < pred q)%nat ∨ (p = 0 ∧ i < pred q)%nat).
  { intros i z Hz. rewrite (HP (S i) z Hz). lia. }
  rewrite (IH (pred p) (pred q)) by (intros i z Hz; rewrite (HP (S i) z Hz); lia).
  destruct p as [|p]; simpl.
  - destruct q as [|q]; simpl; [by rewrite decide_False by (rewrite H0; lia)|].
    rewrite decide_True by (apply H0; lia). by rewrite Nat.sub_0_r.
  - rewrite decide_False by (rewrite H0; lia). f_equal. lia.
Qed.

Section scans.
  Context {D : Type} {PS : PageStore D} {PSL : PageStoreLaws D}
          {R : Type} {RP : Replacer R} {RPL : ReplacerLaws R}.
  Notation st := (IxIndexHandle.st D R).
  Implicit Types (s : st) (a c : Abs) (x : handle) (m : bytes).

(** [leaf_end], the last leaf pinned [n] times before. *)
Lemma leaf_end_ok s c x m nh l n :
  st_repr s c x → pins_are c (page_of x (last_leaf (file_hdr_ x))) n →
  a_view c !! page_of x (last_leaf (file_hdr_ x)) = Some m → nd (file_hdr_ x) m nh l →
  (n = 0%nat → room c) → page_of x (last_leaf (file_hdr_ x)) ∉ a_mod c →
  ∃ s', leaf_end s = (Ret (mkIid (last_leaf (file_hdr_ x)) (zlen l)), s') ∧ st_repr s' c x.
Proof.
  intros Hs Hn Hv Hnd Hroom Hm.
  destruct (pin_ok s c x _ m n Hs Hn Hv Hroom) as (f & s1 & F1 & Hs1 & Hf).
  destruct (unpin_clean_held s1 c x _ f m n Hs1 Hn Hf Hm Hv) as (s2 & _ & U2 & Hs2 & _).
  exists s2. split; [|done]. unfold leaf_end. rewrite bind_gets, (gets_hdr s c x Hs). run F1. unfold GetSize.
  run (on_node_read s1 _ x _ f _ m (λ _, IxNodeHandle.GetSize) _ Hs1 ltac:(apply lookup_insert_eq) Hv (GetSize_ok _ m nh l Hnd)).
  by run U2.
Qed.

(** C17: A scan from [leaf_begin] to [leaf_end] ends, visits the pairs of the leaves
    in the order of the list of leaves, each once, and changes no page; but every
    leaf is left with one pin for each of its pairs, because [IxScan::next] gives
    none back. *)
Theorem leaf_scan_correct s a x ls :
  st_repr s a x → leaves_ok a x ls → linked x ls → from_option lf_no 0 (head ls) = first_leaf (file_hdr_ x) →
  let pairs := concat (map lf_pairs ls) in ∀ fuel, (length pairs < fuel)%nat →
  ∃ i e s1 s' b, leaf_begin s = (Ret i, s) ∧ leaf_end s = (Ret e, s1) ∧
    collect fuel (i, e) s1 = (Ret (map snd pairs, (e, e)), s') ∧ st_repr s' b x ∧ a_view b = a_view a ∧
    (∀ lf, lf ∈ ls → a_pins (page_of x (lf_no lf)) b = zlen (lf_pairs lf)) ∧
    (∀ j, ¬ leaf_page x ls j → a_held b !! j = a_held a !! j).
Proof.
  intros Hs Hok Hl Hfirst pairs fuel Hf. destruct (linked_last x ls Hl) as (lf & Hlast & Hno).
  assert (Hin : lf ∈ ls) by by apply last_Some_elem_of.
  destruct (lo_leaf _ _ _ Hok lf Hin) as (Hv & Hn & Hleaf & Hh & Hm). rewrite Hno in Hv, Hh, Hm.
  destruct (leaf_end_ok s a x (lf_mem lf) (lf_hdr lf) (lf_pairs lf) 0 Hs Hh Hv Hn) as (s1 & He & Hs1); [|done|].
  { intros _. apply (leaves_room a x ls Hok a (λ _, 0%nat) lf); [|done|done]. apply leaked_start.
    intros j (lf' & Hlf' & ->). by destruct (lo_leaf _ _ _ Hok lf' Hlf') as (_ & _ & _ & ? & _). }
  pose proof (linked_rest x ls ls Hl ltac:(done)) as Hrest. unfold leaves_end in Hrest. rewrite Hlast, Hfirst in Hrest.
  change (from_option (λ lf, zlen (lf_pairs lf)) 0 (Some lf)) with (zlen (lf_pairs lf)) in Hrest.
  assert (Hsnd : map snd (concat (map all_slots ls)) = map snd pairs) by apply snd_slots.
  destruct (collect_rest a x ls Hok s1 _ _ _ fuel Hs1 Hrest) as (s' & b & Hrun & Hs' & Hb).
  { rewrite <- (length_map snd), Hsnd, length_map. exact Hf. }
  rewrite Hsnd in Hrun. eexists _, _, s1, s', b. split; [|split; [exact He|split; [exact Hrun|]]].
  { unfold leaf_begin. by rewrite bind_gets, (gets_hdr s a x Hs). }
  split_and!; [done|apply Hb| |by apply Hb].
  intros lf' Hlf'. rewrite (pins_are_pins _ _ _ (lk_pins _ _ _ _ Hb _ ltac:(by exists lf'))). simpl.
  by rewrite visits_concat by (done || apply Hok).
Qed.

(** ** A range of keys *)

Section range.
  Context (a : Abs) (x : handle) (l : list (bytes * Rid)).
  Hypotheses (Hone : ix_one a x l) (Hroom : room a) (Hlast : last_leaf (file_hdr_ x) = root_page (file_hdr_ x)).
  Notation h := (file_hdr_ x).
  Notation i := (root_of x).

Lemma lower_bound_one s n t tk :
  st_repr s a x → is_key x t tk →
  ∃ p s', lower_bound (S n) t s = (Ret (mkIid (root_page h) (Z.of_nat p)), s') ∧ st_repr s' a x ∧
    (p <= length l)%nat ∧ ∀ o kv, l !! o = Some kv → kcmp h kv.1 tk < 0 ↔ (o < p)%nat.
Proof.
  intros Hs (Ht & Htl & _ & Hk). destruct (io_page _ _ _ Hone) as (m & nh & Hm & Hn & Hleaf & _).
  destruct (find_leaf_ok a x l Hone Hroom s n t m nh Hs Hm Hn Hleaf) as (f & s1 & Hf & H1 & _).
  destruct (lower_bound_ok h (io_wf _ _ _ Hone) m nh l t tk Hn (io_keys _ _ _ Hone) (io_sorted _ _ _ Hone) Ht Htl Hk)
    as (p & Hp & Hpl & Hlb).
  destruct (ix_unpin_clean_ok s1 a x i f m H1 (io_idle _ _ _ Hone) Hm) as (s2 & Hu & H2).
  exists p, s2. split; [|split; [done|split; [done|]]].
  - unfold lower_bound. run Hf.
    run (on_node_read s1 _ x i f 1 m (λ h, IxNodeHandle.lower_bound h t) _ H1 (hold_held _ _ _) Hm Hp).
    run (GetPageNo_ok s1 _ x i f 1 m H1 (hold_held _ _ _) Hm). by run Hu.
  - intros o [k v] Ho. rewrite <- Z.ltb_lt. pose proof (Hlb o k v Ho) as E. cbn beta in E. simpl. rewrite E. apply bool_decide_eq_true.
Qed.

Lemma upper_bound_one s n t tk :
  st_repr s a x → is_key x t tk →
  ∃ p s', upper_bound (S n) t s = (Ret (mkIid (root_page h) (Z.of_nat p)), s') ∧ st_repr s' a x ∧
    (p <= length l)%nat ∧ ∀ o kv, l !! o = Some kv → kcmp h kv.1 tk <= 0 ↔ (o < p)%nat.
Proof.
  intros Hs (Ht & Htl & _ & Hk). destruct (io_page _ _ _ Hone) as (m & nh & Hm & Hn & Hleaf & _).
  destruct (find_leaf_ok a x l Hone Hroom s n t m nh Hs Hm Hn Hleaf) as (f & s1 & Hf & H1 & _).
  destruct (upper_bound_ok h (io_wf _ _ _ Hone) m nh l t tk Hn (io_keys _ _ _ Hone) (io_sorted _ _ _ Hone) Ht Htl Hk)
    as (p & Hp & Hpl & Hub).
  assert (Hiid : ∃ s2, (if Z.of_nat p =? zlen l then leaf_end else let* q := GetPageNo f in ret (mkIid q (Z.of_nat p))) s1
      = (Ret (mkIid (root_page h) (Z.of_nat p)), s2) ∧ st_repr s2 (a_hold i f 1 a) x).
  { destruct (Z.eqb_spec (Z.of_nat p) (zlen l)) as [->|_].
    - rewrite <- Hlast. apply (leaf_end_ok s1 (a_hold i f 1 a) x m nh l 1); rewrite ?Hlast; try done.
      + exists f. apply lookup_insert_eq.
      + apply Hone.
    - exists s1. split; [|done]. by run (GetPageNo_ok s1 _ x i f 1 m H1 (hold_held _ _ _) Hm). }
  destruct Hiid as (s2 & Hiid & Hs2).
  destruct (ix_unpin_clean_ok s2 a x i f m Hs2 (io_idle _ _ _ Hone) Hm) as (s3 & Hu & H3).
  exists p, s3. split; [|split; [done|split; [done|]]].
  - unfold upper_bound. run Hf.
    run (on_node_read s1 _ x i f 1 m (λ h, IxNodeHandle.upper_bound h t) _ H1 (hold_held _ _ _) Hm Hp).
    unfold GetSize. run (on_node_read s1 _ x i f 1 m (λ _, IxNodeHandle.GetSize) _ H1 (hold_held _ _ _) Hm (GetSize_ok h m nh l Hn)).
    run Hiid. by run Hu.
  - intros o [k v] Ho. rewrite <- Z.leb_le. pose proof (Hub o k v Ho) as E. cbn beta in E. simpl. rewrite E. apply bool_decide_eq_true.
Qed.

End range.

(** The pairs with keys from [lo] to [hi]. *)
Definition between (h : IxFileHdr) (lo hi : bytes) (l : list (bytes * Rid)) : list (bytes * Rid) :=
  filter (λ kv, 0 <= kcmp h kv.1 lo ∧ kcmp h kv.1 hi <= 0) l.

(** C18: In an index of one leaf, a scan from [lower_bound(lo)] to [upper_bound(hi)]
    ends and visits exactly the pairs with keys from [lo] to [hi], in order; with
    [lo = hi], the range of an equality condition, at most the pair of that key. *)
Theorem range_scan_correct s a x l n lo hi klo khi fuel :
  st_repr s a x → ix_one a x l → room a → last_leaf (file_hdr_ x) = root_page (file_hdr_ x) →
  is_key x lo klo → is_key x hi khi → kcmp (file_hdr_ x) klo khi <= 0 → (length l < fuel)%nat →
  ∃ i e s1 s2 s3 b, lower_bound (S n) lo s = (Ret i, s1) ∧ upper_bound (S n) hi s1 = (Ret e, s2) ∧
    collect fuel (i, e) s2 = (Ret (map snd (between (file_hdr_ x) klo khi l), (e, e)), s3) ∧
    st_repr s3 b x ∧ a_view b = a_view a ∧
    a_pins (root_of x) b = zlen (between (file_hdr_ x) klo khi l).
Proof.
  intros Hs Hone Hroom Hlast Hlo Hhi Hle Hf. pose proof Hlo as (_ & _ & _ & Klo). pose proof Hhi as (_ & _ & _ & Khi).
  destruct (lower_bound_one a x l Hone Hroom s n lo klo Hs Hlo) as (p & s1 & Hp & Hs1 & Hpl & Bp).
  destruct (upper_bound_one a x l Hone Hroom Hlast s1 n hi khi Hs1 Hhi) as (q & s2 & Hq & Hs2 & Hql & Bq).
  destruct (io_page _ _ _ Hone) as (m & nh & Hm & Hn & Hleaf & _).
  set (lf := mkLeaf (root_page (file_hdr_ x)) m nh l).
  assert (Hpq : (p <= q)%nat).
  { destruct (decide (q < p)%nat) as [Hlt|]; [|lia]. exfalso. destruct (lookup_lt_is_Some_2 l q) as [[k v] Hv]; [lia|].
    pose proof (proj2 (Bp q _ Hv) Hlt) as H1. simpl in H1.
    assert (key_ok (file_hdr_ x) k) as Kk by (apply (io_keys _ _ _ Hone k v); by eapply list_elem_of_lookup_2).
    pose proof (kcmp_lt_l _ k klo khi Kk Klo Khi H1 Hle).
    assert (q < q)%nat by (apply (Bq q _ Hv); simpl; lia). lia. }
  assert (Hseg : between (file_hdr_ x) klo khi l = take (q - p) (drop p l)).
  { apply filter_segment. intros o kv Ho. rewrite (Bq o kv Ho), Z.le_ngt, (Bp o kv Ho). lia. }
  assert (Hok : leaves_ok a x [lf]).
  { split; [apply Hone| | |].
    - intros lf' ->%list_elem_of_singleton. split_and!; try done; apply Hone.
    - apply NoDup_singleton.
    - unfold room in Hroom. simpl. lia. }
  assert (Hrest : rest x [lf] (mkIid (root_page (file_hdr_ x)) (Z.of_nat q)) (mkIid (root_page (file_hdr_ x)) (Z.of_nat p))
    (slots lf p q ++ [])).
  { apply (rest_within x [lf] _ lf p q); simpl; [by left|lia|by left| |constructor]. intros o Ho [= ?]. lia. }
  rewrite app_nil_r in Hrest. assert (Hslots : slots lf p q = map (λ kv, (lf_no lf, kv.2)) (between (file_hdr_ x) klo khi l)).
  { unfold slots. by rewrite Hseg. }
  destruct (collect_rest a x [lf] Hok s2 _ _ _ fuel Hs2 Hrest) as (s3 & b & Hrun & Hs3 & Hb).
  { unfold slots. rewrite length_map, length_take, length_drop. simpl. lia. }
  eexists _, _, s1, s2, s3, b. split; [exact Hp|]. split; [exact Hq|]. split.
  { rewrite Hslots, map_map in Hrun. exact Hrun. }
  split_and!; [done|apply Hb|]. assert (HP : leaf_page x [lf] (root_of x)) by (exists lf; by split; [left|]).
  rewrite (pins_are_pins _ _ _ (lk_pins _ _ _ _ Hb _ HP)), Hslots. by rewrite visits_map, decide_True.
Qed.

End scans.

(** ** Witnesses *)

Section witnesses.
Import DemoIndex.

Definition demo_leaves : list leaf :=
  [mkLeaf 2 (page1 true 2) (mkNodeHdr 4 true 1 3) (pairs [3; 4]);
   mkLeaf 3 (page1 true 3) (mkNodeHdr 4 true 2 1) (pairs (right_keys true))].

Lemma demo_leaves_ok : leaves_ok (abs1 true) handle1 demo_leaves.
Proof.
  split.
  - by split.
  - intros lf [->|[->|[]%elem_of_nil]%elem_of_cons]%elem_of_cons; (split; [apply abs1_view; set_solver|]).
    + split; [apply left_nd|]. split; [reflexivity|apply abs1_idle].
    + split; [apply right_nd|]. split; [reflexivity|apply abs1_idle].
  - apply (bool_decide_unpack _). vm_compute. exact I.
  - vm_compute. discriminate.
Qed.

Lemma leaf_scan_correct_witness : ∃ i e s1 s', leaf_begin (index1 true) = (Ret i, index1 true) ∧
  leaf_end (index1 true) = (Ret e, s1) ∧
  collect 7 (i, e) s1 = (Ret ([mkRid 3 3; mkRid 4 4; mkRid 5 5; mkRid 6 6; mkRid 7 7; mkRid 8 8], (e, e)), s').
Proof.
  destruct (leaf_scan_correct (index1 true) (abs1 true) handle1 demo_leaves (index1_repr true) demo_leaves_ok
    ltac:(by split_and!) eq_refl 7 ltac:(simpl; lia)) as (i & e & s1 & s' & _ & Hb & He & Hrun & _).
  exists i, e, s1, s'. split; [exact Hb|]. split; [exact He|exact Hrun].
Defined.

(** [index0] with two pairs. *)
Lemma demo_two : ∃ s a, st_repr s a handle0 ∧ ix_one a handle0 (pairs [1; 2]) ∧ room a.
Proof.
  assert (K : ∀ i, 0 <= i < 256 → is_key handle0 (key i) (key i)) by (intros; by apply key_is_key).
  destruct (insert_one abs0 handle0 [] index0_one index0_room index0 0 (key 2) (key 2) (mkRid 2 2) index0_repr (K 2 ltac:(lia)))
    as (s1 & m1 & _ & Hs1 & Ho1); try done.
  destruct (insert_one _ handle0 _ Ho1 index0_room s1 0 (key 1) (key 1) (mkRid 1 1) Hs1 (K 1 ltac:(lia)))
    as (s2 & m2 & _ & Hs2 & Ho2); try done.
  eexists s2, _. split; [exact Hs2|]. split; [exact Ho2|exact index0_room].
Qed.

Lemma range_scan_correct_witness : ∃ (s : st) i e s1 s2 s3, lower_bound 1 (key 2) s = (Ret i, s1) ∧
  upper_bound 1 (key 5) s1 = (Ret e, s2) ∧ collect 3 (i, e) s2 = (Ret ([mkRid 2 2], (e, e)), s3).
Proof.
  destruct demo_two as (s & a & Hs & Ho & Hr).
  destruct (range_scan_correct s a handle0 (pairs [1; 2]) 0 (key 2) (key 5) (key 2) (key 5) 3 Hs Ho Hr eq_refl
    ltac:(by apply key_is_key) ltac:(by apply key_is_key) ltac:(vm_compute; discriminate) ltac:(simpl; lia))
    as (i & e & s1 & s2 & s3 & b & Hi & He & Hrun & _).
  exists s, i, e, s1, s2, s3. split; [exact Hi|]. split; [exact He|exact Hrun].
Defined.

End witnesses.
