(* ===== verification/RwLatch.v ===== *)
(** The reader-writer latch, [src/src/common/rwlatch.{h,cpp}], as a transition
    system over its threads.

    The mutex makes the code between two waits one step.  A thread that waits
    on a condition variable is asleep until a notification or a spurious wakeup
    makes it check its loop condition again.  [notify_one] wakes any one
    sleeper; [notify_all] wakes all. *)
From S2P Require Import Prelude.
From S2P Require Import Defs.

Module RwLatch.

Definition MAX_READERS : Z := 2 ^ 32 - 1.

(** The data members guarded by the mutex. *)
Record latch := mkLatch { reader_count_ : Z; writer_entered_ : bool }.

(** Where a thread is: outside, in a loop of [WLock] (waiting for the writer
    before it, then for the readers) or of [RLock], or holding the latch. *)
Inductive pc :=
  | Out
  | WWait (asleep : bool)
  | WDrain (asleep : bool)
  | WIn
  | RWait (asleep : bool)
  | RIn.

#[export] Instance pc_eq_dec : EqDecision pc.
Proof. solve_decision. Defined.

(** The second loop of [WLock], run with the mutex held. *)
Definition drain (l : latch) : pc := if 0 <? reader_count_ l then WDrain true else WIn.

(** [WLock] from its first loop on. *)
Definition WLock (l : latch) : pc * latch :=
  if writer_entered_ l then (WWait true, l)
  else let l' := mkLatch (reader_count_ l) true in (drain l', l').

Definition RLock (l : latch) : pc * latch :=
  if writer_entered_ l || (reader_count_ l =? MAX_READERS) then (RWait true, l)
  else (RIn, mkLatch (to_u32 (reader_count_ l + 1)) (writer_entered_ l)).

Definition WUnlock (l : latch) : latch := mkLatch (reader_count_ l) false.

(** What [RUnlock] notifies. *)
Inductive notify := NotifyNone | NotifyWriter | NotifyReader.

Definition RUnlock (l : latch) : notify * latch :=
  let n := to_u32 (reader_count_ l - 1) in
  (if writer_entered_ l then (if n =? 0 then NotifyWriter else NotifyNone)
   else (if n =? MAX_READERS - 1 then NotifyReader else NotifyNone),
   mkLatch n (writer_entered_ l)).

(** Who sleeps on [reader_] and on [writer_]. *)
Definition on_reader (p : pc) : bool := match p with WWait true | RWait true => true | _ => false end.
Definition on_writer (p : pc) : bool := match p with WDrain true => true | _ => false end.

Definition wake (p : pc) : pc :=
  match p with WWait _ => WWait false | WDrain _ => WDrain false | RWait _ => RWait false | p => p end.

Definition notify_all (who : pc → bool) (th : gmap Z pc) : gmap Z pc :=
  (λ p, if who p then wake p else p) <$> th.

Inductive notify_one (who : pc → bool) (th : gmap Z pc) : gmap Z pc → Prop :=
  | notify_some i p : th !! i = Some p → who p = true → notify_one who th (<[i := wake p]> th)
  | notify_nobody : (∀ i p, th !! i = Some p → who p = false) → notify_one who th th.

Definition notified (n : notify) (th th' : gmap Z pc) : Prop :=
  match n with
  | NotifyNone => th' = th
  | NotifyWriter => notify_one on_writer th th'
  | NotifyReader => notify_one on_reader th th'
  end.

Record state := mkState { lt : latch; th : gmap Z pc }.

Inductive step : state → state → Prop :=
  (** a call of [WLock], or the wakeup of a thread in its first loop *)
  | step_wlock i l m p : m !! i = Some p → p = Out ∨ p = WWait false →
      step (mkState l m) (mkState (WLock l).2 (<[i := (WLock l).1]> m))
  | step_drain i l m : m !! i = Some (WDrain false) →
      step (mkState l m) (mkState l (<[i := drain l]> m))
  | step_rlock i l m p : m !! i = Some p → p = Out ∨ p = RWait false →
      step (mkState l m) (mkState (RLock l).2 (<[i := (RLock l).1]> m))
  | step_wunlock i l m : m !! i = Some WIn →
      step (mkState l m) (mkState (WUnlock l) (notify_all on_reader (<[i := Out]> m)))
  | step_runlock i l m m' : m !! i = Some RIn → notified (RUnlock l).1 (<[i := Out]> m) m' →
      step (mkState l m) (mkState (RUnlock l).2 m')
  (** a spurious wakeup *)
  | step_spurious i l m p : m !! i = Some p → step (mkState l m) (mkState l (<[i := wake p]> m)).

Definition init (threads : gset Z) : state :=
  mkState (mkLatch 0 false) (gset_to_gmap Out threads).

(** ** Counting *)

Definition readers (m : gmap Z pc) : Z := Z.of_nat (size (filter (λ kv, kv.2 = RIn) m)).

Definition b2z (p : pc) : Z := match p with RIn => 1 | _ => 0 end.

Lemma b2z_ne p : p ≠ RIn → b2z p = 0.
Proof. by destruct p. Qed.

Lemma readers_insert m i p q : m !! i = Some q → readers (<[i := p]> m) = readers m - b2z q + b2z p.
Proof.
  intros Hi. unfold readers. destruct (decide (p = RIn)) as [->|Hp].
  - rewrite map_filter_insert_True by done. destruct (decide (q = RIn)) as [->|Hq].
    + rewrite insert_id; [simpl; lia|]. by apply map_lookup_filter_Some.
    + rewrite (b2z_ne q) by done. rewrite map_size_insert_None; [simpl; lia|]. apply map_lookup_filter_None. right. intros x Hx. simpl. congruence.
  - rewrite map_filter_insert_False, map_filter_delete, (b2z_ne p) by done. destruct (decide (q = RIn)) as [->|Hq].
    + rewrite map_size_delete_Some.
      * assert (0 < size (filter (λ kv, kv.2 = RIn) m))%nat; [|simpl; lia].
        destruct (size (filter (λ kv : Z * pc, kv.2 = RIn) m)) eqn:Hz; [|lia].
        apply map_size_empty_inv in Hz. apply (map_filter_empty_not_lookup _ m i RIn) in Hz; [done|done].
      * exists RIn. by apply map_lookup_filter_Some.
    + rewrite (b2z_ne q), delete_id by (done || (apply map_lookup_filter_None; right; intros x Hx; simpl; congruence)). lia.
Qed.

Lemma readers_le m : 0 <= readers m <= Z.of_nat (size m).
Proof.
  unfold readers. split; [lia|]. apply Nat2Z.inj_le. apply map_subseteq_size, map_filter_subseteq.
Qed.

Lemma readers_pos m i : m !! i = Some RIn → 0 < readers m.
Proof.
  intros Hi. unfold readers. destruct (size (filter (λ kv : Z * pc, kv.2 = RIn) m)) eqn:Hz; [|lia].
  apply map_size_empty_inv in Hz. apply (map_filter_empty_not_lookup _ m i RIn) in Hz; done.
Qed.

Lemma readers_pos_inv m : 0 < readers m → ∃ i, m !! i = Some RIn.
Proof.
  unfold readers. intros Hp. destruct (map_choose (filter (λ kv : Z * pc, kv.2 = RIn) m)) as (i & p & Hi).
  - intros He. rewrite He, map_size_empty in Hp. lia.
  - apply map_lookup_filter_Some in Hi as [Hi Hq]. simpl in Hq. subst. eauto.
Qed.

(** ** The invariant *)

(** The threads between the two loops of [WLock] and [WUnlock]. *)
Definition writer (p : pc) : bool := match p with WDrain _ | WIn => true | _ => false end.

(** The counters agree with the threads, at most one thread is a writer, and a
    writer that holds the latch excludes readers. *)
Record core (l : latch) (m : gmap Z pc) : Prop := {
  co_fits : Z.of_nat (size m) < MAX_READERS;
  co_count : reader_count_ l = readers m;
  co_entered : writer_entered_ l = true ↔ ∃ i p, m !! i = Some p ∧ writer p = true;
  co_one i j p q : m !! i = Some p → m !! j = Some q → writer p = true → writer q = true → i = j;
  co_excl i : m !! i = Some WIn → reader_count_ l = 0
}.

(** No lost wakeup: whoever sleeps has a reason to. *)
Record sleepers (l : latch) (m : gmap Z pc) : Prop := {
  sl_reader i p : m !! i = Some p → on_reader p = true → writer_entered_ l = true;
  sl_writer i : m !! i = Some (WDrain true) → 0 < reader_count_ l
}.

Definition inv (s : state) : Prop := core (lt s) (th s) ∧ sleepers (lt s) (th s).

(** Threads that were only woken. *)
Definition woken (m m' : gmap Z pc) : Prop :=
  ∀ i, m' !! i = m !! i ∨ ∃ p, m !! i = Some p ∧ m' !! i = Some (wake p).

Lemma woken_lookup m m' i p' : woken m m' → m' !! i = Some p' →
  ∃ p, m !! i = Some p ∧ (p' = p ∨ p' = wake p).
Proof.
  intros Hw Hi. destruct (Hw i) as [Heq|(p & Hp & Hp')].
  - exists p'. rewrite <- Heq. auto.
  - exists p. split; [done|]. right. congruence.
Qed.

Lemma woken_lookup_back m m' i p : woken m m' → m !! i = Some p →
  ∃ p', m' !! i = Some p' ∧ (p' = p ∨ p' = wake p).
Proof.
  intros Hw Hi. destruct (Hw i) as [Heq|(p0 & Hp & Hp')].
  - exists p. rewrite Heq. auto.
  - exists (wake p). split; [|by right]. congruence.
Qed.

Lemma wake_writer p : writer (wake p) = writer p.
Proof. by destruct p. Qed.

Lemma wake_in p q : q = RIn ∨ q = WIn → wake p = q ↔ p = q.
Proof. intros [-> | ->]; by destruct p. Qed.

Lemma woken_readers m m' : woken m m' → readers m' = readers m ∧ size m' = size m.
Proof.
  intros Hw. split.
  - unfold readers. do 2 f_equal. apply map_eq. intros i. apply option_eq. intros p.
    rewrite !map_lookup_filter_Some; simpl. split; intros [Hi ->].
    + destruct (woken_lookup _ _ _ _ Hw Hi) as (q & Hq & [<-|Hwk]); [done|].
      symmetry in Hwk. apply (wake_in q RIn) in Hwk as ->; auto.
    + destruct (woken_lookup_back _ _ _ _ Hw Hi) as (q & Hq & [->| ->]); done.
  - rewrite <- !(size_dom (D := gset Z)). f_equal. apply set_eq. intros i. rewrite !elem_of_dom. split; intros [p Hp].
    + destruct (woken_lookup _ _ _ _ Hw Hp) as (q & Hq & _). eauto.
    + destruct (woken_lookup_back _ _ _ _ Hw Hp) as (q & Hq & _). eauto.
Qed.

Lemma core_woken l m m' : woken m m' → core l m → core l m'.
Proof.
  intros Hw []. destruct (woken_readers m m' Hw) as [Hr Hs].
  assert (Hwr : ∀ i p', m' !! i = Some p' → writer p' = true → ∃ p, m !! i = Some p ∧ writer p = true).
  { intros i p' Hi Hp. destruct (woken_lookup _ _ _ _ Hw Hi) as (p & Hp' & [->| ->]); eauto. rewrite wake_writer in Hp. eauto. }
  split.
  - by rewrite Hs.
  - by rewrite Hr.
  - rewrite co_entered0. split; intros (i & p & Hi & Hp).
    + destruct (woken_lookup_back _ _ _ _ Hw Hi) as (q & Hq & [->| ->]); exists i; [eauto|].
      exists (wake p). by rewrite wake_writer.
    + destruct (Hwr i p Hi Hp) as (q & ?). eauto.
  - intros i j p q Hi Hj Hp Hq. destruct (Hwr i p Hi Hp) as (p0 & ? & ?), (Hwr j q Hj Hq) as (q0 & ? & ?). eauto.
  - intros i Hi. destruct (woken_lookup _ _ _ _ Hw Hi) as (p & Hp & [<-|Hwk]); [eauto|].
    symmetry in Hwk. apply (wake_in p WIn) in Hwk as ->; [eauto|by right].
Qed.

Lemma notify_all_woken who m : woken m (notify_all who m).
Proof.
  intros i. unfold notify_all. rewrite lookup_fmap. destruct (m !! i) as [p|]; simpl; [|by left].
  destruct (who p); [right; eauto|by left].
Qed.

Lemma notified_woken n m m' : notified n m m' → woken m m'.
Proof.
  assert (Hone : ∀ who, notify_one who m m' → woken m m').
  { intros who [i p Hi _|_]; intros j; [|by left].
    destruct (decide (j = i)) as [->|]; [right; exists p; by rewrite lookup_insert_eq|left; by rewrite lookup_insert_ne]. }
  destruct n; simpl; [intros ->; intros j; by left|apply Hone|apply Hone].
Qed.

(** One thread moves from [q] to [p] and the latch changes to [l']. *)
Lemma core_move l m i q p l' :
  core l m → m !! i = Some q →
  reader_count_ l' = reader_count_ l - b2z q + b2z p →
  writer_entered_ l' = (if writer p then true else if writer q then false else writer_entered_ l) →
  (writer p = true → writer q = true ∨ writer_entered_ l = false) →
  (p = WIn → reader_count_ l' = 0) →
  (writer_entered_ l = true → writer q = false → reader_count_ l' <= reader_count_ l) →
  core l' (<[i := p]> m).
Proof.
  intros [] Hi Hc He Hw Hp Hle.
  assert (Hsz : size (<[i := p]> m) = size m) by (rewrite map_size_insert; by rewrite Hi).
  pose proof (readers_le (<[i := p]> m)) as Hrl. rewrite (readers_insert m i p q Hi), Hsz in Hrl.
  assert (Hno : writer_entered_ l = false → ∀ j r, m !! j = Some r → writer r = false).
  { intros Hf j r Hj. destruct (writer r) eqn:Hr; [|done]. exfalso.
    assert (writer_entered_ l = true) by (apply co_entered0; eauto). congruence. }
  split.
  - by rewrite Hsz.
  - rewrite (readers_insert m i p q Hi). lia.
  - rewrite He. destruct (writer p) eqn:Hwp.
    { split; [|done]. intros _. exists i, p. by rewrite lookup_insert_eq. }
    destruct (writer q) eqn:Hwq.
    { split; [done|]. intros (j & r & Hj & Hr). exfalso. apply lookup_insert_Some in Hj as [[-> <-]|[Hne Hj]]; [congruence|].
      apply Hne. by apply (co_one0 i j q r). }
    rewrite co_entered0. split; intros (j & r & Hj & Hr).
    + exists j, r. rewrite lookup_insert_ne; [done|]. intros <-. congruence.
    + apply lookup_insert_Some in Hj as [[-> <-]|[Hne Hj]]; [congruence|eauto].
  - intros j k r t Hj Hk Hr Ht.
    apply lookup_insert_Some in Hj as [[<- <-]|[Hnj Hj]]; apply lookup_insert_Some in Hk as [[<- <-]|[Hnk Hk]]; [done|..].
    + destruct (Hw Hr) as [Hq|Hf]; [by apply (co_one0 i k q t)|]. rewrite (Hno Hf k t Hk) in Ht. done.
    + destruct (Hw Ht) as [Hq|Hf]; [by apply (co_one0 j i r q)|]. rewrite (Hno Hf j r Hj) in Hr. done.
    + by apply (co_one0 j k r t).
  - intros j [[-> ->]|[Hne Hj]]%lookup_insert_Some; [by apply Hp|].
    pose proof (co_excl0 j Hj) as H0.
    assert (writer_entered_ l = true) as Het by (apply co_entered0; eauto).
    assert (writer q = false) as Hq.
    { destruct (writer q) eqn:Hq; [|done]. exfalso. apply Hne. by apply (co_one0 i j q WIn). }
    specialize (Hle Het Hq). lia.
Qed.

Lemma sleepers_move l m i p l' :
  sleepers l m → (on_reader p = true → writer_entered_ l' = true) → (p = WDrain true → 0 < reader_count_ l') →
  (writer_entered_ l = true → writer_entered_ l' = true) → (reader_count_ l <= reader_count_ l') →
  sleepers l' (<[i := p]> m).
Proof.
  intros [] Hr Hw He Hc. split.
  - intros j q [[-> ->]|[_ Hj]]%lookup_insert_Some; [done|]. intros Hq. apply He. eauto.
  - intros j [[-> ->]|[_ Hj]]%lookup_insert_Some; [auto|]. specialize (sl_writer0 j Hj). lia.
Qed.

Lemma init_inv threads : Z.of_nat (size threads) < MAX_READERS → inv (init threads).
Proof.
  intros Hs. assert (Hall : ∀ i p, gset_to_gmap Out threads !! i = Some p → p = Out).
  { intros i p [_ <-]%lookup_gset_to_gmap_Some. done. }
  split; split; simpl.
  - rewrite <- (size_dom (D := gset Z)), dom_gset_to_gmap. done.
  - destruct (decide (0 < readers (gset_to_gmap Out threads))) as [Hp|].
    + apply readers_pos_inv in Hp as [i Hi]. by apply Hall in Hi.
    + pose proof (readers_le (gset_to_gmap Out threads)). lia.
  - split; [done|]. intros (i & p & Hi & Hp). apply Hall in Hi as ->. done.
  - intros i j p q Hi _ Hp. apply Hall in Hi as ->. done.
  - intros i Hi. by apply Hall in Hi.
  - intros i p Hi Hp. apply Hall in Hi as ->. done.
  - intros i Hi. by apply Hall in Hi.
Qed.

(** ** Preservation *)

Lemma wlock_inv l m i p : core l m → sleepers l m → m !! i = Some p → p = Out ∨ p = WWait false →
  core (WLock l).2 (<[i := (WLock l).1]> m) ∧ sleepers (WLock l).2 (<[i := (WLock l).1]> m).
Proof.
  intros Hc Hs Hi Hp. assert (b2z p = 0 ∧ writer p = false) as [Hb Hw] by (by destruct Hp as [-> | ->]).
  pose proof (co_count _ _ Hc) as Hcnt. pose proof (readers_le m) as Hrl.
  unfold WLock. destruct (writer_entered_ l) eqn:He; simpl.
  - split.
    + apply (core_move l m i p); try done; [simpl; lia|by rewrite Hw].
    + by apply (sleepers_move l m).
  - unfold drain; simpl. destruct (Z.ltb_spec 0 (reader_count_ l)) as [Hpos|Hz].
    + split.
      * apply (core_move l m i p); try done; simpl; [simpl; lia|by right].
      * by apply (sleepers_move l m).
    + split.
      * apply (core_move l m i p); try done; simpl; [simpl; lia|by right|lia].
      * by apply (sleepers_move l m).
Qed.

Lemma drain_inv l m i : core l m → sleepers l m → m !! i = Some (WDrain false) →
  core l (<[i := drain l]> m) ∧ sleepers l (<[i := drain l]> m).
Proof.
  intros Hc Hs Hi. pose proof (co_count _ _ Hc) as Hcnt. pose proof (readers_le m) as Hrl.
  assert (He : writer_entered_ l = true) by (apply (co_entered _ _ Hc); eauto).
  unfold drain. destruct (Z.ltb_spec 0 (reader_count_ l)) as [Hpos|Hz]; split.
  - apply (core_move l m i (WDrain false)); try done; [simpl; simpl; lia|by left].
  - by apply (sleepers_move l m).
  - apply (core_move l m i (WDrain false)); try done; [simpl; simpl; lia|by left|lia].
  - by apply (sleepers_move l m).
Qed.

Lemma rlock_inv l m i p : core l m → sleepers l m → m !! i = Some p → p = Out ∨ p = RWait false →
  core (RLock l).2 (<[i := (RLock l).1]> m) ∧ sleepers (RLock l).2 (<[i := (RLock l).1]> m).
Proof.
  intros Hc Hs Hi Hp. assert (b2z p = 0 ∧ writer p = false) as [Hb Hw] by (by destruct Hp as [-> | ->]).
  pose proof (co_count _ _ Hc) as Hcnt. pose proof (co_fits _ _ Hc) as Hf. pose proof (readers_le m) as Hrl.
  unfold RLock. rewrite (proj2 (Z.eqb_neq _ _)), orb_false_r by lia.
  destruct (writer_entered_ l) eqn:He; simpl.
  - split; [|by apply (sleepers_move l m)].
    apply (core_move l m i p); try done; [simpl; lia|by rewrite Hw].
  - assert (to_u32 (reader_count_ l + 1) = reader_count_ l + 1) as ->.
    { apply Z.mod_small. unfold MAX_READERS in Hf. lia. }
    split.
    + apply (core_move l m i p); try done; simpl; [simpl; lia|by rewrite Hw|congruence].
    + apply (sleepers_move l m); simpl; try done; [congruence|lia].
Qed.

Lemma wunlock_inv l m i : core l m → sleepers l m → m !! i = Some WIn →
  core (WUnlock l) (notify_all on_reader (<[i := Out]> m)) ∧
  sleepers (WUnlock l) (notify_all on_reader (<[i := Out]> m)).
Proof.
  intros Hc Hs Hi. split.
  - eapply core_woken; [apply notify_all_woken|].
    apply (core_move l m i WIn); try done; simpl; simpl; simpl; lia.
  - assert (Hno : ∀ j p, notify_all on_reader (<[i := Out]> m) !! j = Some p → on_reader p = false ∧ p ≠ WDrain true).
    { intros j p. unfold notify_all. rewrite lookup_fmap. intros (q & Hq & Heq)%fmap_Some. subst p.
      apply lookup_insert_Some in Hq as [[_ <-]|[Hne Hq]]; [done|].
      split; [destruct q as [|[]|[]| |[]|]; done|]. intros Hd.
      assert (q = WDrain true) as -> by (destruct q as [|[]|[]| |[]|]; done).
      apply Hne. by apply (co_one _ _ Hc i j WIn (WDrain true)). }
    split; intros j; [intros p Hj Hp; destruct (Hno j p Hj); congruence|]. intros Hj. by destruct (Hno _ _ Hj).
Qed.

Lemma runlock_inv l m m' i : core l m → sleepers l m → m !! i = Some RIn →
  notified (RUnlock l).1 (<[i := Out]> m) m' → core (RUnlock l).2 m' ∧ sleepers (RUnlock l).2 m'.
Proof.
  intros Hc Hs Hi Hn. pose proof (co_count _ _ Hc) as Hcnt. pose proof (co_fits _ _ Hc) as Hf.
  pose proof (readers_le m) as Hrl. pose proof (readers_pos m i Hi) as Hpos.
  assert (Hu : to_u32 (reader_count_ l - 1) = reader_count_ l - 1) by (apply Z.mod_small; unfold MAX_READERS in Hf; lia).
  pose proof (notified_woken _ _ _ Hn) as Hw.
  assert (Hmid : core (RUnlock l).2 (<[i := Out]> m)).
  { apply (core_move l m i RIn); try done; simpl; rewrite Hu; [simpl; simpl; lia|].
    intros _ _. lia. }
  split; [by eapply core_woken|]. unfold RUnlock in *. simpl in *. rewrite Hu in *.
  destruct (writer_entered_ l) eqn:He.
  - split; [done|]. intros j Hj.
    destruct (woken_lookup _ _ _ _ Hw Hj) as (q & Hq & Hor).
    assert (q = WDrain true) as -> by (destruct Hor as [<-|Heq]; [done|by destruct q]).
    destruct (Z.eqb_spec (reader_count_ l - 1) 0) as [Hz|]; [|simpl; lia]. exfalso. simpl in Hn.
    destruct Hn as [k p Hk Hp|Hnone].
    + assert (p = WDrain true) as -> by (by destruct p as [|[]|[]| |[]|]).
      assert (k = j) as -> by (apply (co_one _ _ Hmid k j (WDrain true) (WDrain true)); done).
      by rewrite lookup_insert_eq in Hj.
    + by specialize (Hnone j _ Hq).
  - assert (Hno : ∀ j p, m' !! j = Some p → on_reader p = false ∧ p ≠ WDrain true).
    { intros j p Hj. destruct (woken_lookup _ _ _ _ Hw Hj) as (q & Hq & Hor).
      apply lookup_insert_Some in Hq as [[_ <-]|[_ Hq]]; [by destruct Hor as [-> | ->]|].
      assert (on_reader q = false).
      { destruct (on_reader q) eqn:Hr; [|done]. pose proof (sl_reader _ _ Hs j q Hq Hr). congruence. }
      assert (writer q = false).
      { destruct (writer q) eqn:Hr; [|done]. exfalso.
        assert (writer_entered_ l = true) by (apply (co_entered _ _ Hc); eauto). congruence. }
      destruct Hor as [-> | ->]; destruct q as [|[]|[]| |[]|]; done. }
    split; intros j; [intros p Hj Hp; destruct (Hno j p Hj); congruence|]. intros Hj. by destruct (Hno _ _ Hj).
Qed.

Lemma step_inv s s' : step s s' → inv s → inv s'.
Proof.
  intros Hstep [Hc Hs]. unfold inv. destruct Hstep; simpl in *.
  - by eapply wlock_inv.
  - by apply drain_inv.
  - by eapply rlock_inv.
  - by apply wunlock_inv.
  - by eapply runlock_inv.
  - assert (Hw : woken m (<[i := wake p]> m)).
    { intros j. destruct (decide (j = i)) as [->|]; [right; exists p; by rewrite lookup_insert_eq|left; by rewrite lookup_insert_ne]. }
    split; [by eapply core_woken|]. destruct Hs. split.
    + intros j q Hj Hq. apply lookup_insert_Some in Hj as [[-> <-]|[_ Hj]]; [by destruct p|eauto].
    + intros j Hj. apply lookup_insert_Some in Hj as [[-> Hd]|[_ Hj]]; [by destruct p|eauto].
Qed.

Lemma reachable_inv threads s :
  Z.of_nat (size threads) < MAX_READERS → rtc step (init threads) s → inv s.
Proof.
  intros Hs Hr. pose proof (init_inv threads Hs) as Hi.
  induction Hr as [|a b c Hab Hbc IH]; [done|]. apply IH. by eapply step_inv.
Qed.

(** C33: The latch excludes and counts: in every state that any number of threads below
    [UINT_MAX] reach, [reader_count_] is the number of threads that hold the read latch,
    below [UINT_MAX], so it never wraps; [writer_entered_] is set exactly when a thread is
    between the first loop of [WLock] and [WUnlock], and one thread at most is there; a
    thread that holds the write latch is the only holder, of either latch. *)
Theorem latch_excludes threads s :
  Z.of_nat (size threads) < MAX_READERS → rtc step (init threads) s →
  reader_count_ (lt s) = readers (th s) ∧ 0 <= reader_count_ (lt s) < MAX_READERS ∧
  (writer_entered_ (lt s) = true ↔ ∃ i p, th s !! i = Some p ∧ writer p = true) ∧
  (∀ i j p q, th s !! i = Some p → th s !! j = Some q → writer p = true → writer q = true → i = j) ∧
  (∀ i j p, th s !! i = Some WIn → th s !! j = Some p → p = WIn ∨ p = RIn → i = j).
Proof.
  intros Hs Hr. destruct (reachable_inv threads s Hs Hr) as [Hc _]. pose proof (readers_le (th s)) as Hle.
  pose proof (co_fits _ _ Hc). pose proof (co_count _ _ Hc) as Hcount.
  split_and!; [done|lia|lia|apply (co_entered _ _ Hc)|apply (co_one _ _ Hc)|].
  intros i j p Hi Hj [-> | ->]; [by apply (co_one _ _ Hc i j WIn WIn)|].
  pose proof (co_excl _ _ Hc i Hi). pose proof (readers_pos _ _ Hj). lia.
Qed.

(** C34: No wakeup is lost and the latch cannot deadlock: in every reachable
    state in which no thread holds the latch, no thread sleeps except behind a
    thread that is awake; so if a thread is inside [WLock] or [RLock], some
    thread inside is awake. *)
Theorem latch_no_deadlock threads s i p :
  Z.of_nat (size threads) < MAX_READERS → rtc step (init threads) s →
  (∀ j q, th s !! j = Some q → q ≠ WIn ∧ q ≠ RIn) →
  th s !! i = Some p → p ≠ Out →
  ∃ j q, th s !! j = Some q ∧ (q = WWait false ∨ q = WDrain false ∨ q = RWait false).
Proof.
  intros Hs Hr Hfree Hi Hp. destruct (reachable_inv threads s Hs Hr) as [Hc Hsl].
  assert (Hd : ∀ j, th s !! j ≠ Some (WDrain true)).
  { intros j Hj. pose proof (sl_writer _ _ Hsl j Hj) as Hpos. rewrite (co_count _ _ Hc) in Hpos.
    apply readers_pos_inv in Hpos as [k Hk]. by destruct (Hfree _ _ Hk). }
  assert (Hrd : ∀ k r, th s !! k = Some r → on_reader r = true → ∃ j, th s !! j = Some (WDrain false)).
  { intros k r Hk Hon. pose proof (sl_reader _ _ Hsl k r Hk Hon) as He.
    apply (co_entered _ _ Hc) in He as (j & q & Hj & Hq). exists j.
    destruct q as [| |[]| | |]; try done; [by apply Hd in Hj|by destruct (Hfree _ _ Hj)]. }
  destruct p as [|[]|[]| |[]|]; try done; try (by destruct (Hfree _ _ Hi)); try (by eauto 10); try (by apply Hd in Hi).
  - destruct (Hrd i _ Hi eq_refl) as [j Hj]. eauto 10.
  - destruct (Hrd i _ Hi eq_refl) as [j Hj]. eauto 10.
Qed.

(** ** Witnesses *)

(** Thread 0 takes the write latch, thread 1 waits for the read latch, thread 0
    releases. *)
Definition two : gset Z := {[0; 1]}.

Lemma two_step1 : rtc step (init two) (mkState (mkLatch 0 true) {[0 := WIn; 1 := Out]}).
Proof.
  apply rtc_once. change (mkState (mkLatch 0 true) {[0 := WIn; 1 := Out]}) with
    (mkState (WLock (mkLatch 0 false)).2 (<[0 := (WLock (mkLatch 0 false)).1]> {[0 := Out; 1 := Out]})).
  apply (step_wlock 0 _ _ Out); [reflexivity|by left].
Qed.

Lemma two_step3 : rtc step (init two) (mkState (mkLatch 0 false) {[0 := Out; 1 := RWait false]}).
Proof.
  etrans; [apply two_step1|].
  eapply rtc_l; [apply (step_rlock 1 _ _ Out); [reflexivity|by left]|].
  eapply rtc_l; [apply (step_wunlock 0); reflexivity|]. apply rtc_refl.
Qed.

(** Both threads read. *)
Lemma two_readers : rtc step (init two) (mkState (mkLatch 2 false) {[0 := RIn; 1 := RIn]}).
Proof.
  eapply rtc_l; [apply (step_rlock 0 _ _ Out); [reflexivity|by left]|].
  eapply rtc_l; [apply (step_rlock 1 _ _ Out); [reflexivity|by left]|]. apply rtc_refl.
Qed.

Lemma latch_excludes_witness :
  (∃ s, rtc step (init two) s ∧ th s !! 0 = Some WIn ∧ reader_count_ (lt s) = 0 ∧
     ∀ j p, th s !! j = Some p → p = WIn ∨ p = RIn → 0 = j) ∧
  (∃ s, rtc step (init two) s ∧ readers (th s) = 2).
Proof.
  split.
  - exists (mkState (mkLatch 0 true) {[0 := WIn; 1 := Out]}).
    destruct (latch_excludes two _ ltac:(vm_compute; reflexivity) two_step1) as (_ & _ & _ & _ & Hex).
    split_and!; [exact two_step1|reflexivity|reflexivity|]. intros j p Hj. by apply (Hex 0 j p).
  - exists (mkState (mkLatch 2 false) {[0 := RIn; 1 := RIn]}). split; [exact two_readers|].
    destruct (latch_excludes two _ ltac:(vm_compute; reflexivity) two_readers) as (Hcount & _).
    rewrite <- Hcount. reflexivity.
Defined.

Lemma latch_no_deadlock_witness : ∃ s, rtc step (init two) s ∧ th s !! 1 = Some (RWait false) ∧
  ∃ j q, th s !! j = Some q ∧ (q = WWait false ∨ q = WDrain false ∨ q = RWait false).
Proof.
  exists (mkState (mkLatch 0 false) {[0 := Out; 1 := RWait false]}). split; [exact two_step3|]. split; [reflexivity|].
  refine (latch_no_deadlock two _ 1 (RWait false) _ two_step3 _ _ _); [vm_compute; reflexivity| |reflexivity|discriminate].
  intros j q Hj. cbn [th] in Hj. apply lookup_insert_Some in Hj as [[_ <-]|[_ Hj]]; [done|].
  by apply lookup_singleton_Some in Hj as [_ <-].
Defined.

End RwLatch.

(** The latch of a page, [src/src/storage/page.h]: the data of the page and a latch,
    which the four methods forward to. *)
Module PageLatch.

Section page.
  Context {P : Type}.

Record latched := mkLatched { page : P; rwlatch_ : RwLatch.latch }.

Definition WLatch (p : latched) : RwLatch.pc * latched :=
  let '(c, l) := RwLatch.WLock (rwlatch_ p) in (c, mkLatched (page p) l).

Definition WUnlatch (p : latched) : latched := mkLatched (page p) (RwLatch.WUnlock (rwlatch_ p)).

Definition RLatch (p : latched) : RwLatch.pc * latched :=
  let '(c, l) := RwLatch.RLock (rwlatch_ p) in (c, mkLatched (page p) l).

Definition RUnlatch (p : latched) : RwLatch.notify * latched :=
  let '(n, l) := RwLatch.RUnlock (rwlatch_ p) in (n, mkLatched (page p) l).

(** Latching protects by convention only: no method touches the data. *)
Lemma latch_keeps_page p :
  page (WLatch p).2 = page p ∧ page (WUnlatch p) = page p ∧ page (RLatch p).2 = page p ∧ page (RUnlatch p).2 = page p.
Proof.
  unfold WLatch, RLatch, RUnlatch. destruct (RwLatch.WLock _), (RwLatch.RLock _), (RwLatch.RUnlock _). done.
Qed.

End page.
End PageLatch.
