(* ===== verification/Txn.v ===== *)
(** Transactions, [src/src/transaction/txn_defs.h], [transaction.h],
    [transaction_manager.{h,cpp}], [concurrency/lock_manager.{h,cpp}] and
    [src/src/common/context.h].

    The data of a transaction and of the lock table are complete in the
    sources; the operations of the lock manager and of [Begin], [Commit] and
    [Abort] are the empty bodies of the laboratory, and are modelled as they
    are.  A pointer is an optional address, [None] the null pointer. *)
From S2P Require Import Prelude.
From S2P Require Import Defs.
From S2P Require Import RmFile.

#[local] Open Scope prog_scope.

(** ** [txn_defs.h] *)

Inductive TransactionState := DEFAULT | GROWING | SHRINKING | COMMITTED | ABORTED.

Inductive IsolationLevel := READ_UNCOMMITTED | REPEATABLE_READ | READ_COMMITTED | SERIALIZABLE.

Inductive WType := INSERT_TUPLE | DELETE_TUPLE | UPDATE_TUPLE.

(** A write record; the constructors leave members out, which keep what the
    member's default constructor left ([None]: indeterminate). *)
Record WriteRecord := mkWriteRecord {
  wtype_ : WType;
  wr_tab_name_ : string;
  wr_rid_ : option Rid;
  record_ : option RmRecord
}.

Definition WriteRecord_insert (wtype : WType) (tab_name : string) (rid : Rid) : WriteRecord :=
  mkWriteRecord wtype tab_name (Some rid) None.
Definition WriteRecord_delete (wtype : WType) (tab_name : string) (record : RmRecord) : WriteRecord :=
  mkWriteRecord wtype tab_name None (Some record).
Definition WriteRecord_update (wtype : WType) (tab_name : string) (rid : Rid) (record : RmRecord)
    : WriteRecord := mkWriteRecord wtype tab_name (Some rid) (Some record).

Inductive LockDataType := TABLE | RECORD.

#[export] Instance LockDataType_eq_dec : EqDecision LockDataType.
Proof. solve_decision. Defined.

Definition LockDataType_Z (type : LockDataType) : Z := match type with TABLE => 0 | RECORD => 1 end.

Module LockDataId.

Record t := mk { fd_ : Z; rid_ : Rid; type_ : LockDataType }.

#[global] Instance LockDataId_eq_dec : EqDecision t.
Proof. solve_decision. Defined.

(** The two constructors, with their assertions. *)
Definition on_table {S} (fd : Z) (type : LockDataType) : M S t :=
  assert (bool_decide (type = TABLE)) ;;; ret (mk fd (mkRid (-1) (-1)) type).

Definition on_record {S} (fd : Z) (rid : Rid) (type : LockDataType) : M S t :=
  assert (bool_decide (type = RECORD)) ;;; ret (mk fd rid type).

(** [<<] on [int64_t] in C++17: a negative operand, or a result that does not
    fit the unsigned type, is undefined. *)
Definition shl64 (a n : Z) : option Z :=
  if (0 <=? a) && (Z.shiftl a n <? 2 ^ 64) then Some (to_s64 (Z.shiftl a n)) else None.

Definition Get (x : t) : option Z :=
  match type_ x with
  | TABLE => Some (fd_ x)
  | RECORD =>
      a ← shl64 (LockDataType_Z (type_ x)) 63;
      b ← shl64 (fd_ x) 31;
      c ← shl64 (rid_page_no (rid_ x)) 16;
      Some (Z.lor (Z.lor (Z.lor a b) c) (rid_slot_no (rid_ x)))
  end.

(** [operator==] *)
Definition eqb (x y : t) : bool :=
  if negb (bool_decide (type_ x = type_ y)) then false
  else if negb (fd_ x =? fd_ y) then false
  else Rid_eqb (rid_ x) (rid_ y).

(** [std::hash<LockDataId>]; [hash64] is the library's hash of [int64_t]. *)
Definition hash (hash64 : Z → Z) (x : t) : option Z := hash64 <$> Get x.

#[global] Instance LockDataId_countable : Countable t.
Proof.
  refine (inj_countable'
    (λ x, (fd_ x, rid_page_no (rid_ x), rid_slot_no (rid_ x), bool_decide (type_ x = TABLE)))
    (λ y, mk y.1.1.1 (mkRid y.1.1.2 y.1.2) (if y.2 then TABLE else RECORD)) _).
  by intros [fd [p s] []].
Defined.

(** The range in which the fields of a record's identifier do not overlap. *)
Definition packs (x : t) : Prop :=
  0 <= fd_ x < 2 ^ 31 ∧
  match type_ x with
  | TABLE => rid_ x = mkRid (-1) (-1)
  | RECORD => 0 <= rid_page_no (rid_ x) < 2 ^ 15 ∧ 0 <= rid_slot_no (rid_ x) < 2 ^ 16
  end.

Lemma eqb_eq x y : eqb x y = true ↔ x = y.
Proof.
  unfold eqb. destruct x as [f r ty], y as [f' r' ty']; simpl.
  case_bool_decide as Ht; simpl; [subst|naive_solver].
  destruct (Z.eqb_spec f f') as [->|Hf]; simpl; [rewrite Rid_eqb_eq; naive_solver|naive_solver].
Qed.

Lemma lor_shift a b n : 0 <= n → 0 <= b < 2 ^ n → Z.lor (Z.shiftl a n) b = a * 2 ^ n + b.
Proof.
  intros Hn Hb. rewrite <- (Z.shiftl_mul_pow2 a n) by done.
  assert (Z.land (Z.shiftl a n) b = 0) as Hl.
  { apply Z.bits_inj'. intros i Hi. rewrite Z.land_spec, Z.bits_0.
    destruct (decide (i < n)) as [Hlt|Hge]; [by rewrite Z.shiftl_spec_low|].
    rewrite <- (Z.mod_small b (2 ^ n)) by done.
    rewrite Z.mod_pow2_bits_high by lia. by rewrite andb_false_r. }
  rewrite Z.add_nocarry_lxor by done. by rewrite Z.lxor_lor.
Qed.

Lemma shl64_small a n : 0 <= n → 0 <= a → a * 2 ^ n < 2 ^ 63 → shl64 a n = Some (a * 2 ^ n).
Proof.
  intros Hn Ha Hlt. unfold shl64. rewrite Z.shiftl_mul_pow2 by done.
  assert (0 <= a * 2 ^ n) by (apply Z.mul_nonneg_nonneg; lia).
  rewrite (proj2 (Z.leb_le _ _)), (proj2 (Z.ltb_lt _ _)) by lia. simpl.
  unfold to_s64. rewrite Z.mod_small by lia. f_equal. lia.
Qed.

(** The packed number of a record in range. *)
Lemma Get_record fd p s :
  0 <= fd < 2 ^ 31 → 0 <= p < 2 ^ 15 → 0 <= s < 2 ^ 16 →
  Get (mk fd (mkRid p s) RECORD) = Some (- 2 ^ 63 + fd * 2 ^ 31 + p * 2 ^ 16 + s).
Proof.
  intros Hf Hp Hs. unfold Get. cbn [type_ rid_ fd_ rid_page_no rid_slot_no].
  change (shl64 (LockDataType_Z RECORD) 63) with (Some (- 2 ^ 63)).
  rewrite (shl64_small fd 31), (shl64_small p 16) by lia. cbn. f_equal.
  assert (Z.lor (- 2 ^ 63) (fd * 2 ^ 31) = Z.shiftl (- 2 ^ 32 + fd) 31) as ->.
  { rewrite <- (Z.shiftl_mul_pow2 fd 31) by lia.
    change (- 2 ^ 63) with (Z.shiftl (- 2 ^ 32) 31). rewrite <- Z.shiftl_lor. f_equal.
    change (- 2 ^ 32) with (Z.shiftl (-2) 31). rewrite lor_shift, Z.shiftl_mul_pow2 by lia. lia. }
  assert (Z.lor (Z.shiftl (- 2 ^ 32 + fd) 31) (p * 2 ^ 16)
          = Z.shiftl ((- 2 ^ 32 + fd) * 2 ^ 15 + p) 16) as ->.
  { rewrite lor_shift by lia. rewrite Z.shiftl_mul_pow2 by lia. lia. }
  rewrite lor_shift by lia. lia.
Qed.

Lemma Get_inj_ok x y : packs x → packs y → Get x = Get y → x = y.
Proof.
  destruct x as [f [p s] ty], y as [f' [p' s'] ty']. unfold packs.
  cbn [type_ rid_ fd_]. intros [Hf Hx] [Hf' Hy].
  destruct ty, ty'; cbn [rid_page_no rid_slot_no] in *.
  - unfold Get; cbn. naive_solver.
  - rewrite Get_record by naive_solver. unfold Get; cbn. intros [= ?]. lia.
  - rewrite Get_record by naive_solver. unfold Get; cbn. intros [= ?]. lia.
  - rewrite !Get_record by naive_solver. intros [= Heq].
    assert (f = f' ∧ p = p' ∧ s = s') as (-> & -> & ->) by lia. done.
Qed.

End LockDataId.

Inductive AbortReason := LOCK_ON_SHIRINKING | UPGRADE_CONFLICT | DEADLOCK_PREVENTION.

Record TransactionAbortException := mkTransactionAbortException {
  exn_txn_id_ : Z;
  abort_reason_ : AbortReason
}.

Definition newline : string := String (Ascii.ascii_of_nat 10) "".

Definition GetInfo (e : TransactionAbortException) : string :=
  match abort_reason_ e with
  | LOCK_ON_SHIRINKING =>
      ("Transaction " ++ to_string (exn_txn_id_ e) ++
       " aborted because it cannot request locks on SHRINKING phase" ++ newline)%string
  | UPGRADE_CONFLICT =>
      ("Transaction " ++ to_string (exn_txn_id_ e) ++
       " aborted because another transaction is waiting for upgrading" ++ newline)%string
  | DEADLOCK_PREVENTION =>
      ("Transaction " ++ to_string (exn_txn_id_ e) ++ " aborted for deadlock prevention"
         ++ newline)%string
  end.

(** ** [transaction.h] *)

Module Transaction.

(** [GetWriteSet] and the other getters of sets hand out the shared set
    itself; [page_set_] holds frames of the buffer pool.  [None]: not
    initialised by the constructor. *)
Record t := mk {
  txn_mode_ : option bool;
  state_ : TransactionState;
  isolation_level_ : IsolationLevel;
  thread_id_ : Z;
  prev_lsn_ : Z;
  txn_id_ : Z;
  start_ts_ : option Z;
  write_set_ : list WriteRecord;
  lock_set_ : gset LockDataId.t;
  page_set_ : list Z;
  deleted_page_set_ : list Z
}.

(** The constructor, in the thread [this_thread]. *)
Definition create (this_thread txn_id : Z) (isolation_level : IsolationLevel) : t :=
  mk None DEFAULT isolation_level this_thread INVALID_LSN txn_id None [] ∅ [] [].

Definition SetTxnMode (b : bool) (x : t) : t :=
  mk (Some b) (state_ x) (isolation_level_ x) (thread_id_ x) (prev_lsn_ x) (txn_id_ x) (start_ts_ x)
     (write_set_ x) (lock_set_ x) (page_set_ x) (deleted_page_set_ x).
Definition SetStartTs (ts : Z) (x : t) : t :=
  mk (txn_mode_ x) (state_ x) (isolation_level_ x) (thread_id_ x) (prev_lsn_ x) (txn_id_ x) (Some ts)
     (write_set_ x) (lock_set_ x) (page_set_ x) (deleted_page_set_ x).
Definition SetState (st : TransactionState) (x : t) : t :=
  mk (txn_mode_ x) st (isolation_level_ x) (thread_id_ x) (prev_lsn_ x) (txn_id_ x) (start_ts_ x)
     (write_set_ x) (lock_set_ x) (page_set_ x) (deleted_page_set_ x).
Definition SetPrevLsn (lsn : Z) (x : t) : t :=
  mk (txn_mode_ x) (state_ x) (isolation_level_ x) (thread_id_ x) lsn (txn_id_ x) (start_ts_ x)
     (write_set_ x) (lock_set_ x) (page_set_ x) (deleted_page_set_ x).
Definition AppendWriteRecord (w : WriteRecord) (x : t) : t :=
  mk (txn_mode_ x) (state_ x) (isolation_level_ x) (thread_id_ x) (prev_lsn_ x) (txn_id_ x) (start_ts_ x)
     (write_set_ x ++ [w]) (lock_set_ x) (page_set_ x) (deleted_page_set_ x).
Definition AddIntoPageSet (page : Z) (x : t) : t :=
  mk (txn_mode_ x) (state_ x) (isolation_level_ x) (thread_id_ x) (prev_lsn_ x) (txn_id_ x) (start_ts_ x)
     (write_set_ x) (lock_set_ x) (page_set_ x ++ [page]) (deleted_page_set_ x).
Definition AddIntoDeletedPageSet (page : Z) (x : t) : t :=
  mk (txn_mode_ x) (state_ x) (isolation_level_ x) (thread_id_ x) (prev_lsn_ x) (txn_id_ x) (start_ts_ x)
     (write_set_ x) (lock_set_ x) (page_set_ x) (deleted_page_set_ x ++ [page]).

End Transaction.

(** ** [lock_manager.{h,cpp}] *)

Module LockManager.

Inductive LockMode := SHARED | EXLUCSIVE | INTENTION_SHARED | INTENTION_EXCLUSIVE | S_IX.

Inductive GroupLockMode := NON_LOCK | IS | IX | S | X | SIX.

Definition GroupLockModeStr (m : GroupLockMode) : string :=
  match m with
  | NON_LOCK => "NON_LOCK" | IS => "IS" | IX => "IX" | S => "S" | X => "X" | SIX => "SIX"
  end.

Record LockRequest := mkLockRequest { req_txn_id_ : Z; lock_mode_ : LockMode; granted_ : bool }.

Definition new_LockRequest (txn_id : Z) (lock_mode : LockMode) : LockRequest :=
  mkLockRequest txn_id lock_mode false.

Record LockRequestQueue := mkLockRequestQueue {
  request_queue_ : list LockRequest;
  group_lock_mode_ : GroupLockMode;
  is_waiting_ : bool;
  upgrading_ : bool;
  shared_lock_num_ : Z;
  IX_lock_num_ : Z
}.

Definition new_LockRequestQueue : LockRequestQueue :=
  mkLockRequestQueue [] NON_LOCK false false 0 0.

Record t := mk { lock_table_ : gmap LockDataId.t LockRequestQueue }.

Definition create : t := mk ∅.

(** The six requests and [Unlock]: their bodies only return. *)
Definition LockSharedOnRecord (txn : option Z) (rid : Rid) (tab_fd : Z) : M t bool := ret true.
Definition LockExclusiveOnRecord (txn : option Z) (rid : Rid) (tab_fd : Z) : M t bool := ret true.
Definition LockSharedOnTable (txn : option Z) (tab_fd : Z) : M t bool := ret true.
Definition LockExclusiveOnTable (txn : option Z) (tab_fd : Z) : M t bool := ret true.
Definition LockISOnTable (txn : option Z) (tab_fd : Z) : M t bool := ret true.
Definition LockIXOnTable (txn : option Z) (tab_fd : Z) : M t bool := ret true.
Definition Unlock (txn : option Z) (lock_data_id : LockDataId.t) : M t bool := ret true.

End LockManager.

(** ** [transaction_manager.{h,cpp}] *)

Inductive ConcurrencyMode := TWO_PHASE_LOCKING | BASIC_TO.

Module TransactionManager.

(** [heap]: the transaction objects, by address. *)
Record t := mk {
  heap : gmap Z Transaction.t;
  txn_map : gmap Z (option Z);
  concurrency_mode_ : ConcurrencyMode;
  next_txn_id_ : Z;
  next_timestamp_ : Z
}.

Definition create (concurrency_mode : ConcurrencyMode) : t := mk ∅ ∅ concurrency_mode 0 0.

Definition SetConcurrencyMode (m : ConcurrencyMode) (x : t) : t :=
  mk (heap x) (txn_map x) m (next_txn_id_ x) (next_timestamp_ x).

(** A member access through a pointer. *)
Definition deref (p : option Z) : M t Transaction.t :=
  λ s, or_ub (a ← p; heap s !! a) s.

Definition update (p : option Z) (g : Transaction.t → Transaction.t) : M t unit :=
  let* x := deref p in
  let* a := or_ub p in
  modify (λ s, mk (<[a := g x]> (heap s)) (txn_map s) (concurrency_mode_ s) (next_txn_id_ s)
                  (next_timestamp_ s)).

Definition Begin (txn : option Z) : M t (option Z) := ret txn.
Definition Commit (txn : option Z) : M t unit := ret tt.
Definition Abort (txn : option Z) : M t unit := ret tt.
Definition BlockAllTransactions : M t unit := ret tt.
Definition ResumeAllTransactions : M t unit := ret tt.

(** [GetTransaction], in the thread [this_thread]. *)
Definition GetTransaction (this_thread txn_id : Z) : M t (option Z) :=
  if txn_id =? INVALID_TXN_ID then ret None
  else
    let* m := gets txn_map in
    assert (bool_decide (is_Some (m !! txn_id))) ;;;
    let* res := or_ub (m !! txn_id) in
    assert (bool_decide (is_Some res)) ;;;
    let* x := deref res in
    assert (Transaction.thread_id_ x =? this_thread) ;;;
    ret res.

(** [GetTransaction] gives the transaction itself to the thread that began it. *)
Lemma GetTransaction_ok s this_thread txn_id a x :
  txn_id ≠ INVALID_TXN_ID → txn_map s !! txn_id = Some (Some a) → heap s !! a = Some x →
  Transaction.thread_id_ x = this_thread →
  GetTransaction this_thread txn_id s = (Ret (Some a), s).
Proof.
  intros Hi Hm Hh Ht. unfold GetTransaction.
  rewrite (proj2 (Z.eqb_neq _ _)) by done. step.
  rewrite bind_assert by (rewrite Hm; by apply bool_decide_eq_true).
  rewrite (bind_or_ub _ _ _ (Some a)) by done.
  rewrite bind_assert by done.
  erewrite (bind_Ret _ _ _ x) by (unfold deref; simpl; by rewrite Hh).
  rewrite bind_assert by (by apply Z.eqb_eq). done.
Qed.

End TransactionManager.

(** ** [context.h] *)

Definition const_offset : Z := -1.

(** [data_send_]: the buffer of the reply ([None]: null); [offset_]: the
    length of the reply. *)
Record Context := mkContext {
  txn_ : option Z;
  data_send_ : option bytes;
  offset_ : Z
}.

Definition new_Context (txn : option Z) (data_send : option bytes) (offset : option Z) : Context :=
  mkContext txn data_send (default const_offset offset).

(** ** Theorems *)

(** [LockDataId::Get] (and so the hash of the lock table) never confuses two lockable objects
    as long as the page number of a record is below 2^15 and its slot number below 2^16: the
    numbers of two such objects, tables or records, are equal exactly when [operator==] holds.
    The bound on the page number is exact: page 2^15 of file 0 and page 0 of file 1 have the same
    number. *)
Theorem lock_data_id_packed (x y : LockDataId.t) :
  LockDataId.packs x → LockDataId.packs y →
  (LockDataId.Get x = LockDataId.Get y ↔ LockDataId.eqb x y = true) ∧ is_Some (LockDataId.Get x) ∧
  LockDataId.Get (LockDataId.mk 0 (mkRid (2 ^ 15) 0) RECORD)
    = LockDataId.Get (LockDataId.mk 1 (mkRid 0 0) RECORD).
Proof.
  intros Hx Hy. split; [|split; [|done]].
  - rewrite LockDataId.eqb_eq. split; [by apply LockDataId.Get_inj_ok|by intros ->].
  - destruct x as [f [p s] []], Hx as [Hf Hr]; [done|].
    cbn [LockDataId.fd_ LockDataId.type_ LockDataId.rid_ rid_page_no rid_slot_no] in Hf, Hr.
    by rewrite LockDataId.Get_record by tauto.
Qed.

Lemma lock_data_id_packed_witness :
  LockDataId.Get (LockDataId.mk 3 (mkRid 7 9) RECORD)
    ≠ LockDataId.Get (LockDataId.mk 3 (mkRid 9 7) RECORD).
Proof.
  intros Heq.
  destruct (lock_data_id_packed (LockDataId.mk 3 (mkRid 7 9) RECORD)
              (LockDataId.mk 3 (mkRid 9 7) RECORD)) as [Hiff _];
    [unfold LockDataId.packs; simpl; lia | unfold LockDataId.packs; simpl; lia |].
  apply Hiff in Heq. discriminate Heq.
Defined.
