(* ===== verification/SmMeta.v ===== *)
(** The metadata of a database, [src/src/system/sm_meta.h], with the stream
    operators of [src/src/defs.h] it uses to write and read them.

    A [std::istream] is the text left in it and its two error bits; the
    extraction operators are those of the C++ standard library.  An operator
    that leaves its variable unmodified gives [None].  [std::map] is a finite
    map, visited in the order of its keys. *)
From Stdlib Require Import Ascii.
From stdpp Require Import sorting.
From S2P Require Import Prelude.
From S2P Require Import Defs.

#[local] Open Scope prog_scope.

(** ** Input streams *)

Record istream := mkIs { rest : string; eofbit : bool; failbit : bool }.

Definition istream_of (s : string) : istream := mkIs s false false.

Definition is_space (c : ascii) : bool :=
  let n := N_of_ascii c in (n =? 32)%N || ((9 <=? n)%N && (n <=? 13)%N).

Definition is_digit (c : ascii) : bool := let n := N_of_ascii c in (48 <=? n)%N && (n <=? 57)%N.

Fixpoint skip_ws (s : string) : string :=
  match s with
  | "" => ""
  | String c s' => if is_space c then skip_ws s' else s
  end%string.

(** The longest prefix of characters with [p], and what follows. *)
Fixpoint span (p : ascii → bool) (s : string) : string * string :=
  match s with
  | "" => ("", "")
  | String c s' => if p c then let '(w, r) := span p s' in (String c w, r) else ("", s)
  end%string.

Definition is_empty (s : string) : bool := match s with "" => true | _ => false end%string.

(** The sentry of a formatted input function. *)
Definition sentry : M istream bool := λ s,
  if eofbit s || failbit s then (Ret false, mkIs (rest s) (eofbit s) true)
  else let r := skip_ws (rest s) in
       if is_empty r then (Ret false, mkIs "" true true) else (Ret true, mkIs r false false).

Definition take_span (p : ascii → bool) : M istream string := λ s,
  let '(w, r) := span p (rest s) in (Ret w, mkIs r (is_empty r) (failbit s)).

Definition set_fail : M istream unit := modify (λ s, mkIs (rest s) (eofbit s) true).

(** [is >> std::string] *)
Definition in_string : M istream (option string) :=
  let* ok := sentry in
  if ok then let* w := take_span (λ c, negb (is_space c)) in ret (Some w) else ret None.

(** The optional sign of a number. *)
Definition take_sign : M istream bool := λ s,
  match rest s with
  | String c r =>
      if ascii_dec c "-" then (Ret true, mkIs r (is_empty r) (failbit s))
      else if ascii_dec c "+" then (Ret false, mkIs r (is_empty r) (failbit s))
      else (Ret false, s)
  | EmptyString => (Ret false, s)
  end.

(** [num_get]: the sign and the digits, [None] when there is none. *)
Definition in_digits : M istream (bool * option Z) :=
  let* neg := take_sign in
  let* ds := take_span is_digit in
  ret (neg, if is_empty ds then None else of_string ds).

(** [is >> int] *)
Definition in_int : M istream (option Z) :=
  let* ok := sentry in
  if ok then
    let* x := in_digits in
    match x with
    | (neg, Some v) =>
        let z := if neg then - v else v in
        if z <? - 2 ^ 31 then (set_fail ;;; ret (Some (- 2 ^ 31)))
        else if 2 ^ 31 - 1 <? z then (set_fail ;;; ret (Some (2 ^ 31 - 1)))
        else ret (Some z)
    | (_, None) => set_fail ;;; ret (Some 0)
    end
  else ret None.

(** [is >> size_t]; a negative number wraps around. *)
Definition in_size : M istream (option Z) :=
  let* ok := sentry in
  if ok then
    let* x := in_digits in
    match x with
    | (neg, Some v) =>
        if 2 ^ 64 - 1 <? v then (set_fail ;;; ret (Some (2 ^ 64 - 1)))
        else ret (Some (if neg then to_u64 (- v) else v))
    | (_, None) => set_fail ;;; ret (Some 0)
    end
  else ret None.

(** [is >> bool], without [boolalpha]. *)
Definition in_bool : M istream (option bool) :=
  let* ok := sentry in
  if ok then
    let* x := in_digits in
    match x with
    | (neg, Some v) =>
        if v =? 0 then ret (Some false)
        else if negb neg && (v =? 1) then ret (Some true)
        else (set_fail ;;; ret (Some true))
    | (_, None) => set_fail ;;; ret (Some false)
    end
  else ret None.

(** ** The enumeration operators of [defs.h] *)

Definition out_enum (type : ColType) : string := to_string (coltype_int type).

(** [int_val] has no initial value, and a cast of a number outside the
    enumeration has no meaning. *)
Definition in_enum : M istream ColType :=
  let* int_val := in_int in
  or_ub (z ← int_val; coltype_of_int z).

(** ** Metadata *)

Module ColMeta.

Record t := mk {
  tab_name : string;
  name : string;
  type : ColType;
  len : Z;
  offset : Z;
  index : bool
}.

Definition set_index (b : bool) (c : t) : t :=
  mk (tab_name c) (name c) (type c) (len c) (offset c) b.
Definition set_offset (o : Z) (c : t) : t := mk (tab_name c) (name c) (type c) (len c) o (index c).

Definition out (col : t) : string :=
  (tab_name col ++ " " ++ name col ++ " " ++ out_enum (type col) ++ " " ++ to_string (len col) ++ " "
   ++ to_string (offset col) ++ " " ++ (if index col then "1" else "0"))%string.

(** Into a new [ColMeta]: its strings are empty, its other members have no
    value. *)
Definition inp : M istream t :=
  let* tab_name := in_string in
  let* name := in_string in
  let* type := in_enum in
  let* len := in_int in
  let* offset := in_int in
  let* index := in_bool in
  let* len := or_ub len in
  let* offset := or_ub offset in
  let* index := or_ub index in
  ret (mk (default "" tab_name) (default "" name) type len offset index).

End ColMeta.

Definition newline_char : string := String (ascii_of_nat 10) "".

Module TabMeta.

Record t := mk { name : string; cols : list ColMeta.t }.

(** Always [false]. *)
Definition is_col (tab : t) (col_name : string) : bool := false.

(** The iterator returned is not attached to any vector: [None]. *)
Definition get_col (tab : t) (col_name : string) : option nat := None.

Definition out_cols (l : list ColMeta.t) : string :=
  foldr (λ col s, (ColMeta.out col ++ newline_char ++ s)%string) ""%string l.

Definition out (tab : t) : string :=
  (name tab ++ newline_char ++ to_string (zlen (cols tab)) ++ newline_char ++ out_cols (cols tab))%string.

Fixpoint in_cols (n : nat) (acc : list ColMeta.t) : M istream (list ColMeta.t) :=
  match n with
  | O => ret acc
  | S n' => let* col := ColMeta.inp in in_cols n' (acc ++ [col])
  end.

(** Into a [TabMeta] that holds [tab]: the columns are added to it. *)
Definition inp (tab : t) : M istream t :=
  let* nm := in_string in
  let* n := in_size in
  let* n := or_ub n in
  let* l := in_cols (Z.to_nat n) (cols tab) in
  ret (mk (default (name tab) nm) l).

End TabMeta.

Module DbMeta.

Record t := mk { name_ : string; tabs_ : gmap string TabMeta.t }.

Definition empty : t := mk "" ∅.

Definition key_le (x y : string * TabMeta.t) : Prop := String.leb x.1 y.1 = true.

#[global] Instance key_le_dec : RelDecision key_le.
Proof. intros x y. unfold key_le. apply _. Defined.

(** The entries in the order of a [std::map]. *)
Definition entries (m : gmap string TabMeta.t) : list (string * TabMeta.t) :=
  merge_sort key_le (map_to_list m).

Definition is_table (db : t) (tab_name : string) : bool := bool_decide (is_Some (tabs_ db !! tab_name)).

(** The reference to a table is its key. *)
Definition get_table {S} (db : t) (tab_name : string) : M S TabMeta.t :=
  match tabs_ db !! tab_name with
  | None => throw (TableNotFoundError tab_name)
  | Some tab => ret tab
  end.

Definition set_tab (k : string) (tab : TabMeta.t) (db : t) : t := mk (name_ db) (<[k := tab]> (tabs_ db)).

Definition out_tabs (l : list (string * TabMeta.t)) : string :=
  foldr (λ entry s, (TabMeta.out entry.2 ++ newline_char ++ s)%string) ""%string l.

Definition out (db : t) : string :=
  (name_ db ++ newline_char ++ to_string (Z.of_nat (size (tabs_ db))) ++ newline_char
   ++ out_tabs (entries (tabs_ db)))%string.

Fixpoint in_tabs (n : nat) (db : t) : M istream t :=
  match n with
  | O => ret db
  | S n' =>
      let* tab := TabMeta.inp (TabMeta.mk "" []) in
      in_tabs n' (set_tab (TabMeta.name tab) tab db)
  end.

Definition inp (db : t) : M istream t :=
  let* nm := in_string in
  let* n := in_size in
  let* n := or_ub n in
  in_tabs (Z.to_nat n) (mk (default (name_ db) nm) (tabs_ db)).

End DbMeta.

(** ** Reading back what was written *)

#[local] Arguments String.append !_ _ / : simpl nomatch.

Fixpoint all_chars (p : ascii → bool) (s : string) : Prop :=
  match s with ""%string => True | String c s' => p c = true ∧ all_chars p s' end.

(** A string that [>>] reads as one token. *)
Definition word (s : string) : Prop := s ≠ ""%string ∧ all_chars (λ c, negb (is_space c)) s.

Definition starts (p : ascii → bool) (s : string) : Prop :=
  match s with ""%string => False | String c _ => p c = true end.

Lemma string_app_assoc (a b c : string) : ((a ++ b) ++ c = a ++ (b ++ c))%string.
Proof. induction a as [|x a IH]; [done|]. simpl. by rewrite IH. Qed.

Lemma span_app p w r :
  all_chars p w → starts (λ c, negb (p c)) r → span p (w ++ r)%string = (w, r).
Proof.
  induction w as [|c w IH]; simpl.
  - intros _ Hr. destruct r as [|c r]; [done|]. simpl in *. by apply negb_true_iff in Hr as ->.
  - intros [-> Hw] Hr. by rewrite IH.
Qed.

Lemma starts_nonempty p s : starts p s → is_empty s = false.
Proof. by destruct s. Qed.

(** The text at the next token of a stream. *)
Definition at_token (s : istream) (t : string) : Prop :=
  eofbit s = false ∧ failbit s = false ∧ skip_ws (rest s) = t.

Lemma at_token_skip c t :
  is_space c = true → starts (λ c, negb (is_space c)) t → at_token (istream_of (String c t)) t.
Proof.
  intros Hc Ht. split_and!; [done..|]. simpl. rewrite Hc.
  destruct t as [|d t]; [done|]. simpl in *. by apply negb_true_iff in Ht as ->.
Qed.

Lemma at_token_here t : starts (λ c, negb (is_space c)) t → at_token (istream_of t) t.
Proof.
  intros Ht. split_and!; [done..|].
  destruct t as [|d t]; [done|]. simpl in *. by apply negb_true_iff in Ht as ->.
Qed.

Lemma sentry_ok s t p : at_token s t → starts p t → sentry s = (Ret true, istream_of t).
Proof.
  intros (He & Hf & Hs) Ht. unfold sentry. rewrite He, Hf, Hs. simpl.
  by rewrite (starts_nonempty p).
Qed.

Lemma take_span_ok p w r :
  all_chars p w → starts (λ c, negb (p c)) r →
  take_span p (istream_of (w ++ r)%string) = (Ret w, istream_of r).
Proof.
  intros Hw Hr. unfold take_span. simpl. rewrite span_app by done.
  by rewrite (starts_nonempty _ _ Hr).
Qed.

Lemma starts_app p w r : starts p w → starts p (w ++ r)%string.
Proof. by destruct w. Qed.

Lemma starts_impl (p q : ascii → bool) s :
  (∀ c, p c = true → q c = true) → starts p s → starts q s.
Proof. destruct s; simpl; auto. Qed.

Lemma word_starts w : word w → starts (λ c, negb (is_space c)) w.
Proof. intros [Hn Hw]. destruct w; [done|]. apply Hw. Qed.

Lemma in_string_ok s w r :
  at_token s (w ++ r)%string → word w → starts is_space r →
  in_string s = (Ret (Some w), istream_of r).
Proof.
  intros Hs Hw Hr. unfold in_string.
  rewrite (bind_Ret _ _ _ true (istream_of (w ++ r)))
    by (eapply sentry_ok; [done|]; apply starts_app, word_starts, Hw).
  rewrite (bind_Ret _ _ _ w (istream_of r)); [done|].
  apply take_span_ok; [apply Hw|]. eapply starts_impl; [|done]. intros c. by rewrite negb_involutive.
Qed.

(** *** Numbers *)

Lemma string_of_uint_digits u : all_chars is_digit (DecimalString.NilEmpty.string_of_uint u).
Proof. induction u; simpl; auto. Qed.

Lemma nz_string_of_uint u :
  all_chars is_digit (DecimalString.NilZero.string_of_uint u) ∧
  DecimalString.NilZero.string_of_uint u ≠ ""%string.
Proof.
  destruct u; simpl; (split; [|done]); auto using string_of_uint_digits.
  all: split; [done|]; apply string_of_uint_digits.
Qed.

(** The text of a number: its sign and the digits of its magnitude. *)
Lemma to_string_shape z :
  ∃ ds, all_chars is_digit ds ∧ ds ≠ ""%string ∧ of_string ds = Some (Z.abs z) ∧
    to_string z = if z <? 0 then String "-" ds else ds.
Proof.
  exists (to_string (Z.abs z)). rewrite of_string_to_string.
  unfold to_string. destruct z as [|p|p]; simpl.
  - split_and!; try done.
  - destruct (nz_string_of_uint (Pos.to_uint p)). by split_and!.
  - destruct (nz_string_of_uint (Pos.to_uint p)). by split_and!.
Qed.

Lemma is_digit_not_space c : is_digit c = true → negb (is_space c) = true.
Proof.
  unfold is_digit, is_space.
  rewrite andb_true_iff, negb_true_iff, orb_false_iff, andb_false_iff, N.eqb_neq,
    !N.leb_le, !N.leb_gt. lia.
Qed.

Lemma is_space_not_digit c : is_space c = true → negb (is_digit c) = true.
Proof.
  intros Hc. destruct (is_digit c) eqn:Hd; [|done].
  apply is_digit_not_space in Hd. by rewrite Hc in Hd.
Qed.

Lemma to_string_starts z : starts (λ c, negb (is_space c)) (to_string z).
Proof.
  destruct (to_string_shape z) as (ds & Hd & Hn & _ & ->). destruct (z <? 0); [done|].
  destruct ds; [done|]. simpl. apply is_digit_not_space, Hd.
Qed.

Lemma in_digits_ok z r :
  starts is_space r →
  in_digits (istream_of (to_string z ++ r)%string) = (Ret (z <? 0, Some (Z.abs z)), istream_of r).
Proof.
  intros Hr. destruct (to_string_shape z) as (ds & Hd & Hn & Hv & ->).
  assert (Ht : take_span is_digit (istream_of (ds ++ r)) = (Ret ds, istream_of r)).
  { apply take_span_ok; [done|]. eapply starts_impl; [|done]. apply is_space_not_digit. }
  unfold in_digits. destruct (z <? 0).
  - erewrite (bind_Ret _ _ _ true (istream_of (ds ++ r))); [|unfold take_sign; simpl; by destruct ds].
    erewrite bind_Ret by done. destruct ds; [done|]. cbn [is_empty]. by rewrite Hv.
  - erewrite (bind_Ret _ _ _ false (istream_of (ds ++ r))).
    + erewrite bind_Ret by done. destruct ds; [done|]. cbn [is_empty]. by rewrite Hv.
    + unfold take_sign. destruct ds as [|c ds]; [done|]. simpl. destruct Hd as [Hc _].
      destruct (ascii_dec c "-") as [->|]; [done|]. by destruct (ascii_dec c "+") as [->|].
Qed.

Lemma sentry_num s z r :
  at_token s (to_string z ++ r)%string → sentry s = (Ret true, istream_of (to_string z ++ r)%string).
Proof. intros Hs. eapply sentry_ok; [done|]. apply starts_app, to_string_starts. Qed.

Lemma in_int_ok s z r :
  at_token s (to_string z ++ r)%string → is_s32 z → starts is_space r →
  in_int s = (Ret (Some z), istream_of r).
Proof.
  intros Hs Hz Hr. unfold in_int, is_s32 in *.
  run (sentry_num _ _ _ Hs). erewrite bind_Ret by (by apply in_digits_ok). cbn beta iota.
  destruct (Z.ltb_spec z 0).
  - rewrite (proj2 (Z.ltb_ge _ _)), (proj2 (Z.ltb_ge _ _)) by lia.
    unfold ret. do 3 f_equal. lia.
  - rewrite (proj2 (Z.ltb_ge _ _)), (proj2 (Z.ltb_ge _ _)) by lia.
    unfold ret. do 3 f_equal. lia.
Qed.

Lemma in_size_ok s z r :
  at_token s (to_string z ++ r)%string → 0 <= z < 2 ^ 64 → starts is_space r →
  in_size s = (Ret (Some z), istream_of r).
Proof.
  intros Hs Hz Hr. unfold in_size.
  run (sentry_num _ _ _ Hs). erewrite bind_Ret by (by apply in_digits_ok). cbn beta iota.
  rewrite (proj2 (Z.ltb_ge z 0)), (proj2 (Z.ltb_ge _ (Z.abs z))) by lia.
  unfold ret. do 3 f_equal. lia.
Qed.

Lemma in_bool_ok s (b : bool) r :
  at_token s (to_string (Z.b2z b) ++ r)%string → starts is_space r →
  in_bool s = (Ret (Some b), istream_of r).
Proof.
  intros Hs Hr. unfold in_bool.
  run (sentry_num _ _ _ Hs). erewrite bind_Ret by (by apply in_digits_ok). cbn beta iota.
  by destruct b.
Qed.

Lemma in_enum_ok s type r :
  at_token s (out_enum type ++ r)%string → starts is_space r → in_enum s = (Ret type, istream_of r).
Proof.
  intros Hs Hr. unfold in_enum. erewrite bind_Ret.
  2:{ eapply in_int_ok; [done| |done]. unfold is_s32. by destruct type. }
  by destruct type.
Qed.

(** *** Records *)

Definition col_ok (c : ColMeta.t) : Prop :=
  word (ColMeta.tab_name c) ∧ word (ColMeta.name c) ∧ is_s32 (ColMeta.len c) ∧ is_s32 (ColMeta.offset c).

Definition tab_ok (t : TabMeta.t) : Prop :=
  word (TabMeta.name t) ∧ Forall col_ok (TabMeta.cols t) ∧ zlen (TabMeta.cols t) < 2 ^ 64.

(** A database whose metadata a stream can carry: names are nonempty words,
    numbers fit [int], and a table is stored under its own name. *)
Definition db_ok (d : DbMeta.t) : Prop :=
  word (DbMeta.name_ d) ∧ Z.of_nat (size (DbMeta.tabs_ d)) < 2 ^ 64 ∧
  map_Forall (λ k t, TabMeta.name t = k ∧ tab_ok t) (DbMeta.tabs_ d).

Lemma starts_string c s : is_space c = true → starts is_space (String c s).
Proof. done. Qed.

Lemma newline_app s : (newline_char ++ s)%string = String (ascii_of_nat 10) s.
Proof. done. Qed.

Lemma space_app s : (" " ++ s)%string = String " " s.
Proof. done. Qed.

Create HintDb tokens.

Lemma at_token_ws c s t :
  is_space c = true → at_token (istream_of s) t → at_token (istream_of (String c s)) t.
Proof. intros Hc (_ & _ & Hs). split_and!; [done..|]. simpl in *. by rewrite Hc. Qed.

#[local] Hint Resolve starts_app word_starts to_string_starts at_token_here at_token_ws : tokens.
#[local] Hint Extern 1 (is_space _ = true) => reflexivity : tokens.
#[local] Hint Extern 1 (starts is_space _) => reflexivity : tokens.

(** Reads the next token with the lemma [L] of its operator. *)
Tactic Notation "token" uconstr(L) :=
  erewrite bind_Ret by (eapply L; first [eassumption | solve [eauto with tokens]]);
  cbn beta iota.

Lemma ColMeta_inp_ok s col r :
  at_token s (ColMeta.out col ++ r)%string → col_ok col → starts is_space r →
  ColMeta.inp s = (Ret col, istream_of r).
Proof.
  destruct col as [tn n ty ln off ix]. unfold ColMeta.out. cbn [ColMeta.tab_name ColMeta.name
    ColMeta.type ColMeta.len ColMeta.offset ColMeta.index]. rewrite !string_app_assoc, !space_app.
  intros Hs (Htn & Hn & Hl & Ho) Hr. simpl in Htn, Hn, Hl, Ho. unfold ColMeta.inp.
  replace (if ix then "1" else "0")%string with (to_string (Z.b2z ix)) in Hs by by destruct ix.
  token in_string_ok. token in_string_ok. token (in_enum_ok _ ty).
  token in_int_ok. token in_int_ok. token (in_bool_ok _ ix). done.
Qed.

Lemma ColMeta_out_starts c r :
  word (ColMeta.tab_name c) → starts (λ x, negb (is_space x)) (ColMeta.out c ++ r)%string.
Proof. intros Hc. apply starts_app. unfold ColMeta.out. auto with tokens. Qed.

Lemma in_cols_ok l acc r :
  Forall col_ok l →
  TabMeta.in_cols (length l) acc (istream_of (newline_char ++ TabMeta.out_cols l ++ r)%string)
  = (Ret (acc ++ l), istream_of (newline_char ++ r)%string).
Proof.
  intros Hl. revert acc. induction Hl as [|c l Hc Hl IH]; intros acc.
  - by rewrite app_nil_r.
  - cbn [TabMeta.in_cols length TabMeta.out_cols foldr]. rewrite !string_app_assoc, newline_app.
    erewrite bind_Ret.
    2:{ eapply ColMeta_inp_ok; [|done|].
        - apply at_token_ws; [done|]. apply at_token_here, ColMeta_out_starts, Hc.
        - done. }
    cbn beta iota. rewrite IH. by rewrite <- (assoc_L (++)).
Qed.

Lemma TabMeta_inp_ok s tab r :
  at_token s (TabMeta.out tab ++ r)%string → tab_ok tab →
  TabMeta.inp (TabMeta.mk "" []) s = (Ret tab, istream_of (newline_char ++ r)%string).
Proof.
  destruct tab as [n cols]. unfold TabMeta.out, tab_ok. cbn [TabMeta.name TabMeta.cols].
  rewrite !string_app_assoc. intros Hs (Hn & Hc & Hlen). unfold TabMeta.inp.
  token in_string_ok.
  erewrite bind_Ret.
  2:{ eapply in_size_ok; [eapply at_token_ws; [done|]; eapply at_token_here| |].
      - apply starts_app, to_string_starts.
      - lia.
      - done. }
  cbn beta iota. rewrite (bind_or_ub _ _ _ (zlen cols)) by done.
  rewrite Nat2Z.id. erewrite bind_Ret by (by apply in_cols_ok). done.
Qed.

Lemma TabMeta_out_starts t r :
  word (TabMeta.name t) → starts (λ x, negb (is_space x)) (TabMeta.out t ++ r)%string.
Proof. intros Hc. apply starts_app. unfold TabMeta.out. auto with tokens. Qed.

Lemma skip_ws_starts t : starts (λ x, negb (is_space x)) t → skip_ws t = t.
Proof. destruct t as [|c t]; [done|]. simpl. by destruct (is_space c). Qed.

Definition add_tab (m : gmap string TabMeta.t) (e : string * TabMeta.t) : gmap string TabMeta.t :=
  <[e.1 := e.2]> m.

Lemma in_tabs_ok l nm m s :
  at_token s (skip_ws (DbMeta.out_tabs l)) →
  Forall (λ e, TabMeta.name e.2 = e.1 ∧ tab_ok e.2) l →
  (DbMeta.in_tabs (length l) (DbMeta.mk nm m) s).1 = Ret (DbMeta.mk nm (foldl add_tab m l)).
Proof.
  intros Hs Hl. revert m s Hs. induction Hl as [|[k t] l [Hk Ht] Hl IH]; intros m s Hs; [done|].
  cbn [DbMeta.in_tabs length DbMeta.out_tabs foldr snd fst foldl] in *. subst k.
  rewrite skip_ws_starts in Hs by (apply TabMeta_out_starts, Ht).
  erewrite bind_Ret by (by eapply TabMeta_inp_ok). cbn beta iota.
  unfold DbMeta.set_tab. cbn [DbMeta.name_ DbMeta.tabs_]. apply IH. done.
Qed.

Lemma foldl_add_tab l m :
  NoDup l.*1 → foldl add_tab m l = (list_to_map l : gmap string TabMeta.t) ∪ m.
Proof.
  revert m. induction l as [|[k t] l IH]; intros m; cbn [foldl fmap list_fmap fst].
  - intros _. by rewrite list_to_map_nil, map_empty_union.
  - intros [Hk Hl]%NoDup_cons. rewrite IH by done. unfold add_tab. cbn [fst snd list_to_map foldr].
    rewrite <- insert_union_r, <- insert_union_l; [done|]. by apply not_elem_of_list_to_map_1.
Qed.

Lemma entries_map m : NoDup (DbMeta.entries m).*1 ∧ list_to_map (DbMeta.entries m) = m.
Proof.
  assert (DbMeta.entries m ≡ₚ map_to_list m) as Hp by apply merge_sort_Permutation.
  assert (NoDup (DbMeta.entries m).*1) as Hn by (rewrite Hp; apply NoDup_fst_map_to_list).
  split; [done|]. by rewrite (list_to_map_proper _ (map_to_list m)), list_to_map_to_list.
Qed.

Lemma length_entries m : length (DbMeta.entries m) = size m.
Proof. unfold DbMeta.entries. by rewrite merge_sort_Permutation, length_map_to_list. Qed.

Lemma DbMeta_inp_ok db :
  db_ok db → (DbMeta.inp DbMeta.empty (istream_of (DbMeta.out db))).1 = Ret db.
Proof.
  destruct db as [nm m]. unfold db_ok, DbMeta.out. cbn [DbMeta.name_ DbMeta.tabs_].
  intros (Hn & Hsz & Hm). unfold DbMeta.inp.
  erewrite bind_Ret.
  2:{ eapply in_string_ok; [apply at_token_here|done|]; [by apply starts_app, word_starts|done]. }
  cbn beta iota. erewrite bind_Ret.
  2:{ eapply in_size_ok; [eapply at_token_ws; [done|]; eapply at_token_here| |].
      - apply starts_app, to_string_starts.
      - lia.
      - done. }
  cbn beta iota. rewrite (bind_or_ub _ _ _ (Z.of_nat (size m))) by done.
  rewrite Nat2Z.id, <- length_entries. cbn [DbMeta.tabs_ DbMeta.empty default].
  destruct (entries_map m) as [Hnd Heq].
  rewrite in_tabs_ok.
  - by rewrite foldl_add_tab, (right_id_L ∅ (∪)), Heq.
  - split_and!; done.
  - apply Forall_forall. intros [k t] Ht. simpl. unfold DbMeta.entries in Ht.
    rewrite merge_sort_Permutation, elem_of_map_to_list in Ht. by apply Hm.
Qed.

(** ** Theorems *)

(** C35: What [operator<<] writes of the metadata of a database, [operator>>] reads back as the same
    metadata into a new [DbMeta], tables, columns and index flags included, whenever the names are
    nonempty and hold no white space and every table is stored under its own name.  (A name with a
    space in it is read as two fields.) *)
Theorem db_meta_roundtrip (db : DbMeta.t) :
  db_ok db → (DbMeta.inp DbMeta.empty (istream_of (DbMeta.out db))).1 = Ret db.
Proof. apply DbMeta_inp_ok. Qed.

Definition demo_tab : TabMeta.t :=
  TabMeta.mk "student" [ColMeta.mk "student" "id" TYPE_INT 4 0 true;
                        ColMeta.mk "student" "name" TYPE_STRING 32 4 false;
                        ColMeta.mk "student" "gpa" TYPE_FLOAT 4 36 false].

Definition demo_db : DbMeta.t :=
  DbMeta.mk "school" {["student" := demo_tab; "grade" := TabMeta.mk "grade" []]}.

Lemma db_meta_roundtrip_witness :
  (DbMeta.inp DbMeta.empty (istream_of (DbMeta.out demo_db))).1 = Ret demo_db.
Proof.
  apply db_meta_roundtrip. split; [split; [done|vm_compute; tauto]|]. split; [by vm_compute|].
  apply map_Forall_insert_2; [|apply map_Forall_insert_2; [|apply map_Forall_empty]].
  all: split; [done|]; split; [split; [done|vm_compute; tauto]|]; split; [|by vm_compute].
  - repeat constructor; try done; vm_compute; tauto.
  - constructor.
Defined.
