(* ===== verification/RecordPrinter.v ===== *)
(** The text tables of the replies, [src/src/record_printer.h].

    The printer copies into the reply buffer of the statement's context,
    [data_send_] from [offset_] on, and moves [offset_]; it never checks the
    size of the buffer. *)
From Stdlib Require Import Ascii.
From S2P Require Import Prelude.
From S2P Require Import Defs.
From S2P Require Import RmFile.
From S2P Require Import Txn.

#[local] Open Scope prog_scope.

(** The characters of a string as bytes. *)
Fixpoint str_bytes (s : string) : bytes :=
  match s with
  | ""%string => []
  | String c s' => Z.of_N (N_of_ascii c) :: str_bytes s'
  end.

(** [std::string(n, c)] *)
Fixpoint str_fill (n : nat) (c : ascii) : string :=
  match n with O => ""%string | S n' => String c (str_fill n' c) end.

(** [s.substr(0, n)] *)
Fixpoint str_take (n : nat) (s : string) : string :=
  match n, s with
  | S n', String c s' => String c (str_take n' s')
  | _, _ => ""%string
  end.

(** [os << std::setw(w) << s]: padded on the left with blanks. *)
Definition setw (w : nat) (s : string) : string := (str_fill (w - String.length s) " " ++ s)%string.

Module RecordPrinter.

Definition COL_WIDTH : nat := 16.

(** The buffer length of the server, [BUFFER_LENGTH]. *)
Definition BUFFER_LENGTH : Z := 8192.

Definition num_cols (printer : Z) : Z := printer.

Definition create {S} (num_cols_ : Z) : M S Z := assert (0 <? num_cols_) ;;; ret num_cols_.

(** [memcpy(data_send_ + *offset_, str.c_str(), str.length())] and the
    addition to [*offset_]. *)
Definition put (str : string) : M Context unit :=
  let* c := gets id in
  let* d := or_ub (data_send_ c) in
  let* d' := or_ub (mem_write d (offset_ c) (str_bytes str)) in
  modify (λ c, mkContext (txn_ c) (Some d') (to_s32 (offset_ c + Z.of_nat (String.length str)))).

Definition print_separator (printer : Z) : M Context unit :=
  for_n 0 (Z.to_nat (num_cols printer)) (λ _,
    put ("+" ++ str_fill (COL_WIDTH + 2) "-")%string) ;;;
  put ("+" ++ newline)%string.

(** One cell: a longer string is cut and ends in [...]. *)
Definition cell (col : string) : string :=
  let col := if (COL_WIDTH <? String.length col)%nat
             then (str_take (COL_WIDTH - 3) col ++ "...")%string else col in
  ("| " ++ setw COL_WIDTH col ++ " ")%string.

Definition print_record (printer : Z) (rec_str : list string) : M Context unit :=
  assert (zlen rec_str =? num_cols printer) ;;;
  for_each rec_str (λ col, put (cell col)) ;;;
  put ("|" ++ newline)%string.

Definition print_record_count (num_rec : Z) : M Context unit :=
  put ("Total record(s): " ++ to_string num_rec ++ newline)%string.

(** ** The text written *)

Lemma length_str_app a b : String.length (a ++ b) = (String.length a + String.length b)%nat.
Proof. induction a as [|c a IH]; [done|]. change (String c a ++ b)%string with (String c (a ++ b)). simpl. by rewrite IH. Qed.

Lemma length_str_bytes s : length (str_bytes s) = String.length s.
Proof. induction s; simpl; auto. Qed.

Lemma length_str_fill n c : String.length (str_fill n c) = n.
Proof. induction n; simpl; auto. Qed.

Lemma length_str_take n s : (n <= String.length s)%nat → String.length (str_take n s) = n.
Proof. revert s. induction n as [|n IH]; intros [|c s]; simpl; auto; [lia|]. intros. rewrite IH; lia. Qed.

Lemma length_cell col : String.length (cell col) = 19%nat.
Proof.
  unfold cell. rewrite !length_str_app. unfold setw. rewrite length_str_app, length_str_fill.
  simpl (String.length "| "). simpl (String.length " "). unfold COL_WIDTH.
  destruct (Nat.ltb_spec 16 (String.length col)).
  - rewrite length_str_app, length_str_take by lia. simpl. lia.
  - lia.
Qed.

(** A sequence of pieces, one after the other. *)
Definition puts (l : list string) : M Context unit := for_each l put.

Definition text (l : list string) : bytes := concat (map str_bytes l).

(** A buffer with room for [n] more bytes. *)
Definition room (c : Context) (n : Z) : Prop :=
  ∃ d, data_send_ c = Some d ∧ 0 <= offset_ c ∧ offset_ c + n <= zlen d ∧ zlen d < 2 ^ 31.

Lemma put_ok c d str :
  data_send_ c = Some d → 0 <= offset_ c → offset_ c + Z.of_nat (String.length str) <= zlen d →
  zlen d < 2 ^ 31 →
  put str c = (Ret tt, mkContext (txn_ c) (Some (splice d (offset_ c) (str_bytes str)))
                                 (offset_ c + Z.of_nat (String.length str))).
Proof.
  intros Hd Ho Hlen Hs. unfold put. step. unfold id.
  rewrite (bind_or_ub _ _ _ d) by done.
  erewrite bind_or_ub by (apply mem_write_Some; rewrite ?length_str_bytes; lia).
  unfold modify. rewrite to_s32_id by (unfold is_s32; lia). done.
Qed.

Lemma put_ub c d str :
  data_send_ c = Some d → zlen d < offset_ c + Z.of_nat (String.length str) →
  put str c = (UB, c).
Proof.
  intros Hd Hlen. unfold put. step. unfold id.
  rewrite (bind_or_ub _ _ _ d) by done. unfold mem_write.
  destruct (in_range _ _ _) eqn:Hr; [|done].
  apply in_range_spec in Hr as (_ & _ & Hr). rewrite length_str_bytes in Hr. lia.
Qed.

Lemma splice_splice m off a b :
  0 <= off → off + zlen a + zlen b <= zlen m →
  splice (splice m off a) (off + zlen a) b = splice m off (a ++ b).
Proof.
  intros Ho Hl. apply list_eq. intros i.
  rewrite !lookup_splice by (rewrite ?length_splice, ?length_app by lia; lia).
  rewrite length_app. repeat case_decide; try lia.
  - rewrite lookup_app_r by lia. f_equal. lia.
  - by rewrite lookup_app_l by lia.
  - done.
Qed.

Lemma puts_ok l c d :
  data_send_ c = Some d → 0 <= offset_ c → offset_ c + zlen (text l) <= zlen d → zlen d < 2 ^ 31 →
  puts l c = (Ret tt, mkContext (txn_ c) (Some (splice d (offset_ c) (text l)))
                                (offset_ c + zlen (text l))).
Proof.
  revert c d. induction l as [|s l IH]; intros c d Hd Ho Hlen Hs.
  - destruct c as [t x o]. simpl in *. subst x. unfold puts, for_each, ret. do 3 f_equal.
    + unfold splice. simpl. rewrite Nat.add_0_r, take_drop. done.
    + lia.
  - unfold text in Hlen |- *. simpl in *. rewrite length_app, length_str_bytes in *.
    unfold puts. simpl. erewrite bind_Ret by (apply (put_ok c d); done || lia).
    pose proof (length_splice d (offset_ c) (str_bytes s)) as Hsp.
    rewrite length_str_bytes in Hsp.
    change (for_each l put) with (puts l). erewrite IH; simpl; [|done|lia|rewrite Hsp by lia; unfold text; lia|rewrite Hsp by lia; lia].
    f_equal. f_equal; [|unfold text; lia]. f_equal.
    rewrite <- (length_str_bytes s), splice_splice; [done|lia|]. rewrite length_str_bytes. unfold text. lia.
Qed.

Lemma puts_ub l c d :
  data_send_ c = Some d → 0 <= offset_ c → zlen d < offset_ c + zlen (text l) → zlen d < 2 ^ 31 →
  offset_ c <= zlen d →
  (puts l c).1 = UB.
Proof.
  revert c d. induction l as [|s l IH]; intros c d Hd Ho Hlen Hs Hin.
  - simpl in *. lia.
  - unfold text in Hlen. simpl in *. rewrite length_app, length_str_bytes in *. unfold puts. simpl.
    destruct (decide (offset_ c + Z.of_nat (String.length s) <= zlen d)).
    + erewrite bind_Ret by (apply (put_ok c d); done || lia).
      assert (length (splice d (offset_ c) (str_bytes s)) = length d) as Hsp
        by (apply length_splice; rewrite ?length_str_bytes; lia).
      eapply IH; simpl; [done|lia|rewrite Hsp; unfold text; lia|rewrite Hsp; lia|rewrite Hsp; lia].
    + unfold bind. by erewrite (put_ub c d) by (done || lia).
Qed.

Lemma for_n_puts lo n s c : for_n lo n (λ _, put s) c = puts (replicate n s) c.
Proof.
  revert lo c. induction n as [|n IH]; intros lo c; [done|].
  unfold puts in *. simpl. unfold bind. destruct (put s c) as [[] c']; try done.
Qed.

Lemma puts_snoc l s c : bind (puts l) (λ _, put s) c = puts (l ++ [s]) c.
Proof.
  revert c. induction l as [|x l IH]; intros c; unfold puts in *; simpl.
  - rewrite bind_ret. unfold bind. by destruct (put s c) as [[[]| | | |] c'].
  - rewrite bind_assoc. unfold bind at 1 3. destruct (put x c) as [[] c']; done.
Qed.

Lemma for_each_fmap {A} (f : A → string) (l : list A) c :
  for_each l (λ x, put (f x)) c = puts (map f l) c.
Proof.
  revert c. induction l as [|x l IH]; intros c; [done|]. unfold puts in *. simpl.
  unfold bind. destruct (put (f x) c) as [[] c']; try done.
Qed.

(** The pieces of a separator and of a row. *)
Definition separator_pieces (n : Z) : list string :=
  replicate (Z.to_nat n) ("+" ++ str_fill (COL_WIDTH + 2) "-")%string ++ [("+" ++ newline)%string].
Definition record_pieces (rec : list string) : list string := map cell rec ++ [("|" ++ newline)%string].

Lemma print_separator_puts n c : print_separator n c = puts (separator_pieces n) c.
Proof.
  unfold print_separator, separator_pieces, num_cols. rewrite <- puts_snoc.
  unfold bind. by rewrite for_n_puts.
Qed.

Lemma print_record_puts n rec c :
  zlen rec = n → print_record n rec c = puts (record_pieces rec) c.
Proof.
  intros <-. unfold print_record, num_cols, record_pieces.
  rewrite bind_assert by apply Z.eqb_refl. rewrite <- puts_snoc.
  unfold bind. by rewrite for_each_fmap.
Qed.

Lemma text_app l1 l2 : text (l1 ++ l2) = text l1 ++ text l2.
Proof. unfold text. by rewrite map_app, concat_app. Qed.

Lemma length_text_const l k :
  Forall (λ s, String.length s = k) l → length (text l) = (k * length l)%nat.
Proof.
  induction 1 as [|s l Hs _ IH]; [unfold text; simpl; lia|]. unfold text in *. simpl.
  rewrite length_app, length_str_bytes, IH. lia.
Qed.

Lemma length_separator n : 0 <= n → zlen (text (separator_pieces n)) = 19 * n + 2.
Proof.
  intros Hn. unfold separator_pieces. rewrite text_app, length_app, (length_text_const _ 19).
  - rewrite length_replicate. simpl. lia.
  - by apply Forall_replicate.
Qed.

Lemma length_record rec : zlen (text (record_pieces rec)) = 19 * zlen rec + 2.
Proof.
  unfold record_pieces. rewrite text_app, length_app, (length_text_const _ 19).
  - rewrite length_map. simpl. lia.
  - apply Forall_map, Forall_true. intros. apply length_cell.
Qed.

End RecordPrinter.

(** ** Theorems *)

(** Separators and rows of a table with [n] columns are lines of the same length, [19 * n + 2]
    bytes, whatever the length of the cells (longer ones are cut), so the columns of a reply line
    up.  A line that fits is written at the current offset and moves it past the line; every other
    byte of the reply stays.  The printer has no bound check: a line that does not fit in what is
    left of the buffer is written past its end. *)
Theorem printer_lines_aligned (c : Context) (d : bytes) (n : Z) (rec : list string) :
  data_send_ c = Some d → 0 <= offset_ c <= zlen d → zlen d < 2 ^ 31 → 0 < n → zlen rec = n →
  let sep := RecordPrinter.text (RecordPrinter.separator_pieces n) in
  let row := RecordPrinter.text (RecordPrinter.record_pieces rec) in
  zlen sep = 19 * n + 2 ∧ zlen row = 19 * n + 2 ∧
  if offset_ c + (19 * n + 2) <=? zlen d then
    RecordPrinter.print_separator n c
      = (Ret tt, mkContext (txn_ c) (Some (splice d (offset_ c) sep)) (offset_ c + (19 * n + 2))) ∧
    RecordPrinter.print_record n rec c
      = (Ret tt, mkContext (txn_ c) (Some (splice d (offset_ c) row)) (offset_ c + (19 * n + 2)))
  else
    (RecordPrinter.print_separator n c).1 = UB ∧ (RecordPrinter.print_record n rec c).1 = UB.
Proof.
  intros Hd Ho Hs Hn Hrec. cbn zeta.
  pose proof (RecordPrinter.length_separator n) as Hsep.
  pose proof (RecordPrinter.length_record rec) as Hrow.
  split_and!; [by apply Hsep; lia | lia |].
  rewrite RecordPrinter.print_separator_puts, RecordPrinter.print_record_puts by done.
  destruct (Z.leb_spec (offset_ c + (19 * n + 2)) (zlen d)).
  - rewrite !(RecordPrinter.puts_ok _ c d) by (done || lia). rewrite Hsep, Hrow, Hrec by lia. done.
  - split; apply (RecordPrinter.puts_ub _ c d); done || lia.
Qed.

Definition demo_context (size off : Z) : Context :=
  mkContext None (Some (replicate (Z.to_nat size) 0)) off.

Lemma printer_lines_aligned_witness :
  (RecordPrinter.print_record 1 ["Tables"%string] (demo_context 30 0)).1 = Ret tt ∧
  (RecordPrinter.print_record 1 ["Tables"%string] (demo_context 30 10)).1 = UB.
Proof.
  split.
  - destruct (printer_lines_aligned (demo_context 30 0) (replicate 30 0) 1 ["Tables"%string])
      as (_ & _ & _ & H); [done | split; vm_compute; congruence | done | done | done |].
    by rewrite H.
  - destruct (printer_lines_aligned (demo_context 30 10) (replicate 30 0) 1 ["Tables"%string])
      as (_ & _ & _ & H); [done | split; vm_compute; congruence | done | done | done |].
    exact H.
Defined.
