(* ===== verification/LogRec.v ===== *)
(** Write-ahead logging, [src/src/recovery/log_record.h],
    [log_manager.{h,cpp}], [log_recovery.{h,cpp}] and
    [checkpoint.{h,cpp}].

    Log records and the two log buffers are complete in the sources; appending,
    the flush thread, redo, undo and checkpoints are the empty bodies of the
    laboratory.  A member without an initial value is [None]. *)
From S2P Require Import Prelude.
From S2P Require Import Defs.
From S2P Require Import RmFile.
From S2P Require Import Txn.
From S2P Require Import SmMeta.
From S2P Require Import RecordPrinter.

#[local] Open Scope prog_scope.

Inductive LogRecordType :=
  | LOG_INVALID | LOG_CREATE_TABLE | LOG_MARK_DROP_TABLE | LOG_APPLY_DROP_TABLE | LOG_CREATE_INDEX
  | LOG_MARK_DROP_INDEX | LOG_APPLY_DROP_INDEX | LOG_INSERT | LOG_UPDATE | LOG_DELETE | LOG_BEGIN
  | LOG_COMMIT | LOG_ABORT | LOG_NEW_PAGE.

#[export] Instance LogRecordType_eq_dec : EqDecision LogRecordType.
Proof. solve_decision. Defined.

Definition log_record_type (t : LogRecordType) : string :=
  match t with
  | LOG_INVALID => "INVALID" | LOG_CREATE_TABLE => "CREATE_TABLE"
  | LOG_MARK_DROP_TABLE => "MARK_DROP_TABLE" | LOG_APPLY_DROP_TABLE => "APPLY_DROP_TABLE"
  | LOG_CREATE_INDEX => "CREATE_INDEX" | LOG_MARK_DROP_INDEX => "MARK_DROP_INDEX"
  | LOG_APPLY_DROP_INDEX => "APPLY_DROP_INDEX" | LOG_INSERT => "INSERT" | LOG_UPDATE => "UPDATE"
  | LOG_DELETE => "DELETE" | LOG_BEGIN => "BEGIN" | LOG_COMMIT => "COMMIT" | LOG_ABORT => "ABORT"
  | LOG_NEW_PAGE => "NEW_PAGE"
  end.

Module LogRecord.

Definition HEADER_SIZE : Z := 20.
Definition sizeof_Rid : Z := 8.

Record t := mk {
  size_ : Z;
  lsn_ : Z;
  txn_id_ : Z;
  prev_lsn_ : Z;
  log_type_ : LogRecordType;
  tab_name_size_ : option Z;
  tab_name_ : option bytes;
  update_rid_ : option Rid;
  old_tuple_ : option RmRecord;
  new_tuple_ : option RmRecord;
  insert_rid_ : option Rid;
  insert_tuple_ : option RmRecord;
  delete_rid_ : option Rid;
  delete_tuple_ : option RmRecord;
  new_page_no_ : option Z
}.

(** [LogRecord()] *)
Definition default : t :=
  mk 0 INVALID_LSN INVALID_TXN_ID INVALID_LSN LOG_INVALID
     None None None None None None None None None None.

Definition with_head (size txn_id prev_lsn : Z) (log_type : LogRecordType) (r : t) : t :=
  mk size (lsn_ r) txn_id prev_lsn log_type (tab_name_size_ r) (tab_name_ r) (update_rid_ r)
     (old_tuple_ r) (new_tuple_ r) (insert_rid_ r) (insert_tuple_ r) (delete_rid_ r)
     (delete_tuple_ r) (new_page_no_ r).

(** [tab_name_size_ = table_name.size()] and the copy of the name. *)
Definition set_name (table_name : string) (r : t) : t :=
  mk (size_ r) (lsn_ r) (txn_id_ r) (prev_lsn_ r) (log_type_ r)
     (Some (Z.of_nat (String.length table_name))) (Some (str_bytes table_name))
     (update_rid_ r) (old_tuple_ r) (new_tuple_ r) (insert_rid_ r) (insert_tuple_ r)
     (delete_rid_ r) (delete_tuple_ r) (new_page_no_ r).

(** A length of more than 31 bits does not fit [tab_name_size_]. *)
Definition name_size {S} (table_name : string) : M S Z :=
  or_ub (s32 (Z.of_nat (String.length table_name))).

(** Begin, commit and abort. *)
Definition new_txn {S} (txn_id prev_lsn : Z) (log_type : LogRecordType) : M S t :=
  assert (bool_decide (log_type = LOG_BEGIN) || bool_decide (log_type = LOG_COMMIT)
          || bool_decide (log_type = LOG_ABORT)) ;;;
  ret (with_head HEADER_SIZE txn_id prev_lsn log_type default).

Definition new_name {S} (txn_id prev_lsn : Z) (log_type : LogRecordType) (table_name : string) : M S t :=
  let* n := name_size table_name in
  ret (with_head (to_s32 (HEADER_SIZE + sizeof_int + n)) txn_id prev_lsn log_type
         (set_name table_name default)).

Definition new_update {S} (txn_id prev_lsn : Z) (log_type : LogRecordType) (rid : Rid)
    (old_tuple new_tuple : RmRecord) (table_name : string) : M S t :=
  let* n := name_size table_name in
  let r := set_name table_name default in
  ret (with_head
         (to_s32 (HEADER_SIZE + sizeof_Rid + sizeof_int * 3 + zlen (data old_tuple)
                  + zlen (data new_tuple) + n))
         txn_id prev_lsn log_type
         (mk (size_ r) (lsn_ r) (txn_id_ r) (prev_lsn_ r) (log_type_ r) (tab_name_size_ r)
             (tab_name_ r) (Some rid) (Some old_tuple) (Some new_tuple) None None None None None)).

(** Insertion and deletion. *)
Definition new_tuple {S} (txn_id prev_lsn : Z) (log_type : LogRecordType) (rid : Rid)
    (record : RmRecord) (table_name : string) : M S t :=
  let is_insert := bool_decide (log_type = LOG_INSERT) in
  assert (is_insert || bool_decide (log_type = LOG_DELETE)) ;;;
  let* n := name_size table_name in
  let r := set_name table_name default in
  let i := if is_insert then (Some rid, Some record) else (None, None) in
  let d := if is_insert then (None, None) else (Some rid, Some record) in
  ret (with_head (to_s32 (HEADER_SIZE + sizeof_Rid + sizeof_int * 2 + zlen (data record) + n))
         txn_id prev_lsn log_type
         (mk (size_ r) (lsn_ r) (txn_id_ r) (prev_lsn_ r) (log_type_ r) (tab_name_size_ r)
             (tab_name_ r) None None None i.1 i.2 d.1 d.2 None)).

Definition new_page {S} (txn_id prev_lsn : Z) (log_type : LogRecordType) (page_no : Z)
    (table_name : string) : M S t :=
  let* n := name_size table_name in
  let r := set_name table_name default in
  ret (with_head (to_s32 (HEADER_SIZE + sizeof_int * 2 + n)) txn_id prev_lsn log_type
         (mk (size_ r) (lsn_ r) (txn_id_ r) (prev_lsn_ r) (log_type_ r) (tab_name_size_ r)
             (tab_name_ r) None None None None None None None (Some page_no))).

(** The name as bytes; [data] is the memory that starts at the argument. *)
Definition GetTableName (r : t) : option bytes :=
  n ← tab_name_size_ r; b ← tab_name_ r; mem_read b 0 n.

Definition DeserializeTableName (data : bytes) (r : t) : option t :=
  n ← load32 data 0;
  b ← mem_read data sizeof_int n;
  Some (mk (size_ r) (lsn_ r) (txn_id_ r) (prev_lsn_ r) (log_type_ r) (Some n) (Some b)
           (update_rid_ r) (old_tuple_ r) (new_tuple_ r) (insert_rid_ r) (insert_tuple_ r)
           (delete_rid_ r) (delete_tuple_ r) (new_page_no_ r)).

(** Returns the buffer and the new [pos]. *)
Definition SerializeTableName (r : t) (log_buffer : bytes) (pos : Z) : option (bytes * Z) :=
  n ← tab_name_size_ r;
  b ← tab_name_ r;
  m ← store32 log_buffer pos n;
  src ← mem_read b 0 n;
  m ← mem_write m (pos + sizeof_int) src;
  Some (m, pos + sizeof_int + sizeof_int).

Definition PrintLogRecord (r : t) : string :=
  ("lsn: " ++ to_string (lsn_ r) ++ ", log type: " ++ log_record_type (log_type_ r) ++
   ", txn id: " ++ to_string (txn_id_ r) ++ newline)%string.

End LogRecord.

(** ** [log_manager.{h,cpp}] *)

Module LogManager.

(** [promise]: [None] is the null pointer; [flush_thread_] is [false] while
    no thread exists. *)
Record t := mk {
  log_mode_ : bool;
  log_buffer_ : bytes;
  flush_buffer_ : bytes;
  next_lsn_ : Z;
  persistent_lsn_ : Z;
  flush_lsn_ : Z;
  log_buffer_write_offset_ : Z;
  flush_buffer_write_offset_ : Z;
  flush_thread_ : bool;
  promise : option Z
}.

(** The constructor; [promise0] is what [promise] holds before it is set. *)
Definition create (promise0 : option Z) : t :=
  mk false (replicate (Z.to_nat LOG_BUFFER_SIZE) 0) (replicate (Z.to_nat LOG_BUFFER_SIZE) 0)
     0 INVALID_LSN INVALID_LSN 0 0 false promise0.

Definition SetLogMode (b : bool) (s : t) : t :=
  mk b (log_buffer_ s) (flush_buffer_ s) (next_lsn_ s) (persistent_lsn_ s) (flush_lsn_ s)
     (log_buffer_write_offset_ s) (flush_buffer_write_offset_ s) (flush_thread_ s) (promise s).
Definition SetPromise (p : option Z) (s : t) : t :=
  mk (log_mode_ s) (log_buffer_ s) (flush_buffer_ s) (next_lsn_ s) (persistent_lsn_ s) (flush_lsn_ s)
     (log_buffer_write_offset_ s) (flush_buffer_write_offset_ s) (flush_thread_ s) p.

Definition SwapBuffer : M t unit :=
  let* n := gets next_lsn_ in
  let* lsn := or_ub (s32 (n - 1)) in
  modify (λ s, mk (log_mode_ s) (flush_buffer_ s) (log_buffer_ s) (next_lsn_ s) (persistent_lsn_ s)
                  lsn (flush_buffer_write_offset_ s) (log_buffer_write_offset_ s) (flush_thread_ s)
                  (promise s)).

(** [fulfilled]: the flush thread fulfils the promise; otherwise the wait
    never ends. *)
Definition WakeUpFlushThread (p : option Z) (fulfilled : bool) : M t unit :=
  SwapBuffer ;;;
  modify (SetPromise p) ;;;
  let* q := gets promise in
  match q with
  | None => ret tt
  | Some _ => if fulfilled then ret tt else out_of_fuel
  end ;;;
  modify (SetPromise None).

Definition RunFlushThread : M t unit := ret tt.

(** [join] of a thread that does not exist. *)
Definition StopFlushThread : M t unit :=
  modify (SetLogMode false) ;;;
  let* th := gets flush_thread_ in
  if th then modify (λ s, mk (log_mode_ s) (log_buffer_ s) (flush_buffer_ s) (next_lsn_ s)
                            (persistent_lsn_ s) (flush_lsn_ s) (log_buffer_write_offset_ s)
                            (flush_buffer_write_offset_ s) false (promise s))
  else undefined.

Definition AppendLogRecord (log_record : LogRecord.t) : M t Z := ret (LogRecord.lsn_ log_record).

End LogManager.

(** ** [log_recovery.{h,cpp}] and [checkpoint.{h,cpp}] *)

Module LogRecovery.

Record t := mk {
  active_txns_ : gmap Z Z;
  lsn_mapping_ : gmap Z Z;
  log_offset_ : Z;
  recovery_mode_ : bool
}.

Definition create : t := mk ∅ ∅ 0 false.
Definition GetRecoveryMode (s : t) : bool := recovery_mode_ s.
Definition Redo : M t unit := ret tt.
Definition Undo : M t unit := ret tt.

End LogRecovery.

Module CheckpointManager.

Definition BeginCheckpoint {S} : M S unit := ret tt.
Definition EndCheckpoint {S} : M S unit := ret tt.

End CheckpointManager.

(** ** Table names in the log *)

Lemma length_str_bytes_ok s : length (str_bytes s) = String.length s.
Proof. apply RecordPrinter.length_str_bytes. Qed.

(** A record whose name was set by a constructor. *)
Definition named (r : LogRecord.t) (b : bytes) : Prop :=
  LogRecord.tab_name_size_ r = Some (zlen b) ∧ LogRecord.tab_name_ r = Some b ∧ zlen b < 2 ^ 31.

(** The memory after [SerializeTableName]. *)
Definition name_at (m : bytes) (pos : Z) (b : bytes) : bytes :=
  splice m pos (enc32 (zlen b) ++ b).

Lemma slice_full m : slice m 0 (zlen m) = m.
Proof. unfold slice. rewrite drop_0, Nat2Z.id. by rewrite take_ge. Qed.

Lemma SerializeTableName_ok r b m pos :
  named r b → 0 <= pos → pos + 4 + zlen b <= zlen m →
  LogRecord.SerializeTableName r m pos = Some (name_at m pos b, pos + 8).
Proof.
  intros (Hn & Hb & Hs) Hp Hl. unfold LogRecord.SerializeTableName. rewrite Hn, Hb. simpl.
  rewrite store32_Some by lia. simpl. rewrite mem_read_Some by lia. simpl.
  rewrite slice_full.
  rewrite mem_write_Some
    by (unfold sizeof_int; rewrite ?length_splice by (rewrite ?length_enc32; lia); lia).
  simpl. unfold name_at, sizeof_int.
  change 4 with (zlen (enc32 (zlen b))) at 1. rewrite RecordPrinter.splice_splice.
  - do 2 f_equal. lia.
  - lia.
  - rewrite length_enc32. lia.
Qed.

Lemma drop_name_at m pos b :
  0 <= pos → pos + 4 + zlen b <= zlen m →
  drop (Z.to_nat pos) (name_at m pos b)
  = enc32 (zlen b) ++ b ++ drop (Z.to_nat pos + (4 + length b)) m.
Proof.
  intros Hp Hl. unfold name_at, splice. rewrite drop_app_ge by (rewrite length_take; lia).
  rewrite length_take, Nat.min_l, Nat.sub_diag by lia. rewrite drop_0, <- (assoc_L (++)). done.
Qed.

Lemma Deserialize_ok r0 n b tl :
  zlen b = n → n < 2 ^ 31 →
  (r ← LogRecord.DeserializeTableName (enc32 n ++ b ++ tl) r0; LogRecord.GetTableName r) = Some b.
Proof.
  intros Hn Hs. unfold LogRecord.DeserializeTableName.
  rewrite load32_Some by (rewrite ?length_app, ?length_enc32; lia).
  assert (slice (enc32 n ++ b ++ tl) 0 4 = enc32 n) as ->.
  { unfold slice. simpl. done. }
  rewrite dec32_enc32, to_s32_id by (unfold is_s32; lia). cbn [mbind option_bind fmap option_fmap option_map].
  rewrite mem_read_Some by (unfold sizeof_int; rewrite ?length_app, ?length_enc32; simpl; lia).
  assert (slice (enc32 n ++ b ++ tl) sizeof_int n = b) as Hb.
  { unfold slice, sizeof_int. change (Z.to_nat 4) with 4%nat.
    change 4%nat with (length (enc32 n)) at 1. rewrite drop_app_length, <- Hn, Nat2Z.id.
    apply take_app_length. }
  cbn [mbind option_bind]. rewrite Hb. unfold LogRecord.GetTableName. simpl.
  rewrite mem_read_Some by lia. by rewrite <- Hn, slice_full.
Qed.

(** ** Theorems *)

(** The table name that [SerializeTableName] puts into a log record is the name that
    [DeserializeTableName] and [GetTableName] read back at that place, whatever surrounds it; but the
    position it returns is eight bytes on, not past the name: for a name of eight bytes or more the
    next four bytes written there replace four bytes of the name, and that is the name read back. *)
Theorem log_table_name_roundtrip (r r0 : LogRecord.t) (b m w : bytes) (pos : Z) :
  named r b → 0 <= pos → pos + 4 + zlen b <= zlen m → length w = 4%nat →
  let m' := name_at m pos b in
  let read m := r' ← LogRecord.DeserializeTableName (drop (Z.to_nat pos) m) r0;
                LogRecord.GetTableName r' in
  LogRecord.SerializeTableName r m pos = Some (m', pos + 8) ∧ read m' = Some b ∧
  (8 <= zlen b → read <$> mem_write m' (pos + 8) w = Some (Some (splice b 4 w))).
Proof.
  intros Hr Hp Hl Hw. cbn zeta. split; [|split].
  - by apply SerializeTableName_ok.
  - rewrite drop_name_at by done. apply Deserialize_ok; [done|apply Hr].
  - intros H8.
    assert (Hlen : zlen (name_at m pos b) = zlen m).
    { unfold name_at. rewrite length_splice; [done|lia|]. rewrite length_app, length_enc32. lia. }
    rewrite mem_write_Some by lia. cbn [fmap option_fmap option_map]. f_equal.
    assert (splice (name_at m pos b) (pos + 8) w = name_at m pos (splice b 4 w)) as ->.
    { apply list_eq. intros i. rewrite lookup_splice by lia. unfold name_at.
      assert (length (splice b 4 w) = length b) as Hb by (rewrite length_splice; lia).
      rewrite !lookup_splice by (rewrite ?length_app, ?length_enc32, ?Hb; lia).
      rewrite !length_app, !length_enc32, Hb. repeat case_decide; try lia; try done.
      - rewrite lookup_app_r by (rewrite length_enc32; lia). rewrite lookup_splice by lia.
        rewrite length_enc32, decide_True by lia. f_equal. lia.
      - destruct (decide (i - Z.to_nat pos < 4)%nat).
        + by rewrite !lookup_app_l by (rewrite length_enc32; lia).
        + rewrite !lookup_app_r by (rewrite length_enc32; lia). rewrite lookup_splice by lia.
          rewrite length_enc32, decide_False by lia. done. }
    assert (length (splice b 4 w) = length b) as Hb by (rewrite length_splice; lia).
    rewrite drop_name_at by (rewrite ?Hb; lia). apply Deserialize_ok; [done|]. rewrite Hb. apply Hr.
Qed.

Definition demo_name : string := "students1".
Definition demo_log_record : LogRecord.t := LogRecord.set_name demo_name LogRecord.default.

Lemma log_table_name_roundtrip_witness :
  (r ← LogRecord.DeserializeTableName
         (drop 2 (name_at (replicate 20 0) 2 (str_bytes demo_name))) LogRecord.default;
   LogRecord.GetTableName r) = Some (str_bytes demo_name).
Proof.
  destruct (log_table_name_roundtrip demo_log_record LogRecord.default (str_bytes demo_name)
              (replicate 20 0) [0; 0; 0; 0] 2) as (_ & H & _);
    [split_and!; vm_compute; reflexivity | done | vm_compute; congruence | done |].
  exact H.
Defined.
