(* ===== verification/SmManager.v ===== *)
(** The system manager, [src/src/system/sm_manager.{h,cpp}]: databases, tables
    and indexes with their metadata and open files.

    The state holds the metadata, the open record files and indexes by name,
    and the buffer pool with the disk manager under it.  [Cwd] adds to the
    system calls of [Disk.v] the two that only [open_db] makes: [chdir] and
    reading a whole text file ([std::ifstream]). *)
From S2P Require Import Prelude.
From S2P Require Import Defs.
From S2P Require Import Replacer.
From S2P Require Import Disk.
From S2P Require Import BufferPool.
From S2P Require Import RmFile.
From S2P Require Import RmManager.
From S2P Require Import IxNode.
From S2P Require Import IxIndex.
From S2P Require Import IxManager.
From S2P Require Import Txn.
From S2P Require Import SmMeta.
From S2P Require Import RecordPrinter.

#[local] Open Scope prog_scope.

Definition DB_META_NAME : string := "db.meta".

(** The column of a [CREATE TABLE] statement. *)
Record ColDef := mkColDef { cd_name : string; cd_type : ColType; cd_len : Z }.

Class Cwd (F : Type) := {
  sys_chdir : string → F → Z * F;
  file_text : string → F → option string
}.

Module SmManager.

Record t (F R : Type) := mk {
  db_ : DbMeta.t;
  fhs_ : gmap string RmFileHandle.handle;
  ihs_ : gmap string IxIndexHandle.handle;
  bpm : BufferPool.t (DiskManager.t F) R
}.
Arguments mk {F R} _ _ _ _.
Arguments db_ {F R} _.
Arguments fhs_ {F R} _.
Arguments ihs_ {F R} _.
Arguments bpm {F R} _.

Section ops.
  Context {F : Type} `{Posix F} {R : Type} `{Replacer R}.
  Notation pool := (BufferPool.t (DiskManager.t F) R).
  Notation sm := (t F R).

Definition set_db (d : DbMeta.t) (s : sm) : sm := mk d (fhs_ s) (ihs_ s) (bpm s).
Definition set_fhs (m : gmap string RmFileHandle.handle) (s : sm) : sm := mk (db_ s) m (ihs_ s) (bpm s).
Definition set_ihs (m : gmap string IxIndexHandle.handle) (s : sm) : sm := mk (db_ s) (fhs_ s) m (bpm s).
Definition set_bpm (p : pool) (s : sm) : sm := mk (db_ s) (fhs_ s) (ihs_ s) p.

Definition on_pool {A} (m : M pool A) : M sm A := zoom bpm set_bpm m.

(** [emplace]: an entry that exists stays. *)
Definition emplace_fh (k : string) (x : RmFileHandle.handle) : M sm unit :=
  modify (λ s, set_fhs (if decide (is_Some (fhs_ s !! k)) then fhs_ s else <[k := x]> (fhs_ s)) s).
Definition emplace_ih (k : string) (x : IxIndexHandle.handle) : M sm unit :=
  modify (λ s, set_ihs (if decide (is_Some (ihs_ s !! k)) then ihs_ s else <[k := x]> (ihs_ s)) s).

(** [fhs_.at(name)] and [ihs_.at(name)] *)
Definition at_fh (name : string) : M sm RmFileHandle.handle :=
  let* m := gets fhs_ in match m !! name with Some x => ret x | None => throw OutOfRange end.
Definition at_ih (name : string) : M sm IxIndexHandle.handle :=
  let* m := gets ihs_ in match m !! name with Some x => ret x | None => throw OutOfRange end.

(** An operation of the record file that [fhs_] holds under [name]; through a
    pointer to a handle that is gone it is undefined. *)
Definition with_fh {A} (name : string) (m : M (RmFileHandle.st (DiskManager.t F) R) A) : M sm A := λ s,
  match fhs_ s !! name with
  | None => (UB, s)
  | Some x =>
      let '(r, st) := m (RmFileHandle.mkSt x (bpm s)) in
      (r, mk (db_ s) (<[name := RmFileHandle.fh st]> (fhs_ s)) (ihs_ s) (RmFileHandle.bpm st))
  end.

(** An operation of the index that [ihs_] holds under [name]. *)
Definition with_ih {A} (name : string) (m : M (IxIndexHandle.st (DiskManager.t F) R) A) : M sm A := λ s,
  match ihs_ s !! name with
  | None => (UB, s)
  | Some x =>
      let '(r, st) := m (IxIndexHandle.mkSt x (bpm s)) in
      (r, mk (db_ s) (fhs_ s) (<[name := IxIndexHandle.ih st]> (ihs_ s)) (IxIndexHandle.bpm st))
  end.

(** An operation of an index that is not in [ihs_] yet. *)
Definition on_index {A} (ih : IxIndexHandle.handle) (m : M (IxIndexHandle.st (DiskManager.t F) R) A)
    : M sm (A * IxIndexHandle.handle) := λ s,
  let '(r, st) := m (IxIndexHandle.mkSt ih (bpm s)) in
  let s' := set_bpm (IxIndexHandle.bpm st) s in
  match r with
  | Ret a => (Ret (a, IxIndexHandle.ih st), s')
  | Throw e => (Throw e, s')
  | AssertFail => (AssertFail, s')
  | UB => (UB, s')
  | NoFuel => (NoFuel, s')
  end.

(** [S_ISDIR] of [stat], as in the disk manager. *)
Definition is_dir (db_name : string) : M sm bool :=
  on_pool (BufferPool.on_disk (DiskManager.stat_is S_IFDIR db_name)).

(** The bodies the laboratory leaves empty. *)
Definition create_db (db_name : string) : M sm unit := ret tt.
Definition close_db : M sm unit := ret tt.
Definition drop_table (tab_name : string) : M sm unit := ret tt.

Definition drop_db (db_name : string) : M sm unit :=
  let* b := is_dir db_name in
  if negb b then throw (DatabaseNotFoundError db_name)
  else
    let* r := on_pool (BufferPool.on_disk (DiskManager.sys (sys_system ("rm -r " ++ db_name)%string))) in
    if r <? 0 then throw UnixError else ret tt.

(** The loop of [open_db] over the columns of a table, from column [i] on. *)
Fixpoint open_indexes (tab_name : string) (i : Z) (cols : list ColMeta.t) : M sm unit :=
  match cols with
  | [] => ret tt
  | col :: cols' =>
      when (ColMeta.index col)
        (let index_name := IxManager.get_index_name tab_name i in
         let* m := gets ihs_ in
         assert (bool_decide (m !! index_name = None)) ;;;
         let* ih := on_pool (IxManager.open_index tab_name i) in
         emplace_ih index_name ih) ;;;
      open_indexes tab_name (i + 1) cols'
  end.

Definition open_table (tab : TabMeta.t) : M sm unit :=
  let* fh := on_pool (RmManager.open_file (TabMeta.name tab)) in
  emplace_fh (TabMeta.name tab) fh ;;;
  open_indexes (TabMeta.name tab) 0 (TabMeta.cols tab).

(** [ifs >> db_]; a file that cannot be opened leaves the stream failed. *)
Definition load_meta `{Cwd F} : M sm unit := λ s,
  let o := DiskManager.os (BufferPool.disk_manager_ (bpm s)) in
  let ifs := match file_text DB_META_NAME o with
             | Some text => istream_of text
             | None => mkIs "" false true
             end in
  match (DbMeta.inp (db_ s) ifs).1 with
  | Ret d => (Ret tt, set_db d s)
  | _ => (UB, s)
  end.

Definition open_db `{Cwd F} (db_name : string) : M sm unit :=
  let* b := is_dir db_name in
  if negb b then throw (DatabaseNotFoundError db_name)
  else
    let* r := on_pool (BufferPool.on_disk (DiskManager.sys (sys_chdir db_name))) in
    if r <? 0 then throw UnixError
    else
      load_meta ;;;
      let* db := gets db_ in
      for_each (DbMeta.entries (DbMeta.tabs_ db)) (λ entry, open_table entry.2).

(** ** Tables *)

(** The columns of a new table and the length of its records; [int] additions. *)
Definition make_cols {S} (tab_name : string) (col_defs : list ColDef) : M S (Z * list ColMeta.t) :=
  fold_m (λ '(curr_offset, cols) col_def,
    let col := ColMeta.mk tab_name (cd_name col_def) (cd_type col_def) (cd_len col_def) curr_offset false in
    let* curr_offset := or_ub (s32 (curr_offset + cd_len col_def)) in
    ret (curr_offset, cols ++ [col])) (0, []) col_defs.

Definition create_table (tab_name : string) (col_defs : list ColDef) : M sm unit :=
  let* db := gets db_ in
  if DbMeta.is_table db tab_name then throw (TableExistsError tab_name)
  else
    let* x := make_cols tab_name col_defs in
    let '(record_size, cols) := x in
    on_pool (RmManager.create_file tab_name record_size) ;;;
    modify (λ s, set_db (DbMeta.set_tab tab_name (TabMeta.mk tab_name cols) (db_ s)) s) ;;;
    let* fh := on_pool (RmManager.open_file tab_name) in
    emplace_fh tab_name fh.

(** ** Indexes *)

(** The column an iterator refers to; the iterators of [get_col] refer to
    none. *)
Definition deref_col (tab : TabMeta.t) (it : option nat) : option ColMeta.t := i ← it; TabMeta.cols tab !! i.

Definition set_col_index (tab_name : string) (i : nat) (b : bool) (s : sm) : sm :=
  match DbMeta.tabs_ (db_ s) !! tab_name with
  | None => s
  | Some tab =>
      set_db (DbMeta.set_tab tab_name
                (TabMeta.mk (TabMeta.name tab) (alter (ColMeta.set_index b) i (TabMeta.cols tab))) (db_ s)) s
  end.

(** The loop over the records of the table: [n] bounds the height of the
    index, [fuel] the number of records. *)
Fixpoint fill_index (n fuel : nat) (tab_name : string) (offset : Z) (ih : IxIndexHandle.handle)
    (rid : Rid) : M sm IxIndexHandle.handle :=
  match fuel with
  | O => out_of_fuel
  | S fuel' =>
      if RmFileHandle.scan_is_end rid then ret ih
      else
        let* rec := with_fh tab_name (RmFileHandle.get_record rid) in
        let key := at_ptr (data rec) offset in
        let* x := on_index ih (IxIndexHandle.insert_entry n key rid) in
        let* rid := with_fh tab_name (RmFileHandle.scan_next rid) in
        fill_index n fuel' tab_name offset x.2 rid
  end.

(** [create_index] once it has found the column, number [i]; [page_buf] is the
    indeterminate contents of the local array of [IxManager::create_index]. *)
Definition build_index (n fuel : nat) (page_buf : bytes) (tab_name : string) (i : nat) (col : ColMeta.t) : M sm unit :=
  let col_idx := Z.of_nat i in
  on_pool (IxManager.create_index tab_name col_idx (ColMeta.type col) (ColMeta.len col) page_buf) ;;;
  let* ih := on_pool (IxManager.open_index tab_name col_idx) in
  let* _ := at_fh tab_name in
  let* rid := with_fh tab_name RmFileHandle.RmScan in
  let* ih := fill_index n fuel tab_name (ColMeta.offset col) ih rid in
  let index_name := IxManager.get_index_name tab_name col_idx in
  let* m := gets ihs_ in
  assert (bool_decide (m !! index_name = None)) ;;;
  emplace_ih index_name ih ;;;
  modify (set_col_index tab_name i true).

Definition create_index (n fuel : nat) (page_buf : bytes) (tab_name col_name : string) : M sm unit :=
  let* db := gets db_ in
  let* tab := DbMeta.get_table db tab_name in
  let it := TabMeta.get_col tab col_name in
  let* col := or_ub (deref_col tab it) in
  if ColMeta.index col then throw (IndexExistsError tab_name col_name)
  else
    let* i := or_ub it in
    build_index n fuel page_buf tab_name i col.

(** [db_.tabs_[tab_name]] adds an empty entry when there is none. *)
Definition drop_index (tab_name col_name : string) : M sm unit :=
  modify (λ s, match DbMeta.tabs_ (db_ s) !! tab_name with
               | Some _ => s
               | None => set_db (DbMeta.set_tab tab_name (TabMeta.mk "" []) (db_ s)) s
               end) ;;;
  let* db := gets db_ in
  let* tab := or_ub (DbMeta.tabs_ db !! tab_name) in
  let it := TabMeta.get_col tab col_name in
  let* col := or_ub (deref_col tab it) in
  if negb (ColMeta.index col) then throw (IndexNotFoundError tab_name col_name)
  else
    let* i := or_ub it in
    let col_idx := Z.of_nat i in
    let index_name := IxManager.get_index_name tab_name col_idx in
    let* ih := at_ih index_name in
    on_pool (IxManager.close_index ih) ;;;
    on_pool (IxManager.destroy_index tab_name col_idx) ;;;
    modify (λ s, set_ihs (delete index_name (ihs_ s)) s) ;;;
    modify (set_col_index tab_name i false).

End ops.

(** ** The tables of a reply *)

Definition show_tables (db : DbMeta.t) : M Context unit :=
  let* printer := RecordPrinter.create 1 in
  RecordPrinter.print_separator printer ;;;
  RecordPrinter.print_record printer ["Tables"%string] ;;;
  RecordPrinter.print_separator printer ;;;
  for_each (DbMeta.entries (DbMeta.tabs_ db)) (λ entry,
    RecordPrinter.print_record printer [TabMeta.name entry.2]) ;;;
  RecordPrinter.print_separator printer.

Definition desc_table (db : DbMeta.t) (tab_name : string) : M Context unit :=
  let* tab := DbMeta.get_table db tab_name in
  let captions := ["Field"; "Type"; "Index"]%string in
  let* printer := RecordPrinter.create (zlen captions) in
  RecordPrinter.print_separator printer ;;;
  RecordPrinter.print_record printer captions ;;;
  RecordPrinter.print_separator printer ;;;
  for_each (TabMeta.cols tab) (λ col,
    let field_info := [ColMeta.name col; coltype2str (ColMeta.type col);
                       if ColMeta.index col then "YES" else "NO"]%string in
    RecordPrinter.print_record printer field_info) ;;;
  RecordPrinter.print_separator printer.

End SmManager.
