(* ===== verification/SmThms.v ===== *)
(** Theorems about the system manager: the layout of the columns of a table
    and the effect of [CREATE TABLE]. *)
From S2P Require Import Prelude.
From S2P Require Import Defs.
From S2P Require Import Replacer.
From S2P Require Import Disk.
From S2P Require Import ModelFs.
From S2P Require Import BufferPool.
From S2P Require Import BufferPoolProofs.
From S2P Require Import PoolSpec.
From S2P Require Import RmFile.
From S2P Require Import RmPage.
From S2P Require Import RmFileProofs.
From S2P Require Import RmManager.
From S2P Require Import DemoFile.
From S2P Require Import IxIndex.
From S2P Require Import Txn.
From S2P Require Import SmMeta.
From S2P Require Import RecordPrinter.
From S2P Require Import SmManager.
Import SmManager.

#[local] Open Scope prog_scope.

(** ** The layout of a table *)

Definition total_len (l : list ColDef) : Z := foldr (λ c n, cd_len c + n) 0 l.

(** The columns, one after the other from offset [off] on. *)
Fixpoint layout (tab_name : string) (off : Z) (l : list ColDef) : list ColMeta.t :=
  match l with
  | [] => []
  | c :: l' => ColMeta.mk tab_name (cd_name c) (cd_type c) (cd_len c) off false
                 :: layout tab_name (off + cd_len c) l'
  end.

Definition lens_ok (l : list ColDef) : Prop := Forall (λ c, 0 <= cd_len c) l.

Lemma total_len_nonneg l : lens_ok l → 0 <= total_len l.
Proof. induction 1; simpl; lia. Qed.

(** The loop of [create_table] from offset [off] on. *)
Lemma make_cols_from {S} tab_name l off acc (s : S) :
  lens_ok l → 0 <= off < 2 ^ 31 →
  fold_m (λ '(curr_offset, cols) col_def,
    let col := ColMeta.mk tab_name (cd_name col_def) (cd_type col_def) (cd_len col_def) curr_offset false in
    let* curr_offset := or_ub (s32 (curr_offset + cd_len col_def)) in
    ret (curr_offset, cols ++ [col])) (off, acc) l s
  = if off + total_len l <? 2 ^ 31 then (Ret (off + total_len l, acc ++ layout tab_name off l), s)
    else (UB, s).
Proof.
  intros Hl. revert off acc. induction Hl as [|c l Hc Hl IH]; intros off acc Hoff.
  - simpl. rewrite Z.add_0_r, app_nil_r. by rewrite (proj2 (Z.ltb_lt _ _)) by lia.
  - cbn [fold_m total_len foldr layout]. pose proof (total_len_nonneg l Hl).
    unfold total_len in *. rewrite bind_assoc. unfold s32 at 1.
    destruct (Z.ltb_spec (off + cd_len c) (2 ^ 31)).
    + rewrite (proj2 (Z.leb_le _ _)) by lia. cbn [andb].
      rewrite (bind_or_ub _ _ _ (off + cd_len c)) by done. rewrite bind_ret.
      rewrite IH by lia. rewrite <- (assoc_L (++)), Z.add_assoc. done.
    + rewrite andb_false_r. rewrite (proj2 (Z.ltb_ge _ _)) by lia. done.
Qed.

Lemma make_cols_ok {S} tab_name l (s : S) :
  lens_ok l →
  make_cols tab_name l s
  = if total_len l <? 2 ^ 31 then (Ret (total_len l, layout tab_name 0 l), s) else (UB, s).
Proof. intros Hl. unfold make_cols. by rewrite make_cols_from by (done || lia). Qed.

(** Every column starts where the one before it ends. *)
Lemma layout_lookup tab_name l off i c :
  lens_ok l → layout tab_name off l !! i = Some c →
  off + total_len (take i l) = ColMeta.offset c ∧
  ColMeta.offset c + ColMeta.len c + total_len (drop (S i) l) = off + total_len l ∧
  0 <= ColMeta.len c.
Proof.
  intros Hl. revert off i. induction Hl as [|d l Hd Hl IH]; intros off i; [done|].
  destruct i as [|i]; simpl.
  - intros [= <-]. simpl. unfold total_len. simpl. rewrite drop_0. lia.
  - intros Hi. destruct (IH _ _ Hi) as (H1 & H2 & H3). unfold total_len in *. simpl. lia.
Qed.

Lemma total_len_app l1 l2 : total_len (l1 ++ l2) = total_len l1 + total_len l2.
Proof. induction l1; simpl in *; unfold total_len in *; simpl; lia. Qed.

Lemma lens_ok_take_drop l i : lens_ok l → lens_ok (take i l) ∧ lens_ok (drop i l).
Proof. intros. split; [by apply Forall_take|by apply Forall_drop]. Qed.

Lemma layout_ordered tab_name l i j c d :
  lens_ok l → layout tab_name 0 l !! i = Some c → layout tab_name 0 l !! j = Some d → (i < j)%nat →
  ColMeta.offset c + ColMeta.len c <= ColMeta.offset d.
Proof.
  intros Hl Hi Hj Hij. destruct (layout_lookup _ _ _ _ _ Hl Hi) as (Hc & Hc' & _).
  destruct (layout_lookup _ _ _ _ _ Hl Hj) as (Hd & _).
  pose proof (total_len_app (take j l) (drop j l)) as Ht. rewrite take_drop in Ht.
  pose proof (total_len_app (take (j - S i) (drop (S i) l)) (drop (j - S i) (drop (S i) l))) as Hs.
  rewrite take_drop, drop_drop in Hs. replace (S i + (j - S i))%nat with j in Hs by lia.
  pose proof (total_len_nonneg _ (proj1 (lens_ok_take_drop _ (j - S i) (proj2 (lens_ok_take_drop _ (S i) Hl))))).
  lia.
Qed.

Lemma layout_defs tab_name l off :
  map (λ c, mkColDef (ColMeta.name c) (ColMeta.type c) (ColMeta.len c)) (layout tab_name off l) = l.
Proof. revert off. induction l as [|[n ty ln] l IH]; intros off; simpl; [done|]. by rewrite IH. Qed.

(** The columns of a new table are laid out in the order of the statement, each starting where
    the one before it ends, so no two overlap and all lie inside the record, whose size is the sum
    of the lengths; a sum that does not fit [int] is signed overflow.  This needs lengths that are
    not negative, and the parser does accept [CHAR(-2)]: with it the third column of
    [(a INT, b CHAR(-2), c INT)] overlaps the first. *)
Theorem table_layout {St} (tab_name : string) (l : list ColDef) (s : St) :
  lens_ok l →
  (if total_len l <? 2 ^ 31 then
     ∃ cols, make_cols tab_name l s = (Ret (total_len l, cols), s) ∧
       map (λ c, mkColDef (ColMeta.name c) (ColMeta.type c) (ColMeta.len c)) cols = l ∧
       (∀ i c, cols !! i = Some c →
          ColMeta.tab_name c = tab_name ∧ ColMeta.index c = false ∧
          0 <= ColMeta.offset c ∧ ColMeta.offset c + ColMeta.len c <= total_len l) ∧
       (∀ i j c d, cols !! i = Some c → cols !! j = Some d → (i < j)%nat →
          ColMeta.offset c + ColMeta.len c <= ColMeta.offset d)
   else make_cols tab_name l s = (UB, s)) ∧
  make_cols "t" [mkColDef "a" TYPE_INT 4; mkColDef "b" TYPE_STRING (-2); mkColDef "c" TYPE_INT 4] s
  = (Ret (6, [ColMeta.mk "t" "a" TYPE_INT 4 0 false; ColMeta.mk "t" "b" TYPE_STRING (-2) 4 false;
              ColMeta.mk "t" "c" TYPE_INT 4 2 false]), s).
Proof.
  intros Hl. split; [|done]. rewrite make_cols_ok by done. destruct (Z.ltb_spec (total_len l) (2 ^ 31)); [|done].
  exists (layout tab_name 0 l). split_and!; [done|apply layout_defs| |].
  - intros i c Hi. destruct (layout_lookup _ _ _ _ _ Hl Hi) as (H1 & H2 & H3).
    pose proof (total_len_nonneg _ (proj1 (lens_ok_take_drop _ i Hl))).
    pose proof (total_len_nonneg _ (proj2 (lens_ok_take_drop _ (S i) Hl))).
    split_and!; try lia.
    + clear -Hi. revert i Hi. generalize 0. induction l as [|d l IH]; intros off [|i]; simpl; try done.
      * by intros [= <-].
      * apply IH.
    + clear -Hi. revert i Hi. generalize 0. induction l as [|d l IH]; intros off [|i]; simpl; try done.
      * by intros [= <-].
      * apply IH.
  - intros i j c d. by apply layout_ordered.
Qed.

(** ** [CREATE TABLE] *)

Section tables.
  Context {F : Type} `{PL : PosixLaws F} {R : Type} {RP : Replacer R} {RPL : ReplacerLaws R}.
  Notation sm := (SmManager.t F R).
  Implicit Types (s : sm) (a : Abs).

Lemma sm_on_pool_Ret {A} (m : M (BufferPool.t (DiskManager.t F) R) A) s x p :
  m (bpm s) = (Ret x, p) → on_pool m s = (Ret x, set_bpm p s).
Proof. intros H1. exact (zoom_Ret bpm set_bpm m s x p H1). Qed.

(** The table [name] is open with the handle [x] and the pages [a]. *)
Definition table_open s name a (x : RmFileHandle.handle) : Prop := fhs_ s !! name = Some x ∧ repr (bpm s) a.

(** The rest of the state after an operation of the pool. *)
Definition same_but_pool s s' : Prop := db_ s' = db_ s ∧ fhs_ s' = fhs_ s ∧ ihs_ s' = ihs_ s.

Lemma with_fh_ok {A} s name a x (m : M (RmFileHandle.st (DiskManager.t F) R) A) y st :
  table_open s name a x → m (RmFileHandle.mkSt x (bpm s)) = (Ret y, st) → st_repr st a x →
  ∃ s', with_fh name m s = (Ret y, s') ∧ table_open s' name a x ∧ same_but_pool s s'.
Proof.
  intros [Hx Hr] Hm [Hr' Hfh]. unfold with_fh. rewrite Hx, Hm, Hfh. rewrite insert_id by done.
  eexists. split_and!; [done|by split|done].
Qed.

Lemma table_st_repr s name a x : table_open s name a x → st_repr (RmFileHandle.mkSt x (bpm s)) a x.
Proof. intros [_ Hr]. by split. Qed.

Lemma same_but_pool_trans s1 s2 s3 : same_but_pool s1 s2 → same_but_pool s2 s3 → same_but_pool s1 s3.
Proof. intros (H1 & H2 & H3) (K1 & K2 & K3). split_and!; congruence. Qed.

(** The kernel and the disk manager know no file of that name. *)
Definition new_name (fn : string) (p : BufferPool.t (DiskManager.t F) R) : Prop :=
  sys_stat fn (DiskManager.os (BufferPool.disk_manager_ p)) = None ∧
  DiskManager.path2fd_ (BufferPool.disk_manager_ p) !! fn = None ∧
  fs_free (DiskManager.os (BufferPool.disk_manager_ p)) DiskManager.MAX_FD.

Lemma create_file_bad_size (p : BufferPool.t (DiskManager.t F) R) fn rs :
  ¬ 1 <= rs <= RM_MAX_RECORD_SIZE →
  RmManager.create_file fn rs p = (Throw (InvalidRecordSizeError rs), p).
Proof.
  intros Hrs. unfold RmManager.create_file.
  destruct (Z.ltb_spec rs 1), (Z.ltb_spec RM_MAX_RECORD_SIZE rs); try done. lia.
Qed.

(** The branch that makes the table. *)
Lemma create_table_ok s a tab_name l :
  repr (bpm s) a → lens_ok l → total_len l < 2 ^ 31 → fhs_ s !! tab_name = None →
  DbMeta.is_table (db_ s) tab_name = false → 1 <= total_len l <= RM_MAX_RECORD_SIZE → new_name tab_name (bpm s) →
  ∃ s' a' x, create_table tab_name l s = (Ret tt, s') ∧
    db_ s' = DbMeta.set_tab tab_name (TabMeta.mk tab_name (layout tab_name 0 l)) (db_ s) ∧
    fhs_ s' = <[tab_name := x]> (fhs_ s) ∧ ihs_ s' = ihs_ s ∧
    repr (bpm s') a' ∧ a_view a' = a_view a ∧ rm_ok a' x ∧
    record_size (RmFileHandle.file_hdr_ x) = total_len l ∧ (∀ r, rec_at a' x r = None).
Proof.
  intros Hr Hl Hlt Hnone Htab Hrs (Hst & Hp & Hfree). unfold create_table. step. rewrite Htab.
  erewrite (bind_Ret _ _ _ (total_len l, layout tab_name 0 l)).
  2:{ rewrite make_cols_ok by done. by rewrite (proj2 (Z.ltb_lt _ _)) by lia. }
  cbn beta iota.
  destruct (create_open_ok (bpm s) a tab_name (total_len l) Hr Hrs Hst Hp Hfree) as
    (p1 & p2 & a2 & x & Hc & Ho & Hr2 & Hk & Hh & Hv & _ & _ & Hrec & _).
  run (sm_on_pool_Ret _ _ _ _ Hc). rewrite bind_modify.
  erewrite bind_Ret by (by apply sm_on_pool_Ret). cbn beta iota.
  unfold emplace_fh, modify. cbn [fhs_ set_bpm set_db].
  rewrite decide_False by (rewrite Hnone; apply is_Some_None).
  eexists _, a2, x. split_and!; [done..| |done]. by rewrite Hh.
Qed.

(** The branches that refuse. *)
Lemma create_table_taken s tab_name l :
  DbMeta.is_table (db_ s) tab_name = true → create_table tab_name l s = (Throw (TableExistsError tab_name), s).
Proof. intros Htab. unfold create_table. step. by rewrite Htab. Qed.

Lemma create_table_bad_size s tab_name l :
  lens_ok l → total_len l < 2 ^ 31 → DbMeta.is_table (db_ s) tab_name = false →
  ¬ 1 <= total_len l <= RM_MAX_RECORD_SIZE →
  create_table tab_name l s = (Throw (InvalidRecordSizeError (total_len l)), s).
Proof.
  intros Hl Hlt Htab Hrs. unfold create_table. step. rewrite Htab.
  erewrite (bind_Ret _ _ _ (total_len l, layout tab_name 0 l)).
  2:{ rewrite make_cols_ok by done. by rewrite (proj2 (Z.ltb_lt _ _)) by lia. }
  cbn beta iota. unfold bind, on_pool, zoom. rewrite create_file_bad_size by done. by destruct s.
Qed.

(** C27: [create_table] refuses a name that is taken and a record size outside [1..512] without any
    change; otherwise it adds the table to the metadata with the columns of the statement and opens
    an empty record file for it, whose record size is the sum of the column lengths, and the pages
    of all other files keep their contents. *)
Theorem create_table_correct s a tab_name l :
  repr (bpm s) a → lens_ok l → total_len l < 2 ^ 31 → fhs_ s !! tab_name = None →
  let run := create_table tab_name l s in
  if DbMeta.is_table (db_ s) tab_name then run = (Throw (TableExistsError tab_name), s)
  else if decide (1 <= total_len l <= RM_MAX_RECORD_SIZE) then
    new_name tab_name (bpm s) →
    ∃ s' a' x cols, run = (Ret tt, s') ∧
      make_cols tab_name l s = (Ret (total_len l, cols), s) ∧
      db_ s' = DbMeta.set_tab tab_name (TabMeta.mk tab_name cols) (db_ s) ∧
      fhs_ s' = <[tab_name := x]> (fhs_ s) ∧ ihs_ s' = ihs_ s ∧
      repr (bpm s') a' ∧ a_view a' = a_view a ∧ rm_ok a' x ∧
      record_size (RmFileHandle.file_hdr_ x) = total_len l ∧ (∀ r, rec_at a' x r = None)
  else run = (Throw (InvalidRecordSizeError (total_len l)), s).
Proof.
  intros Hr Hl Hlt Hnone. cbn zeta. destruct (DbMeta.is_table (db_ s) tab_name) eqn:Htab; [by apply create_table_taken|].
  case_decide as Hrs; [|by apply create_table_bad_size]. intros Hnew.
  destruct (create_table_ok s a tab_name l Hr Hl Hlt Hnone Htab Hrs Hnew) as (s' & a' & x & H1 & H2 & H3).
  exists s', a', x, (layout tab_name 0 l). split_and!; [done| |done|naive_solver..].
  rewrite make_cols_ok by done. by rewrite (proj2 (Z.ltb_lt _ _)) by lia.
Qed.

End tables.

(** ** Witnesses *)

Module SmDemo.

Definition sm0 : SmManager.t ModelFs.t LRUReplacer.t :=
  SmManager.mk DbMeta.empty ∅ ∅ DemoFile.pool0.

Definition student : list ColDef :=
  [mkColDef "id" TYPE_INT 4; mkColDef "name" TYPE_STRING 32; mkColDef "gpa" TYPE_FLOAT 4].

(** The table ["r"] of the demo file, with one record. *)
Definition sm1 : SmManager.t ModelFs.t LRUReplacer.t :=
  SmManager.mk (DbMeta.mk "d" ∅) {["r" := RmFileHandle.fh DemoFile.file1]} ∅ (RmFileHandle.bpm DemoFile.file1).

End SmDemo.

Lemma table_layout_witness : ∃ cols, make_cols "student" SmDemo.student tt = (Ret (40, cols), tt) ∧
  ∀ i j c d, cols !! i = Some c → cols !! j = Some d → (i < j)%nat →
    ColMeta.offset c + ColMeta.len c <= ColMeta.offset d.
Proof.
  destruct (table_layout "student" SmDemo.student tt) as [H _]; [repeat constructor; done|].
  destruct H as (cols & H1 & _ & _ & H2). by exists cols.
Defined.

Lemma create_table_correct_witness : ∃ s' x, create_table "student" SmDemo.student SmDemo.sm0 = (Ret tt, s') ∧
  fhs_ s' !! "student"%string = Some x ∧ record_size (RmFileHandle.file_hdr_ x) = 40.
Proof.
  destruct DemoFile.pool0_repr as (V & N & O & Hr & _ & _).
  pose proof (create_table_correct SmDemo.sm0 _ "student" SmDemo.student Hr) as H. cbn zeta in H.
  rewrite decide_True in H by (vm_compute; split; congruence).
  destruct H as (s' & a' & x & cols & H1 & _ & _ & H2 & _ & _ & _ & _ & H3 & _).
  - repeat constructor; done.
  - done.
  - done.
  - split_and!; done.
  - exists s', x. split_and!; [exact H1 | rewrite H2; apply lookup_insert_eq | exact H3].
Defined.
