(* ===== verification/IndexBuild.v ===== *)
(** CREATE INDEX: the index that [SmManager::create_index] builds from the records
    of a table, with the record file and the index on one buffer pool. *)
From S2P Require Import Prelude.
From S2P Require Import Defs.
From S2P Require Import Replacer.
From S2P Require Import Disk.
From S2P Require Import ModelFs.
From S2P Require Import BufferPool.
From S2P Require Import BufferPoolProofs.
From S2P Require Import PoolSpec.
From S2P Require Import Session.
From S2P Require Import RmFile.
From S2P Require Import RmPage.
From S2P Require Import RmFileProofs.
From S2P Require Import RmManager.
From S2P Require Import DemoFile.
From S2P Require Import IxNode.
From S2P Require Import IxOrder.
From S2P Require Import IxNodeProofs.
From S2P Require Import IxIndex.
From S2P Require Import IxManager.
From S2P Require Import IxIndexProofs.
From S2P Require Import IxFileProofs.
From S2P Require Import SmMeta.
From S2P Require Import SmManager.
From S2P Require Import SmThms.
Import IxDefs SmManager.

#[local] Open Scope prog_scope.

(** ** The pairs of an index on a column *)

(** The key of a record: the bytes of the column. *)
Definition key_of (a : Abs) (t : RmFileHandle.handle) (off len : Z) (r : Rid) : bytes :=
  match rec_at a t r with Some d => slice d off len | None => [] end.

Section pairs.
  Context (h : IxFileHdr) (key : Rid → bytes).

(** Records inserted one after the other; one whose key is there is left out. *)
Definition indexed (rs : list Rid) (l : list (bytes * Rid)) : list (bytes * Rid) :=
  foldl (λ l r, ins h (key r) r l) l rs.

Lemma length_ins k v l : (length l <= length (ins h k v l) <= S (length l))%nat.
Proof.
  induction l as [|[k' v'] l IH]; simpl; [lia|].
  destruct (_ <? 0); simpl; [lia|]. destruct (_ =? 0); simpl; lia.
Qed.

Lemma length_indexed rs l : (length l <= length (indexed rs l) <= length rs + length l)%nat.
Proof.
  revert l. induction rs as [|r rs IH]; intros l; [simpl; lia|].
  pose proof (IH (ins h (key r) r l)). pose proof (length_ins (key r) r l). simpl. lia.
Qed.

Lemma indexed_ok rs l :
  Forall (λ r, key_ok h (key r)) rs → sorted h l → keys_ok h l → sorted h (indexed rs l) ∧ keys_ok h (indexed rs l).
Proof.
  intros Hk. revert l. induction Hk as [|r rs Hr _ IH]; intros l Hs Hl; [done|].
  apply IH; [by apply sorted_ins|by apply keys_ok_ins].
Qed.

Lemma assoc_eq a b l : key_ok h a → key_ok h b → keys_ok h l → kcmp h a b = 0 → assoc h a l = assoc h b l.
Proof.
  intros Ha Hb. induction l as [|[k v] l IH]; intros Hl H0; simpl; [done|]. apply keys_ok_cons in Hl as [Hk Hl].
  rewrite (kcmp_anti h a k), (kcmp_anti h b k), (kcmp_eq_l h a b k) by done. by rewrite IH.
Qed.

Lemma indexed_ext (key' : Rid → bytes) rs l :
  (∀ r, key' r = key r) → foldl (λ l r, ins h (key' r) r l) l rs = indexed rs l.
Proof. intros He. revert l. induction rs as [|r rs IH]; intros l; simpl; [done|]. by rewrite IH, He. Qed.

(** The first record wins. *)
Lemma assoc_indexed rs l k :
  Forall (λ r, key_ok h (key r)) rs → sorted h l → keys_ok h l → key_ok h k →
  assoc h k (indexed rs l) = match assoc h k l with Some v => Some v | None => List.find (λ r, kcmp h (key r) k =? 0) rs end.
Proof.
  intros Hrs. revert l. induction Hrs as [|r rs Hr Hrs IH]; intros l Hs Hl Hk; simpl; [by destruct (assoc h k l)|].
  rewrite IH by (done || by apply sorted_ins || by apply keys_ok_ins).
  rewrite assoc_ins by done. destruct (Z.eqb_spec (kcmp h (key r) k) 0) as [He|]; [|done].
  rewrite (assoc_eq (key r) k) by done. by destruct (assoc h k l).
Qed.

End pairs.

(** ** A table next to an index *)

Lemma live_from_ext a a' t p lo :
  (∀ r, rec_at a' t r = rec_at a t r) → live_from a' t p lo = live_from a t p lo.
Proof.
  intros Hr. assert (Hin : ∀ q b, live_in a' t q b = live_in a t q b).
  { intros q b. unfold live_in. f_equal. apply list_filter_iff. intros sl. unfold is_live. by rewrite Hr. }
  unfold live_from. rewrite Hin. f_equal. f_equal. apply list_fmap_ext. intros ? q _. apply Hin.
Qed.

(** Work on another file leaves a table as it is. *)
Lemma rm_ok_elsewhere a a' t fd0 :
  rm_ok a t → file_le fd0 a a' → RmFileHandle.fd_ t ≠ fd0 → rm_ok a' t ∧ ∀ r, rec_at a' t r = rec_at a t r.
Proof.
  intros Hk [Hv Hn Hh Hm Ho Hs] Hne.
  destruct (rm_ok_transport a t a' (RmFileHandle.fd_ t) Hk) as [Hk' Hr].
  - intros p. by apply Hv.
  - rewrite Ho. apply Hk.
  - rewrite Hn by done. apply Hk.
  - intros p. destruct (rk_idle _ _ Hk p). split; [by rewrite Hh|by rewrite Hm].
  - destruct t. done.
Qed.

Lemma rec_at_bytes a t r d :
  rm_ok a t → rec_at a t r = Some d → zlen d = record_size (RmFileHandle.file_hdr_ t) ∧ Forall is_u8 d ∧ in_file t r.
Proof.
  intros Hk. unfold rec_at. case_decide as Hin; [|done]. destruct (rk_page _ _ Hk _ (proj1 Hin)) as (m & Hm & Hl & Hu & _).
  rewrite Hm. simpl. destruct (page_bit m (rid_slot_no r)); [|done]. intros [= <-].
  pose proof (hdr_layout _ (rk_hdr _ _ Hk)) as (_ & _ & Hb & Hsz & Hfit). destruct Hin as [Hp Hs].
  split; [|split; [|done]].
  - unfold page_slot. apply length_slice; unfold get_slot, slots_off, bitmap_off, sizeof_RmPageHdr, OFFSET_PAGE_HDR in *; nia.
  - unfold page_slot, slice. by apply Forall_take, Forall_drop.
Qed.

Lemma slice_at_ptr (d : bytes) off len :
  0 <= off → 0 <= len → off + len <= zlen d → slice (at_ptr d off) 0 len = slice d off len ∧ len <= zlen (at_ptr d off).
Proof.
  intros Ho Hl Hd. unfold at_ptr. rewrite (proj2 (Z.leb_le _ _)) by done. split.
  - unfold slice. by rewrite drop_0.
  - rewrite length_drop. lia.
Qed.

Section build.
  Context {F : Type} `{PL : PosixLaws F} {R : Type} {RP : Replacer R} {RPL : ReplacerLaws R}.
  Notation sm := (SmManager.t F R).
  Implicit Types (s : sm) (a : Abs) (t : RmFileHandle.handle) (x : IxIndexHandle.handle).

(** A column inside the records, whose [FLOAT] values are numbers. *)
Record col_in a t (ty : ColType) (off len : Z) : Prop := {
  ci_len : len_ok ty len;
  ci_off : 0 <= off;
  ci_end : off + len <= record_size (RmFileHandle.file_hdr_ t);
  ci_nan r d : ty = TYPE_FLOAT → rec_at a t r = Some d → f32_nan (dec32 (slice d off len)) = false }.

Lemma key_of_ok a t ty off len order r d :
  rm_ok a t → col_in a t ty off len → rec_at a t r = Some d →
  key_ok (IxManager.new_file_hdr ty len order) (slice d off len).
Proof.
  intros Hk Hc Hr. destruct (rec_at_bytes a t r d Hk Hr) as (Hl & Hu & _).
  pose proof (ci_len _ _ _ _ _ Hc) as [Hlen _]. pose proof (ci_off _ _ _ _ _ Hc). pose proof (ci_end _ _ _ _ _ Hc).
  split; [|split].
  - simpl. apply length_slice; lia.
  - unfold slice. by apply Forall_take, Forall_drop.
  - simpl. intros Hty. apply (ci_nan _ _ _ _ _ Hc r d); [|done]. by destruct ty.
Qed.

Lemma on_index_Ret {A} s a x (m : M (IxIndexHandle.st (DiskManager.t F) R) A) y st a' x' :
  m (IxIndexHandle.mkSt x (bpm s)) = (Ret y, st) → IxIndexProofs.st_repr st a' x' →
  ∃ s', on_index x m s = (Ret (y, x'), s') ∧ repr (bpm s') a' ∧ same_but_pool s s'.
Proof. intros Hm [Hr Hx]. unfold on_index. rewrite Hm, Hx. eexists. by split. Qed.

(** One record of the loop. *)
Lemma fill_step s a tab t x l ty off len order n fuel r rest :
  table_open s tab a t → rm_ok a t → RmFileProofs.room a → ix_one a x l →
  IxIndexHandle.file_hdr_ x = IxManager.new_file_hdr ty len order → IxIndexHandle.fd_ x ≠ RmFileHandle.fd_ t →
  col_in a t ty off len → 1 <= rid_page_no r → is_Some (rec_at a t r) →
  live_from a t (rid_page_no r) (rid_slot_no r + 1) = rest →
  zlen (ins (IxIndexHandle.file_hdr_ x) (key_of a t off len r) r l) <= btree_order (IxIndexHandle.file_hdr_ x) →
  ∃ s' a', fill_index (S n) (S fuel) tab off x r s = fill_index (S n) fuel tab off x (head_or_end rest) s' ∧
    table_open s' tab a' t ∧ ix_one a' x (ins (IxIndexHandle.file_hdr_ x) (key_of a t off len r) r l) ∧
    file_le (IxIndexHandle.fd_ x) a a' ∧ same_but_pool s s'.
Proof.
  intros Ht Hk Hroom Hone Hh Hne Hc Hr1 [d Hd] Hrest Hmax.
  destruct (rec_at_bytes a t r d Hk Hd) as (Hl & Hu & Hin). pose proof Hin as [Hp Hs].
  destruct (rk_page _ _ Hk _ Hp) as (m & Hm & _).
  destruct (get_record_ok _ a t r m (table_st_repr _ _ _ _ Ht) Hk Hroom Hin Hm) as (st1 & Hg & Hst1).
  assert (Hdm : page_slot (RmFileHandle.file_hdr_ t) m (rid_slot_no r) = d).
  { rewrite (rec_at_page a t r m Hin Hm) in Hd. by destruct (page_bit m (rid_slot_no r)); [injection Hd|]. }
  rewrite Hdm in Hg.
  destruct (with_fh_ok s tab a t _ _ _ Ht Hg Hst1) as (s1 & Hw & Ht1 & Hsame1).
  assert (Hkey : key_of a t off len r = slice d off len) by (unfold key_of; by rewrite Hd). rewrite Hkey in *.
  pose proof (ci_len _ _ _ _ _ Hc) as [Hlen _]. pose proof (ci_off _ _ _ _ _ Hc). pose proof (ci_end _ _ _ _ _ Hc).
  destruct (slice_at_ptr d off len) as [Hsl Hal]; [done|lia|lia|].
  pose proof (key_of_ok a t ty off len order r d Hk Hc Hd) as Hok.
  destruct (insert_one a x l Hone Hroom (IxIndexHandle.mkSt x (bpm s1)) n (at_ptr d off) (slice d off len) r)
    as (st2 & m' & Hins & Hst2 & Hone2).
  { split; [apply Ht1|done]. }
  { split; [by rewrite Hh|]. split; [by rewrite Hh|]. split; [|by rewrite Hh].
    unfold at_ptr. destruct (0 <=? off); [by apply Forall_drop|constructor]. }
  { pose proof (rk_max _ _ Hk). unfold is_s32 in *. lia. }
  { pose proof (hdr_layout _ (rk_hdr _ _ Hk)). unfold is_s32. lia. }
  { done. }
  destruct (on_index_Ret s1 a x _ _ _ _ _ Hins Hst2) as (s2 & Hon & Hr2 & Hsame2).
  set (a2 := a_set (root_of x) m' a) in *.
  assert (Hle : file_le (IxIndexHandle.fd_ x) a a2) by apply (file_le_set (root_of x)).
  destruct (rm_ok_elsewhere a a2 t _ Hk Hle) as [Hk2 Hrec2]; [done|].
  assert (Ht2 : table_open s2 tab a2 t).
  { split; [|done]. destruct Hsame2 as (_ & -> & _). apply Ht1. }
  assert (Hroom2 : RmFileProofs.room a2) by exact Hroom.
  destruct (scan_next_ok _ a2 t r (table_st_repr _ _ _ _ Ht2) Hk2 Hroom2 Hin) as (st3 & Hn & Hst3).
  destruct (with_fh_ok s2 tab a2 t _ _ _ Ht2 Hn Hst3) as (s3 & Hw3 & Ht3 & Hsame3).
  exists s3, a2. split_and!; [|done|done|done|eapply same_but_pool_trans; [exact Hsame1|by eapply same_but_pool_trans]].
  cbn [fill_index]. assert (RmFileHandle.scan_is_end r = false) as ->.
  { unfold RmFileHandle.scan_is_end, RM_NO_PAGE. apply Z.eqb_neq. lia. }
  run Hw. run Hon. run Hw3. rewrite (live_from_ext a a2) by done. by rewrite Hrest.
Qed.

Lemma key_of_ext a a' t off len r : (∀ r, rec_at a' t r = rec_at a t r) → key_of a' t off len r = key_of a t off len r.
Proof. intros Hr. unfold key_of. by rewrite Hr. Qed.

Lemma col_in_ext a a' t ty off len :
  (∀ r, rec_at a' t r = rec_at a t r) → col_in a t ty off len → col_in a' t ty off len.
Proof. intros Hr [? ? ? Hnan]. split; try done. intros q d Hty. rewrite Hr. by apply Hnan. Qed.

(** A file that was not open before does not touch a table that was. *)
Lemma new_file_table a a' t x :
  rm_ok a t → (IxIndexHandle.fd_ x ∉ a_open a) →
  (∀ j, BufferPool.fd j ≠ IxIndexHandle.fd_ x → a_view a' !! j = a_view a !! j) →
  a_held a' = a_held a → a_mod a' = a_mod a → a_open a' = {[IxIndexHandle.fd_ x]} ∪ a_open a →
  (∀ y, y ∈ a_open a → a_next a' y = a_next a y) → rm_ok a' t ∧ ∀ r, rec_at a' t r = rec_at a t r.
Proof.
  intros Hk Hnew Hv Hh Hm Ho Hn. pose proof (rk_open _ _ Hk) as Hop.
  destruct (rm_ok_transport a t a' (RmFileHandle.fd_ t) Hk) as [Hk' Hr].
  - intros p. apply Hv. simpl. by intros E; rewrite E in Hop.
  - rewrite Ho. set_solver.
  - rewrite Hn by done. apply Hk.
  - intros p. destruct (rk_idle _ _ Hk p). split; [by rewrite Hh|by rewrite Hm].
  - destruct t. done.
Qed.

Lemma live_keys a t ty off len order :
  rm_ok a t → col_in a t ty off len →
  Forall (λ r, key_ok (IxManager.new_file_hdr ty len order) (key_of a t off len r)) (live_records a t).
Proof.
  intros Hk Hc. apply Forall_forall. intros r [d Hd]%(elem_of_live_records a t); [|done].
  unfold key_of. rewrite Hd. by apply (key_of_ok a t ty off len order r).
Qed.

Lemma set_col_index_rest tab i b s :
  fhs_ (set_col_index tab i b s) = fhs_ s ∧ ihs_ (set_col_index tab i b s) = ihs_ s ∧ bpm (set_col_index tab i b s) = bpm s.
Proof. unfold set_col_index. by destruct (_ !! tab). Qed.

Lemma set_col_index_db tab i b s s' :
  db_ s' = db_ s → db_ (set_col_index tab i b s') = db_ (set_col_index tab i b s).
Proof. unfold set_col_index. intros E. rewrite E. by destruct (_ !! tab); simpl; rewrite ?E. Qed.

(** The loop, from a position of the table on. *)
Lemma fill_index_ok tab t x ty off len order n rs : ∀ s a l p lo fuel,
  table_open s tab a t → rm_ok a t → RmFileProofs.room a → ix_one a x l →
  IxIndexHandle.file_hdr_ x = IxManager.new_file_hdr ty len order → IxIndexHandle.fd_ x ≠ RmFileHandle.fd_ t →
  col_in a t ty off len → 1 <= p → 0 <= lo → live_from a t p lo = rs → (∀ r, r ∈ rs → is_Some (rec_at a t r)) →
  zlen (indexed (IxIndexHandle.file_hdr_ x) (key_of a t off len) rs l) <= btree_order (IxIndexHandle.file_hdr_ x) →
  (length rs < fuel)%nat →
  ∃ s' a', fill_index (S n) fuel tab off x (head_or_end rs) s = (Ret x, s') ∧ table_open s' tab a' t ∧
    ix_one a' x (indexed (IxIndexHandle.file_hdr_ x) (key_of a t off len) rs l) ∧
    file_le (IxIndexHandle.fd_ x) a a' ∧ same_but_pool s s'.
Proof.
  induction rs as [|r rs IH]; intros s a l p lo fuel Ht Hk Hroom Hone Hh Hne Hc Hp Hlo Hrs Hsome Hmax Hf;
    (destruct fuel as [|fuel]; [simpl in Hf; lia|]).
  { exists s, a. split_and!; try done. }
  destruct (live_from_cons a t p lo r rs Hk Hp Hlo Hrs) as (Hrest & Hpr & Hsr & _).
  set (h := IxIndexHandle.file_hdr_ x) in *. set (key := key_of a t off len) in *.
  destruct (fill_step s a tab t x l ty off len order n fuel r rs Ht Hk Hroom Hone Hh Hne Hc ltac:(lia))
    as (s1 & a1 & Hrun & Ht1 & Hone1 & Hle1 & Hsame1); [apply Hsome; by left|done| |].
  { fold h. fold key. pose proof (length_indexed h key rs (ins h (key r) r l)). simpl in Hmax. lia. }
  destruct (rm_ok_elsewhere a a1 t _ Hk Hle1) as [Hk1 Hrec1]; [done|].
  destruct (IH s1 a1 (ins h (key r) r l) (rid_page_no r) (rid_slot_no r + 1) fuel) as (s2 & a2 & Hrun2 & Ht2 & Hone2 & Hle2 & Hsame2);
    try done; try lia.
  - unfold RmFileProofs.room in *. by rewrite (fl_held _ _ _ Hle1), (fl_size _ _ _ Hle1).
  - by apply (col_in_ext a).
  - by rewrite (live_from_ext a a1).
  - intros q Hq. rewrite Hrec1. apply Hsome. by right.
  - unfold indexed in *. erewrite indexed_ext; [exact Hmax|]. intros q. by apply key_of_ext.
  - simpl in Hf. lia.
  - exists s2, a2. cbn [head_or_end]. rewrite Hrun. split; [done|]. split; [done|]. split; [|split].
    + unfold indexed in Hone2. erewrite indexed_ext in Hone2; [exact Hone2|]. intros q. by apply key_of_ext.
    + by etrans.
    + by eapply same_but_pool_trans.
Qed.

(** The state that [build_index] leaves, with the pairs of the index. *)
Lemma build_index_ok s a t tab i col order n fuel buf :
  let name := IxManager.get_index_name tab (Z.of_nat i) in
  let h := IxManager.new_file_hdr (ColMeta.type col) (ColMeta.len col) order in
  let key := key_of a t (ColMeta.offset col) (ColMeta.len col) in
  table_open s tab a t → rm_ok a t → RmFileProofs.room a →
  col_in a t (ColMeta.type col) (ColMeta.offset col) (ColMeta.len col) →
  IxManager.btree_order_of (ColMeta.len col) = Some order → zlen (indexed h key (live_records a t) []) <= order →
  zlen buf = PAGE_SIZE → Forall is_u8 buf → new_name name (bpm s) → (∀ y, is_s32 (a_next a y + 1)) →
  ihs_ s !! name = None → (length (live_records a t) < fuel)%nat →
  ∃ s4 a' x, build_index (S n) fuel buf tab i col s =
      (Ret tt, set_col_index tab i true (set_ihs (<[name := x]> (ihs_ s)) s4)) ∧
    same_but_pool s s4 ∧ table_open s4 tab a' t ∧ rm_ok a' t ∧ (∀ r, rec_at a' t r = rec_at a t r) ∧
    IxIndexProofs.room a' ∧ IxIndexHandle.file_hdr_ x = h ∧ ix_one a' x (indexed h key (live_records a t) []).
Proof.
  intros name h key Ht Hk Hroom Hc Hord Hmax Hbl Hbu (Hst & Hp & Hfree) Hn32 Hnone Hf. pose proof Ht as [Hfh Hr].
  destruct (new_index_ok (bpm s) a tab (Z.of_nat i) (ColMeta.type col) (ColMeta.len col) buf Hr ltac:(lia)
    (ci_len _ _ _ _ _ Hc) Hbl Hbu Hst Hp Hfree Hn32) as
    (p1 & p2 & a2 & x & order' & Hcr & Hop & Hr2 & Hone & Hord' & Hh & Hnew & Hv & Hhe & Hmo & Hope & Hsz & Hnx).
  assert (order' = order) as -> by congruence. fold h in Hh.
  assert (Hne : IxIndexHandle.fd_ x ≠ RmFileHandle.fd_ t) by (intros E; apply Hnew; rewrite E; apply Hk).
  destruct (new_file_table a a2 t x Hk) as [Hk2 Hrec2]; try done.
  assert (Hroom2 : RmFileProofs.room a2) by (unfold RmFileProofs.room in *; by rewrite Hhe, Hsz).
  assert (Hlive : live_records a2 t = live_records a t) by by apply live_from_ext.
  assert (Ht2 : table_open (set_bpm p2 (set_bpm p1 s)) tab a2 t) by by split.
  destruct (rm_scan_ok _ a2 t (table_st_repr _ _ _ _ Ht2) Hk2 Hroom2) as (st3 & Hsc & Hst3).
  destruct (with_fh_ok _ tab a2 t _ _ _ Ht2 Hsc Hst3) as (s3 & Hw & Ht3 & Hsame3). rewrite Hlive in Hw.
  assert (Hkeys : ∀ l, foldl (λ l r, ins h (key_of a2 t (ColMeta.offset col) (ColMeta.len col) r) r l) l (live_records a t)
    = indexed h key (live_records a t) l).
  { intros l. apply indexed_ext. intros r. by apply key_of_ext. }
  destruct (fill_index_ok tab t x (ColMeta.type col) (ColMeta.offset col) (ColMeta.len col) order n (live_records a t)
    s3 a2 [] RM_FIRST_RECORD_PAGE 0 fuel) as (s4 & a4 & Hfill & Ht4 & Hone4 & Hle4 & Hsame4); try done.
  { by apply (col_in_ext a). }
  { intros r Hin. rewrite Hrec2. by apply (elem_of_live_records a t). }
  { unfold indexed. rewrite Hh, Hkeys. exact Hmax. }
  rewrite Hh in Hone4. unfold indexed in Hone4. rewrite Hkeys in Hone4.
  destruct (rm_ok_elsewhere a2 a4 t _ Hk2 Hle4) as [Hk4 Hrec4]; [done|].
  assert (Hs4 : same_but_pool s s4) by (eapply same_but_pool_trans; [|exact Hsame4]; exact Hsame3).
  exists s4, a4, x. split; [|split_and!; try done].
  - pose proof Hs4 as (_ & _ & Eih). unfold build_index. run (sm_on_pool_Ret _ _ _ _ Hcr).
    run (sm_on_pool_Ret _ (set_bpm p1 s) _ _ Hop).
    erewrite bind_Ret by (unfold at_fh; rewrite bind_gets; simpl; by rewrite Hfh). run Hw. run Hfill. rewrite bind_gets.
    fold name. rewrite Eih, Hnone. rewrite (bind_Ret _ _ _ tt s4) by done.
    unfold emplace_ih. by rewrite bind_modify, Eih, Hnone.
  - intros r. by rewrite Hrec4.
  - unfold IxIndexProofs.room, RmFileProofs.room in *. by rewrite (fl_held _ _ _ Hle4), (fl_size _ _ _ Hle4).
Qed.

(** C28: CREATE INDEX, once the column is found, makes an index of the table: the file is
    created and opened, the loop over the records ends, the record file keeps every
    record, the handle and the flag of the column are stored, and the index then answers a
    lookup of a key with the first record, in the order of the scan, that has the key in
    that column, and with nothing when no record has it; records with the key of an earlier
    one are not in the index.  The keys fit in one leaf, that is at most
    [btree_order] of them are different. *)
Theorem build_index_correct s a t tab i col order n fuel buf :
  let name := IxManager.get_index_name tab (Z.of_nat i) in
  let h := IxManager.new_file_hdr (ColMeta.type col) (ColMeta.len col) order in
  let key := key_of a t (ColMeta.offset col) (ColMeta.len col) in
  table_open s tab a t → rm_ok a t → RmFileProofs.room a →
  col_in a t (ColMeta.type col) (ColMeta.offset col) (ColMeta.len col) →
  IxManager.btree_order_of (ColMeta.len col) = Some order → zlen (indexed h key (live_records a t) []) <= order →
  zlen buf = PAGE_SIZE → Forall is_u8 buf → new_name name (bpm s) → (∀ y, is_s32 (a_next a y + 1)) →
  ihs_ s !! name = None → (length (live_records a t) < fuel)%nat →
  ∃ s' a' x, build_index (S n) fuel buf tab i col s = (Ret tt, s') ∧
    table_open s' tab a' t ∧ rm_ok a' t ∧ (∀ r, rec_at a' t r = rec_at a t r) ∧
    ihs_ s' = <[name := x]> (ihs_ s) ∧ db_ s' = db_ (set_col_index tab i true s) ∧ fhs_ s' = fhs_ s ∧
    IxIndexHandle.file_hdr_ x = h ∧
    ∀ m mem k res, is_key x mem k → ∃ st',
      IxIndexHandle.GetValue (S m) mem res (IxIndexHandle.mkSt x (bpm s')) =
        (Ret (match List.find (λ r, kcmp h (key r) k =? 0) (live_records a t) with
              | Some r => (true, res ++ [r]) | None => (false, res) end), st').
Proof.
  intros name h key Ht Hk Hroom Hc Hord Hmax Hbl Hbu Hnew Hn32 Hnone Hf.
  destruct (build_index_ok s a t tab i col order n fuel buf Ht Hk Hroom Hc Hord Hmax Hbl Hbu Hnew Hn32 Hnone Hf)
    as (s4 & a4 & x & Hrun & (Edb & Efh & Eih) & Ht4 & Hk4 & Hrec4 & Hroom4 & Hh & Hone4). fold name h key in Hrun, Hone4, Hh.
  destruct (set_col_index_rest tab i true (set_ihs (<[name := x]> (ihs_ s)) s4)) as (E1 & E2 & E3).
  pose proof Ht4 as [Hfh4 Hr4]. set (s5 := set_col_index tab i true _) in *. exists s5, a4, x. split_and!; try done.
  - split; [by rewrite E1|by rewrite E3].
  - by apply set_col_index_db.
  - by rewrite E1.
  - intros m mem k res Hmem.
    assert (Hst5 : IxIndexProofs.st_repr (IxIndexHandle.mkSt x (bpm s5)) a4 x) by (split; [simpl; by rewrite E3|done]).
    destruct (GetValue_one a4 x _ Hone4 Hroom4 _ m mem k res Hst5 Hmem) as (st' & Hget & _).
    exists st'. rewrite Hget, Hh, (assoc_indexed h key _ []); [|apply live_keys; done|by intros i1 i2 ? ? _ ?|by intros ? ? ?%elem_of_nil|].
    + simpl. by destruct (List.find _ _).
    + rewrite <- Hh. apply Hmem.
Qed.

End build.

(** ** Witness *)

Module BuildDemo.

Definition col : ColMeta.t := ColMeta.mk "r" "x" TYPE_INT 4 0 false.

End BuildDemo.

Lemma counter_s32 (m : gmap Z Z) :
  map_Forall (λ _ n, - 2 ^ 31 <= n + 1 < 2 ^ 31) m → ∀ y, is_s32 (default 0 (m !! y) + 1).
Proof. intros Hm y. destruct (m !! y) eqn:E; simpl; [by apply (Hm y)|]. unfold is_s32. lia. Qed.

Lemma demo_free : fs_free (DiskManager.os (BufferPool.disk_manager_ (bpm SmDemo.sm1))) DiskManager.MAX_FD.
Proof. vm_compute. reflexivity. Qed.

Lemma demo_col a t : record_size (RmFileHandle.file_hdr_ t) = 8 → col_in a t TYPE_INT 0 4.
Proof. intros Hsz. split; [by split|done|by rewrite Hsz|done]. Qed.

Lemma demo_key h : h = IxManager.new_file_hdr TYPE_INT 4 338 → ∀ x, IxIndexHandle.file_hdr_ x = h →
  is_key x DemoFile.record [1; 2; 3; 4].
Proof.
  intros -> x Hh. unfold is_key. rewrite Hh. split; [done|]. split; [vm_compute; congruence|].
  split; [by repeat constructor|]. split; [done|]. split; [by repeat constructor|done].
Qed.

Lemma demo_found a t rid {St} : rec_at a t rid = Some DemoFile.record → ∀ st' : St,
  (Ret (match List.find (λ r, kcmp (IxManager.new_file_hdr TYPE_INT 4 338) (key_of a t 0 4 r) [1; 2; 3; 4] =? 0) [rid] with
        | Some r => (true, [] ++ [r]) | None => (false, []) end), st') = (Ret (true, [rid]), st').
Proof. intros Hrec st'. cbn [List.find]. unfold key_of. rewrite Hrec. reflexivity. Qed.

Lemma build_index_correct_witness : ∃ s' x rid st',
  build_index 1 2 zero_page "r" 0 BuildDemo.col SmDemo.sm1 = (Ret tt, s') ∧
  ihs_ s' = {["r.0.idx"%string := x]} ∧
  IxIndexHandle.GetValue 1 DemoFile.record [] (IxIndexHandle.mkSt x (bpm s')) = (Ret (true, [rid]), st').
Proof.
  destruct DemoFile.file1_ok as (a & t & rid & _ & [Hr Hx] & Hk & Hroom & Hsz & Hrec & Hin & Hlive).
  destruct (build_index_correct SmDemo.sm1 a t "r" 0 BuildDemo.col 338 0 2 zero_page) as
    (s' & a' & x & Hrun & _ & _ & _ & Hih & _ & _ & Hh & Hget).
  - split; [|exact Hr]. simpl. rewrite Hx. apply lookup_insert_eq.
  - exact Hk.
  - exact Hroom.
  - exact (demo_col a t Hsz).
  - reflexivity.
  - rewrite Hlive. simpl. lia.
  - exact zero_page_length.
  - exact zero_page_u8.
  - split_and!; [vm_compute; reflexivity|vm_compute; reflexivity|apply demo_free].
  - intros y. rewrite <- (r_next _ _ Hr). apply counter_s32. apply (bool_decide_unpack _). vm_compute. exact I.
  - reflexivity.
  - rewrite Hlive. simpl. lia.
  - destruct (Hget 0%nat DemoFile.record [1; 2; 3; 4] []) as (st' & Hst').
    { exact (demo_key _ eq_refl x Hh). }
    exists s', x, rid, st'. split; [exact Hrun|]. split; [exact Hih|].
    rewrite Hst', Hlive. exact (demo_found a t rid Hrec st').
Defined.
