(* ===== verification/Query.v ===== *)
(** Values, conditions and the common part of the executors,
    [src/src/execution/execution_manager.h] and [executor_abstract.h].

    A [float] is its bit pattern; the union of [Value] is one word, which
    [int_val] and [float_val] share.  [raw] is filled once by [init_raw] and
    never changed afterwards, so its sharing by copies of a value does not
    show.  [Executor] is the interface of [AbstractExecutor]. *)
From Stdlib Require Import Ascii.
From S2P Require Import Prelude.
From S2P Require Import Defs.
From S2P Require Import RmFile.
From S2P Require Import IxNode.
From S2P Require Import SmMeta.
From S2P Require Import RecordPrinter.

#[local] Open Scope prog_scope.

(** ** Columns, values and conditions *)

Record TabCol := mkTabCol { tc_tab_name : string; tc_col_name : string }.

#[export] Instance TabCol_eq_dec : EqDecision TabCol.
Proof. solve_decision. Defined.

#[export] Instance TabCol_countable : Countable TabCol.
Proof.
  refine (inj_countable' (λ c, (tc_tab_name c, tc_col_name c)) (λ p, mkTabCol p.1 p.2) _).
  by intros [].
Defined.

(** [operator<] of [TabCol], the order of [std::pair]. *)
Definition TabCol_ltb (x y : TabCol) : bool :=
  String.ltb (tc_tab_name x) (tc_tab_name y)
  || (negb (String.ltb (tc_tab_name y) (tc_tab_name x)) && String.ltb (tc_col_name x) (tc_col_name y)).

Module Value.

Record t := mk {
  type : option ColType;
  (** [int_val] and [float_val] *)
  num : option Z;
  str_val : string;
  raw : option RmRecord
}.

Definition empty : t := mk None None "" None.
Definition set_int (int_val_ : Z) (v : t) : t := mk (Some TYPE_INT) (Some int_val_) (str_val v) (raw v).
Definition set_float (float_val_ : Z) (v : t) : t := mk (Some TYPE_FLOAT) (Some float_val_) (str_val v) (raw v).
Definition set_str (str_val_ : string) (v : t) : t := mk (Some TYPE_STRING) (num v) str_val_ (raw v).

(** [new char[len]]; every byte is written before it is read. *)
Definition new_raw {S} (len : Z) : M S bytes :=
  if len <? 0 then throw BadArrayLength else ret (replicate (Z.to_nat len) 0).

Definition init_raw {S} (len : Z) (v : t) : M S t :=
  assert (bool_decide (raw v = None)) ;;;
  let* buf := new_raw len in
  let* ty := or_ub (type v) in
  let* buf :=
    match ty with
    | TYPE_INT | TYPE_FLOAT =>
        assert (len =? sizeof_int) ;;;
        let* n := or_ub (num v) in
        or_ub (store32 buf 0 n)
    | TYPE_STRING =>
        if len <? to_s32 (Z.of_nat (String.length (str_val v))) then throw StringOverflowError
        else
          let* buf := or_ub (mem_set buf 0 0 len) in
          or_ub (mem_write buf 0 (str_bytes (str_val v)))
    end in
  ret (mk (type v) (num v) (str_val v) (Some (mkRmRecord buf))).

End Value.

#[export] Instance RmRecord_eq_dec : EqDecision RmRecord.
Proof. solve_decision. Defined.

Inductive CompOp := OP_EQ | OP_NE | OP_LT | OP_GT | OP_LE | OP_GE.

#[export] Instance CompOp_eq_dec : EqDecision CompOp.
Proof. solve_decision. Defined.

Module Condition.

Record t := mk {
  lhs_col : TabCol;
  op : CompOp;
  is_rhs_val : bool;
  rhs_col : TabCol;
  rhs_val : Value.t
}.

Definition set_lhs (c : TabCol) (x : t) : t := mk c (op x) (is_rhs_val x) (rhs_col x) (rhs_val x).
Definition set_rhs_col (c : TabCol) (x : t) : t := mk (lhs_col x) (op x) (is_rhs_val x) c (rhs_val x).
Definition set_rhs_val (v : Value.t) (x : t) : t := mk (lhs_col x) (op x) (is_rhs_val x) (rhs_col x) v.
(** [cond.is_rhs_val = true; cond.rhs_val = v] *)
Definition bind_rhs (v : Value.t) (x : t) : t := mk (lhs_col x) (op x) true (rhs_col x) v.

End Condition.

Record SetClause := mkSetClause { sc_lhs : TabCol; sc_rhs : Value.t }.

(** ** [AbstractExecutor] *)

(** The position and the column found by [std::find_if]. *)
Definition get_col {S} (rec_cols : list ColMeta.t) (target : TabCol) : M S (nat * ColMeta.t) :=
  match list_find (λ col, ColMeta.tab_name col = tc_tab_name target ∧
                          ColMeta.name col = tc_col_name target) rec_cols with
  | None => throw (ColumnNotFoundError (tc_tab_name target ++ "." ++ tc_col_name target)%string)
  | Some p => ret p
  end.

(** [std::string(buf, len)] cut at its first NUL. *)
Fixpoint str_of_bytes (b : bytes) : string :=
  match b with
  | [] => ""%string
  | x :: b' => if to_u8 x =? 0 then ""%string
               else String (ascii_of_N (Z.to_N (to_u8 x))) (str_of_bytes b')
  end.

(** The value of a column of a record. *)
Definition field_value {S} (col : ColMeta.t) (rec : RmRecord) : M S Value.t :=
  match ColMeta.type col with
  | TYPE_INT =>
      let* n := or_ub (load32 (data rec) (ColMeta.offset col)) in ret (Value.set_int n Value.empty)
  | TYPE_FLOAT =>
      let* n := or_ub (load32 (data rec) (ColMeta.offset col)) in ret (Value.set_float n Value.empty)
  | TYPE_STRING =>
      let* b := or_ub (mem_read (data rec) (ColMeta.offset col) (ColMeta.len col)) in
      ret (Value.set_str (str_of_bytes b) Value.empty)
  end.

Definition col_key (col : ColMeta.t) : TabCol := mkTabCol (ColMeta.tab_name col) (ColMeta.name col).

Definition rec2dict {S} (cols : list ColMeta.t) (rec : RmRecord) : M S (gmap TabCol Value.t) :=
  fold_m (λ (rec_dict : gmap TabCol Value.t) col,
    let key := col_key col in
    let* val := field_value col rec in
    assert (bool_decide (rec_dict !! key = None)) ;;;
    let* val := Value.init_raw (ColMeta.len col) val in
    ret (<[key := val]> rec_dict)) ∅ cols.

(** The virtual methods; [W] is the rest of the state, [E] the executor. *)
Class Executor (W E : Type) := {
  (** [None]: read before it has a value *)
  tupleLen : E → option Z;
  (** [cols()] of the base class dereferences a null pointer *)
  cols : E → option (list ColMeta.t);
  beginTuple : M (E * W) unit;
  nextTuple : M (E * W) unit;
  is_end : M (E * W) bool;
  (** [None]: the null pointer *)
  Next : M (E * W) (option RmRecord);
  feed : gmap TabCol Value.t → M (E * W) unit;
  rid : E → option Rid
}.

(** The methods an executor that does not override them inherits. *)
Definition base_tupleLen : Z := 0.
Definition base_cols : option (list ColMeta.t) := None.
Definition base_beginTuple {S} : M S unit := ret tt.
Definition base_nextTuple {S} : M S unit := ret tt.
Definition base_is_end {S} : M S bool := ret true.
Definition base_feed {S} (feed_dict : gmap TabCol Value.t) : M S unit := ret tt.

(** The loops of the statements over an executor: [for (begin; !is_end; next)
    body], with the values the bodies give.  [fuel] bounds the tuples. *)
Section drive.
  Context {W E : Type} {EX : Executor W E} {A : Type} (body : M (E * W) A).

Fixpoint drive_from (fuel : nat) : M (E * W) (list A) :=
  match fuel with
  | O => out_of_fuel
  | S fuel' =>
      let* e := is_end in
      if e then ret []
      else
        let* x := body in
        nextTuple ;;;
        let* l := drive_from fuel' in
        ret (x :: l)
  end.

Definition drive (fuel : nat) : M (E * W) (list A) := beginTuple ;;; drive_from fuel.

End drive.

(** ** Conditions on a record, [eval_cond] of the scans *)

Definition op_holds (op : CompOp) (cmp : Z) : bool :=
  match op with
  | OP_EQ => cmp =? 0
  | OP_NE => negb (cmp =? 0)
  | OP_LT => cmp <? 0
  | OP_GT => 0 <? cmp
  | OP_LE => cmp <=? 0
  | OP_GE => 0 <=? cmp
  end.

Definition eval_cond {S} (rec_cols : list ColMeta.t) (cond : Condition.t) (rec : RmRecord) : M S bool :=
  let* l := get_col rec_cols (Condition.lhs_col cond) in
  let lhs_col := l.2 in
  let lhs := at_ptr (data rec) (ColMeta.offset lhs_col) in
  let* x :=
    (if Condition.is_rhs_val cond then
       let* ty := or_ub (Value.type (Condition.rhs_val cond)) in
       let* r := or_ub (Value.raw (Condition.rhs_val cond)) in
       ret (ty, data r)
     else
       let* r := get_col rec_cols (Condition.rhs_col cond) in
       ret (ColMeta.type r.2, at_ptr (data rec) (ColMeta.offset r.2))) in
  let '(rhs_type, rhs) := x in
  assert (bool_decide (rhs_type = ColMeta.type lhs_col)) ;;;
  let* cmp := ix_compare lhs rhs (coltype_int rhs_type) (ColMeta.len lhs_col) in
  ret (op_holds (Condition.op cond) cmp).

(** [std::all_of] stops at the first condition that does not hold. *)
Fixpoint eval_conds {S} (rec_cols : list ColMeta.t) (conds : list Condition.t) (rec : RmRecord) : M S bool :=
  match conds with
  | [] => ret true
  | cond :: conds' =>
      let* b := eval_cond rec_cols cond rec in
      if b then eval_conds rec_cols conds' rec else ret false
  end.
