(* ===== verification/Executors.v ===== *)
(** The executors, [src/src/execution/executor_*.h]: instances of the interface
    [Executor].

    The scans and the modification executors run on the state of the system
    manager; joins and projections on any executors.  [fuel] bounds the
    iterations of the loops, [n] the height of an index, and [junk] is what
    freshly allocated memory holds.  Bodies that the laboratory leaves out are
    modelled as they are. *)
From S2P Require Import Prelude.
From S2P Require Import Defs.
From S2P Require Import Replacer.
From S2P Require Import Disk.
From S2P Require Import BufferPool.
From S2P Require Import RmFile.
From S2P Require Import IxNode.
From S2P Require Import IxIndex.
From S2P Require Import IxManager.
From S2P Require Import SmMeta.
From S2P Require Import SmManager.
Import IxDefs.
From S2P Require Import Query.
Import SmManager.

#[local] Open Scope prog_scope.

(** [swap_op.at(op)] *)
Definition swap_op (op : CompOp) : CompOp :=
  match op with
  | OP_EQ => OP_EQ | OP_NE => OP_NE | OP_LT => OP_GT | OP_GT => OP_LT | OP_LE => OP_GE | OP_GE => OP_LE
  end.

(** The conditions of a scan of [tab_name]: the left side is a column of the
    table, the right side a value or a column of the table. *)
Definition check_runtime_cond {S} (tab_name : string) (cond : Condition.t) : M S unit :=
  assert (bool_decide (tc_tab_name (Condition.lhs_col cond) = tab_name)) ;;;
  when (negb (Condition.is_rhs_val cond))
    (assert (bool_decide (tc_tab_name (Condition.rhs_col cond) = tab_name))).

Definition check_runtime_conds {S} (tab_name : string) (fed_conds : list Condition.t) : M S unit :=
  for_each fed_conds (check_runtime_cond tab_name).

Section state.
  Context {E W : Type}.

Definition on_w {A} (m : M W A) : M (E * W) A := zoom snd (λ w s, (s.1, w)) m.
Definition upd_e (f : E → E) : M (E * W) unit := modify (λ s, (f s.1, s.2)).
Definition get_e {A} (f : E → A) : M (E * W) A := gets (λ s, f s.1).

End state.

(** ** Sequential scan *)

Module SeqScan.

(** [fh_] is the name under which the system manager holds the file;
    [scan_] is the cursor of the table iterator, [None] the null pointer. *)
Record t := mk {
  tab_name_ : string;
  conds_ : list Condition.t;
  fh_ : string;
  cols_ : list ColMeta.t;
  len_ : Z;
  fed_conds_ : list Condition.t;
  rid_ : Rid;
  scan_ : option Rid
}.

Definition set_rid (r : Rid) (x : t) : t :=
  mk (tab_name_ x) (conds_ x) (fh_ x) (cols_ x) (len_ x) (fed_conds_ x) r (scan_ x).
Definition set_scan (r : Rid) (x : t) : t :=
  mk (tab_name_ x) (conds_ x) (fh_ x) (cols_ x) (len_ x) (fed_conds_ x) (rid_ x) (Some r).
Definition set_fed (l : list Condition.t) (x : t) : t :=
  mk (tab_name_ x) (conds_ x) (fh_ x) (cols_ x) (len_ x) l (rid_ x) (scan_ x).

(** One step of the loop of the constructor. *)
Definition norm_cond {S} (tab_name : string) (cond : Condition.t) : M S Condition.t :=
  if negb (bool_decide (tc_tab_name (Condition.lhs_col cond) = tab_name)) then
    assert (negb (Condition.is_rhs_val cond)
            && bool_decide (tc_tab_name (Condition.rhs_col cond) = tab_name)) ;;;
    ret (Condition.mk (Condition.rhs_col cond) (swap_op (Condition.op cond)) (Condition.is_rhs_val cond)
           (Condition.lhs_col cond) (Condition.rhs_val cond))
  else ret cond.

Definition norm_conds {S} (tab_name : string) (conds : list Condition.t) : M S (list Condition.t) :=
  fold_m (λ l cond, let* c := norm_cond tab_name cond in ret (l ++ [c])) [] conds.

(** One step of the loop of [feed]. *)
Definition feed_cond {S} (tab_name : string) (feed_dict : gmap TabCol Value.t) (cond : Condition.t)
    : M S Condition.t :=
  if negb (Condition.is_rhs_val cond)
     && negb (bool_decide (tc_tab_name (Condition.rhs_col cond) = tab_name))
  then match feed_dict !! Condition.rhs_col cond with
       | None => throw OutOfRange
       | Some v => ret (Condition.bind_rhs v cond)
       end
  else ret cond.

Definition feed_conds {S} (tab_name : string) (feed_dict : gmap TabCol Value.t) (conds : list Condition.t)
    : M S (list Condition.t) :=
  fold_m (λ l cond, let* c := feed_cond tab_name feed_dict cond in ret (l ++ [c])) [] conds.

Section ops.
  Context {F : Type} `{Posix F} {R : Type} `{Replacer R} (fuel : nat).
  Notation sm := (SmManager.t F R).
  Notation st := (t * sm)%type.

(** The constructor; [rid0] is what [rid_] holds before it is set. *)
Definition create (rid0 : Rid) (tab_name : string) (conds : list Condition.t) : M sm t :=
  let* db := gets db_ in
  let* tab := DbMeta.get_table db tab_name in
  let* _ := at_fh tab_name in
  let cols := TabMeta.cols tab in
  let* back := or_ub (last cols) in
  let* n := or_ub (s32 (ColMeta.offset back + ColMeta.len back)) in
  let* conds := norm_conds tab_name conds in
  ret (mk tab_name conds tab_name cols (to_u64 n) conds rid0 None).

Definition check : M st unit :=
  let* x := gets fst in check_runtime_conds (tab_name_ x) (fed_conds_ x).

Definition on_file {A} (m : M (RmFileHandle.st (DiskManager.t F) R) A) : M st A :=
  let* f := get_e fh_ in on_w (with_fh f m).

Definition seq_is_end : M st bool :=
  let* c := get_e scan_ in
  let* r := or_ub c in
  ret (RmFileHandle.scan_is_end r).

Definition scan_next : M st unit :=
  let* c := get_e scan_ in
  let* r := or_ub c in
  let* r' := on_file (RmFileHandle.scan_next r) in
  upd_e (set_scan r').

(** [catch (RecordNotFoundError &e)] *)
Definition try_record (m : M st unit) : M st unit := λ s,
  match m s with
  | (Throw (RecordNotFoundError _ _), s') => (Ret tt, s')
  | r => r
  end.

(** The loop of [beginTuple]: nothing leaves it before the end of the scan. *)
Fixpoint begin_loop (n : nat) : M st unit :=
  match n with
  | O => out_of_fuel
  | S n' =>
      let* e := seq_is_end in
      if e then ret tt
      else
        let* c := get_e scan_ in
        let* r := or_ub c in
        upd_e (set_rid r) ;;;
        try_record (let* _ := on_file (RmFileHandle.get_record r) in ret tt) ;;;
        scan_next ;;;
        begin_loop n'
  end.

Definition begin : M st unit :=
  check ;;;
  let* r := on_file RmFileHandle.RmScan in
  upd_e (set_scan r) ;;;
  begin_loop fuel.

Fixpoint next_loop (n : nat) : M st unit :=
  match n with
  | O => out_of_fuel
  | S n' => let* e := seq_is_end in if e then ret tt else (scan_next ;;; next_loop n')
  end.

Definition next : M st unit :=
  check ;;;
  let* e := seq_is_end in
  assert (negb e) ;;;
  scan_next ;;;
  next_loop fuel.

Definition seq_feed (feed_dict : gmap TabCol Value.t) : M st unit :=
  let* x := gets fst in
  let* l := feed_conds (tab_name_ x) feed_dict (conds_ x) in
  upd_e (set_fed l) ;;;
  check.

(** [Next] ends without returning a value. *)
#[global] Instance seq_scan_executor : Executor sm t := {
  tupleLen x := Some (len_ x);
  cols x := Some (cols_ x);
  beginTuple := begin;
  nextTuple := next;
  is_end := seq_is_end;
  Next := undefined;
  feed := seq_feed;
  rid x := Some (rid_ x)
}.

End ops.
End SeqScan.

(** ** Index scan *)

Module IndexScan.

(** The members the constructor leaves without a value are [None]. *)
Record t := mk {
  tab_name_ : string;
  conds_ : list Condition.t;
  fh_ : option string;
  cols_ : list ColMeta.t;
  len_ : option Z;
  fed_conds_ : list Condition.t;
  index_no_ : option Z;
  rid_ : option Rid;
  (** the index scanned, the cursor and the end of the scan *)
  scan_ : option (string * Iid * Iid);
  sm_manager_ : option unit
}.

Definition set_rid (r : Rid) (x : t) : t :=
  mk (tab_name_ x) (conds_ x) (fh_ x) (cols_ x) (len_ x) (fed_conds_ x) (index_no_ x) (Some r) (scan_ x)
     (sm_manager_ x).
Definition set_scan (c : string * Iid * Iid) (x : t) : t :=
  mk (tab_name_ x) (conds_ x) (fh_ x) (cols_ x) (len_ x) (fed_conds_ x) (index_no_ x) (rid_ x) (Some c)
     (sm_manager_ x).
Definition set_fed (l : list Condition.t) (x : t) : t :=
  mk (tab_name_ x) (conds_ x) (fh_ x) (cols_ x) (len_ x) l (index_no_ x) (rid_ x) (scan_ x) (sm_manager_ x).

(** The constructor does nothing. *)
Definition create (tab_name : string) (conds : list Condition.t) (index_no : Z) : t :=
  mk "" [] None [] None [] None None None None.

(** [eval_cond] and [eval_conds] have the text of those of the sequential
    scan. *)
Definition eval_cond {S} (rec_cols : list ColMeta.t) (cond : Condition.t) (rec : RmRecord) : M S bool :=
  Query.eval_cond rec_cols cond rec.

Definition eval_conds {S} (rec_cols : list ColMeta.t) (conds : list Condition.t) (rec : RmRecord) : M S bool :=
  Query.eval_conds rec_cols conds rec.

Section ops.
  Context {F : Type} `{Posix F} {R : Type} `{Replacer R} (n fuel : nat).
  Notation sm := (SmManager.t F R).
  Notation st := (t * sm)%type.

Definition check : M st unit :=
  let* x := gets fst in check_runtime_conds (tab_name_ x) (fed_conds_ x).

Definition on_ix {A} (name : string) (m : M (IxIndexHandle.st (DiskManager.t F) R) A) : M st A :=
  on_w (with_ih name m).

Definition get_record (r : Rid) : M st RmRecord :=
  let* f := get_e fh_ in
  let* f := or_ub f in
  on_w (with_fh f (RmFileHandle.get_record r)).

Definition ix_is_end : M st bool :=
  let* c := get_e scan_ in
  let* c := or_ub c in
  ret (IxIndexHandle.scan_is_end c.1.2 c.2).

(** The condition that decides the range, the first one on the indexed
    column; only [OP_EQ] narrows it. *)
Fixpoint key_range (name : string) (index_col : ColMeta.t) (conds : list Condition.t) (range : Iid * Iid)
    : M st (Iid * Iid) :=
  match conds with
  | [] => ret range
  | cond :: conds' =>
      if Condition.is_rhs_val cond && negb (bool_decide (Condition.op cond = OP_NE))
         && bool_decide (tc_col_name (Condition.lhs_col cond) = ColMeta.name index_col)
      then
        let* r := or_ub (Value.raw (Condition.rhs_val cond)) in
        if bool_decide (Condition.op cond = OP_EQ) then
          let* lower := on_ix name (IxIndexHandle.lower_bound n (data r)) in
          let* upper := on_ix name (IxIndexHandle.upper_bound n (data r)) in
          ret (lower, upper)
        else ret range
      else key_range name index_col conds' range
  end.

Fixpoint begin_loop (k : nat) : M st unit :=
  match k with
  | O => out_of_fuel
  | S k' =>
      let* e := ix_is_end in
      if e then ret tt
      else
        let* c := get_e scan_ in
        let* c := or_ub c in
        let* r := on_ix c.1.1 (IxIndexHandle.scan_rid c.1.2) in
        upd_e (set_rid r) ;;;
        let* rec := get_record r in
        let* x := gets fst in
        let* b := eval_conds (cols_ x) (fed_conds_ x) rec in
        if b then ret tt
        else
          let* i := on_ix c.1.1 (IxIndexHandle.scan_next c.1.2 c.2) in
          upd_e (set_scan (c.1.1, i, c.2)) ;;;
          begin_loop k'
  end.

Definition begin : M st unit :=
  check ;;;
  let* p := get_e sm_manager_ in
  let* _ := or_ub p in
  let* x := gets fst in
  let* i := or_ub (index_no_ x) in
  let name := IxManager.get_index_name (tab_name_ x) i in
  let* _ := on_w (at_ih name) in
  let* lower := on_ix name IxIndexHandle.leaf_begin in
  let* upper := on_ix name IxIndexHandle.leaf_end in
  let* index_col := or_ub (if 0 <=? i then cols_ x !! Z.to_nat i else None) in
  let* range := key_range name index_col (fed_conds_ x) (lower, upper) in
  upd_e (set_scan (name, range.1, range.2)) ;;;
  begin_loop fuel.

Definition next : M st unit :=
  check ;;;
  let* e := ix_is_end in
  assert (negb e).

Definition ix_Next : M st (option RmRecord) :=
  let* e := ix_is_end in
  assert (negb e) ;;;
  let* r := get_e rid_ in
  let* r := or_ub r in
  let* rec := get_record r in
  ret (Some rec).

Definition ix_feed (feed_dict : gmap TabCol Value.t) : M st unit :=
  let* x := gets fst in
  upd_e (set_fed (conds_ x)) ;;;
  check.

#[global] Instance index_scan_executor : Executor sm t := {
  tupleLen := len_;
  cols x := Some (cols_ x);
  beginTuple := begin;
  nextTuple := next;
  is_end := ix_is_end;
  Next := ix_Next;
  feed := ix_feed;
  rid := rid_
}.

End ops.
End IndexScan.

(** ** Nested loop join *)

Module Join.

Record t (E1 E2 : Type) := mk {
  left_ : E1;
  right_ : E2;
  len_ : Z;
  cols_ : list ColMeta.t;
  prev_feed_dict_ : gmap TabCol Value.t
}.
Arguments mk {E1 E2} _ _ _ _ _.
Arguments left_ {E1 E2} _.
Arguments right_ {E1 E2} _.
Arguments len_ {E1 E2} _.
Arguments cols_ {E1 E2} _.
Arguments prev_feed_dict_ {E1 E2} _.

(** The columns of the right side, moved behind the left record: [int] plus
    [size_t], stored as [int]. *)
Definition shift_cols (n : Z) (l : list ColMeta.t) : list ColMeta.t :=
  map (λ col, ColMeta.set_offset (to_s32 (to_u64 (ColMeta.offset col + n))) col) l.

Section ops.
  Context {W E1 E2 : Type} {X1 : Executor W E1} {X2 : Executor W E2} (fuel : nat) (junk : nat → bytes).
  Notation join := (t E1 E2).
  Notation st := (join * W)%type.

Definition create {S} (left : E1) (right : E2) : M S join :=
  let* n1 := or_ub (tupleLen left) in
  let* n2 := or_ub (tupleLen right) in
  let* cols1 := or_ub (cols left) in
  let* right_cols := or_ub (cols right) in
  ret (mk left right (to_u64 (n1 + n2)) (cols1 ++ shift_cols n1 right_cols) ∅).

Definition on_left {A} (m : M (E1 * W) A) : M st A :=
  zoom (λ s, (left_ s.1, s.2))
       (λ p s, (mk p.1 (right_ s.1) (len_ s.1) (cols_ s.1) (prev_feed_dict_ s.1), p.2)) m.
Definition on_right {A} (m : M (E2 * W) A) : M st A :=
  zoom (λ s, (right_ s.1, s.2))
       (λ p s, (mk (left_ s.1) p.1 (len_ s.1) (cols_ s.1) (prev_feed_dict_ s.1), p.2)) m.

Definition join_is_end : M st bool := on_left is_end.

(** [insert] keeps the entries the dictionary has. *)
Definition feed_right : M st unit :=
  let* l := get_e left_ in
  let* cs := or_ub (cols l) in
  let* rec := on_left Next in
  let* rec := or_ub rec in
  let* left_dict := rec2dict cs rec in
  let* prev := get_e prev_feed_dict_ in
  on_right (feed (prev ∪ left_dict)).

Fixpoint begin_loop (k : nat) : M st unit :=
  match k with
  | O => out_of_fuel
  | S k' =>
      let* e := on_right is_end in
      if negb e then ret tt
      else
        on_left nextTuple ;;;
        let* le := on_left is_end in
        if le then ret tt
        else
          feed_right ;;;
          on_right beginTuple ;;;
          begin_loop k'
  end.

Definition join_begin : M st unit :=
  on_left beginTuple ;;;
  let* e := on_left is_end in
  if e then ret tt
  else
    feed_right ;;;
    on_right beginTuple ;;;
    begin_loop fuel.

(** The loop at the end has no body: at the end of the right side it never
    ends. *)
Definition join_next : M st unit :=
  let* e := join_is_end in
  assert (negb e) ;;;
  on_right nextTuple ;;;
  let* re := on_right is_end in
  if re then out_of_fuel else ret tt.

(** The record is allocated and not filled. *)
Definition join_Next : M st (option RmRecord) :=
  let* e := join_is_end in
  assert (negb e) ;;;
  let* n := get_e len_ in
  ret (Some (mkRmRecord (junk (Z.to_nat n)))).

Definition join_feed (feed_dict : gmap TabCol Value.t) : M st unit :=
  upd_e (λ x, mk (left_ x) (right_ x) (len_ x) (cols_ x) feed_dict) ;;;
  on_left (feed feed_dict).

#[global] Instance join_executor : Executor W join := {
  tupleLen x := Some (len_ x);
  cols x := Some (cols_ x);
  beginTuple := join_begin;
  nextTuple := join_next;
  is_end := join_is_end;
  Next := join_Next;
  feed := join_feed;
  rid _ := None
}.

End ops.
End Join.

(** ** Projection *)

Module Projection.

Record t (E : Type) := mk { prev_ : E; cols_ : list ColMeta.t; len_ : Z; sel_idxs_ : list nat }.
Arguments mk {E} _ _ _ _.
Arguments prev_ {E} _.
Arguments cols_ {E} _.
Arguments len_ {E} _.
Arguments sel_idxs_ {E} _.

(** The loop of the constructor; [curr_offset] is a [size_t] that is stored
    as an [int] offset. *)
Definition select_cols {S} (prev_cols : list ColMeta.t) (sel_cols : list TabCol)
    : M S (Z * list ColMeta.t * list nat) :=
  fold_m (λ '(curr_offset, cs, idxs) sel_col,
    let* pos := get_col prev_cols sel_col in
    let col := ColMeta.set_offset (to_s32 curr_offset) pos.2 in
    ret (to_u64 (curr_offset + ColMeta.len col), cs ++ [col], idxs ++ [pos.1])) (0, [], []) sel_cols.

Section ops.
  Context {W E : Type} {X : Executor W E} (junk : nat → bytes).
  Notation st := (t E * W)%type.

Definition create {S} (prev : E) (sel_cols : list TabCol) : M S (t E) :=
  let* prev_cols := or_ub (cols prev) in
  let* x := select_cols prev_cols sel_cols in
  let '(curr_offset, cs, idxs) := x in
  ret (mk prev cs curr_offset idxs).

Definition on_prev {A} (m : M (E * W) A) : M st A :=
  zoom (λ s, (prev_ s.1, s.2)) (λ p s, (mk p.1 (cols_ s.1) (len_ s.1) (sel_idxs_ s.1), p.2)) m.

Definition proj_next : M st unit :=
  let* e := on_prev is_end in
  assert (negb e) ;;;
  on_prev nextTuple.

(** The copy of the columns is left out: only the accesses remain. *)
Definition proj_Next : M st (option RmRecord) :=
  let* e := on_prev is_end in
  assert (negb e) ;;;
  let* p := get_e prev_ in
  let* prev_cols := or_ub (cols p) in
  let* _ := on_prev Next in
  let* x := gets fst in
  for_each (seq 0 (length (cols_ x))) (λ proj_idx,
    let* prev_idx := or_ub (sel_idxs_ x !! proj_idx) in
    let* _ := or_ub (prev_cols !! prev_idx) in
    ret tt) ;;;
  ret (Some (mkRmRecord (junk (Z.to_nat (len_ x))))).

Definition proj_feed (feed_dict : gmap TabCol Value.t) : M st unit :=
  throw (InternalError "Cannot feed a projection node").

#[global] Instance projection_executor : Executor W (t E) := {
  tupleLen x := Some (len_ x);
  cols x := Some (cols_ x);
  beginTuple := on_prev beginTuple;
  nextTuple := proj_next;
  is_end := on_prev is_end;
  Next := proj_Next;
  feed := proj_feed;
  rid _ := None
}.

End ops.
End Projection.

(** ** Insertion, deletion and update *)

Module Modify.

(** The three executors, with the members they share. *)
Inductive t :=
  | InsertExecutor (tab_ : TabMeta.t) (values_ : list Value.t) (tab_name_ : string)
  | DeleteExecutor (tab_ : TabMeta.t) (conds_ : list Condition.t) (rids_ : list Rid) (tab_name_ : string)
  | UpdateExecutor (tab_ : TabMeta.t) (set_clauses_ : list SetClause) (conds_ : list Condition.t)
      (rids_ : list Rid) (tab_name_ : string).

Section ops.
  Context {F : Type} `{Posix F} {R : Type} `{Replacer R}.
  Notation sm := (SmManager.t F R).
  Notation st := (t * sm)%type.

Definition new_insert (tab_name : string) (values : list Value.t) : M sm t :=
  let* db := gets db_ in
  let* tab := DbMeta.get_table db tab_name in
  if negb (length values =? length (TabMeta.cols tab))%nat then throw InvalidValueCountError
  else
    let* _ := at_fh tab_name in
    ret (InsertExecutor tab values tab_name).

Definition new_delete (tab_name : string) (conds : list Condition.t) (rids : list Rid) : M sm t :=
  let* db := gets db_ in
  let* tab := DbMeta.get_table db tab_name in
  let* _ := at_fh tab_name in
  ret (DeleteExecutor tab conds rids tab_name).

Definition new_update (tab_name : string) (set_clauses : list SetClause) (conds : list Condition.t)
    (rids : list Rid) : M sm t :=
  let* db := gets db_ in
  let* tab := DbMeta.get_table db tab_name in
  let* _ := at_fh tab_name in
  ret (UpdateExecutor tab set_clauses conds rids tab_name).

(** The loops over the rids read each record and change nothing. *)
Definition read_records (tab_name : string) (rids : list Rid) : M sm unit :=
  for_each rids (λ rid, let* _ := with_fh tab_name (RmFileHandle.get_record rid) in ret tt).

Definition insert_Next : M st (option RmRecord) := ret None.

Definition delete_Next (rids : list Rid) (tab_name : string) : M st (option RmRecord) :=
  on_w (read_records tab_name rids) ;;; ret None.

Definition update_Next (tab : TabMeta.t) (set_clauses : list SetClause) (rids : list Rid)
    (tab_name : string) : M st (option RmRecord) :=
  for_each set_clauses (λ c,
    let* _ := or_ub (deref_col tab (TabMeta.get_col tab (tc_col_name (sc_lhs c)))) in
    ret tt) ;;;
  on_w (read_records tab_name rids) ;;;
  ret None.

Definition modify_Next : M st (option RmRecord) :=
  let* x := gets fst in
  match x with
  | InsertExecutor _ _ _ => insert_Next
  | DeleteExecutor _ _ rids tab_name => delete_Next rids tab_name
  | UpdateExecutor tab set_clauses _ rids tab_name => update_Next tab set_clauses rids tab_name
  end.

#[global] Instance modify_executor : Executor sm t := {
  tupleLen _ := Some base_tupleLen;
  cols _ := base_cols;
  beginTuple := base_beginTuple;
  nextTuple := base_nextTuple;
  is_end := base_is_end;
  Next := modify_Next;
  feed := base_feed;
  rid _ := None
}.

End ops.
End Modify.
