(* ===== verification/QueryThms.v ===== *)
(** Theorems about conditions: comparing the bytes of records is comparing the
    values they hold, and feeding the left record of a join to the scan of the
    right table gives the join condition. *)
From Stdlib Require Import Ascii.
From S2P Require Import Prelude.
From S2P Require Import Defs.
From S2P Require Import RmFile.
From S2P Require Import IxNode.
From S2P Require Import IxOrder.
From S2P Require Import SmMeta.
From S2P Require Import RecordPrinter.
From S2P Require Import LogRec.
From S2P Require Import Query.
From S2P Require Import Executors.

#[local] Open Scope prog_scope.

(** ** Strings and their zero-padded bytes *)

Fixpoint no_nul (s : string) : Prop :=
  match s with ""%string => True | String c s' => N_of_ascii c ≠ 0%N ∧ no_nul s' end.

Definition pad (len : Z) (s : string) : bytes :=
  str_bytes s ++ replicate (Z.to_nat len - String.length s) 0.

Definition cmp_sign (c : comparison) : Z := match c with Lt => -1 | Eq => 0 | Gt => 1 end.

Lemma ascii_byte c : 0 <= Z.of_N (N_of_ascii c) < 256.
Proof. pose proof (N_ascii_bounded c). lia. Qed.

Lemma length_pad len s : Z.of_nat (String.length s) <= len → zlen (pad len s) = len.
Proof.
  intros. unfold pad. rewrite length_app, length_replicate, RecordPrinter.length_str_bytes. lia.
Qed.

Lemma memcmp_zeros_cons n x b : 0 < x → memcmp (replicate n 0) (x :: b) = if (n =? 0)%nat then 0 else -1.
Proof. intros. destruct n; [done|]. simpl. by rewrite (proj2 (Z.ltb_lt 0 x)). Qed.

(** [memcmp] of padded strings of one size is the order of the strings. *)
Lemma memcmp_pad n s1 s2 :
  no_nul s1 → no_nul s2 → (String.length s1 <= n)%nat → (String.length s2 <= n)%nat →
  memcmp (str_bytes s1 ++ replicate (n - String.length s1) 0)
         (str_bytes s2 ++ replicate (n - String.length s2) 0) = cmp_sign (String.compare s1 s2).
Proof.
  revert n s2. induction s1 as [|c s1 IH]; intros n [|d s2]; cbn [no_nul String.length str_bytes app].
  - intros _ _ _ _. apply memcmp_refl.
  - intros _ [Hd _] _ Hn. rewrite Nat.sub_0_r. rewrite memcmp_zeros_cons by lia.
    by destruct n; [lia|].
  - intros [Hc _] _ Hn _. rewrite Nat.sub_0_r, memcmp_anti, memcmp_zeros_cons by lia.
    by destruct n; [lia|].
  - intros [Hc H1] [Hd H2] Hn1 Hn2. destruct n as [|n]; [lia|]. cbn [Nat.sub memcmp String.compare].
    unfold Ascii.compare.
    destruct (Z.ltb_spec (Z.of_N (N_of_ascii c)) (Z.of_N (N_of_ascii d))).
    + rewrite (proj2 (N.compare_lt_iff _ _)) by lia. done.
    + destruct (Z.ltb_spec (Z.of_N (N_of_ascii d)) (Z.of_N (N_of_ascii c))).
      * rewrite (proj2 (N.compare_gt_iff _ _)) by lia. done.
      * rewrite (proj2 (N.compare_eq_iff _ _)) by lia. apply IH; auto; lia.
Qed.

Lemma str_of_bytes_pad k s : no_nul s → str_of_bytes (str_bytes s ++ replicate k 0) = s.
Proof.
  induction s as [|c s IH]; cbn [no_nul str_bytes app str_of_bytes].
  - by destruct k.
  - intros [Hc Hs]. pose proof (ascii_byte c).
    rewrite to_u8_id by done. rewrite (proj2 (Z.eqb_neq _ _)) by lia.
    rewrite N2Z.id, ascii_N_embedding. f_equal. by apply IH.
Qed.

(** ** Values and the bytes that hold them *)

(** [b] is how a field of type [ty] and length [len] holds the value [v]. *)
Definition encodes (ty : ColType) (len : Z) (v : Value.t) (b : bytes) : Prop :=
  match ty with
  | TYPE_INT => len = 4 ∧ ∃ n, is_s32 n ∧ v = Value.set_int n Value.empty ∧ b = enc32 n
  | TYPE_FLOAT => len = 4 ∧ ∃ n, is_s32 n ∧ v = Value.set_float n Value.empty ∧ b = enc32 n
  | TYPE_STRING => ∃ s, no_nul s ∧ Z.of_nat (String.length s) <= len < 2 ^ 31 ∧
                     v = Value.set_str s Value.empty ∧ b = pad len s
  end.

(** The SQL comparison of two values of one type. *)
Definition val_cmp (v1 v2 : Value.t) : Z :=
  match Value.type v1 with
  | Some TYPE_INT => cmp_sign (Z.compare (default 0 (Value.num v1)) (default 0 (Value.num v2)))
  | Some TYPE_FLOAT =>
      let a := default 0 (Value.num v1) in let b := default 0 (Value.num v2) in
      if f32_lt a b then -1 else if f32_lt b a then 1 else 0
  | _ => cmp_sign (String.compare (Value.str_val v1) (Value.str_val v2))
  end.

Definition with_raw (b : bytes) (v : Value.t) : Value.t :=
  Value.mk (Value.type v) (Value.num v) (Value.str_val v) (Some (mkRmRecord b)).

(** A column of a record holds [v]. *)
Definition holds (rec : RmRecord) (col : ColMeta.t) (v : Value.t) : Prop :=
  ∃ b, mem_read (data rec) (ColMeta.offset col) (ColMeta.len col) = Some b ∧
       encodes (ColMeta.type col) (ColMeta.len col) v b.

Lemma encodes_length ty len v b : encodes ty len v b → zlen b = len.
Proof.
  destruct ty; simpl; [intros (-> & n & _ & _ & ->); done|intros (-> & n & _ & _ & ->); done|].
  intros (s & _ & Hs & _ & ->). apply length_pad. lia.
Qed.

Lemma encodes_type ty len v b : encodes ty len v b → Value.type v = Some ty.
Proof. destruct ty; simpl; naive_solver. Qed.

(** [init_raw] gives the bytes that stand for the value. *)
Lemma init_raw_encodes {S} ty len v b (s : S) :
  encodes ty len v b → Value.init_raw len v s = (Ret (with_raw b v), s).
Proof.
  destruct ty; simpl.
  - intros (-> & n & Hn & -> & ->). unfold Value.init_raw, Value.new_raw. simpl. done.
  - intros (-> & n & Hn & -> & ->). unfold Value.init_raw, Value.new_raw. simpl. done.
  - intros (str & Hs & Hl & -> & ->). unfold Value.init_raw, Value.new_raw.
    rewrite bind_assert by done. rewrite (proj2 (Z.ltb_ge _ _)) by lia. step.
    rewrite (bind_or_ub _ _ _ TYPE_STRING) by done. cbn [Value.str_val Value.set_str].
    rewrite to_s32_id by (unfold is_s32; lia). rewrite (proj2 (Z.ltb_ge len _)) by lia.
    unfold mem_set. rewrite (proj2 (in_range_spec _ _ _)) by (rewrite length_replicate; lia).
    step. rewrite (bind_or_ub _ _ _ (replicate (Z.to_nat len) 0)).
    2:{ unfold splice. simpl. rewrite length_replicate, drop_ge, app_nil_r by (rewrite length_replicate; lia).
        done. }
    rewrite mem_write_Some by (rewrite ?RecordPrinter.length_str_bytes, ?length_replicate; lia).
    rewrite (bind_or_ub _ _ _ (pad len str)); [done|]. f_equal. unfold splice, pad. simpl.
    by rewrite drop_replicate, RecordPrinter.length_str_bytes.
Qed.

Lemma slice_enc32 n : dec32 (slice (enc32 n) 0 4) = to_s32 n.
Proof. change 4 with (zlen (enc32 n)). by rewrite slice_full, dec32_enc32. Qed.

Lemma load32_field m off b : mem_read m off 4 = Some b → load32 m off = Some (dec32 b).
Proof. intros H. unfold load32. by rewrite H. Qed.

Lemma field_value_ok {S} rec col v (s : S) :
  holds rec col v → field_value col rec s = (Ret v, s).
Proof.
  intros (b & Hb & He). unfold field_value. destruct (ColMeta.type col); simpl in He.
  - destruct He as (Hl & n & Hn & -> & ->). rewrite Hl in Hb.
    rewrite (bind_or_ub _ _ _ n); [done|]. rewrite (load32_field _ _ _ Hb), dec32_enc32.
    by rewrite to_s32_id.
  - destruct He as (Hl & n & Hn & -> & ->). rewrite Hl in Hb.
    rewrite (bind_or_ub _ _ _ n); [done|]. rewrite (load32_field _ _ _ Hb), dec32_enc32.
    by rewrite to_s32_id.
  - destruct He as (str & Hs & Hl & -> & ->). rewrite (bind_or_ub _ _ _ (pad (ColMeta.len col) str)) by done.
    unfold pad. by rewrite str_of_bytes_pad.
Qed.

Lemma compare_sign a b : (if a <? b then -1 else if b <? a then 1 else 0) = cmp_sign (a ?= b).
Proof.
  destruct (Z.compare_spec a b), (Z.ltb_spec a b), (Z.ltb_spec b a); simpl; lia.
Qed.

(** Comparing memory is comparing the values it holds. *)
Lemma ix_compare_vals {S} ty len v1 v2 b1 b2 m1 m2 (s : S) :
  encodes ty len v1 b1 → encodes ty len v2 b2 →
  mem_read m1 0 len = Some b1 → mem_read m2 0 len = Some b2 →
  ix_compare m1 m2 (coltype_int ty) len s = (Ret (val_cmp v1 v2), s).
Proof.
  intros H1 H2 Hm1 Hm2. unfold ix_compare. destruct ty; simpl in H1, H2; cbn [coltype_of_int coltype_int].
  - destruct H1 as (Hl & n1 & Hn1 & -> & ->), H2 as (_ & n2 & Hn2 & -> & ->). rewrite Hl in *.
    change (coltype_of_int 0) with (Some TYPE_INT). cbn beta iota.
    erewrite bind_or_ub by (by apply load32_field). erewrite bind_or_ub by (by apply load32_field).
    rewrite !dec32_enc32, !to_s32_id by done. unfold ret. by rewrite compare_sign.
  - destruct H1 as (Hl & n1 & Hn1 & -> & ->), H2 as (_ & n2 & Hn2 & -> & ->). rewrite Hl in *.
    change (coltype_of_int 1) with (Some TYPE_FLOAT). cbn beta iota.
    erewrite bind_or_ub by (by apply load32_field). erewrite bind_or_ub by (by apply load32_field).
    rewrite !dec32_enc32, !to_s32_id by done. done.
  - destruct H1 as (s1 & Hs1 & Hl1 & -> & ->), H2 as (s2 & Hs2 & Hl2 & -> & ->).
    change (coltype_of_int 2) with (Some TYPE_STRING). cbn beta iota.
    rewrite (bind_or_ub _ _ _ _ Hm1), (bind_or_ub _ _ _ _ Hm2).
    unfold ret, pad, val_cmp. cbn [Value.type Value.set_str Value.str_val].
    rewrite memcmp_pad by (done || lia). done.
Qed.

Lemma at_ptr_read m off len b : mem_read m off len = Some b → mem_read (at_ptr m off) 0 len = Some b.
Proof.
  unfold mem_read, at_ptr. destruct (in_range m off len) eqn:Hr; [|done].
  apply in_range_spec in Hr as (H1 & H2 & H3). rewrite (proj2 (Z.leb_le 0 off)) by done.
  rewrite (proj2 (in_range_spec _ _ _)) by (rewrite length_drop; lia).
  intros [= <-]. unfold slice. by rewrite drop_0.
Qed.

Lemma cmp_sign_opp c : cmp_sign (CompOpp c) = - cmp_sign c.
Proof. by destruct c. Qed.

Lemma val_cmp_anti ty len v1 v2 b1 b2 :
  encodes ty len v1 b1 → encodes ty len v2 b2 → val_cmp v2 v1 = - val_cmp v1 v2.
Proof.
  intros H1 H2. unfold val_cmp. rewrite (encodes_type _ _ _ _ H1), (encodes_type _ _ _ _ H2).
  destruct ty.
  - rewrite Z.compare_antisym. apply cmp_sign_opp.
  - set (a := default 0 (Value.num v1)). set (b := default 0 (Value.num v2)). unfold f32_lt.
    destruct (f32_nan a), (f32_nan b); simpl; try done.
    destruct (Z.ltb_spec (f32_val a) (f32_val b)), (Z.ltb_spec (f32_val b) (f32_val a)); lia.
  - rewrite String.compare_antisym. apply cmp_sign_opp.
Qed.

Lemma swap_op_holds op c : op_holds (swap_op op) (- c) = op_holds op c.
Proof.
  destruct op; simpl.
  - destruct (Z.eqb_spec (- c) 0), (Z.eqb_spec c 0); lia || done.
  - destruct (Z.eqb_spec (- c) 0), (Z.eqb_spec c 0); lia || done.
  - destruct (Z.ltb_spec 0 (- c)), (Z.ltb_spec c 0); lia || done.
  - destruct (Z.ltb_spec (- c) 0), (Z.ltb_spec 0 c); lia || done.
  - destruct (Z.leb_spec 0 (- c)), (Z.leb_spec c 0); lia || done.
  - destruct (Z.leb_spec (- c) 0), (Z.leb_spec 0 c); lia || done.
Qed.

(** ** Conditions *)

(** The column a name stands for. *)
Definition finds (cols : list ColMeta.t) (target : TabCol) (c : ColMeta.t) : Prop :=
  ∃ i, list_find (λ col, ColMeta.tab_name col = tc_tab_name target ∧
                         ColMeta.name col = tc_col_name target) cols = Some (i, c).

Lemma get_col_ok {S} cols target c (s : S) :
  finds cols target c → ∃ i, get_col cols target s = (Ret (i, c), s).
Proof. intros [i Hi]. exists i. unfold get_col. by rewrite Hi. Qed.

Lemma finds_key cols target c : finds cols target c → c ∈ cols ∧ col_key c = target.
Proof.
  intros [i Hi]. apply list_find_Some in Hi as (Hc & [H1 H2] & _).
  split; [by eapply list_elem_of_lookup_2|]. destruct target. unfold col_key. simpl in *. by subst.
Qed.

Lemma eval_cond_ok {S} cols cond rec c v1 v2 b2 (s : S) :
  finds cols (Condition.lhs_col cond) c → holds rec c v1 →
  Condition.is_rhs_val cond = true → Condition.rhs_val cond = with_raw b2 v2 →
  encodes (ColMeta.type c) (ColMeta.len c) v2 b2 →
  eval_cond cols cond rec s = (Ret (op_holds (Condition.op cond) (val_cmp v1 v2)), s).
Proof.
  intros Hf (b1 & Hb1 & H1) Hr Hv H2. unfold eval_cond.
  destruct (get_col_ok cols _ c s Hf) as [i Hi]. run Hi. cbn [snd].
  rewrite Hr, Hv. cbn [Value.type Value.raw with_raw]. rewrite bind_assoc.
  rewrite (bind_or_ub _ _ _ (ColMeta.type c)) by (by apply encodes_type in H2).
  rewrite bind_assoc, (bind_or_ub _ _ _ (mkRmRecord b2)) by done. rewrite bind_ret.
  rewrite bind_assert by (by apply bool_decide_eq_true).
  erewrite bind_Ret; [done|]. eapply ix_compare_vals; [done..|by apply at_ptr_read|].
  cbn [data]. rewrite mem_read_Some by (rewrite ?(encodes_length _ _ _ _ H2); try lia;
    rewrite <- (encodes_length _ _ _ _ H2); lia).
  rewrite <- (encodes_length _ _ _ _ H2) at 1. by rewrite slice_full.
Qed.

(** *** The dictionary of a record *)

Definition dict_holds (d : gmap TabCol Value.t) (c : ColMeta.t) (v : Value.t) : Prop :=
  ∃ b, encodes (ColMeta.type c) (ColMeta.len c) v b ∧ d !! col_key c = Some (with_raw b v).

Lemma with_raw_none ty len v b : encodes ty len v b → Value.raw v = None.
Proof. destruct ty; simpl; naive_solver. Qed.

Lemma rec2dict_ok {S} cols rec (s : S) :
  NoDup (col_key <$> cols) → (∀ c, c ∈ cols → ∃ v, holds rec c v) →
  ∃ d, rec2dict cols rec s = (Ret d, s) ∧ ∀ c v, c ∈ cols → holds rec c v → dict_holds d c v.
Proof.
  intros Hnd Hh. unfold rec2dict.
  assert (Hacc : ∀ acc : gmap TabCol Value.t, (∀ c, c ∈ cols → acc !! col_key c = None) →
    ∃ d, fold_m (λ (rec_dict : gmap TabCol Value.t) col,
      let key := col_key col in
      let* val := field_value col rec in
      assert (bool_decide (rec_dict !! key = None)) ;;;
      let* val := Value.init_raw (ColMeta.len col) val in
      ret (<[key := val]> rec_dict)) acc cols s = (Ret d, s) ∧
      (∀ k, (k ∉ col_key <$> cols) → d !! k = acc !! k) ∧
      ∀ c v, c ∈ cols → holds rec c v → dict_holds d c v).
  { revert Hnd Hh. induction cols as [|c cols IH]; intros Hnd Hh acc Hacc.
    - exists acc. split_and!; [done|done|]. by intros c v ?%elem_of_nil.
    - rewrite fmap_cons in *. apply NoDup_cons in Hnd as [Hc Hnd]. cbn [fold_m].
      destruct (Hh c) as [v (b & Hb & Hv)]; [left|].
      destruct (IH Hnd) with (acc := <[col_key c := with_raw b v]> acc) as (d & Hd & Hout & Hin).
      { intros c' Hc'. apply Hh. by right. }
      { intros c' Hc'. rewrite lookup_insert_ne; [apply Hacc; by right|].
        intros Heq. apply Hc. rewrite Heq. by apply list_elem_of_fmap_2. }
      exists d. split_and!.
      + rewrite <- Hd. rewrite bind_assoc. run (field_value_ok rec c v s (ex_intro _ b (conj Hb Hv))).
        rewrite bind_assoc, bind_assert by (apply bool_decide_eq_true, Hacc; left).
        rewrite bind_assoc. run (init_raw_encodes _ _ _ _ s Hv). by rewrite bind_ret.
      + intros k Hk. rewrite Hout by set_solver. rewrite lookup_insert_ne; [done|]. set_solver.
      + intros c' v' [->|Hc']%elem_of_cons Hh'; [|by apply Hin].
        assert (v' = v) as ->.
        { pose proof (field_value_ok rec c v' s Hh') as H1.
          rewrite (field_value_ok rec c v s (ex_intro _ b (conj Hb Hv))) in H1. by injection H1. }
        exists b. split; [done|]. rewrite Hout by done. apply lookup_insert_eq. }
  destruct (Hacc ∅) as (d & Hd & _ & Hin); [done|]. by exists d.
Qed.

(** ** Theorems *)

(** C30: A condition [column op literal] of a WHERE clause is decided as SQL says: after [init_raw] gives
    the literal the bytes of the column's type and length, [eval_cond] compares the bytes of a
    record with it, and the answer is [op] on the order of the two values: of integers, of
    floating-point numbers, or of strings. *)
Theorem where_condition_correct {St} cols rec cond c v1 v2 b2 (s : St) :
  finds cols (Condition.lhs_col cond) c → holds rec c v1 → Condition.is_rhs_val cond = true →
  Condition.rhs_val cond = v2 → encodes (ColMeta.type c) (ColMeta.len c) v2 b2 →
  ∃ v2', Value.init_raw (ColMeta.len c) v2 s = (Ret v2', s) ∧
    eval_cond cols (Condition.set_rhs_val v2' cond) rec s
      = (Ret (op_holds (Condition.op cond) (val_cmp v1 v2)), s).
Proof.
  intros Hf Hh Hr Hv He. exists (with_raw b2 v2). split; [by eapply init_raw_encodes|].
  by apply (eval_cond_ok cols (Condition.set_rhs_val (with_raw b2 v2) cond) rec c v1 v2 b2).
Qed.

(** C31: A join condition between a column of the left table and a column of the right table, written in
    either order, becomes a condition of the scan of the right table with the same meaning: the
    constructor of the scan puts the right table's column on the left and mirrors the operator,
    [rec2dict] and [feed] replace the other column by its value in the current left record, the
    runtime check passes, and [eval_cond] on a right record gives [op] on the two values in the
    order of the query.  The columns must have the same length: a string value shorter than the
    column it is compared with is read past its end. *)
Theorem join_condition_correct {St} colsA recA colsB recB cA cB vA vB tabB op rv (mirrored : bool) (s : St) :
  NoDup (col_key <$> colsA) → (∀ c, c ∈ colsA → ∃ v, holds recA c v) → cA ∈ colsA →
  holds recA cA vA → ColMeta.tab_name cA ≠ tabB →
  ColMeta.tab_name cB = tabB → finds colsB (col_key cB) cB → holds recB cB vB →
  ColMeta.type cA = ColMeta.type cB → ColMeta.len cA = ColMeta.len cB →
  let cond := if mirrored then Condition.mk (col_key cA) op false (col_key cB) rv
              else Condition.mk (col_key cB) op false (col_key cA) rv in
  (∃ d cond1 cond2, rec2dict colsA recA s = (Ret d, s) ∧
     SeqScan.norm_cond tabB cond s = (Ret cond1, s) ∧
     SeqScan.feed_cond tabB d cond1 s = (Ret cond2, s) ∧
     check_runtime_cond tabB cond2 s = (Ret tt, s) ∧
     eval_cond colsB cond2 recB s
       = (Ret (op_holds op (if mirrored then val_cmp vA vB else val_cmp vB vA)), s)) ∧
  (∀ b, ColMeta.type cB = TYPE_STRING → zlen b < ColMeta.len cB →
     (eval_cond colsB (Condition.bind_rhs (with_raw b (Value.set_str "" Value.empty))
                         (Condition.mk (col_key cB) op false (col_key cA) rv)) recB s).1 = UB).
Proof.
  intros Hnd Hall HinA HA HneA HtB HfB HB Hty Hlen. cbn zeta. split.
  - destruct (rec2dict_ok colsA recA s Hnd Hall) as (d & Hd & Hdict).
    destruct (Hdict cA vA HinA HA) as (b & He & Hl).
    rewrite Hty, Hlen in He.
    assert (Hanti : val_cmp vB vA = - val_cmp vA vB).
    { destruct HB as (b' & _ & HB'). by apply (val_cmp_anti _ _ _ _ _ _ He HB'). }
    exists d. destruct mirrored.
    + exists (Condition.mk (col_key cB) (swap_op op) false (col_key cA) rv),
        (Condition.mk (col_key cB) (swap_op op) true (col_key cA) (with_raw b vA)).
      split_and!; [done| | | |].
      * unfold SeqScan.norm_cond, col_key. cbn [Condition.lhs_col tc_tab_name].
        rewrite bool_decide_eq_false_2 by done. cbn [negb Condition.is_rhs_val Condition.rhs_col tc_tab_name].
        rewrite bool_decide_eq_true_2 by done. done.
      * unfold SeqScan.feed_cond, col_key. cbn [Condition.is_rhs_val Condition.rhs_col tc_tab_name negb andb].
        rewrite bool_decide_eq_false_2 by done. cbn [negb].
        change (mkTabCol (ColMeta.tab_name cA) (ColMeta.name cA)) with (col_key cA). by rewrite Hl.
      * unfold check_runtime_cond, col_key. cbn [Condition.lhs_col Condition.is_rhs_val tc_tab_name negb when].
        by rewrite bind_assert by (by apply bool_decide_eq_true).
      * erewrite eval_cond_ok; [|exact HfB|exact HB|done|done|exact He].
        cbn [Condition.op]. by rewrite Hanti, swap_op_holds.
    + exists (Condition.mk (col_key cB) op false (col_key cA) rv),
        (Condition.mk (col_key cB) op true (col_key cA) (with_raw b vA)).
      split_and!; [done| | | |].
      * unfold SeqScan.norm_cond, col_key. cbn [Condition.lhs_col tc_tab_name].
        by rewrite bool_decide_eq_true_2 by done.
      * unfold SeqScan.feed_cond, col_key. cbn [Condition.is_rhs_val Condition.rhs_col tc_tab_name negb andb].
        rewrite bool_decide_eq_false_2 by done. cbn [negb].
        change (mkTabCol (ColMeta.tab_name cA) (ColMeta.name cA)) with (col_key cA). by rewrite Hl.
      * unfold check_runtime_cond, col_key. cbn [Condition.lhs_col Condition.is_rhs_val tc_tab_name negb when].
        by rewrite bind_assert by (by apply bool_decide_eq_true).
      * by erewrite eval_cond_ok; [|exact HfB|exact HB|done|done|exact He].
  - intros b Hs Hb. unfold eval_cond. destruct (get_col_ok colsB (col_key cB) cB s HfB) as [i Hi].
    cbn [Condition.lhs_col Condition.bind_rhs]. run Hi.
    cbn [Condition.is_rhs_val Condition.rhs_val Condition.bind_rhs snd].
    rewrite bind_assoc, (bind_or_ub _ _ _ TYPE_STRING) by done.
    rewrite bind_assoc, (bind_or_ub _ _ _ (mkRmRecord b)) by done. rewrite bind_ret.
    rewrite bind_assert by (by apply bool_decide_eq_true). cbn [data].
    destruct HB as (b' & Hb' & _). apply at_ptr_read in Hb'.
    unfold ix_compare. cbn [coltype_int]. change (coltype_of_int 2) with (Some TYPE_STRING). cbn beta iota.
    rewrite bind_assoc, (bind_or_ub _ _ _ _ Hb'), bind_assoc.
    unfold mem_read at 1. destruct (in_range b 0 (ColMeta.len cB)) eqn:Hr; [|done].
    apply in_range_spec in Hr. lia.
Qed.

(** ** Witnesses *)

Module QueryDemo.

Definition id_col : ColMeta.t := ColMeta.mk "student" "id" TYPE_INT 4 0 false.
Definition name_col : ColMeta.t := ColMeta.mk "student" "name" TYPE_STRING 8 4 false.
Definition sid_col : ColMeta.t := ColMeta.mk "grade" "sid" TYPE_INT 4 0 false.
Definition student : RmRecord := mkRmRecord (enc32 7 ++ pad 8 "alice").
Definition grade : RmRecord := mkRmRecord (enc32 7).
Definition int_val (n : Z) : Value.t := Value.set_int n Value.empty.
Definition str_val (s : string) : Value.t := Value.set_str s Value.empty.

Lemma holds_id : holds student id_col (int_val 7).
Proof. exists (enc32 7). split; [done|]. split; [done|]. exists 7. by vm_compute. Qed.

Lemma holds_name : holds student name_col (str_val "alice").
Proof.
  exists (pad 8 "alice"). split; [done|]. exists "alice"%string.
  split; [vm_compute; naive_solver|]. split; [vm_compute; split; congruence|done].
Qed.

Lemma holds_sid : holds grade sid_col (int_val 7).
Proof. exists (enc32 7). split; [done|]. split; [done|]. exists 7. by vm_compute. Qed.

End QueryDemo.

Lemma where_condition_correct_witness :
  eval_cond [QueryDemo.id_col; QueryDemo.name_col]
    (Condition.mk (mkTabCol "student" "name") OP_LT true (mkTabCol "" "")
       (with_raw (pad 8 "bob") (QueryDemo.str_val "bob"))) QueryDemo.student tt = (Ret true, tt).
Proof.
  destruct (where_condition_correct [QueryDemo.id_col; QueryDemo.name_col] QueryDemo.student
     (Condition.mk (mkTabCol "student" "name") OP_LT true (mkTabCol "" "") (QueryDemo.str_val "bob"))
     QueryDemo.name_col (QueryDemo.str_val "alice") (QueryDemo.str_val "bob") (pad 8 "bob") tt)
    as (v & Hv & He).
  - by exists 1%nat.
  - apply QueryDemo.holds_name.
  - done.
  - done.
  - exists "bob"%string. split; [vm_compute; naive_solver|].
    split; [vm_compute; split; congruence|]. split; reflexivity.
  - assert (v = with_raw (pad 8 "bob") (QueryDemo.str_val "bob")) as -> by (injection Hv; done).
    exact He.
Defined.

Lemma join_condition_correct_witness : ∃ cond d,
  rec2dict [QueryDemo.id_col; QueryDemo.name_col] QueryDemo.student tt = (Ret d, tt) ∧
  SeqScan.feed_cond "grade" d (Condition.mk (mkTabCol "grade" "sid") OP_EQ false
                                 (mkTabCol "student" "id") Value.empty) tt = (Ret cond, tt) ∧
  eval_cond [QueryDemo.sid_col] cond QueryDemo.grade tt = (Ret true, tt).
Proof.
  destruct (join_condition_correct [QueryDemo.id_col; QueryDemo.name_col] QueryDemo.student
     [QueryDemo.sid_col] QueryDemo.grade QueryDemo.id_col QueryDemo.sid_col
     (QueryDemo.int_val 7) (QueryDemo.int_val 7) "grade" OP_EQ Value.empty false tt)
    as ((d & c1 & c2 & Hd & Hn & Hf & _ & He) & _).
  - apply (bool_decide_eq_true_1 _). vm_compute. reflexivity.
  - intros c [->|[->|Hc]%elem_of_cons]%elem_of_cons.
    + exists (QueryDemo.int_val 7). apply QueryDemo.holds_id.
    + exists (QueryDemo.str_val "alice"). apply QueryDemo.holds_name.
    + by apply elem_of_nil in Hc.
  - left.
  - apply QueryDemo.holds_id.
  - discriminate.
  - done.
  - by exists 0%nat.
  - apply QueryDemo.holds_sid.
  - done.
  - done.
  - exists c2, d. split; [exact Hd|]. split; [|exact He].
    assert (c1 = Condition.mk (mkTabCol "grade" "sid") OP_EQ false (mkTabCol "student" "id") Value.empty)
      as -> by (injection Hn; done).
    exact Hf.
Defined.
