(* ===== verification/CatalogThms.v ===== *)
(** The typing of tables: what the catalogue says about the rows of a table. *)
From S2P Require Import Prelude.
From S2P Require Import Defs.
From S2P Require Import Replacer.
From S2P Require Import Disk.
From S2P Require Import BufferPool.
From S2P Require Import PoolSpec.
From S2P Require Import RmFile.
From S2P Require Import RmFileProofs.
From S2P Require Import RmPage.
From S2P Require Import SmMeta.
From S2P Require Import SmManager.
From S2P Require Import SmThms.
From S2P Require Import Query.
From S2P Require Import QueryThms.
From S2P Require Import ModelFs.
From S2P Require Import DemoFile.
Import SmManager.

#[local] Open Scope prog_scope.

(** ** Typed tables *)

(** Columns of a statement: distinct names, numbers of four bytes, strings of a
    length that is not negative. *)
Record defs_typed (l : list ColDef) : Prop := {
  dt_names : NoDup (map cd_name l);
  dt_widths : Forall (λ d, 0 <= cd_len d ∧ (cd_type d ≠ TYPE_STRING → cd_len d = 4)) l;
  dt_total : total_len l < 2 ^ 31 }.

(** The columns of a table tile its records. *)
Record typed_table (tab_name : string) (tab : TabMeta.t) (size : Z) : Prop := {
  ty_name : TabMeta.name tab = tab_name;
  ty_cols : ∃ l, defs_typed l ∧ map (ColMeta.set_index false) (TabMeta.cols tab) = layout tab_name 0 l ∧
    size = total_len l }.

(** A value of a column and the bytes that hold it. *)
Definition cell (c : ColMeta.t) (x : Value.t * bytes) : Prop := encodes (ColMeta.type c) (ColMeta.len c) x.1 x.2.

(** The record with these values. *)
Definition row (l : list (Value.t * bytes)) : RmRecord := mkRmRecord (concat (map snd l)).

Lemma defs_lens l : defs_typed l → lens_ok l.
Proof. intros [_ Hw _]. eapply Forall_impl; [exact Hw|]. by intros ? []. Qed.

Lemma erased_lookup cols l tab_name i c :
  map (ColMeta.set_index false) cols = layout tab_name 0 l → cols !! i = Some c →
  layout tab_name 0 l !! i = Some (ColMeta.set_index false c).
Proof. intros <- Hi. by rewrite list_lookup_fmap, Hi. Qed.

(** ** Rows *)

Lemma slice_concat (bs : list bytes) i b :
  bs !! i = Some b → slice (concat bs) (zlen (concat (take i bs))) (zlen b) = b.
Proof.
  intros Hi. unfold slice. rewrite !Nat2Z.id. rewrite <- (take_drop_middle bs i b Hi) at 2.
  rewrite concat_app. cbn [concat]. rewrite drop_app_length. by rewrite take_app_length.
Qed.

Lemma cells_length cols l :
  Forall2 cell cols l → zlen (concat (map snd l)) = foldr (λ c n, ColMeta.len c + n) 0 cols.
Proof.
  induction 1 as [|c x cols l Hc _ IH]; [done|]. cbn [map concat foldr]. rewrite length_app.
  rewrite Nat2Z.inj_add, IH. by rewrite (encodes_length _ _ _ _ Hc).
Qed.

Lemma layout_total tab_name off l : foldr (λ c n, ColMeta.len c + n) 0 (layout tab_name off l) = total_len l.
Proof. revert off. induction l as [|d l IH]; intros off; [done|]. simpl. rewrite IH. done. Qed.

Lemma erase_total cols : foldr (λ c n, ColMeta.len c + n) 0 (map (ColMeta.set_index false) cols) = foldr (λ c n, ColMeta.len c + n) 0 cols.
Proof. induction cols as [|c cols IH]; [done|]. simpl. by rewrite IH. Qed.

Lemma take_layout tab_name l i : take i (layout tab_name 0 l) = layout tab_name 0 (take i l).
Proof.
  generalize 0. revert i. induction l as [|d l IH]; intros [|i] off; simpl; try done. by rewrite IH.
Qed.

Section rows.
  Context (tab_name : string) (tab : TabMeta.t) (size : Z) (Ht : typed_table tab_name tab size).
  Context (cells : list (Value.t * bytes)) (Hcells : Forall2 cell (TabMeta.cols tab) cells).

Lemma row_length : zlen (data (row cells)) = size.
Proof.
  destruct Ht as [_ (l & _ & Hl & ->)]. simpl. rewrite (cells_length _ _ Hcells).
  by rewrite <- erase_total, Hl, layout_total.
Qed.

Lemma row_holds i c v b :
  TabMeta.cols tab !! i = Some c → cells !! i = Some (v, b) → holds (row cells) c v.
Proof.
  intros Hc Hx. exists b. pose proof (Forall2_lookup_lr _ _ _ _ _ _ Hcells Hc Hx) as He. split; [|exact He].
  pose proof row_length as Hsize. destruct Ht as [_ (l & Hd & Hl & Htot)].
  pose proof (erased_lookup _ _ _ _ _ Hl Hc) as Hlc.
  destruct (layout_lookup _ _ _ _ _ (defs_lens _ Hd) Hlc) as (Hoff & Hend & Hlen). simpl in *.
  pose proof (total_len_nonneg _ (proj1 (lens_ok_take_drop _ i (defs_lens _ Hd)))) as Hpos.
  pose proof (total_len_nonneg _ (proj2 (lens_ok_take_drop _ (S i) (defs_lens _ Hd)))) as Hpos'.
  assert (Hoff' : zlen (concat (take i (map snd cells))) = ColMeta.offset c).
  { rewrite <- Hoff. rewrite firstn_map, (cells_length (take i (TabMeta.cols tab))) by (by apply Forall2_take).
    rewrite <- erase_total, <- firstn_map, Hl, take_layout, layout_total. lia. }
  rewrite mem_read_Some by lia. f_equal.
  rewrite <- Hoff', <- (encodes_length _ _ _ _ He). apply slice_concat. by rewrite list_lookup_fmap, Hx.
Qed.

Lemma cols_keys : NoDup (col_key <$> TabMeta.cols tab).
Proof.
  destruct Ht as [_ (l & [Hn _ _] & Hl & _)].
  assert (map cd_name l = map ColMeta.name (TabMeta.cols tab)) as Hnames.
  { rewrite <- (layout_defs tab_name l 0), <- Hl, !map_map. done. }
  rewrite Hnames in Hn. clear -Hn. induction (TabMeta.cols tab) as [|c cols IH]; [constructor|].
  cbn [map] in Hn. apply NoDup_cons in Hn as [Hc Hn]. rewrite fmap_cons. apply NoDup_cons. split; [|by apply IH].
  intros (c' & Heq & Hc')%list_elem_of_fmap. apply Hc, list_elem_of_fmap. exists c'. split; [|done].
  by injection Heq.
Qed.

(** The row decodes to its values. *)
Lemma row_decodes {S} (s : S) :
  ∃ d, rec2dict (TabMeta.cols tab) (row cells) s = (Ret d, s) ∧
    ∀ i c v b, TabMeta.cols tab !! i = Some c → cells !! i = Some (v, b) →
      field_value c (row cells) s = (Ret v, s) ∧ Value.type v = Some (ColMeta.type c) ∧
      d !! col_key c = Some (with_raw b v).
Proof.
  destruct (rec2dict_ok (TabMeta.cols tab) (row cells) s cols_keys) as (d & Hd & Hin).
  { intros c (i & Hi)%list_elem_of_lookup. destruct (Forall2_lookup_l _ _ _ _ _ Hcells Hi) as ([v b] & Hx & _).
    exists v. by apply (row_holds i c v b). }
  exists d. split; [done|]. intros i c v b Hc Hx. pose proof (row_holds i c v b Hc Hx) as Hh. split_and!.
  - by apply field_value_ok.
  - exact (encodes_type _ _ _ _ (Forall2_lookup_lr _ _ _ _ _ _ Hcells Hc Hx)).
  - destruct (Hin c v) as (b' & He' & ->); [by eapply list_elem_of_lookup_2|done|].
    pose proof (Forall2_lookup_lr _ _ _ _ _ _ Hcells Hc Hx) as He. unfold cell in He. simpl in He.
    pose proof (init_raw_encodes _ _ _ _ s He) as H1. rewrite (init_raw_encodes _ _ _ _ s He') in H1.
    by injection H1 as ->.
Qed.

End rows.

(** ** The catalogue *)

Section catalogue.
  Context {F : Type} `{PL : PosixLaws F} {R : Type} {RP : Replacer R} {RPL : ReplacerLaws R}.
  Implicit Types (s : SmManager.t F R) (a : Abs).

(** Every table is typed and its record file, which is open, has records of that
    size. *)
Definition typed_catalogue s : Prop :=
  ∀ t tab, DbMeta.tabs_ (db_ s) !! t = Some tab →
    ∃ x, fhs_ s !! t = Some x ∧ typed_table t tab (record_size (RmFileHandle.file_hdr_ x)).

Lemma layout_erased tab_name off l : map (ColMeta.set_index false) (layout tab_name off l) = layout tab_name off l.
Proof. revert off. induction l as [|d l IH]; intros off; [done|]. simpl. by rewrite IH. Qed.

Lemma create_table_typed s a tab_name l r s' :
  repr (bpm s) a → typed_catalogue s → defs_typed l →
  (DbMeta.is_table (db_ s) tab_name = false → fhs_ s !! tab_name = None ∧ new_name tab_name (bpm s)) →
  create_table tab_name l s = (r, s') → typed_catalogue s'.
Proof.
  intros Hr Hc Hl Hnew Hrun. pose proof (defs_lens l Hl) as Hlens.
  destruct (DbMeta.is_table (db_ s) tab_name) eqn:Htab.
  { rewrite create_table_taken in Hrun by done. by injection Hrun as <- <-. }
  destruct (Hnew eq_refl) as [Hnone Hn].
  destruct (decide (1 <= total_len l <= RM_MAX_RECORD_SIZE)) as [Hs|Hs].
  2:{ rewrite create_table_bad_size in Hrun by (done || apply Hl). by injection Hrun as <- <-. }
  destruct (create_table_ok s a tab_name l Hr Hlens (dt_total _ Hl) Hnone Htab Hs Hn)
    as (s1 & a1 & x & H1 & Hdb & Hfhs & _ & _ & _ & _ & Hsize & _).
  rewrite H1 in Hrun. injection Hrun as _ <-. intros t tab. rewrite Hdb, Hfhs. cbn [DbMeta.set_tab DbMeta.tabs_].
  destruct (decide (t = tab_name)) as [->|Hne].
  - rewrite !lookup_insert_eq. intros [= <-]. exists x. split; [done|]. split; [done|].
    exists l. split_and!; [done|apply layout_erased|done].
  - rewrite !lookup_insert_ne by done. apply Hc.
Qed.

(** C29: The typing of tables.  CREATE TABLE, with distinct column names and lengths that are not
    negative (the code checks neither), keeps the catalogue typed, whatever its outcome: the columns of every table tile
    the records of its open file.  Then every list of values of the types of the columns has a
    row of the record size, and every column of the row reads back its value, with the type of
    the column: in [field_value], and in the dictionary of [rec2dict], where no assertion
    fails. *)
Theorem catalogue_typed {St} s a tab_name l (r : Res unit) s' (σ : St) :
  repr (bpm s) a → typed_catalogue s → defs_typed l →
  (DbMeta.is_table (db_ s) tab_name = false → fhs_ s !! tab_name = None ∧ new_name tab_name (bpm s)) →
  create_table tab_name l s = (r, s') →
  typed_catalogue s' ∧
  ∀ t tab cells, DbMeta.tabs_ (db_ s') !! t = Some tab → Forall2 cell (TabMeta.cols tab) cells →
    ∃ x d, fhs_ s' !! t = Some x ∧ zlen (data (row cells)) = record_size (RmFileHandle.file_hdr_ x) ∧
      rec2dict (TabMeta.cols tab) (row cells) σ = (Ret d, σ) ∧
      ∀ i c v b, TabMeta.cols tab !! i = Some c → cells !! i = Some (v, b) →
        field_value c (row cells) σ = (Ret v, σ) ∧ Value.type v = Some (ColMeta.type c) ∧
        d !! col_key c = Some (with_raw b v).
Proof.
  intros Hr Hc Hl Hnew Hrun. pose proof (create_table_typed s a tab_name l r s' Hr Hc Hl Hnew Hrun) as Hc'.
  split; [done|]. intros t tab cells Ht Hcells. destruct (Hc' t tab Ht) as (x & Hx & Hty).
  destruct (row_decodes t tab _ Hty cells Hcells σ) as (d & Hd & Hcols). exists x, d.
  split_and!; [done|exact (row_length t tab _ Hty cells Hcells)|done|exact Hcols].
Qed.

End catalogue.

(** The names are not checked: a table may have two columns of one name, and then
    [rec2dict] of any of its rows fails its assertion. *)
Lemma duplicate_names {St} (n m : Z) (σ : St) :
  is_s32 n → is_s32 m →
  (rec2dict (layout "t" 0 [mkColDef "a" TYPE_INT 4; mkColDef "a" TYPE_INT 4]) (mkRmRecord (enc32 n ++ enc32 m)) σ).1
  = AssertFail.
Proof.
  intros Hn Hm. unfold rec2dict. cbn [layout fold_m cd_name cd_type cd_len].
  assert (Hfield : ∀ off k, (off = 0 ∧ k = n) ∨ (off = 4 ∧ k = m) →
    field_value (ColMeta.mk "t" "a" TYPE_INT 4 off false) (mkRmRecord (enc32 n ++ enc32 m)) σ
    = (Ret (Value.set_int k Value.empty), σ)).
  { intros off k Hk. apply field_value_ok. exists (enc32 k). split; [|split; [done|]; exists k].
    - destruct Hk as [[-> ->]|[-> ->]]; done.
    - split_and!; [|done|done]. naive_solver. }
  rewrite bind_assoc. run (Hfield 0 n (or_introl (conj eq_refl eq_refl))).
  rewrite bind_assoc, bind_assert by done. rewrite bind_assoc.
  erewrite (bind_Ret _ _ _ _ _ (init_raw_encodes TYPE_INT 4 (Value.set_int n Value.empty) (enc32 n) σ _)). cbn beta iota.
  rewrite bind_ret, bind_assoc. run (Hfield 4 m (or_intror (conj eq_refl eq_refl))).
  rewrite bind_assoc. unfold bind at 1, assert. by rewrite bool_decide_eq_false_2 by (rewrite lookup_insert_eq; done).
  Unshelve. split; [done|]. by exists n.
Qed.

(** ** Witness *)

Lemma student_typed : defs_typed SmDemo.student.
Proof.
  split; [|repeat constructor; done|done].
  apply (bool_decide_eq_true_1 (NoDup (map cd_name SmDemo.student))). vm_compute. reflexivity.
Qed.

Definition alice : list (Value.t * bytes) :=
  [(Value.set_int 7 Value.empty, enc32 7);
   (Value.set_str "alice" Value.empty, pad 32 "alice");
   (Value.set_float 1119092736 Value.empty, enc32 1119092736)].

Lemma alice_cells : Forall2 cell (layout "student" 0 SmDemo.student) alice.
Proof.
  constructor; [|constructor; [|constructor; [|constructor]]].
  - split; [done|]. by exists 7.
  - exists "alice"%string. split_and!; [|simpl; lia..|done|done]. repeat split; done.
  - split; [done|]. by exists 1119092736.
Qed.

(** The table [student] and a row of it. *)
Lemma catalogue_typed_witness : ∃ s', create_table "student" SmDemo.student SmDemo.sm0 = (Ret tt, s') ∧
  typed_catalogue s' ∧ ∃ d, rec2dict (layout "student" 0 SmDemo.student) (row alice) tt = (Ret d, tt) ∧
    d !! mkTabCol "student" "name" = Some (with_raw (pad 32 "alice") (Value.set_str "alice" Value.empty)).
Proof.
  destruct DemoFile.pool0_repr as (V & N & O & Hr & _ & _).
  assert (Hnew : new_name "student" (bpm SmDemo.sm0)) by (split_and!; done).
  destruct (create_table_ok SmDemo.sm0 _ "student" SmDemo.student Hr) as (s' & a' & x & Hrun & Hdb & _);
    [repeat constructor; done|done..|vm_compute; split; congruence|done|].
  exists s'. split; [done|].
  destruct (catalogue_typed SmDemo.sm0 _ "student" SmDemo.student (Ret tt) s' tt Hr) as [Hc Hrows];
    [by intros t tab|apply student_typed|by intros _|exact Hrun|].
  split; [exact Hc|].
  destruct (Hrows "student"%string (TabMeta.mk "student" (layout "student" 0 SmDemo.student)) alice) as (y & d & _ & _ & Hd & Hcols);
    [by rewrite Hdb; apply lookup_insert_eq|exact alice_cells|].
  exists d. split; [exact Hd|]. by destruct (Hcols 1%nat _ _ _ eq_refl eq_refl) as (_ & _ & ?).
Defined.
