(* ===== verification/QlManager.v ===== *)
(** The query manager, [src/src/execution/execution_manager.cpp]: column
    inference, WHERE clauses, the choice of conditions for each table of a
    SELECT, and the statements.

    The state is the system manager with the context of the statement.  The
    sources build no executor (the vectors and pointers stay null), so the
    loops over the result run on a null pointer.  [float_str] is
    [std::to_string] of a [float], [fuel] bounds the tuples of a result. *)
From S2P Require Import Prelude.
From S2P Require Import Defs.
From S2P Require Import Replacer.
From S2P Require Import Disk.
From S2P Require Import BufferPool.
From S2P Require Import RmFile.
From S2P Require Import Txn.
From S2P Require Import SmMeta.
From S2P Require Import RecordPrinter.
From S2P Require Import SmManager.
From S2P Require Import Query.
From S2P Require Import Executors.
Import SmManager.

#[local] Open Scope prog_scope.

Module QlManager.

(** ** Columns *)

(** The loop that infers the table of a column. *)
Fixpoint infer_table {S} (all_cols : list ColMeta.t) (col_name tab_name : string) : M S string :=
  match all_cols with
  | [] => ret tab_name
  | col :: cols' =>
      if bool_decide (ColMeta.name col = col_name) then
        if negb (is_empty tab_name) then throw (AmbiguousColumnError col_name)
        else infer_table cols' col_name (ColMeta.tab_name col)
      else infer_table cols' col_name tab_name
  end.

Definition check_column {S} (db : DbMeta.t) (all_cols : list ColMeta.t) (target : TabCol) : M S TabCol :=
  if is_empty (tc_tab_name target) then
    let* tab_name := infer_table all_cols (tc_col_name target) "" in
    if is_empty tab_name then throw (ColumnNotFoundError (tc_col_name target))
    else ret (mkTabCol tab_name (tc_col_name target))
  else
    let* ok := (if DbMeta.is_table db (tc_tab_name target)
                then let* tab := DbMeta.get_table db (tc_tab_name target) in
                     ret (TabMeta.is_col tab (tc_col_name target))
                else ret false) in
    if negb ok then throw (ColumnNotFoundError (tc_tab_name target ++ "." ++ tc_col_name target)%string)
    else ret target.

Definition get_all_cols {S} (db : DbMeta.t) (tab_names : list string) : M S (list ColMeta.t) :=
  fold_m (λ all_cols sel_tab_name,
    let* tab := DbMeta.get_table db sel_tab_name in ret (all_cols ++ TabMeta.cols tab)) [] tab_names.

(** ** Conditions *)

Definition check_condition {S} (db : DbMeta.t) (all_cols : list ColMeta.t) (cond : Condition.t)
    : M S Condition.t :=
  let* l := check_column db all_cols (Condition.lhs_col cond) in
  let cond := Condition.set_lhs l cond in
  let* cond := (if negb (Condition.is_rhs_val cond)
                then let* r := check_column db all_cols (Condition.rhs_col cond) in
                     ret (Condition.set_rhs_col r cond)
                else ret cond) in
  let* lhs_tab := DbMeta.get_table db (tc_tab_name (Condition.lhs_col cond)) in
  let* lhs_col := or_ub (deref_col lhs_tab (TabMeta.get_col lhs_tab (tc_col_name (Condition.lhs_col cond)))) in
  let lhs_type := ColMeta.type lhs_col in
  let* x := (if Condition.is_rhs_val cond then
               let* v := Value.init_raw (ColMeta.len lhs_col) (Condition.rhs_val cond) in
               let* ty := or_ub (Value.type v) in
               ret (Condition.set_rhs_val v cond, ty)
             else
               let* rhs_tab := DbMeta.get_table db (tc_tab_name (Condition.rhs_col cond)) in
               let* rhs_col := or_ub (deref_col rhs_tab
                                        (TabMeta.get_col rhs_tab (tc_col_name (Condition.rhs_col cond)))) in
               ret (cond, ColMeta.type rhs_col)) in
  let '(cond, rhs_type) := x in
  if negb (bool_decide (lhs_type = rhs_type))
  then throw (IncompatibleTypeError (coltype2str lhs_type) (coltype2str rhs_type))
  else ret cond.

Definition check_where_clause {S} (db : DbMeta.t) (tab_names : list string) (conds : list Condition.t)
    : M S (list Condition.t) :=
  let* all_cols := get_all_cols db tab_names in
  fold_m (λ res cond, let* c := check_condition db all_cols cond in ret (res ++ [c])) [] conds.

(** The loop of [get_indexNo]. *)
Fixpoint index_loop {S} (tab : TabMeta.t) (conds : list Condition.t) : M S Z :=
  match conds with
  | [] => ret (-1)
  | cond :: conds' =>
      if Condition.is_rhs_val cond && negb (bool_decide (Condition.op cond = OP_NE)) then
        let it := TabMeta.get_col tab (tc_col_name (Condition.lhs_col cond)) in
        let* lhs_col := or_ub (deref_col tab it) in
        if ColMeta.index lhs_col then let* i := or_ub it in ret (Z.of_nat i)
        else index_loop tab conds'
      else index_loop tab conds'
  end.

Definition get_indexNo {S} (db : DbMeta.t) (tab_name : string) (curr_conds : list Condition.t) : M S Z :=
  let* tab := DbMeta.get_table db tab_name in index_loop tab curr_conds.

(** *** [pop_conds]: the conditions about the given tables, and the others *)

Definition has_tab (tab_names : list string) (tab_name : string) : bool := bool_decide (tab_name ∈ tab_names).

Definition solvable (tab_names : list string) (cond : Condition.t) : bool :=
  has_tab tab_names (tc_tab_name (Condition.lhs_col cond))
  && (Condition.is_rhs_val cond || has_tab tab_names (tc_tab_name (Condition.rhs_col cond))).

(** The loop of [pop_conds]: [it] splits [conds] into what was kept and what
    is left to see. *)
Fixpoint pop_loop (tab_names : list string) (solved kept todo : list Condition.t)
    : list Condition.t * list Condition.t :=
  match todo with
  | [] => (solved, kept)
  | cond :: todo' =>
      if solvable tab_names cond then pop_loop tab_names (solved ++ [cond]) kept todo'
      else pop_loop tab_names solved (kept ++ [cond]) todo'
  end.

Definition pop_conds (conds : list Condition.t) (tab_names : list string)
    : list Condition.t * list Condition.t := pop_loop tab_names [] [] conds.

(** The body of the loop of [select_from] over the tables.  Its locals [curr_conds] and
    [index_no] are for a scan executor that the body does not create: nothing is stored in
    [table_scan_executors], and only [conds] is changed. *)
Definition scan_table {S} (db : DbMeta.t) (tab_names : list string) (i : nat) (conds : list Condition.t)
    : M S (list Condition.t) :=
  let '(curr_conds, conds) := pop_conds conds (take (i + 1) tab_names) in
  let* t := or_ub (tab_names !! i) in
  let* index_no := get_indexNo db t curr_conds in
  ret conds.

(** The loop, with [n] tables from table [i] on. *)
Fixpoint scan_tables {S} (db : DbMeta.t) (tab_names : list string) (i n : nat) (conds : list Condition.t)
    : M S (list Condition.t) :=
  match n with
  | O => ret conds
  | Datatypes.S n' => let* conds := scan_table db tab_names i conds in scan_tables db tab_names (i + 1) n' conds
  end.

(** ** Statements *)

Section ops.
  Context {F : Type} `{Posix F} {R : Type} `{Replacer R} (fuel : nat) (float_str : Z → string).
  Notation sm := (SmManager.t F R).
  Notation st := (sm * Context)%type.

Definition on_sm {A} (m : M sm A) : M st A := zoom fst (λ x s, (x, s.2)) m.
Definition on_ctx {A} (m : M Context A) : M st A := zoom snd (λ c s, (s.1, c)) m.
Definition get_db : M st DbMeta.t := gets (λ s, db_ s.1).

Definition insert_into (tab_name : string) (values : list Value.t) : M st unit := ret tt.

(** The loop dereferences the null pointer [scanExecutor]. *)
Definition delete_from (tab_name : string) (conds : list Condition.t) : M st unit :=
  let* db := get_db in
  let* _ := check_where_clause db [tab_name] conds in
  undefined.

Definition update_set (tab_name : string) (set_clauses : list SetClause) (conds : list Condition.t)
    : M st unit :=
  let* db := get_db in
  let* tab := DbMeta.get_table db tab_name in
  let* _ := check_where_clause db [tab_name] conds in
  for_each set_clauses (λ set_clause,
    let* lhs_col := or_ub (deref_col tab (TabMeta.get_col tab (tc_col_name (sc_lhs set_clause)))) in
    let* ty := or_ub (Value.type (sc_rhs set_clause)) in
    if negb (bool_decide (ColMeta.type lhs_col = ty))
    then throw (IncompatibleTypeError (coltype2str (ColMeta.type lhs_col)) (coltype2str ty))
    else let* _ := Value.init_raw (ColMeta.len lhs_col) (sc_rhs set_clause) in ret tt).

(** The text of a column of a tuple. *)
Definition col_str {S} (rec : RmRecord) (col : ColMeta.t) : M S string :=
  match ColMeta.type col with
  | TYPE_INT => let* n := or_ub (load32 (data rec) (ColMeta.offset col)) in ret (to_string n)
  | TYPE_FLOAT => let* n := or_ub (load32 (data rec) (ColMeta.offset col)) in ret (float_str n)
  | TYPE_STRING =>
      let* b := or_ub (mem_read (data rec) (ColMeta.offset col) (ColMeta.len col)) in
      ret (str_of_bytes b)
  end.

(** The loop over the result of an executor. *)
Section results.
  Context {E : Type} {X : Executor sm E}.

Definition on_exec {A} (m : M (E * sm) A) : M (E * st) A :=
  zoom (λ s, (s.1, s.2.1)) (λ p s, (p.1, (p.2, s.2.2))) m.

Definition print_tuple (printer : Z) : M (E * st) unit :=
  let* tuple := on_exec Next in
  let* e := gets fst in
  let* cs := or_ub (cols e) in
  let* rec := or_ub tuple in
  let* columns := fold_m (λ l col, let* x := col_str rec col in ret (l ++ [x])) [] cs in
  on_w (on_ctx (RecordPrinter.print_record printer columns)).

(** [for (begin; !is_end; next)], counting the records. *)
Fixpoint print_loop (k : nat) (printer num_rec : Z) : M (E * st) Z :=
  match k with
  | O => out_of_fuel
  | S k' =>
      let* e := on_exec is_end in
      if e then ret num_rec
      else
        print_tuple printer ;;;
        on_exec nextTuple ;;;
        print_loop k' printer (num_rec + 1)
  end.

Definition print_results (printer : Z) : M (E * st) Z := on_exec beginTuple ;;; print_loop fuel printer 0.

End results.

(** Runs on the executor a pointer refers to. *)
Definition with_exec {E A} (p : option E) (m : M (E * st) A) : M st A := λ s,
  match p with
  | None => (UB, s)
  | Some e => let '(r, x) := m (e, s) in (r, x.2)
  end.

Definition select_from (sel_cols : list TabCol) (tab_names : list string) (conds : list Condition.t)
    : M st unit :=
  let* db := get_db in
  let* all_cols := get_all_cols db tab_names in
  let* sel_cols :=
    (if bool_decide (sel_cols = []) then ret (map col_key all_cols)
     else fold_m (λ l c, let* c := check_column db all_cols c in ret (l ++ [c])) [] sel_cols) in
  let* conds := check_where_clause db tab_names conds in
  (* the pointers stay null *)
  let table_scan_executors : list (option SeqScan.t) := replicate (length tab_names) None in
  let* conds := scan_tables db tab_names 0 (length tab_names) conds in
  assert (bool_decide (conds = [])) ;;;
  let* executorTreeRoot := or_ub (last table_scan_executors) in
  let captions := map tc_col_name sel_cols in
  let* rec_printer := RecordPrinter.create (zlen sel_cols) in
  on_ctx (RecordPrinter.print_separator rec_printer) ;;;
  on_ctx (RecordPrinter.print_record rec_printer captions) ;;;
  on_ctx (RecordPrinter.print_separator rec_printer) ;;;
  let* num_rec := with_exec executorTreeRoot (print_results (X := SeqScan.seq_scan_executor fuel) rec_printer) in
  on_ctx (RecordPrinter.print_separator rec_printer) ;;;
  on_ctx (RecordPrinter.print_record_count num_rec).

End ops.
End QlManager.
