(* ===== verification/QlThms.v ===== *)
(** Theorems about the query manager: column inference, WHERE clauses and the
    distribution of the conditions of a SELECT over its tables. *)
From S2P Require Import Prelude.
From S2P Require Import Defs.
From S2P Require Import SmMeta.
From S2P Require Import SmManager.
From S2P Require Import Query.
From S2P Require Import QlManager.
Import QlManager.

#[local] Open Scope prog_scope.

(** ** Column inference *)

Definition named_cols (col_name : string) (cols : list ColMeta.t) : list ColMeta.t :=
  filter (λ c, ColMeta.name c = col_name) cols.

Lemma infer_table_found {S} cols col_name t (s : S) :
  t ≠ ""%string →
  infer_table cols col_name t s
  = match named_cols col_name cols with [] => (Ret t, s) | _ => (Throw (AmbiguousColumnError col_name), s) end.
Proof.
  intros Ht. unfold named_cols. induction cols as [|c cols IH]; [done|]. cbn [infer_table].
  rewrite filter_cons. case_bool_decide; case_decide; try done. by destruct t.
Qed.

Lemma infer_table_ok {S} cols col_name (s : S) :
  Forall (λ c, ColMeta.tab_name c ≠ ""%string) cols →
  infer_table cols col_name "" s
  = match named_cols col_name cols with
    | [] => (Ret ""%string, s)
    | [c] => (Ret (ColMeta.tab_name c), s)
    | _ => (Throw (AmbiguousColumnError col_name), s)
    end.
Proof.
  unfold named_cols. induction 1 as [|c cols Hc _ IH]; [done|]. cbn [infer_table].
  rewrite filter_cons. case_bool_decide; case_decide; try done.
  cbn [is_empty negb]. rewrite infer_table_found by done. unfold named_cols.
  by destruct (filter _ cols).
Qed.

(** A column written without a table is resolved to the only column of that name in the tables of
    the statement; no such column is [ColumnNotFoundError], more than one is
    [AmbiguousColumnError]. *)
Theorem column_inference {St} db cols col_name (s : St) :
  Forall (λ c, ColMeta.tab_name c ≠ ""%string) cols →
  check_column db cols (mkTabCol "" col_name) s
  = match named_cols col_name cols with
    | [] => (Throw (ColumnNotFoundError col_name), s)
    | [c] => (Ret (mkTabCol (ColMeta.tab_name c) col_name), s)
    | _ => (Throw (AmbiguousColumnError col_name), s)
    end.
Proof.
  intros Hc. unfold check_column. cbn [tc_tab_name is_empty tc_col_name].
  unfold bind. rewrite infer_table_ok by done.
  destruct (named_cols col_name cols) as [|c [|]] eqn:Hn; [done| |done].
  assert (c ∈ cols) as Hin.
  { assert (c ∈ named_cols col_name cols) as Hi by (rewrite Hn; left).
    by apply list_elem_of_filter in Hi as [_ ?]. }
  rewrite Forall_forall in Hc. specialize (Hc _ Hin). by destruct (ColMeta.tab_name c).
Qed.

(** ** WHERE clauses *)

(** The columns of the tables of a statement. *)
Definition cols_of (db : DbMeta.t) (tab_names : list string) : list ColMeta.t :=
  t ← tab_names; match DbMeta.tabs_ db !! t with Some tab => TabMeta.cols tab | None => [] end.

(** What a column of a WHERE clause is taken for. *)
Definition resolve (cols : list ColMeta.t) (target : TabCol) : Err + string :=
  if is_empty (tc_tab_name target) then
    match named_cols (tc_col_name target) cols with
    | [] => inl (ColumnNotFoundError (tc_col_name target))
    | [c] => inr (ColMeta.tab_name c)
    | _ => inl (AmbiguousColumnError (tc_col_name target))
    end
  else inl (ColumnNotFoundError (tc_tab_name target ++ "." ++ tc_col_name target)%string).

(** The columns name tables of the database. *)
Definition owned (db : DbMeta.t) (cols : list ColMeta.t) : Prop :=
  Forall (λ c, ColMeta.tab_name c ≠ ""%string ∧ DbMeta.is_table db (ColMeta.tab_name c) = true) cols.

Lemma get_table_ok {S} db t (s : S) :
  DbMeta.is_table db t = true → ∃ tab, DbMeta.tabs_ db !! t = Some tab ∧ DbMeta.get_table db t s = (Ret tab, s).
Proof.
  unfold DbMeta.is_table, DbMeta.get_table. rewrite bool_decide_eq_true. intros [tab Ht].
  exists tab. by rewrite Ht.
Qed.

Lemma get_all_cols_ok {S} db tabs (s : S) :
  Forall (λ t, DbMeta.is_table db t = true) tabs → get_all_cols db tabs s = (Ret (cols_of db tabs), s).
Proof.
  intros Ht. unfold get_all_cols. rewrite <- (app_nil_l (cols_of db tabs)). generalize (@nil ColMeta.t).
  induction Ht as [|t tabs Htab Ht IH]; intros acc; cbn [fold_m]; [by rewrite app_nil_r|].
  destruct (get_table_ok db t s Htab) as (tab & Hl & Hg). rewrite bind_assoc. run Hg.
  unfold bind at 1, ret at 1. rewrite IH. do 2 f_equal. rewrite <- (assoc_L (++)). f_equal.
  unfold cols_of. rewrite bind_cons, Hl. done.
Qed.

Lemma check_column_ok {S} db cols target (s : S) :
  owned db cols →
  match resolve cols target with
  | inl e => check_column db cols target s = (Throw e, s)
  | inr t => check_column db cols target s = (Ret (mkTabCol t (tc_col_name target)), s)
             ∧ DbMeta.is_table db t = true
  end.
Proof.
  intros Ho. destruct target as [tn cn]. unfold resolve, check_column. cbn [tc_tab_name tc_col_name].
  destruct (is_empty tn) eqn:He.
  - unfold bind. rewrite infer_table_ok by (eapply Forall_impl; [exact Ho|]; by intros ? []).
    destruct (named_cols cn cols) as [|c [|]] eqn:Hn; [done| |done].
    assert (c ∈ cols) as Hin.
    { assert (c ∈ named_cols cn cols) as Hi by (rewrite Hn; left). by apply list_elem_of_filter in Hi as [_ ?]. }
    unfold owned in Ho. rewrite Forall_forall in Ho. destruct (Ho _ Hin). by destruct (ColMeta.tab_name c).
  - destruct (DbMeta.is_table db tn) eqn:Ht; [|done].
    destruct (get_table_ok db tn s Ht) as (tab & _ & Hg). rewrite bind_assoc. run Hg. done.
Qed.

Definition condition_outcome (cols : list ColMeta.t) (cond : Condition.t) : Res Condition.t :=
  match resolve cols (Condition.lhs_col cond) with
  | inl e => Throw e
  | inr _ =>
      if Condition.is_rhs_val cond then UB
      else match resolve cols (Condition.rhs_col cond) with inl e => Throw e | inr _ => UB end
  end.

Lemma check_condition_ok {S} db cols cond (s : S) :
  owned db cols → check_condition db cols cond s = (condition_outcome cols cond, s).
Proof.
  intros Ho. unfold check_condition, condition_outcome.
  pose proof (check_column_ok db cols (Condition.lhs_col cond) s Ho) as Hl.
  destruct (resolve cols (Condition.lhs_col cond)) as [e|t].
  { unfold bind. by rewrite Hl. }
  destruct Hl as [Hl Ht]. run Hl.
  destruct (get_table_ok db t s Ht) as (tab & _ & Hg).
  destruct cond as [l o [] rc rv]; cbn -[bind ret check_column DbMeta.get_table] in *.
  - rewrite bind_ret. cbn -[bind ret check_column DbMeta.get_table]. run Hg. done.
  - pose proof (check_column_ok db cols rc s Ho) as Hr. destruct (resolve cols rc) as [e|t'].
    + unfold bind. by rewrite Hr.
    + destruct Hr as [Hr _]. rewrite bind_assoc. run Hr. rewrite bind_ret. cbn -[bind ret check_column DbMeta.get_table]. run Hg. done.
Qed.

(** C38: A WHERE clause with a condition never passes the check.  The first condition decides: a column
    written with its table is [ColumnNotFoundError], whether the table has it or not; a column
    without a table is an error when no column or more than one has its name; otherwise the check
    dereferences the iterator of [get_col], which belongs to no vector.  Only the empty clause is
    accepted. *)
Theorem where_clause_refused {St} db tab_names conds (s : St) :
  Forall (λ t, DbMeta.is_table db t = true) tab_names → owned db (cols_of db tab_names) →
  check_where_clause db tab_names conds s
  = match conds with
    | [] => (Ret [], s)
    | cond :: _ =>
        (match resolve (cols_of db tab_names) (Condition.lhs_col cond) with
         | inl e => Throw e
         | inr _ =>
             if Condition.is_rhs_val cond then UB
             else match resolve (cols_of db tab_names) (Condition.rhs_col cond) with
                  | inl e => Throw e
                  | inr _ => UB
                  end
         end, s)
    end.
Proof.
  intros Ht Ho. unfold check_where_clause. run (get_all_cols_ok db tab_names s Ht).
  destruct conds as [|cond conds]; [done|]. cbn [fold_m]. rewrite bind_assoc.
  unfold bind at 1. rewrite (check_condition_ok db _ cond s Ho). unfold condition_outcome.
  destruct (resolve _ _); [done|]. destruct (Condition.is_rhs_val cond); [done|]. by destruct (resolve _ _).
Qed.

(** ** The conditions of each table *)

Notation unsolvable tabs := (λ c, solvable tabs c = false).

Lemma pop_loop_ok tabs solved kept todo :
  pop_loop tabs solved kept todo
  = (solved ++ filter (λ c, solvable tabs c = true) todo, kept ++ filter (unsolvable tabs) todo).
Proof.
  revert solved kept. induction todo as [|c todo IH]; intros solved kept; cbn [pop_loop].
  - by rewrite !app_nil_r.
  - rewrite !filter_cons. destruct (solvable tabs c) eqn:Hc; rewrite IH, <- (assoc_L (++)).
    + by rewrite decide_True, decide_False by done.
    + by rewrite decide_False, decide_True by done.
Qed.

Lemma pop_conds_ok conds tabs :
  pop_conds conds tabs = (filter (λ c, solvable tabs c = true) conds, filter (unsolvable tabs) conds).
Proof. apply pop_loop_ok. Qed.

Lemma solvable_mono tabs tabs' c :
  tabs ⊆ tabs' → solvable tabs c = true → solvable tabs' c = true.
Proof.
  unfold solvable, has_tab. rewrite !andb_true_iff, !orb_true_iff, !bool_decide_eq_true. set_solver.
Qed.

Lemma solvable_nil c : solvable [] c = false.
Proof. unfold solvable, has_tab. rewrite bool_decide_eq_false_2 by set_solver. done. Qed.

(** [get_indexNo] asks for the column of such a condition. *)
Definition looks_up (c : Condition.t) : bool :=
  Condition.is_rhs_val c && negb (bool_decide (Condition.op c = OP_NE)).

Lemma get_indexNo_ok {S} db t conds (s : S) :
  DbMeta.is_table db t = true →
  get_indexNo db t conds s = (if existsb looks_up conds then UB else Ret (-1), s).
Proof.
  intros Ht. destruct (get_table_ok db t s Ht) as (tab & _ & Hg). unfold get_indexNo. run Hg.
  induction conds as [|c conds IH]; [done|]. cbn [index_loop existsb]. unfold looks_up at 1.
  by destruct (_ && _).
Qed.

(** The conditions that [n] tables cover and [n - 1] do not. *)
Definition new_at (tabs : list string) (conds : list Condition.t) (j : nat) : list Condition.t :=
  filter (λ c, solvable (take (S j) tabs) c = true ∧ solvable (take j tabs) c = false) conds.

Lemma take_mono (tabs : list string) j k : (j <= k)%nat → take j tabs ⊆ take k tabs.
Proof. intros Hj x. rewrite !elem_of_take. intros (i & Hi & Hl). exists i. split; [done|lia]. Qed.

Lemma unsolvable_step tabs (conds : list Condition.t) j :
  filter (unsolvable (take (S j) tabs)) (filter (unsolvable (take j tabs)) conds)
  = filter (unsolvable (take (S j) tabs)) conds.
Proof.
  apply list_filter_filter_l. intros c Hc. destruct (solvable (take j tabs) c) eqn:Hj; [|done].
  rewrite <- Hc. symmetry. by apply (solvable_mono (take j tabs)); [apply take_mono; lia|].
Qed.

Lemma pop_conds_step tabs conds i :
  pop_conds (filter (unsolvable (take i tabs)) conds) (take (i + 1) tabs)
  = (new_at tabs conds i, filter (unsolvable (take (i + 1) tabs)) conds).
Proof. rewrite pop_conds_ok. replace (i + 1)%nat with (S i) by lia. by rewrite unsolvable_step, list_filter_filter. Qed.

(** A condition that the tables of the statement cover is new at one of them. *)
Lemma covered_once tabs conds c :
  c ∈ conds → solvable tabs c = true →
  ∃ j, (j < length tabs)%nat ∧ c ∈ new_at tabs conds j ∧
    ∀ k, (k < length tabs)%nat → c ∈ new_at tabs conds k → k = j.
Proof.
  intros Hin Hs.
  assert (Hex : ∃ j, (j < length tabs)%nat ∧ solvable (take (S j) tabs) c = true
                     ∧ solvable (take j tabs) c = false).
  { destruct (find_from (λ z, solvable (take (Z.to_nat z) tabs) c) 0 (S (length tabs))) as [z|] eqn:Hz.
    - apply find_from_Some in Hz as (Hr & Ht1 & Hf).
      assert (z ≠ 0) by (intros ->; simpl in Ht1; rewrite solvable_nil in Ht1; done).
      exists (Z.to_nat (z - 1)). split_and!; [lia| |apply Hf; lia].
      by replace (S (Z.to_nat (z - 1))) with (Z.to_nat z) by lia.
    - pose proof (find_from_None _ _ _ Hz (Z.of_nat (length tabs))) as Hf. cbn beta in Hf.
      rewrite Nat2Z.id, firstn_all, Hs in Hf. discriminate Hf. lia. }
  destruct Hex as (j & Hjl & H1 & H2). exists j. split_and!; [done|by apply list_elem_of_filter|].
  intros k Hk [[K1 K2] _]%list_elem_of_filter.
  destruct (decide (k < j)%nat).
  { rewrite (solvable_mono (take (S k) tabs) (take j tabs)) in H2 by (done || apply take_mono; lia). done. }
  destruct (decide (j < k)%nat); [|lia].
  rewrite (solvable_mono (take (S j) tabs) (take k tabs)) in K2 by (done || apply take_mono; lia). done.
Qed.

(** The outcome of the loop on the conditions that no table before [i] covers. *)
Lemma scan_tables_ok {St} db tabs n (s : St) : ∀ i conds,
  (i + n = length tabs)%nat → Forall (λ t, DbMeta.is_table db t = true) tabs →
  (∀ c, c ∈ conds → solvable (take i tabs) c = false) →
  scan_tables db tabs i n conds s
  = (if existsb (λ c, solvable tabs c && looks_up c) conds then UB else Ret (filter (unsolvable tabs) conds), s).
Proof.
  induction n as [|n IH]; intros i conds Hn Ht Hc; cbn [scan_tables].
  { rewrite take_ge in Hc by lia. rewrite (filter_all (unsolvable tabs) conds) by done.
    replace (existsb _ conds) with false; [done|]. symmetry. apply not_true_iff_false. rewrite existsb_exists.
    intros (c & Hin%list_elem_of_In & Hs). by rewrite (Hc c Hin) in Hs. }
  destruct (lookup_lt_is_Some_2 tabs i) as [t Hti]; [lia|].
  assert (DbMeta.is_table db t = true) as Htab by (rewrite Forall_forall in Ht; by eapply Ht, list_elem_of_lookup_2).
  unfold scan_table. rewrite pop_conds_ok. set (now := take (i + 1) tabs).
  rewrite bind_assoc, (bind_or_ub _ _ _ t) by done. rewrite bind_assoc. unfold bind at 1. rewrite get_indexNo_ok by done.
  assert (now ⊆ tabs) as Hnow by (intros y (k & Hk & _)%elem_of_take; by eapply list_elem_of_lookup_2).
  assert (existsb (λ c, solvable tabs c && looks_up c) conds
          = existsb looks_up (filter (λ c, solvable now c = true) conds)
            || existsb (λ c, solvable tabs c && looks_up c) (filter (unsolvable now) conds)) as ->.
  { clear Hc. induction conds as [|c conds IHc]; [done|]. rewrite !filter_cons. cbn [existsb]. rewrite IHc.
    destruct (solvable now c) eqn:E.
    - rewrite decide_True, decide_False by done. cbn [existsb]. rewrite (solvable_mono now tabs c) by done.
      by rewrite <- orb_assoc.
    - rewrite decide_False, decide_True by done. cbn [existsb]. rewrite !orb_assoc.
      by rewrite (orb_comm (existsb looks_up _)). }
  destruct (existsb looks_up _); [done|]. rewrite bind_ret. cbn [orb].
  rewrite IH; [|lia|done|by intros c [? _]%list_elem_of_filter].
  rewrite list_filter_filter_l; [done|]. intros c Hu. destruct (solvable now c) eqn:E; [|done].
  by rewrite (solvable_mono now tabs c) in Hu.
Qed.

(** C37: The loop of SELECT over its tables, for any conditions.  Each condition is taken out of
    the clause in exactly one iteration, that of the first table with which its columns are all
    covered: iteration [i] takes out, in their order, the conditions that the tables up to the
    [i]-th cover and the ones before it do not.  The loop then leaves, for the assertion that none
    is left, exactly the conditions that name a table outside the statement; but it ends in the
    dereference of the iterator of [get_col], which belongs to no vector, as soon as one of the
    conditions taken out compares a column with a literal by an operator other than [<>].  What is
    taken out goes nowhere: no scan is created. *)
Theorem select_conditions_distributed {St} db tabs conds (s : St) :
  Forall (λ t, DbMeta.is_table db t = true) tabs →
  (∀ i, pop_conds (filter (unsolvable (take i tabs)) conds) (take (i + 1) tabs)
        = (new_at tabs conds i, filter (unsolvable (take (i + 1) tabs)) conds)) ∧
  (∀ c, c ∈ conds → solvable tabs c = true →
     ∃ j, (j < length tabs)%nat ∧ c ∈ new_at tabs conds j ∧
       ∀ k, (k < length tabs)%nat → c ∈ new_at tabs conds k → k = j) ∧
  scan_tables db tabs 0 (length tabs) conds s
  = (if existsb (λ c, solvable tabs c && looks_up c) conds then UB
     else Ret (filter (unsolvable tabs) conds), s).
Proof.
  intros Ht. split_and!; [apply pop_conds_step|apply covered_once|].
  apply scan_tables_ok; [done|done|]. intros c _. apply solvable_nil.
Qed.

(** ** Witnesses *)

Module QlDemo.

Definition student : TabMeta.t :=
  TabMeta.mk "student" [ColMeta.mk "student" "id" TYPE_INT 4 0 false;
                        ColMeta.mk "student" "name" TYPE_STRING 8 4 false].
Definition grade : TabMeta.t := TabMeta.mk "grade" [ColMeta.mk "grade" "sid" TYPE_INT 4 0 false].
Definition db : DbMeta.t := DbMeta.mk "school" {["student" := student; "grade" := grade]}.

Definition local : Condition.t :=
  Condition.mk (mkTabCol "student" "id") OP_NE true (mkTabCol "" "") (Value.set_int 3 Value.empty).
Definition equal : Condition.t :=
  Condition.mk (mkTabCol "student" "id") OP_EQ true (mkTabCol "" "") (Value.set_int 3 Value.empty).
Definition join : Condition.t :=
  Condition.mk (mkTabCol "student" "id") OP_EQ false (mkTabCol "grade" "sid") Value.empty.

End QlDemo.

Lemma column_inference_witness :
  check_column QlDemo.db (TabMeta.cols QlDemo.student ++ TabMeta.cols QlDemo.grade) (mkTabCol "" "sid") tt
  = (Ret (mkTabCol "grade" "sid"), tt).
Proof.
  rewrite (column_inference QlDemo.db (TabMeta.cols QlDemo.student ++ TabMeta.cols QlDemo.grade) "sid" tt);
    [done|]. repeat constructor; discriminate.
Defined.

Lemma where_clause_refused_witness :
  check_where_clause QlDemo.db ["student"]%string [QlDemo.local] tt
  = (Throw (ColumnNotFoundError "student.id"), tt).
Proof.
  rewrite (where_clause_refused QlDemo.db ["student"]%string [QlDemo.local] tt); [done|..].
  - repeat constructor; vm_compute; reflexivity.
  - vm_compute. repeat constructor; vm_compute; congruence.
Defined.

Lemma select_conditions_distributed_witness :
  let tabs := ["student"; "grade"]%string in
  scan_tables QlDemo.db tabs 0 2 [QlDemo.join; QlDemo.local] tt = (Ret [], tt) ∧
  scan_tables QlDemo.db tabs 0 2 [QlDemo.join; QlDemo.equal] tt = (UB, tt) ∧
  pop_conds [QlDemo.join; QlDemo.local] ["student"]%string = ([QlDemo.local], [QlDemo.join]) ∧
  pop_conds [QlDemo.join] tabs = ([QlDemo.join], []).
Proof.
  assert (Forall (λ t, DbMeta.is_table QlDemo.db t = true) ["student"; "grade"]%string) as Ht
    by (repeat constructor; vm_compute; reflexivity).
  destruct (select_conditions_distributed QlDemo.db _ [QlDemo.join; QlDemo.local] tt Ht) as (Hpop & _ & Hrun).
  destruct (select_conditions_distributed QlDemo.db _ [QlDemo.join; QlDemo.equal] tt Ht) as (_ & _ & Hub).
  split_and!; [exact Hrun|exact Hub|exact (Hpop 0%nat)|exact (Hpop 1%nat)].
Defined.
