(* ===== verification/SeqThms.v ===== *)
(** The sequential scan on an open table: it reads every record once, ends, and
    changes nothing. *)
From S2P Require Import Prelude.
From S2P Require Import Defs.
From S2P Require Import Replacer.
From S2P Require Import Disk.
From S2P Require Import ModelFs.
From S2P Require Import BufferPool.
From S2P Require Import BufferPoolProofs.
From S2P Require Import PoolSpec.
From S2P Require Import RmFile.
From S2P Require Import RmPage.
From S2P Require Import RmFileProofs.
From S2P Require Import DemoFile.
From S2P Require Import SmMeta.
From S2P Require Import SmManager.
From S2P Require Import SmThms.
From S2P Require Import Query.
From S2P Require Import Executors.
Import SmManager.

#[local] Open Scope prog_scope.

Section scan.
  Context {F : Type} `{PL : PosixLaws F} {R : Type} {RP : Replacer R} {RPL : ReplacerLaws R}.
  Notation sm := (SmManager.t F R).
  Implicit Types (s : sm) (e : SeqScan.t) (a : Abs) (x : RmFileHandle.handle).

Lemma on_file_ok {A} e s a x (m : M (RmFileHandle.st (DiskManager.t F) R) A) y st :
  table_open s (SeqScan.fh_ e) a x → m (RmFileHandle.mkSt x (bpm s)) = (Ret y, st) → st_repr st a x →
  ∃ s', SeqScan.on_file m (e, s) = (Ret y, (e, s')) ∧ table_open s' (SeqScan.fh_ e) a x ∧ same_but_pool s s'.
Proof.
  intros Ht Hm Hs. destruct (with_fh_ok s _ a x m y st Ht Hm Hs) as (s' & Hw & Ht' & Hsame).
  exists s'. split_and!; [|done|done]. unfold SeqScan.on_file, get_e. rewrite bind_gets. cbn [fst].
  unfold on_w. erewrite zoom_Ret by exact Hw. done.
Qed.

Lemma seq_is_end_ok e s r :
  SeqScan.scan_ e = Some r → SeqScan.seq_is_end (e, s) = (Ret (RmFileHandle.scan_is_end r), (e, s)).
Proof. intros Hr. unfold SeqScan.seq_is_end, get_e. rewrite bind_gets. cbn [fst]. by rewrite Hr. Qed.

Lemma last_cons {A} (y d : A) l : List.last (y :: l) d = List.last l y.
Proof.
  revert y d. induction l as [|z l IH]; intros y d; [done|].
  change (List.last (z :: l) d = List.last (z :: l) y). by rewrite !IH.
Qed.

(** One iteration of the loop of [beginTuple] at the record [r]. *)
Lemma begin_step k e s a x r :
  table_open s (SeqScan.fh_ e) a x → rm_ok a x → room a → 1 <= rid_page_no r → in_file x r →
  SeqScan.scan_ e = Some r →
  ∃ s', SeqScan.begin_loop (S k) (e, s)
        = SeqScan.begin_loop k
            (SeqScan.set_scan (head_or_end (live_from a x (rid_page_no r) (rid_slot_no r + 1)))
               (SeqScan.set_rid r e), s') ∧
    table_open s' (SeqScan.fh_ e) a x ∧ same_but_pool s s'.
Proof.
  intros Ht Hk Hroom Hr Hin Hsc.
  destruct (rk_page _ _ Hk _ (proj1 Hin)) as (m & Hm & _).
  destruct (get_record_ok _ a x r m (table_st_repr _ _ _ _ Ht) Hk Hroom Hin Hm) as (st1 & Hg & Hst1).
  set (e1 := SeqScan.set_rid r e).
  destruct (on_file_ok e1 s a x _ _ _ Ht Hg Hst1) as (s1 & Hof & Ht1 & Hsame1).
  destruct (scan_next_ok _ a x r (table_st_repr _ _ _ _ Ht1) Hk Hroom Hin) as (st2 & Hn & Hst2).
  destruct (on_file_ok e1 s1 a x _ _ _ Ht1 Hn Hst2) as (s2 & Hof2 & Ht2 & Hsame2).
  exists s2. split_and!; [|exact Ht2|by eapply same_but_pool_trans].
  cbn [SeqScan.begin_loop]. run (seq_is_end_ok e s r Hsc).
  assert (RmFileHandle.scan_is_end r = false) as ->
    by (unfold RmFileHandle.scan_is_end, RM_NO_PAGE; apply Z.eqb_neq; lia).
  unfold get_e at 1. rewrite bind_gets. cbn [fst]. rewrite (bind_or_ub _ _ _ r) by done.
  unfold upd_e at 1. rewrite bind_modify. cbn [fst snd]. fold e1.
  erewrite (bind_Ret (SeqScan.try_record _) _ _ tt (e1, s1)).
  2:{ unfold SeqScan.try_record. by rewrite (bind_Ret _ _ _ _ _ Hof). }
  cbn beta iota. unfold SeqScan.scan_next at 1. rewrite bind_assoc. unfold get_e at 1. rewrite bind_gets.
  cbn [fst]. rewrite bind_assoc, (bind_or_ub _ _ _ r) by done. rewrite bind_assoc. run Hof2.
  unfold upd_e at 1. by rewrite bind_modify.
Qed.

Lemma begin_loop_ok l e s a x r k :
  table_open s (SeqScan.fh_ e) a x → rm_ok a x → room a → 1 <= rid_page_no r → in_file x r →
  live_from a x (rid_page_no r) (rid_slot_no r + 1) = l → (S (length l) < k)%nat →
  SeqScan.scan_ e = Some r →
  ∃ s', SeqScan.begin_loop k (e, s)
        = (Ret tt, (SeqScan.set_scan RmFileHandle.scan_end (SeqScan.set_rid (List.last l r) e), s')) ∧
    table_open s' (SeqScan.fh_ e) a x ∧ same_but_pool s s'.
Proof.
  revert e s r k. induction l as [|r' l IH]; intros e s r k Ht Hk Hroom Hr Hin Hl Hf Hsc;
    (destruct k as [|k]; [lia|]);
    destruct (begin_step k e s a x r Ht Hk Hroom Hr Hin Hsc) as (s1 & Hrun & Ht1 & Hsame); rewrite Hl in Hrun;
    rewrite Hrun; cbn [head_or_end].
  - exists s1. split_and!; [|done|done]. destruct k as [|k]; [simpl in Hf; lia|]. cbn [SeqScan.begin_loop].
    by run (seq_is_end_ok (SeqScan.set_scan RmFileHandle.scan_end (SeqScan.set_rid r e)) s1 _ eq_refl).
  - assert (0 <= rid_slot_no r + 1) as Hlo by (destruct Hin; lia).
    destruct (live_from_cons a x _ _ r' l Hk Hr Hlo Hl) as (Hl' & Hp' & Hs' & _).
    destruct (IH (SeqScan.set_scan r' (SeqScan.set_rid r e)) s1 r' k) as (s2 & Hrun2 & Ht2 & Hsame2);
      try done; try lia.
    + split; [lia|done].
    + simpl in Hf. lia.
    + exists s2. rewrite Hrun2. split_and!; [|done|by eapply same_but_pool_trans].
      by rewrite last_cons.
Qed.

Lemma check_runtime_conds_ok {S} tab_name conds (s : S) :
  Forall (λ c, tc_tab_name (Condition.lhs_col c) = tab_name ∧
               (Condition.is_rhs_val c = true ∨ tc_tab_name (Condition.rhs_col c) = tab_name)) conds →
  check_runtime_conds tab_name conds s = (Ret tt, s).
Proof.
  unfold check_runtime_conds. induction 1 as [|c conds [Hc Hr] _ IH]; [done|]. cbn [for_each].
  erewrite bind_Ret; [exact IH|]. unfold check_runtime_cond.
  rewrite bind_assert by (by apply bool_decide_eq_true).
  destruct Hr as [->|Hr]; [done|]. destruct (Condition.is_rhs_val c); [done|]. cbn [negb when].
  unfold assert. by rewrite bool_decide_eq_true_2.
Qed.

(** C36: [beginTuple] of a sequential scan over an open table terminates: it reads the records of the
    file one after the other, whatever the conditions, and stops only at the end of the file, where
    [is_end] holds and [rid()] is the position of the last record; no page stays pinned and the
    table, its records and all other state are unchanged. *)
Theorem seq_scan_terminates e s a x fuel :
  table_open s (SeqScan.fh_ e) a x → rm_ok a x → room a →
  Forall (λ c, tc_tab_name (Condition.lhs_col c) = SeqScan.tab_name_ e ∧
               (Condition.is_rhs_val c = true ∨ tc_tab_name (Condition.rhs_col c) = SeqScan.tab_name_ e))
         (SeqScan.fed_conds_ e) →
  (S (length (live_records a x)) < fuel)%nat →
  ∃ e' s', SeqScan.begin fuel (e, s) = (Ret tt, (e', s')) ∧
    SeqScan.seq_is_end (e', s') = (Ret true, (e', s')) ∧
    SeqScan.rid_ e' = List.last (live_records a x) (SeqScan.rid_ e) ∧
    table_open s' (SeqScan.fh_ e) a x ∧ same_but_pool s s'.
Proof.
  intros Ht Hk Hroom Hc Hf.
  destruct (rm_scan_ok _ a x (table_st_repr _ _ _ _ Ht) Hk Hroom) as (st & Hrun & Hst).
  destruct (on_file_ok e s a x _ _ _ Ht Hrun Hst) as (s1 & Hof & Ht1 & Hsame1).
  assert (Hbegin : SeqScan.begin fuel (e, s)
    = SeqScan.begin_loop fuel (SeqScan.set_scan (head_or_end (live_records a x)) e, s1)).
  { unfold SeqScan.begin, SeqScan.check. step. cbn [fst].
    rewrite (bind_Ret _ _ _ _ _ (check_runtime_conds_ok _ _ _ Hc)). cbn beta.
    run Hof. unfold upd_e at 1. by rewrite bind_modify. }
  rewrite Hbegin. unfold live_records in *. clear Hbegin.
  destruct (live_from a x RM_FIRST_RECORD_PAGE 0) as [|r l] eqn:Hl; cbn [head_or_end].
  - destruct fuel as [|fuel]; [simpl in Hf; lia|]. exists (SeqScan.set_scan RmFileHandle.scan_end e), s1.
    split_and!; [|done|done|done|done].
    cbn [SeqScan.begin_loop].
    by run (seq_is_end_ok (SeqScan.set_scan RmFileHandle.scan_end e) s1 _ eq_refl).
  - destruct (live_from_cons a x _ _ r l Hk ltac:(done) ltac:(done) Hl) as (Hl' & Hp' & Hs' & _).
    unfold RM_FIRST_RECORD_PAGE in Hp'.
    destruct (begin_loop_ok l (SeqScan.set_scan r e) s1 a x r fuel) as (s2 & Hr & Ht2 & Hsame2); try done; try lia.
    + simpl in Hf. lia.
    + eexists _, s2. split_and!; [exact Hr|done| |done|by eapply same_but_pool_trans].
      by rewrite last_cons.
Qed.

End scan.

(** ** Witness *)

Module SeqDemo.

Definition scan : SeqScan.t :=
  SeqScan.mk "r" [] "r" [] 8
    [Condition.mk (mkTabCol "r" "x") OP_EQ false (mkTabCol "r" "x") Value.empty] (mkRid 0 0) None.

End SeqDemo.

Lemma seq_scan_terminates_witness : ∃ fuel e' s',
  SeqScan.begin fuel (SeqDemo.scan, SmDemo.sm1) = (Ret tt, (e', s')) ∧
  SeqScan.seq_is_end (e', s') = (Ret true, (e', s')).
Proof.
  destruct DemoFile.file1_ok as (a & x & rid & _ & [Hr Hx] & Hk & Hroom & _ & _ & _).
  destruct (seq_scan_terminates SeqDemo.scan SmDemo.sm1 a x (S (S (length (live_records a x)))))
    as (e' & s' & H1 & H2 & _).
  - split; [|exact Hr]. cbn [SmDemo.sm1 fhs_ SeqScan.fh_ SeqDemo.scan].
    rewrite Hx. apply lookup_insert_eq.
  - exact Hk.
  - exact Hroom.
  - constructor; [|constructor]. split; [reflexivity|right; reflexivity].
  - lia.
  - exists (S (S (length (live_records a x)))), e', s'. split; [exact H1|exact H2].
Defined.
