(* ===== verification/Ast.v ===== *)
(** The syntax trees of SQL statements and their printer,
    [src/src/parser/ast.h] and [ast_printer.h].

    A node of a base class that no subclass extends ([BareField] and the like)
    is what the failing [dynamic_cast]s of the sources are about; the parser
    builds none.  A [float] is its bit pattern. *)
From Stdlib Require Import Ascii.
From S2P Require Import Prelude.
From S2P Require Import Defs.
From S2P Require Import Txn.
From S2P Require Import RecordPrinter.

#[local] Open Scope prog_scope.

Module ast.

Inductive SvType := SV_TYPE_INT | SV_TYPE_FLOAT | SV_TYPE_STRING.

Inductive SvCompOp := SV_OP_EQ | SV_OP_NE | SV_OP_LT | SV_OP_GT | SV_OP_LE | SV_OP_GE.

Record TypeLen := mkTypeLen { tl_type : SvType; tl_len : Z }.

Inductive Field :=
  | ColDef (col_name : string) (type_len : TypeLen)
  | BareField.

Inductive Value :=
  | IntLit (val : Z)
  | FloatLit (val : Z)
  | StringLit (val : string)
  | BareValue.

Record Col := mkCol { col_tab_name : string; col_col_name : string }.

Inductive Expr :=
  | ValueExpr (v : Value)
  | ColExpr (c : Col)
  | BareExpr.

Record SetClause := mkSetClause { set_col_name : string; set_val : Value }.

Record BinaryExpr := mkBinaryExpr { lhs : Col; op : SvCompOp; rhs : Expr }.

Inductive TreeNode :=
  | Help
  | ShowTables
  | TxnBegin
  | TxnCommit
  | TxnAbort
  | TxnRollback
  | TypeLenNode (x : TypeLen)
  | FieldNode (x : Field)
  | CreateTable (tab_name : string) (fields : list Field)
  | DropTable (tab_name : string)
  | DescTable (tab_name : string)
  | CreateIndex (tab_name col_name : string)
  | DropIndex (tab_name col_name : string)
  | ExprNode (x : Expr)
  | SetClauseNode (x : SetClause)
  | BinaryExprNode (x : BinaryExpr)
  | InsertStmt (tab_name : string) (vals : list Value)
  | DeleteStmt (tab_name : string) (conds : list BinaryExpr)
  | UpdateStmt (tab_name : string) (set_clauses : list SetClause) (conds : list BinaryExpr)
  | SelectStmt (cols : list Col) (tabs : list string) (conds : list BinaryExpr)
  | BareNode.

(** ** [TreePrinter]: the state is the text written *)

Module TreePrinter.

Section print.
  (** [os << x] of a [float] *)
  Variable float_out : Z → string.
  Notation out := (M string).

Definition emit (s : string) : out unit := modify (λ t, t ++ s)%string.

Definition offset2string (offset : nat) : string := str_fill offset " "%char.

Definition print_val (val : string) (offset : nat) : out unit :=
  emit (offset2string offset ++ val ++ newline)%string.

Definition print_val_list (vals : list string) (offset : nat) : out unit :=
  emit (offset2string offset ++ "LIST" ++ newline)%string ;;;
  for_each vals (λ val, print_val val (offset + 2)).

Definition type2str (type : SvType) : string :=
  match type with SV_TYPE_INT => "INT" | SV_TYPE_FLOAT => "FLOAT" | SV_TYPE_STRING => "STRING" end.

Definition op2str (op : SvCompOp) : string :=
  match op with
  | SV_OP_EQ => "==" | SV_OP_NE => "!=" | SV_OP_LT => "<" | SV_OP_GT => ">" | SV_OP_LE => "<="
  | SV_OP_GE => ">="
  end.

Definition print_node_list {A} (print : A → nat → out unit) (nodes : list A) (offset : nat) : out unit :=
  emit (offset2string offset) ;;;
  emit ("LIST" ++ newline)%string ;;;
  for_each nodes (λ node, print node (offset + 2)%nat).

(** [print_node] on each class of nodes. *)
Definition title (s : string) (offset : nat) : out unit :=
  emit (offset2string offset) ;;; emit (s ++ newline)%string.

Definition bare (offset : nat) : out unit := emit (offset2string offset) ;;; assert false.

Definition print_type_len (x : TypeLen) (offset : nat) : out unit :=
  title "TYPE_LEN" offset ;;;
  print_val (type2str (tl_type x)) (offset + 2) ;;;
  print_val (to_string (tl_len x)) (offset + 2).

Definition print_field (x : Field) (offset : nat) : out unit :=
  match x with
  | ColDef col_name type_len =>
      title "COL_DEF" offset ;;;
      print_val col_name (offset + 2) ;;;
      print_type_len type_len (offset + 2)
  | BareField => bare offset
  end.

Definition print_col (x : Col) (offset : nat) : out unit :=
  title "COL" offset ;;;
  print_val (col_tab_name x) (offset + 2) ;;;
  print_val (col_col_name x) (offset + 2).

Definition print_value (x : Value) (offset : nat) : out unit :=
  match x with
  | IntLit val => title "INT_LIT" offset ;;; print_val (to_string val) (offset + 2)
  | FloatLit val => title "FLOAT_LIT" offset ;;; print_val (float_out val) (offset + 2)
  | StringLit val => title "STRING_LIT" offset ;;; print_val val (offset + 2)
  | BareValue => bare offset
  end.

Definition print_expr (x : Expr) (offset : nat) : out unit :=
  match x with
  | ValueExpr v => print_value v offset
  | ColExpr c => print_col c offset
  | BareExpr => bare offset
  end.

Definition print_set_clause (x : SetClause) (offset : nat) : out unit :=
  title "SET_CLAUSE" offset ;;;
  print_val (set_col_name x) (offset + 2) ;;;
  print_value (set_val x) (offset + 2).

Definition print_binary_expr (x : BinaryExpr) (offset : nat) : out unit :=
  title "BINARY_EXPR" offset ;;;
  print_col (lhs x) (offset + 2) ;;;
  print_val (op2str (op x)) (offset + 2) ;;;
  print_expr (rhs x) (offset + 2).

Definition print_node (node : TreeNode) (offset : nat) : out unit :=
  let o := (offset + 2)%nat in
  match node with
  | Help => title "HELP" offset
  | ShowTables => title "SHOW_TABLES" offset
  | CreateTable tab_name fields =>
      title "CREATE_TABLE" offset ;;; print_val tab_name o ;;; print_node_list print_field fields o
  | DropTable tab_name => title "DROP_TABLE" offset ;;; print_val tab_name o
  | DescTable tab_name => title "DESC_TABLE" offset ;;; print_val tab_name o
  | CreateIndex tab_name col_name =>
      title "CREATE_INDEX" offset ;;; print_val tab_name o ;;; print_val col_name o
  | DropIndex tab_name col_name =>
      title "DROP_INDEX" offset ;;; print_val tab_name o ;;; print_val col_name o
  | FieldNode x => print_field x offset
  | TypeLenNode x => print_type_len x offset
  | ExprNode x => print_expr x offset
  | SetClauseNode x => print_set_clause x offset
  | BinaryExprNode x => print_binary_expr x offset
  | InsertStmt tab_name vals =>
      title "INSERT" offset ;;; print_val tab_name o ;;; print_node_list print_value vals o
  | DeleteStmt tab_name conds =>
      title "DELETE" offset ;;; print_val tab_name o ;;; print_node_list print_binary_expr conds o
  | UpdateStmt tab_name set_clauses conds =>
      title "UPDATE" offset ;;; print_val tab_name o ;;;
      print_node_list print_set_clause set_clauses o ;;;
      print_node_list print_binary_expr conds o
  | SelectStmt cols tabs conds =>
      title "SELECT" offset ;;;
      print_node_list print_col cols o ;;;
      print_val_list tabs o ;;;
      print_node_list print_binary_expr conds o
  | TxnBegin => title "BEGIN" offset
  | TxnCommit => title "COMMIT" offset
  | TxnAbort => title "ABORT" offset
  | TxnRollback => title "ROLLBACK" offset
  | BareNode => bare offset
  end.

Definition print (node : TreeNode) : out unit := print_node node 0.

End print.
End TreePrinter.

End ast.
