(* ===== verification/Regex.v ===== *)
(** Regular expressions over characters, their language, derivatives and the
    longest match: the patterns of a flex scanner. *)
From Stdlib Require Export Ascii.
From S2P Require Import Prelude.

(** ** Patterns and their language *)

Inductive re :=
  | Void
  | Eps
  | Chr (p : ascii → bool)
  | Cat (a b : re)
  | Alt (a b : re)
  | Star (a : re).

Abbreviation chars := (list ascii).

Inductive matches : re → chars → Prop :=
  | m_eps : matches Eps []
  | m_chr p c : p c = true → matches (Chr p) [c]
  | m_cat a b w1 w2 : matches a w1 → matches b w2 → matches (Cat a b) (w1 ++ w2)
  | m_left a b w : matches a w → matches (Alt a b) w
  | m_right a b w : matches b w → matches (Alt a b) w
  | m_stop a : matches (Star a) []
  | m_star a w1 w2 : matches a w1 → matches (Star a) w2 → matches (Star a) (w1 ++ w2).

Create HintDb re.
#[export] Hint Constructors matches : re.

(** ** Derivatives; the constructors simplify *)

Definition cat (a b : re) : re :=
  match a with Void => Void | Eps => b | _ => Cat a b end.

Definition alt (a b : re) : re :=
  match a, b with Void, _ => b | _, Void => a | _, _ => Alt a b end.

Fixpoint nullable (r : re) : bool :=
  match r with
  | Void | Chr _ => false
  | Eps | Star _ => true
  | Cat a b => nullable a && nullable b
  | Alt a b => nullable a || nullable b
  end.

Fixpoint deriv (c : ascii) (r : re) : re :=
  match r with
  | Void | Eps => Void
  | Chr p => if p c then Eps else Void
  | Cat a b => let d := cat (deriv c a) b in if nullable a then alt d (deriv c b) else d
  | Alt a b => alt (deriv c a) (deriv c b)
  | Star a => cat (deriv c a) (Star a)
  end.

Definition is_void (r : re) : bool := match r with Void => true | _ => false end.

(** The length of the longest prefix of [s] that matches, [n] characters
    having been read. *)
Fixpoint longest (r : re) (n : nat) (best : option nat) (s : chars) : option nat :=
  let best := if nullable r then Some n else best in
  match s with
  | [] => best
  | c :: s' => let d := deriv c r in if is_void d then best else longest d (S n) best s'
  end.

(** ** Their laws *)

Section laws.
  Implicit Types (r a b : re) (w s : chars).

Lemma matches_cat_inv a b w :
  matches (Cat a b) w → ∃ w1 w2, w = w1 ++ w2 ∧ matches a w1 ∧ matches b w2.
Proof. inversion 1; subst. eauto. Qed.

Lemma matches_alt_inv a b w : matches (Alt a b) w → matches a w ∨ matches b w.
Proof. inversion 1; subst; eauto. Qed.

Lemma matches_cat a b w : matches (cat a b) w ↔ matches (Cat a b) w.
Proof.
  destruct a; try done; split; intros H.
  - inversion H.
  - apply matches_cat_inv in H as (w1 & w2 & _ & H & _). inversion H.
  - by apply (m_cat Eps b [] w m_eps).
  - apply matches_cat_inv in H as (w1 & w2 & -> & H & ?). by inversion H.
Qed.

Lemma matches_alt a b w : matches (alt a b) w ↔ matches a w ∨ matches b w.
Proof.
  assert (∀ a b, matches (Alt a b) w ↔ matches a w ∨ matches b w) as Halt.
  { intros a' b'. split; [apply matches_alt_inv|intros []; eauto with re]. }
  assert (¬ matches Void w) by inversion 1.
  destruct a, b; cbn [alt]; rewrite ?Halt; tauto.
Qed.

Lemma nullable_spec r : nullable r = true ↔ matches r [].
Proof.
  split.
  - induction r; simpl; intros H; try discriminate; eauto with re.
    + apply andb_true_iff in H as [??]. apply (m_cat _ _ [] []); eauto.
    + apply orb_true_iff in H as [?|?]; eauto with re.
  - induction r; simpl; intros H; try done; try by inversion H.
    + apply matches_cat_inv in H as (w1 & w2 & Hw & ? & ?). symmetry in Hw. apply app_eq_nil in Hw as [-> ->].
      apply andb_true_iff; eauto.
    + apply matches_alt_inv in H as [?|?]; apply orb_true_iff; eauto.
Qed.

Lemma matches_star_cons a c w :
  matches (Star a) (c :: w) → ∃ w1 w2, w = w1 ++ w2 ∧ matches a (c :: w1) ∧ matches (Star a) w2.
Proof.
  remember (Star a) as r eqn:Hr. remember (c :: w) as cw eqn:Hw. intros H. revert c w Hw.
  induction H as [| | | | | |a' w1 w2 H1 _ H2 IH]; intros c' w' Hw; try discriminate Hr; try discriminate Hw.
  injection Hr as ->. destruct w1 as [|d w1]; [by apply IH|].
  injection Hw as -> <-. eauto.
Qed.

Lemma deriv_spec c r w : matches (deriv c r) w ↔ matches r (c :: w).
Proof.
  revert w. induction r as [| |p|a IHa b IHb|a IHa b IHb|a IHa]; intros w; cbn [deriv].
  - split; inversion 1.
  - split; inversion 1.
  - destruct (p c) eqn:Hp; split; inversion 1; subst; eauto with re. congruence.
  - assert (matches (cat (deriv c a) b) w ↔ ∃ w1 w2, w = w1 ++ w2 ∧ matches a (c :: w1) ∧ matches b w2) as Hc.
    { rewrite matches_cat. split.
      - intros (w1 & w2 & -> & H1 & H2)%matches_cat_inv. apply IHa in H1. eauto.
      - intros (w1 & w2 & -> & H1 & H2). apply m_cat; [by apply IHa|done]. }
    assert (matches (Cat a b) (c :: w) ↔
      (∃ w1 w2, w = w1 ++ w2 ∧ matches a (c :: w1) ∧ matches b w2) ∨ (nullable a = true ∧ matches b (c :: w))) as ->.
    { split.
      - intros (w1 & w2 & Hw & H1 & H2)%matches_cat_inv. destruct w1 as [|d w1]; simpl in Hw.
        + subst. right. by rewrite nullable_spec.
        + injection Hw as <- ->. left. eauto.
      - intros [(w1 & w2 & -> & H1 & H2)|[H1 H2]].
        + by apply (m_cat a b (c :: w1) w2).
        + apply (m_cat a b [] (c :: w)); [by apply nullable_spec|done]. }
    rewrite <- Hc. destruct (nullable a); [rewrite matches_alt, IHb; naive_solver|naive_solver].
  - rewrite matches_alt, IHa, IHb. split; [intros []; eauto with re|apply matches_alt_inv].
  - rewrite matches_cat. split.
    + intros (w1 & w2 & -> & H1 & H2)%matches_cat_inv. apply (m_star a (c :: w1) w2); [by apply IHa|done].
    + intros (w1 & w2 & -> & H1 & H2)%matches_star_cons. apply m_cat; [by apply IHa|done].
Qed.

(** The longest match is a match, and no longer prefix matches. *)
Lemma longest_spec r n best s :
  match longest r n best s with
  | Some k => (best = Some k ∧ ∀ m, (m ≤ length s)%nat → ¬ matches r (take m s)) ∨
              (∃ m, k = (n + m)%nat ∧ (m ≤ length s)%nat ∧ matches r (take m s) ∧
                    ∀ m', (m < m' ≤ length s)%nat → ¬ matches r (take m' s))
  | None => best = None ∧ ∀ m, (m ≤ length s)%nat → ¬ matches r (take m s)
  end.
Proof.
  revert r n best. induction s as [|c s IH]; intros r n best; cbn [longest].
  - destruct (nullable r) eqn:Hn.
    + right. exists 0%nat. apply nullable_spec in Hn. split_and!; simpl; [lia..|done|lia].
    + assert (∀ m, (m ≤ 0)%nat → ¬ matches r (take m [])) as Hno.
      { intros m _. rewrite take_nil, <- nullable_spec. congruence. }
      destruct best; [left|]; auto.
  - assert (Htail : ∀ P : nat → Prop, (∀ m, P m → ¬ matches (deriv c r) (take m s)) →
              ∀ m, P m → ¬ matches r (take (S m) (c :: s))).
    { intros P HP m Hm. simpl. rewrite <- deriv_spec. auto. }
    assert (Hstop : (∀ m, (m ≤ length s)%nat → ¬ matches (deriv c r) (take m s)) →
      match (if nullable r then Some n else best) with
      | Some k => (best = Some k ∧ ∀ m, (m ≤ length (c :: s))%nat → ¬ matches r (take m (c :: s))) ∨
              (∃ m, k = (n + m)%nat ∧ (m ≤ length (c :: s))%nat ∧ matches r (take m (c :: s)) ∧
                    ∀ m', (m < m' ≤ length (c :: s))%nat → ¬ matches r (take m' (c :: s)))
      | None => best = None ∧ ∀ m, (m ≤ length (c :: s))%nat → ¬ matches r (take m (c :: s))
      end).
    { intros Hno. destruct (nullable r) eqn:Hn.
      - right. exists 0%nat. apply nullable_spec in Hn. split_and!; simpl; [lia..|done|].
        intros [|m'] ?; [lia|]. apply (Htail (λ m, m ≤ length s)%nat); [done|lia].
      - assert (∀ m, (m ≤ length (c :: s))%nat → ¬ matches r (take m (c :: s))) as Hall.
        { intros [|m] Hm; [simpl; rewrite <- nullable_spec; congruence|].
          apply (Htail (λ m, m ≤ length s)%nat); [done|simpl in Hm; lia]. }
        destruct best; [left|]; auto. }
    destruct (is_void (deriv c r)) eqn:Hv.
    + apply Hstop. intros m _. destruct (deriv c r); try discriminate. by inversion 1.
    + specialize (IH (deriv c r) (S n) (if nullable r then Some n else best)).
      destruct (longest _ _ _ s) as [k|].
      * destruct IH as [[Hb Hno]|(m & -> & Hm & Hmat & Hno)].
        -- specialize (Hstop Hno). by rewrite Hb in Hstop.
        -- right. exists (S m). simpl. split_and!; [lia..|by apply deriv_spec|].
           intros [|m'] Hm'; [lia|]. apply (Htail (λ m', m < m' ≤ length s)%nat); [done|lia].
      * destruct IH as [Hb Hno]. specialize (Hstop Hno). by rewrite Hb in Hstop.
Qed.

(** ** What all words of a pattern have in common *)

Definition all_ascii : list ascii := map ascii_of_nat (seq 0 256).

Lemma all_ascii_full c : c ∈ all_ascii.
Proof.
  apply list_elem_of_In, in_map_iff. exists (nat_of_ascii c). split; [apply ascii_nat_embedding|].
  apply in_seq. pose proof (nat_ascii_bounded c). lia.
Qed.

Definition every (P : ascii → bool) : bool := forallb P all_ascii.

Lemma every_spec P c : every P = true → P c = true.
Proof. unfold every. rewrite forallb_forall. intros H. apply H, list_elem_of_In, all_ascii_full. Qed.

(** Every character of every word satisfies [P]. *)
Fixpoint over (P : ascii → bool) (r : re) : bool :=
  match r with
  | Void | Eps => true
  | Chr p => every (λ c, implb (p c) (P c))
  | Cat a b | Alt a b => over P a && over P b
  | Star a => over P a
  end.

Lemma over_spec P r w : over P r = true → matches r w → Forall (λ c, P c = true) w.
Proof.
  intros Ho Hm. induction Hm as [|p c Hp| | | | |]; simpl in Ho; rewrite ?andb_true_iff in Ho.
  - done.
  - constructor; [|done]. apply (every_spec _ c) in Ho. cbn beta in Ho. by rewrite Hp in Ho.
  - apply Forall_app. naive_solver.
  - naive_solver.
  - naive_solver.
  - done.
  - apply Forall_app. auto.
Qed.

(** No word starts with a character that satisfies [P]. *)
Definition no_start (P : ascii → bool) (r : re) : bool :=
  every (λ c, implb (P c) (is_void (deriv c r))).

Lemma no_start_spec P r c w : no_start P r = true → P c = true → ¬ matches r (c :: w).
Proof.
  intros Hn Hc Hm. apply (every_spec _ c) in Hn. cbn beta in Hn. rewrite Hc in Hn. simpl in Hn.
  apply deriv_spec in Hm. destruct (deriv c r); try discriminate Hn. inversion Hm.
Qed.

End laws.
