(* ===== verification/Lexer.v ===== *)
(** The scanner, [src/src/parser/lex.l]: its rules in the order of the file, run
    as flex runs them: the longest match, and of two rules with the same match
    the first one.

    The start condition is a global of the generated scanner: it outlives a
    call of the parser ([yy_delete_buffer] and [yy_scan_string] leave it).
    [atof] is a parameter; [atoi] on a number outside [int] is undefined, and the
    pseudo token [ATOI_UNDEFINED] stands for it. *)
From S2P Require Import Prelude.
From S2P Require Import Regex.

#[local] Open Scope char_scope.

(** ** Tokens, [%token] of [yacc.y]; [CHR] is a character token *)

Inductive token :=
  | SHOW | TABLES | CREATE | TABLE | DROP | DESC | INSERT | INTO | VALUES | DELETE | FROM
  | WHERE | UPDATE | SET | SELECT | INT | CHAR | FLOAT | INDEX | AND | JOIN | EXIT | HELP
  | TXN_BEGIN | TXN_COMMIT | TXN_ABORT | TXN_ROLLBACK
  | LEQ | NEQ | GEQ | T_EOF
  | CHR (c : ascii)
  | IDENTIFIER (sv_str : string)
  | VALUE_STRING (sv_str : string)
  | VALUE_INT (sv_int : Z)
  | VALUE_FLOAT (sv_float : Z)
  | ATOI_UNDEFINED.

#[export] Instance token_eq_dec : EqDecision token.
Proof. solve_decision. Defined.

(** ** Patterns *)

Definition lower (c : ascii) : ascii :=
  let n := nat_of_ascii c in
  if ((65 <=? n) && (n <=? 90))%nat then ascii_of_nat (n + 32) else c.

Definition between (a b c : ascii) : bool :=
  ((nat_of_ascii a <=? nat_of_ascii c) && (nat_of_ascii c <=? nat_of_ascii b))%nat.

Definition one_of (l : chars) (c : ascii) : bool := existsb (Ascii.eqb c) l.

(** [%option caseless] *)
Definition lit (w : string) : re :=
  foldr (λ d r, Cat (Chr (λ c, lower c =? lower d)%char) r) Eps (String.list_ascii_of_string w).

Definition opt (r : re) : re := Alt r Eps.
Definition plus (r : re) : re := Cat r (Star r).

Definition tab : ascii := "009".
Definition newline : ascii := "010".
Definition return_char : ascii := "013".

Definition alpha (c : ascii) : bool := between "a" "z" c || between "A" "Z" c.
Definition digit (c : ascii) : bool := between "0" "9" c.
Definition white_space : re := plus (Chr (one_of [" "; tab])).
Definition new_line : re :=
  Alt (Chr (one_of [return_char])) (Alt (Chr (one_of [newline]))
      (Cat (Chr (one_of [return_char])) (Chr (one_of [newline])))).
Definition sign : re := Alt (Chr (one_of ["+"])) (Chr (one_of ["-"])).
Definition identifier : re :=
  Cat (Chr alpha) (Star (Alt (Chr (one_of ["_"])) (Alt (Chr alpha) (Chr digit)))).
Definition value_int : re := Cat (opt sign) (plus (Chr digit)).
Definition value_float : re :=
  Cat (opt sign) (Cat (plus (Chr digit)) (Cat (Chr (one_of ["."])) (opt (plus (Chr digit))))).
Definition value_string : re :=
  Cat (Chr (one_of ["'"])) (Cat (Star (Chr (λ c, negb (one_of ["'"] c)))) (Chr (one_of ["'"]))).
Definition single_op : re := Chr (one_of [";"; "("; ")"; ","; "*"; "="; ">"; "<"; "."]).
(** [.] of flex *)
Definition dot : re := Chr (λ c, negb (c =? newline)%char).

(** ** Rules *)

Inductive start_condition := INITIAL | STATE_COMMENT.

#[export] Instance start_condition_eq_dec : EqDecision start_condition.
Proof. solve_decision. Defined.

Inductive action :=
  | BEGIN (s : start_condition)
  | IGNORE
  | RETURN (t : token)
  | RETURN_CHAR
  | RETURN_IDENTIFIER
  | RETURN_INT
  | RETURN_FLOAT
  | RETURN_STRING
  | UNEXPECTED.

Record rule := mkRule { cond : start_condition; pattern : re; act : action }.

Definition keywords : list (string * token) :=
  [("SHOW", SHOW); ("BEGIN", TXN_BEGIN); ("COMMIT", TXN_COMMIT); ("ABORT", TXN_ABORT);
   ("ROLLBACK", TXN_ROLLBACK); ("TABLES", TABLES); ("CREATE", CREATE); ("TABLE", TABLE);
   ("DROP", DROP); ("DESC", DESC); ("INSERT", INSERT); ("INTO", INTO); ("VALUES", VALUES);
   ("DELETE", DELETE); ("FROM", FROM); ("WHERE", WHERE); ("UPDATE", UPDATE); ("SET", SET);
   ("SELECT", SELECT); ("INT", INT); ("CHAR", CHAR); ("FLOAT", FLOAT); ("INDEX", INDEX);
   ("AND", AND); ("JOIN", JOIN); ("EXIT", EXIT); ("HELP", HELP)]%string.

Definition comment_rules : list rule :=
  [mkRule INITIAL (lit "/*") (BEGIN STATE_COMMENT);
   mkRule STATE_COMMENT (lit "*/") (BEGIN INITIAL);
   mkRule STATE_COMMENT (Chr (λ c, negb (one_of ["*"] c))) IGNORE;
   mkRule STATE_COMMENT (Chr (one_of ["*"])) IGNORE;
   mkRule INITIAL (Cat (lit "--") (Star dot)) IGNORE].

Definition keyword_rules : list rule :=
  map (λ k, mkRule INITIAL (lit k.1) (RETURN k.2)) keywords.

Definition rules : list rule :=
  comment_rules
  ++ [mkRule INITIAL white_space IGNORE; mkRule INITIAL new_line IGNORE]
  ++ keyword_rules
  ++ [mkRule INITIAL (lit ">=") (RETURN GEQ);
      mkRule INITIAL (lit "<=") (RETURN LEQ);
      mkRule INITIAL (lit "<>") (RETURN NEQ);
      mkRule INITIAL single_op RETURN_CHAR;
      mkRule INITIAL identifier RETURN_IDENTIFIER;
      mkRule INITIAL value_int RETURN_INT;
      mkRule INITIAL value_float RETURN_FLOAT;
      mkRule INITIAL value_string RETURN_STRING;
      mkRule INITIAL dot UNEXPECTED].

(** The rule flex chooses, and the length of its match. *)
Fixpoint pick (sc : start_condition) (s : chars) (l : list rule) : option (nat * action) :=
  match l with
  | [] => None
  | r :: l' =>
      let later := pick sc s l' in
      if bool_decide (cond r = sc) then
        match longest (pattern r) 0 None s, later with
        | Some n, Some (m, a) => if (m <=? n)%nat then Some (n, act r) else Some (m, a)
        | Some n, None => Some (n, act r)
        | None, _ => later
        end
      else later
  end.

(** ** Actions *)

Section actions.
  Context (atof : string → Z).

(** The optional sign of [atoi]. *)
Definition atoi (yytext : chars) : option Z :=
  let w := match yytext with c :: w => if (c =? "+")%char then w else yytext | [] => [] end in
  z ← of_string (String.string_of_list_ascii w); s32 z.

(** [None]: the action does not return. *)
Definition run_action (a : action) (yytext : chars) : option token :=
  match a with
  | RETURN t => Some t
  | RETURN_CHAR => Some (match yytext with c :: _ => CHR c | [] => T_EOF end)
  | RETURN_IDENTIFIER => Some (IDENTIFIER (String.string_of_list_ascii yytext))
  | RETURN_INT => Some (match atoi yytext with Some z => VALUE_INT z | None => ATOI_UNDEFINED end)
  | RETURN_FLOAT => Some (VALUE_FLOAT (atof (String.string_of_list_ascii yytext)))
  | RETURN_STRING => Some (VALUE_STRING (String.string_of_list_ascii (take (length yytext - 2) (drop 1 yytext))))
  | BEGIN _ | IGNORE | UNEXPECTED => None
  end.

(** ** [yylex] *)

Record lexer := mkLexer { yy_start : start_condition; yy_rest : chars }.

Definition start_after (a : action) (sc : start_condition) : start_condition :=
  match a with BEGIN s => s | _ => sc end.

(** One match; without a rule the character goes to the output. *)
Definition scan_step (l : lexer) : option token * lexer :=
  match pick (yy_start l) (yy_rest l) rules with
  | Some (n, a) =>
      (run_action a (take n (yy_rest l)), mkLexer (start_after a (yy_start l)) (drop n (yy_rest l)))
  | None => (None, mkLexer (yy_start l) (drop 1 (yy_rest l)))
  end.

Fixpoint yylex (fuel : nat) (l : lexer) : option (token * lexer) :=
  match fuel with
  | O => None
  | S fuel' =>
      match yy_rest l with
      | [] => Some (T_EOF, l)
      | _ =>
          match scan_step l with
          | (Some t, l') => Some (t, l')
          | (None, l') => yylex fuel' l'
          end
      end
  end.

(** One match per character and the end of the text: enough for one token. *)
Definition lex_fuel (l : lexer) : nat := S (length (yy_rest l)).

(** The tokens up to the end of the text, each with the scanner after it. *)
Fixpoint tokens (fuel : nat) (l : lexer) : option (list (token * lexer)) :=
  match fuel with
  | O => None
  | S fuel' =>
      '(t, l') ← yylex (lex_fuel l) l;
      if bool_decide (t = T_EOF) then Some [(t, l')]
      else ts ← tokens fuel' l'; Some ((t, l') :: ts)
  end.

End actions.
