(* ===== verification/LexerThms.v ===== *)
(** What the scanner makes of each kind of token, and of blanks and comments. *)
From Stdlib Require Import Ascii.
From S2P Require Import Prelude.
From S2P Require Import Regex.
From S2P Require Import Lexer.

#[local] Open Scope char_scope.

(** ** The choice of a rule *)

Definition matched (r : rule) (sc : start_condition) (s : chars) (m : nat) : Prop :=
  cond r = sc ∧ (m ≤ length s)%nat ∧ matches (pattern r) (take m s).

Lemma longest_start r s :
  match longest r 0 None s with
  | Some k => (k ≤ length s)%nat ∧ matches r (take k s) ∧
              ∀ m, (m ≤ length s)%nat → matches r (take m s) → (m ≤ k)%nat
  | None => ∀ m, (m ≤ length s)%nat → ¬ matches r (take m s)
  end.
Proof.
  pose proof (longest_spec r 0 None s) as H. destruct (longest r 0 None s) as [k|].
  - destruct H as [[? _]|(m & -> & Hm & Hmat & Hno)]; [done|]. split_and!; [done..|].
    intros m' Hm' Hmat'. destruct (decide (m' ≤ m)%nat); [done|]. destruct (Hno m'); [lia|done].
  - tauto.
Qed.

(** Rule [i] matches [n] characters, no rule more, and none before it as many. *)
Definition chosen (sc : start_condition) (s : chars) (l : list rule) (i : nat) (r : rule) (n : nat) : Prop :=
  l !! i = Some r ∧ matched r sc s n ∧
  ∀ j r' m, l !! j = Some r' → matched r' sc s m → (m ≤ n ∧ (m = n → i ≤ j))%nat.

Lemma pick_spec sc s l :
  match pick sc s l with
  | Some (n, b) => ∃ i r, b = act r ∧ chosen sc s l i r n
  | None => ∀ j r m, l !! j = Some r → ¬ matched r sc s m
  end.
Proof.
  unfold chosen. induction l as [|r l IH]; cbn [pick]; [intros j; by rewrite lookup_nil|].
  assert (Hskip : (∀ m, ¬ matched r sc s m) →
    match pick sc s l with
    | Some (n, b) => ∃ i r', b = act r' ∧ chosen sc s (r :: l) i r' n
    | None => ∀ j r' m, (r :: l) !! j = Some r' → ¬ matched r' sc s m
    end).
  { intros Hno. destruct (pick sc s l) as [[n b]|].
    - destruct IH as (i & r' & -> & Hi & Hm & Hmax). exists (S i), r'. unfold chosen. split_and!; [done..|].
      intros [|j] r'' m Hj Hmj; simpl in Hj; [injection Hj as ->; by destruct (Hno m)|].
      destruct (Hmax j r'' m Hj Hmj). split; [done|]. intros ?. assert (i ≤ j)%nat by tauto. lia.
    - intros [|j] r' m Hj; simpl in Hj; [injection Hj as <-; apply Hno|by eapply IH]. }
  case_bool_decide as Hc; [|apply Hskip; by intros m [? _]].
  pose proof (longest_start (pattern r) s) as Hl.
  destruct (longest (pattern r) 0 None s) as [n|].
  2:{ apply Hskip. intros m (_ & ? & ?). by eapply Hl. }
  destruct Hl as (Hn & Hmat & Hmax).
  assert (Hthis : (∀ j r' m, l !! j = Some r' → matched r' sc s m → (m ≤ n)%nat) →
                  ∃ i r', act r = act r' ∧ chosen sc s (r :: l) i r' n).
  { intros Hrest. exists 0%nat, r. unfold chosen. split_and!; [done..|].
    intros [|j] r' m Hj Hm; simpl in Hj.
    - injection Hj as <-. split; [|lia]. destruct Hm as (_ & ? & ?). auto.
    - split; [by eapply Hrest|lia]. }
  destruct (pick sc s l) as [[m b]|].
  - destruct IH as (i & r' & -> & Hi & Hm & Hmaxl). destruct (Nat.leb_spec m n) as [Hle|Hlt].
    + apply Hthis. intros j r'' m' Hj Hm'. destruct (Hmaxl j r'' m' Hj Hm'). lia.
    + exists (S i), r'. unfold chosen. split_and!; [done..|].
      intros [|j] r'' m' Hj Hm'; simpl in Hj.
      * injection Hj as <-. destruct Hm' as (_ & ? & ?). assert (m' ≤ n)%nat by auto. lia.
      * destruct (Hmaxl j r'' m' Hj Hm') as [? Hi']. split; [done|]. intros Hx. specialize (Hi' Hx). lia.
  - apply Hthis. intros j r' m Hj Hm. by destruct (IH j r' m Hj).
Qed.

Lemma pick_chosen sc s l i r n : chosen sc s l i r n → pick sc s l = Some (n, act r).
Proof.
  intros (Hi & Hm & Hmax). pose proof (pick_spec sc s l) as Hp.
  destruct (pick sc s l) as [[n' b]|]; [|by destruct (Hp i r n Hi)].
  destruct Hp as (i' & r' & -> & Hi' & Hm' & Hmax').
  destruct (Hmax i' r' n' Hi' Hm') as [H1 H2], (Hmax' i r n Hi Hm) as [H3 H4].
  assert (n' = n) as -> by lia. assert (i' = i) as -> by (apply Nat.le_antisymm; auto). by simplify_eq.
Qed.

(** ** A word followed by a blank *)

(** The words of the pattern that start like [w] do not go on past it. *)
Definition settled (w : chars) (r : rule) : Prop :=
  ∀ v, ¬ matches (pattern r) (w ++ " " :: v).

Lemma pick_word w i r rest :
  rules !! i = Some r → cond r = INITIAL → matches (pattern r) w →
  (∀ r', r' ∈ rules → cond r' = INITIAL → settled w r') →
  (∀ j r', rules !! j = Some r' → (j < i)%nat → cond r' = INITIAL → ¬ matches (pattern r') w) →
  pick INITIAL (w ++ " " :: rest) rules = Some (length w, act r).
Proof.
  intros Hi Hc Hm Hset Hfirst. apply (pick_chosen _ _ _ i). unfold chosen. split_and!; [done|..].
  - split_and!; [done|rewrite length_app; lia|]. by rewrite take_app_length.
  - intros j r' m Hj (Hc' & Hlen & Hm'). destruct (decide (m ≤ length w)%nat).
    + split; [done|]. intros ->. destruct (decide (i ≤ j)%nat); [done|].
      destruct (Hfirst j r'); [done|lia|done|]. by rewrite take_app_length in Hm'.
    + exfalso. rewrite take_app_ge in Hm' by lia.
      destruct (m - length w)%nat as [|k] eqn:Hk; [lia|]. simpl in Hm'.
      eapply (Hset r'); [by eapply list_elem_of_lookup_2|done|exact Hm'].
Qed.

(** A rule whose words are over [P], or do not start like [w], is settled. *)
Lemma settled_over P w r : over P (pattern r) = true → P " " = false → settled w r.
Proof.
  intros Ho Hb v Hm. apply (over_spec _ _ _ Ho) in Hm. apply Forall_app in Hm as [_ Hm].
  inversion Hm. congruence.
Qed.

Lemma settled_start P w c r : no_start P (pattern r) = true → P c = true → settled (c :: w) r.
Proof. intros Hn Hc v. by apply (no_start_spec P). Qed.

Lemma settled_chr w c p r : pattern r = Chr p → settled (c :: w) r.
Proof.
  intros Hr v Hm. rewrite Hr in Hm.
  assert (∀ u, matches (Chr p) u → length u = 1%nat) as Hlen by (by inversion 1).
  apply Hlen in Hm. rewrite length_app in Hm. simpl in Hm. lia.
Qed.

(** ** Words over a class *)

Lemma matches_star_class p w : Forall (λ c, p c = true) w → matches (Star (Chr p)) w.
Proof.
  induction 1 as [|c w Hc _ IH]; [constructor|]. apply (m_star _ [c] w); [by constructor|done].
Qed.

Lemma matches_plus_class p c w :
  p c = true → Forall (λ c, p c = true) w → matches (plus (Chr p)) (c :: w).
Proof. intros Hc Hw. apply (m_cat _ _ [c] w); [by constructor|by apply matches_star_class]. Qed.

Lemma matches_lit k w : matches (lit k) w → map lower w = map lower (String.list_ascii_of_string k).
Proof.
  unfold lit. revert w. induction (String.list_ascii_of_string k) as [|d l IH]; intros w H; simpl in H.
  - by inversion H.
  - apply matches_cat_inv in H as (w1 & w2 & -> & H1 & H2). apply IH in H2.
    inversion H1 as [|p c Hc Hp| | | | |]; subst. simpl. rewrite H2. f_equal. by apply Ascii.eqb_eq in Hc.
Qed.

(** ** Identifiers *)

Definition ident_char (c : ascii) : bool := alpha c || digit c || (c =? "_").

Definition is_keyword (w : chars) : bool :=
  existsb (λ k, bool_decide (map lower (String.list_ascii_of_string k.1) = map lower w)) keywords.

(** A letter, then letters, digits and underscores, and no keyword in any
    mixture of cases. *)
Definition is_identifier (x : string) : Prop :=
  match String.list_ascii_of_string x with
  | [] => False
  | c :: w => alpha c = true ∧ Forall (λ c, ident_char c = true) w ∧
              is_keyword (String.list_ascii_of_string x) = false
  end.

#[export] Instance is_identifier_dec x : Decision (is_identifier x).
Proof. unfold is_identifier. destruct (String.list_ascii_of_string x); apply _. Defined.

Definition is_chr (r : re) : bool := match r with Chr _ => true | _ => false end.

Definition initial (r : rule) : bool := bool_decide (cond r = INITIAL).

Lemma forallb_rules (f : rule → bool) l r : forallb f l = true → r ∈ l → f r = true.
Proof. intros H Hr. rewrite forallb_forall in H. by apply H, list_elem_of_In. Qed.

(** What the rules do with a word that starts with a character of [P] and goes
    on over [Q]. *)
Lemma settled_class P Q c w :
  forallb (λ r, negb (initial r) || no_start P (pattern r) || over Q (pattern r) || is_chr (pattern r))
    rules = true →
  P c = true → Q " " = false → ∀ r, r ∈ rules → cond r = INITIAL → settled (c :: w) r.
Proof.
  intros Hall Hc Hb r Hr Hi. apply (forallb_rules _ _ r) in Hall; [|done].
  unfold initial in Hall. rewrite bool_decide_eq_true_2 in Hall by done. simpl in Hall.
  rewrite !orb_true_iff in Hall. destruct Hall as [[Hall|Hall]|Hall].
  - by apply settled_start with P.
  - by apply settled_over with Q.
  - destruct (pattern r) eqn:Hp; try discriminate. by eapply settled_chr.
Qed.

Lemma pick_identifier c w rest :
  alpha c = true → Forall (λ c, ident_char c = true) w → is_keyword (c :: w) = false →
  pick INITIAL ((c :: w) ++ " " :: rest) rules = Some (S (length w), RETURN_IDENTIFIER).
Proof.
  intros Hc Hw Hk.
  apply (pick_word (c :: w) 38 (mkRule INITIAL identifier RETURN_IDENTIFIER)); [done|done|..].
  - apply (m_cat _ _ [c] w); [by constructor|]. clear Hk.
    induction Hw as [|d w Hd _ IH]; [constructor|]. apply (m_star _ [d] w); [|done].
    unfold ident_char in Hd. rewrite !orb_true_iff in Hd. destruct Hd as [[Hd|Hd]|Hd].
    + by do 3 constructor.
    + apply m_right, m_right. by constructor.
    + apply m_left. constructor. simpl. by rewrite Hd.
  - apply (settled_class alpha ident_char); [by vm_compute|done|done].
  - intros j r Hj Hlt Hi Hm.
    assert (Hin : r ∈ take 38 rules) by (apply (list_elem_of_lookup_2 _ j); by rewrite lookup_take_lt).
    assert (take 38 rules = take 7 rules ++ keyword_rules ++ take 4 (drop 34 rules)) as Hsplit by done.
    rewrite Hsplit, !elem_of_app in Hin.
    assert (Hq : r ∈ take 7 rules ++ take 4 (drop 34 rules) → False).
    { intros Hr. assert (negb (initial r) || no_start alpha (pattern r) = true) as Hn.
      { revert Hr. apply (forallb_rules (λ r, negb (initial r) || no_start alpha (pattern r))). by vm_compute. }
      unfold initial in Hn. rewrite bool_decide_eq_true_2 in Hn by done.
      by apply (no_start_spec alpha (pattern r) c w) in Hn. }
    rewrite elem_of_app in Hq. destruct Hin as [?|[Hin|?]]; [tauto| |tauto].
    apply list_elem_of_fmap in Hin as (k & -> & Hkin). simpl in Hm. apply matches_lit in Hm.
    unfold is_keyword in Hk. rewrite <- not_true_iff_false, existsb_exists in Hk. apply Hk.
    exists k. split; [by apply list_elem_of_In|]. by apply bool_decide_eq_true.
Qed.

(** ** Numbers *)

Definition num_char (c : ascii) : bool := digit c || one_of ["+"; "-"; "."] c.

(** Digits, or a minus sign and digits; then more of a number. *)
Definition number (w : chars) : Prop :=
  match w with
  | c :: w' =>
      if (c =? "-") then match w' with d :: w2 => digit d = true ∧ Forall (λ c, num_char c = true) w2 | [] => False end
      else digit c = true ∧ Forall (λ c, num_char c = true) w'
  | [] => False
  end.

Lemma settled_number w r : number w → r ∈ rules → cond r = INITIAL → settled w r.
Proof.
  destruct w as [|c w]; [done|]. unfold number. destruct (Ascii.eqb_spec c "-") as [->|Hne].
  - destruct w as [|d w]; [done|]. intros [Hd _] Hr Hi.
    pose proof (forallb_rules (λ r, negb (initial r) || no_start digit (deriv "-" (pattern r))
                                  || over num_char (pattern r) || is_chr (pattern r)) rules r) as Hall.
    unfold initial in Hall. rewrite bool_decide_eq_true_2 in Hall by done. cbn [negb orb] in Hall.
    specialize (Hall ltac:(by vm_compute) Hr). rewrite !orb_true_iff in Hall. destruct Hall as [[Hall|Hall]|Hall].
    + intros v Hm. simpl in Hm. apply deriv_spec in Hm. by apply (no_start_spec digit) in Hm.
    + by apply settled_over with num_char.
    + destruct (pattern r) eqn:Hp; try discriminate. by eapply settled_chr.
  - intros [Hd _] Hr Hi. apply (settled_class digit num_char); [by vm_compute|done|done|done|done].
Qed.

(** The rules before the one of integers match no number. *)
Lemma number_early w r : number w → r ∈ take 39 rules → cond r = INITIAL → ¬ matches (pattern r) w.
Proof.
  destruct w as [|c w]; [done|]. unfold number. intros Hw Hr Hi Hm.
  pose proof (forallb_rules (λ r, negb (initial r) ||
    (no_start digit (pattern r) && no_start digit (deriv "-" (pattern r)))) (take 39 rules) r) as Hall.
  unfold initial in Hall. rewrite bool_decide_eq_true_2 in Hall by done. cbn [negb orb] in Hall.
  apply andb_true_iff in Hall as [H1 H2]; [|by vm_compute|done].
  destruct (Ascii.eqb_spec c "-") as [->|Hne].
  - destruct w as [|d w]; [done|]. destruct Hw as [Hd _]. apply deriv_spec in Hm.
    by apply (no_start_spec digit) in Hm.
  - destruct Hw as [Hd _]. by apply (no_start_spec digit) in Hm.
Qed.

Lemma matches_opt_sign r w : matches r w → matches (Cat (opt sign) r) w.
Proof. intros H. apply (m_cat _ _ [] w); [apply m_right; constructor|done]. Qed.

Lemma matches_minus r w : matches r w → matches (Cat (opt sign) r) ("-" :: w).
Proof. intros H. apply (m_cat _ _ ["-"] w); [|done]. apply m_left, m_right. by constructor. Qed.

(** What the scanner takes for an integer. *)
Definition int_text (w : chars) : Prop := ∃ d ds, digit d = true ∧ Forall (λ c, digit c = true) ds ∧
  (w = d :: ds ∨ w = "-" :: d :: ds).

Lemma digit_num c : digit c = true → num_char c = true.
Proof. unfold num_char. by intros ->. Qed.

Lemma digit_not_minus c : digit c = true → (c =? "-") = false.
Proof. intros Hd. destruct (Ascii.eqb_spec c "-"); [by subst|done]. Qed.

Lemma int_number w : int_text w → number w.
Proof.
  intros (d & ds & Hd & Hds & [->| ->]); simpl.
  - rewrite digit_not_minus by done. split; [done|]. by eapply Forall_impl; [|apply digit_num].
  - split; [done|]. by eapply Forall_impl; [|apply digit_num].
Qed.

Lemma pick_int w rest :
  int_text w → pick INITIAL (w ++ " " :: rest) rules = Some (length w, RETURN_INT).
Proof.
  intros Hw. pose proof (int_number w Hw) as Hn.
  apply (pick_word w 39 (mkRule INITIAL value_int RETURN_INT)); [done|done|..].
  - destruct Hw as (d & ds & Hd & Hds & [->| ->]); [apply matches_opt_sign|apply matches_minus];
      by apply matches_plus_class.
  - intros r Hr Hi. by apply settled_number.
  - intros j r Hj Hlt. apply number_early; [done|].
    apply (list_elem_of_lookup_2 _ j). by rewrite lookup_take_lt.
Qed.

(** What the scanner takes for a number with a point. *)
Definition float_text (w : chars) : Prop := ∃ d ds es, digit d = true ∧ Forall (λ c, digit c = true) ds ∧
  Forall (λ c, digit c = true) es ∧ (w = d :: ds ++ "." :: es ∨ w = "-" :: d :: ds ++ "." :: es).

Lemma matches_float d ds es :
  digit d = true → Forall (λ c, digit c = true) ds → Forall (λ c, digit c = true) es →
  matches (Cat (plus (Chr digit)) (Cat (Chr (one_of ["."])) (opt (plus (Chr digit))))) (d :: ds ++ "." :: es).
Proof.
  intros Hd Hds Hes. apply (m_cat _ _ (d :: ds) ("." :: es)); [by apply matches_plus_class|].
  apply (m_cat _ _ ["."] es); [by constructor|].
  destruct Hes as [|e es He Hes]; [apply m_right; constructor|]. apply m_left. by apply matches_plus_class.
Qed.

Lemma float_number w : float_text w → number w.
Proof.
  intros (d & ds & es & Hd & Hds & Hes & Hw).
  assert (Forall (λ c, num_char c = true) (ds ++ "." :: es)) as Hall.
  { apply Forall_app. split; [by eapply Forall_impl; [|apply digit_num]|]. constructor; [done|].
    by eapply Forall_impl; [|apply digit_num]. }
  destruct Hw as [->| ->]; simpl; [|done]. by rewrite digit_not_minus.
Qed.

Lemma pick_float w rest :
  float_text w → pick INITIAL (w ++ " " :: rest) rules = Some (length w, RETURN_FLOAT).
Proof.
  intros Hw. pose proof (float_number w Hw) as Hn.
  apply (pick_word w 40 (mkRule INITIAL value_float RETURN_FLOAT)); [done|done|..].
  - destruct Hw as (d & ds & es & Hd & Hds & Hes & [->| ->]); [apply matches_opt_sign|apply matches_minus];
      by apply matches_float.
  - intros r Hr Hi. by apply settled_number.
  - intros j r Hj Hlt Hi. destruct (decide (j = 39)%nat) as [->|Hne].
    + injection Hj as <-. simpl. intros Hm.
      assert (over (λ c, digit c || one_of ["+"; "-"] c) value_int = true) as Ho by by vm_compute.
      apply (over_spec _ _ _ Ho) in Hm. destruct Hw as (d & ds & es & _ & _ & _ & Hw).
      assert ("." ∈ w) as Hin.
      { assert ("." ∈ d :: ds ++ "." :: es) by (right; apply elem_of_app; right; left).
        destruct Hw as [->| ->]; [done|by right]. }
      rewrite Forall_forall in Hm. by apply Hm in Hin.
    + apply number_early; [done| |done].
      apply (list_elem_of_lookup_2 _ j). rewrite lookup_take_lt by lia. done.
Qed.

(** ** Strings *)

Definition quote : ascii := "'".
Definition plain (c : ascii) : bool := negb (one_of [quote] c) && negb (c =? zero).

Lemma plain_quote c : plain c = true → negb (one_of ["'"] c) = true.
Proof. unfold plain. by intros [? _]%andb_true_iff. Qed.

Lemma matches_star_class_inv p w : matches (Star (Chr p)) w → Forall (λ c, p c = true) w.
Proof.
  remember (Star (Chr p)) as r eqn:Hr. induction 1 as [| | | | | |a w1 w2 H1 _ H2 IH]; try discriminate; [done|].
  injection Hr as ->. apply Forall_app. split; [|by apply IH]. inversion H1; subst. by constructor.
Qed.

(** The first quote ends the string. *)
Lemma string_rest w v :
  Forall (λ c, plain c = true) w →
  matches (Cat (Star (Chr (λ c, negb (one_of ["'"] c)))) (Chr (one_of ["'"]))) (w ++ quote :: v) → v = [].
Proof.
  intros Hw (w1 & w2 & Heq & H1 & H2)%matches_cat_inv. apply matches_star_class_inv in H1.
  inversion H2 as [|p c Hc Hp| | | | |]; subst.
  revert w Hw Heq. induction H1 as [|d w1 Hd _ IH]; intros w Hw Heq.
  - destruct w as [|e w]; simpl in Heq; [by injection Heq|]. by destruct w.
  - destruct w as [|e w]; simpl in Heq; injection Heq as <- Heq; [done|].
    inversion Hw; subst. by apply (IH w).
Qed.

Lemma pick_string w rest :
  Forall (λ c, plain c = true) w →
  pick INITIAL ((quote :: w ++ [quote]) ++ " " :: rest) rules = Some (length w + 2, RETURN_STRING)%nat.
Proof.
  intros Hw. replace (length w + 2)%nat with (length (quote :: w ++ [quote]))
    by (simpl; rewrite length_app; simpl; lia).
  apply (pick_word (quote :: w ++ [quote]) 41 (mkRule INITIAL value_string RETURN_STRING)); [done|done|..].
  - apply (m_cat _ _ [quote] (w ++ [quote])); [by constructor|]. apply m_cat; [|by constructor].
    apply matches_star_class. by eapply Forall_impl; [|apply plain_quote].
  - intros r Hr Hi.
    assert (Hin : r = mkRule INITIAL value_string RETURN_STRING ∨ r ∈ take 41 rules ++ drop 42 rules).
    { change rules with (take 41 rules ++ mkRule INITIAL value_string RETURN_STRING :: drop 42 rules) in Hr.
      rewrite elem_of_app, elem_of_cons in Hr. rewrite elem_of_app. tauto. }
    destruct Hin as [->|Hin].
    + intros v Hm. cbn [app] in Hm. apply deriv_spec in Hm. rewrite <- (assoc_L (++)) in Hm.
      by apply string_rest in Hm.
    + pose proof (forallb_rules (λ r, negb (initial r) || no_start (one_of [quote]) (pattern r)
          || is_chr (pattern r)) (take 41 rules ++ drop 42 rules) r ltac:(by vm_compute) Hin) as Hall.
      unfold initial in Hall. rewrite bool_decide_eq_true_2 in Hall by done. cbn [negb orb] in Hall.
      rewrite !orb_true_iff in Hall. destruct Hall as [Hall|Hall].
      * by eapply settled_start.
      * destruct (pattern r) eqn:Hp; try discriminate. by eapply settled_chr.
  - intros j r Hj Hlt Hi.
    assert (Hin : r ∈ take 41 rules) by (apply (list_elem_of_lookup_2 _ j); by rewrite lookup_take_lt).
    pose proof (forallb_rules (λ r, negb (initial r) || no_start (one_of [quote]) (pattern r)) (take 41 rules) r
                  ltac:(by vm_compute) Hin) as Hall.
    unfold initial in Hall. rewrite bool_decide_eq_true_2 in Hall by done. cbn [negb orb] in Hall.
    by apply (no_start_spec (one_of [quote])).
Qed.
