(* ===== verification/TokenText.v ===== *)
(** The text of a token, and the scanner on it; blanks, comments and the end of
    the text. *)
From Stdlib Require Import Ascii.
From S2P Require Import Prelude.
From S2P Require Import SmMeta.
From S2P Require Import Regex.
From S2P Require Import Lexer.
From S2P Require Import LexerThms.

#[local] Open Scope char_scope.

(** ** The text of a token *)

Section text.
  Context (atof : string → Z) (write_float : Z → chars).

Definition spell (t : token) : chars :=
  match find (λ k, bool_decide (k.2 = t)) keywords with
  | Some k => String.list_ascii_of_string k.1
  | None => []
  end.

Definition text (t : token) : chars :=
  match t with
  | LEQ => ["<"; "="]
  | NEQ => ["<"; ">"]
  | GEQ => [">"; "="]
  | CHR c => [c]
  | IDENTIFIER s => String.list_ascii_of_string s
  | VALUE_STRING s => quote :: String.list_ascii_of_string s ++ [quote]
  | VALUE_INT z => String.list_ascii_of_string (to_string z)
  | VALUE_FLOAT f => write_float f
  | T_EOF | ATOI_UNDEFINED => []
  | _ => spell t
  end.

(** The tokens a text can have: names that are no keywords, strings without a
    quote, integers in the range of [int], numbers that [atof] reads back. *)
Definition writable (t : token) : Prop :=
  match t with
  | T_EOF | ATOI_UNDEFINED => False
  | CHR c => one_of [";"; "("; ")"; ","; "*"; "="; ">"; "<"; "."] c = true
  | IDENTIFIER s => is_identifier s
  | VALUE_STRING s => Forall (λ c, plain c = true) (String.list_ascii_of_string s)
  | VALUE_INT z => is_s32 z
  | VALUE_FLOAT f => float_text (write_float f) ∧ atof (String.string_of_list_ascii (write_float f)) = f
  | _ => True
  end.

Lemma list_ascii_all_chars p s :
  all_chars p s → Forall (λ c, p c = true) (String.list_ascii_of_string s).
Proof. induction s as [|c s IH]; simpl; [constructor|]. intros [??]. constructor; auto. Qed.

Lemma is_digit_digit c : is_digit c = true → digit c = true.
Proof.
  intros Hc. assert (every (λ c, implb (is_digit c) (digit c)) = true) as H by by vm_compute.
  apply (every_spec _ c) in H. cbn beta in H. by rewrite Hc in H.
Qed.

Lemma to_string_int z : int_text (String.list_ascii_of_string (to_string z)).
Proof.
  destruct (to_string_shape z) as (ds & Hd & Hn & _ & ->). apply list_ascii_all_chars in Hd.
  destruct ds as [|d ds]; [done|]. simpl in Hd. inversion Hd as [|? ? H1 H2]; subst.
  exists d, (String.list_ascii_of_string ds). split_and!; [by apply is_digit_digit|..].
  - eapply Forall_impl; [exact H2|]. apply is_digit_digit.
  - destruct (z <? 0)%Z; [by right|by left].
Qed.

Lemma atoi_to_string z : is_s32 z → atoi (String.list_ascii_of_string (to_string z)) = Some z.
Proof.
  intros Hz. assert (∃ c w, String.list_ascii_of_string (to_string z) = c :: w ∧ c ≠ "+") as (c & w & Hw & Hc).
  { destruct (to_string_int z) as (d & ds & Hd & _ & [Hw|Hw]); eexists _, _; (split; [exact Hw|]).
    - by intros ->.
    - done. }
  unfold atoi. rewrite Hw, (proj2 (Ascii.eqb_neq _ _) Hc), <- Hw.
  rewrite String.string_of_list_ascii_of_string, of_string_to_string. simpl. by apply s32_Some.
Qed.

(** The keywords and the operators of two characters. *)
Definition fixed (t : token) : bool :=
  match t with
  | T_EOF | ATOI_UNDEFINED | CHR _ | IDENTIFIER _ | VALUE_STRING _ | VALUE_INT _ | VALUE_FLOAT _ => false
  | _ => true
  end.

Lemma pick_fixed t rest :
  fixed t = true → pick INITIAL (text t ++ " " :: rest) rules = Some (length (text t), RETURN t).
Proof. intros Ht. destruct t; try discriminate Ht; clear Ht; vm_compute; reflexivity. Qed.

Lemma pick_single c rest :
  one_of [";"; "("; ")"; ","; "*"; "="; ">"; "<"; "."] c = true →
  pick INITIAL (c :: " " :: rest) rules = Some (1%nat, RETURN_CHAR).
Proof.
  intros Hc. apply existsb_exists in Hc as (d & Hd & ->%Ascii.eqb_eq).
  repeat (destruct Hd as [<-|Hd]; [vm_compute; reflexivity|]). done.
Qed.

(** The scanner finds the token at its text, when a blank follows. *)
Lemma scan_text t rest :
  writable t →
  scan_step atof (mkLexer INITIAL (text t ++ " " :: rest)) = (Some t, mkLexer INITIAL (" " :: rest)).
Proof.
  intros Hw.
  assert (Hfound : ∀ w a, pick INITIAL (w ++ " " :: rest) rules = Some (length w, a) →
    run_action atof a w = Some t → start_after a INITIAL = INITIAL →
    scan_step atof (mkLexer INITIAL (w ++ " " :: rest)) = (Some t, mkLexer INITIAL (" " :: rest))).
  { intros w a Hp Hr Hs. unfold scan_step. cbn [yy_start yy_rest].
    by rewrite Hp, take_app_length, drop_app_length, Hr, Hs. }
  destruct (fixed t) eqn:Hfix.
  { eapply Hfound; [by apply pick_fixed|done|done]. }
  destruct t; try discriminate Hfix; clear Hfix; unfold writable in Hw; unfold text; [done|..|done].
  - by apply (Hfound [c] RETURN_CHAR); [apply pick_single|..].
  - unfold is_identifier in Hw. destruct (String.list_ascii_of_string sv_str) as [|c w] eqn:Heq; [done|].
    destruct Hw as (Hc & Hall & Hk). eapply Hfound; [by apply pick_identifier| |done].
    cbn [run_action]. by rewrite <- Heq, String.string_of_list_ascii_of_string.
  - eapply Hfound.
    + rewrite pick_string by done. simpl. rewrite length_app. simpl. do 2 f_equal. lia.
    + simpl. rewrite length_app. simpl. rewrite drop_0, take_app_length'; [|simpl; lia].
      by rewrite String.string_of_list_ascii_of_string.
    + done.
  - eapply Hfound; [apply pick_int, to_string_int| |done]. cbn [run_action]. by rewrite atoi_to_string.
  - destruct Hw as [Hf Ha]. eapply Hfound; [by apply pick_float| |done]. cbn [run_action]. by rewrite Ha.
Qed.

(** ** Blanks *)

Definition blank (c : ascii) : bool := one_of [" "; tab] c.

Lemma pick_blank c rest :
  blank c = false → pick INITIAL (" " :: c :: rest) rules = Some (1%nat, IGNORE).
Proof. destruct c as [[] [] [] [] [] [] [] []]; intros Hc; try discriminate Hc; vm_compute; reflexivity. Qed.

Lemma number_head w : number w → ∃ c w', w = c :: w' ∧ blank c = false.
Proof.
  destruct w as [|c w]; [done|]. unfold number. intros Hw. exists c, w. split; [done|].
  destruct (Ascii.eqb_spec c "-") as [->|]; [done|]. destruct Hw as [Hd _].
  assert (every (λ c, implb (digit c) (negb (blank c))) = true) as He by by vm_compute.
  apply (every_spec _ c) in He. cbn beta in He. rewrite Hd in He. by apply negb_true_iff in He.
Qed.

Lemma text_head t : writable t → ∃ c w, text t = c :: w ∧ blank c = false.
Proof.
  intros Hw. destruct (fixed t) eqn:Hfix.
  { destruct t; try discriminate Hfix; eexists _, _; split; vm_compute; reflexivity. }
  destruct t; try discriminate Hfix; unfold writable in Hw; unfold text; [done|..|done].
  - exists c, []. split; [done|]. apply existsb_exists in Hw as (d & Hd & ->%Ascii.eqb_eq).
    repeat (destruct Hd as [<-|Hd]; [done|]). done.
  - unfold is_identifier in Hw. destruct (String.list_ascii_of_string sv_str) as [|c w]; [done|].
    exists c, w. split; [done|]. destruct Hw as [Hc _].
    assert (every (λ c, implb (alpha c) (negb (blank c))) = true) as He by by vm_compute.
    apply (every_spec _ c) in He. cbn beta in He. rewrite Hc in He. by apply negb_true_iff in He.
  - by eexists _, _.
  - apply number_head, int_number, to_string_int.
  - apply number_head, float_number. tauto.
Qed.

Lemma scan_blank t rest :
  writable t →
  scan_step atof (mkLexer INITIAL (" " :: text t ++ rest)) = (None, mkLexer INITIAL (text t ++ rest)).
Proof.
  intros (c & w & -> & Hc)%text_head. unfold scan_step. cbn [yy_start yy_rest app].
  by rewrite pick_blank.
Qed.

(** ** The scanner ends *)

Lemma scan_progress l :
  yy_rest l ≠ [] → (length (yy_rest (scan_step atof l).2) < length (yy_rest l))%nat.
Proof.
  intros Hne. assert (0 < length (yy_rest l))%nat by (destruct (yy_rest l); [done|simpl; lia]).
  unfold scan_step. pose proof (pick_spec (yy_start l) (yy_rest l) rules) as Hp.
  destruct (pick (yy_start l) (yy_rest l) rules) as [[n a]|].
  - destruct Hp as (i & r & _ & Hi & (_ & Hle & Hm) & _). simpl. rewrite length_drop.
    destruct n as [|n]; [|lia]. apply nullable_spec in Hm.
    assert (negb (nullable (pattern r)) = true) as Hn.
    { apply (forallb_rules (λ r, negb (nullable (pattern r))) rules); [by vm_compute|].
      by eapply list_elem_of_lookup_2. }
    by rewrite Hm in Hn.
  - simpl. rewrite length_drop. lia.
Qed.

Lemma yylex_total fuel l :
  (length (yy_rest l) < fuel)%nat →
  ∃ t l', yylex atof fuel l = Some (t, l') ∧ (t = T_EOF ∨ (length (yy_rest l') < length (yy_rest l))%nat).
Proof.
  revert l. induction fuel as [|fuel IH]; intros l Hf; [lia|]. cbn [yylex].
  destruct (yy_rest l) as [|c s] eqn:Hr; [eauto|]. rewrite <- Hr in *.
  pose proof (scan_progress l) as Hp. rewrite Hr in Hp at 1. specialize (Hp ltac:(done)).
  destruct (scan_step atof l) as [[t|] l1]; simpl in Hp; [eauto|].
  destruct (IH l1) as (t & l' & H1 & H2); [lia|]. exists t, l'. split; [done|]. destruct H2; [by left|right; lia].
Qed.

Lemma tokens_total fuel l :
  (length (yy_rest l) < fuel)%nat → ∃ ts, tokens atof fuel l = Some ts.
Proof.
  revert l. induction fuel as [|fuel IH]; intros l Hf; [lia|]. cbn [tokens].
  destruct (yylex_total (lex_fuel l) l) as (t & l' & -> & Ht); [unfold lex_fuel; lia|]. simpl.
  case_bool_decide; [eauto|]. destruct Ht as [?|Ht]; [done|].
  destruct (IH l') as (ts & ->); [lia|]. simpl. eauto.
Qed.

(** ** A line of tokens *)

Definition line (ts : list token) : chars := ts ≫= λ t, " " :: text t.

Lemma yylex_text fuel t rest :
  writable t →
  yylex atof (S (S fuel)) (mkLexer INITIAL (" " :: text t ++ " " :: rest)) = Some (t, mkLexer INITIAL (" " :: rest)).
Proof.
  intros Hw. cbn [yylex yy_rest]. rewrite scan_blank by done.
  pose proof (scan_text t rest Hw) as Hs. destruct (text_head t Hw) as (c & w & Ht & _).
  rewrite Ht in *. cbn [app] in *. cbn [yy_rest]. by rewrite Hs.
Qed.

Lemma pick_semicolon rest : pick INITIAL (";" :: rest) rules = Some (1%nat, RETURN_CHAR).
Proof. destruct rest; vm_compute; reflexivity. Qed.

Lemma yylex_semicolon fuel tail :
  yylex atof (S (S fuel)) (mkLexer INITIAL (" " :: ";" :: tail)) = Some (CHR ";", mkLexer INITIAL tail).
Proof.
  cbn [yylex yy_rest]. unfold scan_step at 1. cbn [yy_start yy_rest]. rewrite pick_blank by done.
  cbn [run_action start_after drop]. cbn [yy_rest]. unfold scan_step. cbn [yy_start yy_rest].
  by rewrite pick_semicolon.
Qed.

(** The tokens of a line and a semicolon, whatever follows them. *)
Lemma tokens_line ts tail fuel :
  Forall writable ts → (length (line ts ++ " " :: ";" :: tail) < fuel)%nat →
  ∃ spine more, tokens atof fuel (mkLexer INITIAL (line ts ++ " " :: ";" :: tail)) = Some (spine ++ more) ∧
    map fst spine = ts ++ [CHR ";"] ∧ snd <$> last spine = Some (mkLexer INITIAL tail).
Proof.
  intros Hw. revert fuel. induction Hw as [|t ts Ht Hw IH]; intros fuel Hf; (destruct fuel as [|fuel]; [lia|]).
  - cbn [tokens line mbind list_bind app]. unfold lex_fuel. cbn [yy_rest length].
    rewrite yylex_semicolon. cbn [mbind option_bind]. rewrite bool_decide_eq_false_2 by done.
    destruct (tokens_total fuel (mkLexer INITIAL tail)) as (more & Hm); [simpl in *; lia|].
    rewrite Hm. by exists [(CHR ";", mkLexer INITIAL tail)], more.
  - cbn [line mbind list_bind] in *. fold (line ts) in *. cbn [app] in Hf |- *. rewrite <- (assoc_L (++)) in Hf |- *.
    assert (∃ rest, line ts ++ " " :: ";" :: tail = " " :: rest) as (rest & Hrest) by (destruct ts; simpl; eauto).
    cbn [tokens]. unfold lex_fuel. rewrite Hrest in *. cbn [yy_rest length].
    destruct (text_head t Ht) as (c & w & Htext & _).
    replace (length (text t ++ " " :: rest)) with (S (length (w ++ " " :: rest))) by by rewrite Htext.
    rewrite yylex_text by done. cbn [mbind option_bind].
    rewrite bool_decide_eq_false_2 by (by intros ->).
    destruct (IH fuel) as (spine & more & -> & Hmap & Hlast).
    { simpl in Hf. rewrite length_app in Hf. simpl in *. lia. }
    exists ((t, mkLexer INITIAL (" " :: rest)) :: spine), more. simpl. rewrite Hmap. split_and!; [done..|].
    destruct spine; [by destruct ts|done].
Qed.

End text.
