(* ===== verification/Grammar.v ===== *)
(** The grammar of SQL, [src/src/parser/yacc.y], twice: as derivations, one
    relation per nonterminal with one constructor per production, and as a
    parser that reads the tokens with one token of lookahead, as the parser that
    bison generates does.

    The parser asks for a token only when it needs it: what follows an accepted
    statement is not read.  [Bad] is a syntax error; its list starts after the
    offending token. *)
From Stdlib Require Import Ascii.
From S2P Require Import Prelude.
From S2P Require Import Lexer.
From S2P Require Import Ast.
Import ast.

(** ** Derivations *)

Abbreviation tchr c := (CHR c%char).

(** [l: x | l sep x], the lists of the grammar. *)
Inductive list_d {A} (sep : token → Prop) (D : list token → A → Prop) : list token → list A → Prop :=
  | list_one ts x : D ts x → list_d sep D ts [x]
  | list_snoc ts xs t us x :
      list_d sep D ts xs → sep t → D us x → list_d sep D (ts ++ t :: us) (xs ++ [x]).

Definition comma (t : token) : Prop := t = tchr ",".

Inductive tbName_d : list token → string → Prop :=
  | tbName_id s : tbName_d [IDENTIFIER s] s.

Inductive colName_d : list token → string → Prop :=
  | colName_id s : colName_d [IDENTIFIER s] s.

Inductive type_d : list token → TypeLen → Prop :=
  | type_int : type_d [INT] (mkTypeLen SV_TYPE_INT 4)
  | type_char n : type_d [CHAR; tchr "("; VALUE_INT n; tchr ")"] (mkTypeLen SV_TYPE_STRING n)
  | type_float : type_d [FLOAT] (mkTypeLen SV_TYPE_FLOAT 4).

Inductive field_d : list token → Field → Prop :=
  | field_def us c vs x : colName_d us c → type_d vs x → field_d (us ++ vs) (ColDef c x).

Definition fieldList_d : list token → list Field → Prop := list_d comma field_d.

Inductive value_d : list token → Value → Prop :=
  | value_int n : value_d [VALUE_INT n] (IntLit n)
  | value_float f : value_d [VALUE_FLOAT f] (FloatLit f)
  | value_string s : value_d [VALUE_STRING s] (StringLit s).

Definition valueList_d : list token → list Value → Prop := list_d comma value_d.

Inductive col_d : list token → Col → Prop :=
  | col_tab us t vs c : tbName_d us t → colName_d vs c → col_d (us ++ tchr "." :: vs) (mkCol t c)
  | col_only us c : colName_d us c → col_d us (mkCol "" c).

Definition colList_d : list token → list Col → Prop := list_d comma col_d.

Inductive op_d : list token → SvCompOp → Prop :=
  | op_eq : op_d [tchr "="] SV_OP_EQ
  | op_lt : op_d [tchr "<"] SV_OP_LT
  | op_gt : op_d [tchr ">"] SV_OP_GT
  | op_ne : op_d [NEQ] SV_OP_NE
  | op_le : op_d [LEQ] SV_OP_LE
  | op_ge : op_d [GEQ] SV_OP_GE.

Inductive expr_d : list token → Expr → Prop :=
  | expr_value us v : value_d us v → expr_d us (ValueExpr v)
  | expr_col us c : col_d us c → expr_d us (ColExpr c).

Inductive condition_d : list token → BinaryExpr → Prop :=
  | condition_op us c vs o ws e :
      col_d us c → op_d vs o → expr_d ws e → condition_d (us ++ vs ++ ws) (mkBinaryExpr c o e).

Definition whereClause_d : list token → list BinaryExpr → Prop := list_d (eq AND) condition_d.

Inductive optWhereClause_d : list token → list BinaryExpr → Prop :=
  | where_none : optWhereClause_d [] []
  | where_some us l : whereClause_d us l → optWhereClause_d (WHERE :: us) l.

Inductive setClause_d : list token → SetClause → Prop :=
  | set_value us c vs v : colName_d us c → value_d vs v → setClause_d (us ++ tchr "=" :: vs) (mkSetClause c v).

Definition setClauses_d : list token → list SetClause → Prop := list_d comma setClause_d.

Inductive selector_d : list token → list Col → Prop :=
  | selector_all : selector_d [tchr "*"] []
  | selector_cols us l : colList_d us l → selector_d us l.

Definition tableList_d : list token → list string → Prop :=
  list_d (λ t, t = tchr "," ∨ t = JOIN) tbName_d.

Inductive ddl_d : list token → TreeNode → Prop :=
  | ddl_create_table us t vs l :
      tbName_d us t → fieldList_d vs l →
      ddl_d (CREATE :: TABLE :: us ++ tchr "(" :: vs ++ [tchr ")"]) (CreateTable t l)
  | ddl_drop_table us t : tbName_d us t → ddl_d (DROP :: TABLE :: us) (DropTable t)
  | ddl_desc us t : tbName_d us t → ddl_d (DESC :: us) (DescTable t)
  | ddl_create_index us t vs c :
      tbName_d us t → colName_d vs c →
      ddl_d (CREATE :: INDEX :: us ++ tchr "(" :: vs ++ [tchr ")"]) (CreateIndex t c)
  | ddl_drop_index us t vs c :
      tbName_d us t → colName_d vs c →
      ddl_d (DROP :: INDEX :: us ++ tchr "(" :: vs ++ [tchr ")"]) (DropIndex t c).

Inductive dml_d : list token → TreeNode → Prop :=
  | dml_insert us t vs l :
      tbName_d us t → valueList_d vs l →
      dml_d (INSERT :: INTO :: us ++ VALUES :: tchr "(" :: vs ++ [tchr ")"]) (InsertStmt t l)
  | dml_delete us t vs l :
      tbName_d us t → optWhereClause_d vs l → dml_d (DELETE :: FROM :: us ++ vs) (DeleteStmt t l)
  | dml_update us t vs l ws m :
      tbName_d us t → setClauses_d vs l → optWhereClause_d ws m →
      dml_d (UPDATE :: us ++ SET :: vs ++ ws) (UpdateStmt t l m)
  | dml_select us cs vs ts ws m :
      selector_d us cs → tableList_d vs ts → optWhereClause_d ws m →
      dml_d (SELECT :: us ++ FROM :: vs ++ ws) (SelectStmt cs ts m).

Inductive txnStmt_d : list token → TreeNode → Prop :=
  | txn_begin : txnStmt_d [TXN_BEGIN] TxnBegin
  | txn_commit : txnStmt_d [TXN_COMMIT] TxnCommit
  | txn_abort : txnStmt_d [TXN_ABORT] TxnAbort
  | txn_rollback : txnStmt_d [TXN_ROLLBACK] TxnRollback.

Inductive dbStmt_d : list token → TreeNode → Prop :=
  | db_show : dbStmt_d [SHOW; TABLES] ShowTables.

Inductive stmt_d : list token → TreeNode → Prop :=
  | stmt_db us x : dbStmt_d us x → stmt_d us x
  | stmt_ddl us x : ddl_d us x → stmt_d us x
  | stmt_dml us x : dml_d us x → stmt_d us x
  | stmt_txn us x : txnStmt_d us x → stmt_d us x.

(** The value is [parse_tree]; [None] is the null pointer. *)
Inductive start_d : list token → option TreeNode → Prop :=
  | start_stmt us x : stmt_d us x → start_d (us ++ [tchr ";"]) (Some x)
  | start_help : start_d [HELP] (Some Help)
  | start_exit : start_d [EXIT] None
  | start_eof : start_d [T_EOF] None.

(** ** The parser *)

Inductive outcome (A : Type) :=
  | Ok (a : A) (rest : list token)
  | Bad (rest : list token).
Arguments Ok {A} _ _.
Arguments Bad {A} _.

Definition P (A : Type) : Type := list token → outcome A.

Definition pret {A} (a : A) : P A := λ ts, Ok a ts.
Definition pbind {A B} (p : P A) (k : A → P B) : P B := λ ts,
  match p ts with Ok a rest => k a rest | Bad rest => Bad rest end.
Definition unexpected {A} : P A := λ ts, Bad (tail ts).

Declare Scope parse_scope.
Notation "'let!' x ':=' p 'in' q" := (pbind p (λ x, q))
  (at level 10, x binder, p at level 100, q at level 200) : parse_scope.
Notation "p '>>!' q" := (pbind p (λ _, q)) (at level 100, q at level 200, right associativity) : parse_scope.
#[local] Open Scope parse_scope.

(** The lookahead. *)
Definition peek : P (option token) := λ ts, Ok (head ts) ts.
Definition skip : P unit := λ ts, Ok tt (tail ts).

Definition expect (t : token) : P unit := λ ts,
  match ts with t' :: rest => if bool_decide (t' = t) then Ok tt rest else Bad rest | [] => Bad [] end.

Definition p_id : P string := λ ts,
  match ts with IDENTIFIER s :: rest => Ok s rest | _ => Bad (tail ts) end.

(** The rest of a list, after its first element. *)
Fixpoint p_more {A} (sep : token → bool) (p : P A) (acc : list A) (fuel : nat) : P (list A) := λ ts,
  match fuel with
  | O => Bad ts
  | S fuel' =>
      match ts with
      | t :: rest =>
          if sep t then (let! x := p in p_more sep p (acc ++ [x]) fuel') rest else Ok acc ts
      | [] => Ok acc ts
      end
  end.

(** Every separator takes a token. *)
Definition p_list {A} (sep : token → bool) (p : P A) : P (list A) :=
  let! x := p in λ ts, p_more sep p [x] (S (length ts)) ts.

Definition is_comma (t : token) : bool := bool_decide (t = tchr ",").

Definition p_type : P TypeLen :=
  let! t := peek in
  match t with
  | Some INT => skip >>! pret (mkTypeLen SV_TYPE_INT 4)
  | Some FLOAT => skip >>! pret (mkTypeLen SV_TYPE_FLOAT 4)
  | Some CHAR =>
      skip >>! expect (tchr "(") >>!
      let! t := peek in
      match t with
      | Some (VALUE_INT n) => skip >>! expect (tchr ")") >>! pret (mkTypeLen SV_TYPE_STRING n)
      | _ => unexpected
      end
  | _ => unexpected
  end.

Definition p_field : P Field := let! c := p_id in let! x := p_type in pret (ColDef c x).

Definition p_value : P Value :=
  let! t := peek in
  match t with
  | Some (VALUE_INT n) => skip >>! pret (IntLit n)
  | Some (VALUE_FLOAT f) => skip >>! pret (FloatLit f)
  | Some (VALUE_STRING s) => skip >>! pret (StringLit s)
  | _ => unexpected
  end.

Definition p_col : P Col :=
  let! x := p_id in
  let! t := peek in
  if bool_decide (t = Some (tchr ".")) then skip >>! let! c := p_id in pret (mkCol x c)
  else pret (mkCol "" x).

Definition p_op : P SvCompOp :=
  let! t := peek in
  match t with
  | Some NEQ => skip >>! pret SV_OP_NE
  | Some LEQ => skip >>! pret SV_OP_LE
  | Some GEQ => skip >>! pret SV_OP_GE
  | Some (CHR c) =>
      if (c =? "=")%char then skip >>! pret SV_OP_EQ
      else if (c =? "<")%char then skip >>! pret SV_OP_LT
      else if (c =? ">")%char then skip >>! pret SV_OP_GT
      else unexpected
  | _ => unexpected
  end.

Definition p_expr : P Expr :=
  let! t := peek in
  match t with
  | Some (IDENTIFIER _) => let! c := p_col in pret (ColExpr c)
  | _ => let! v := p_value in pret (ValueExpr v)
  end.

Definition p_condition : P BinaryExpr :=
  let! c := p_col in let! o := p_op in let! e := p_expr in pret (mkBinaryExpr c o e).

Definition p_optWhereClause : P (list BinaryExpr) :=
  let! t := peek in
  if bool_decide (t = Some WHERE) then skip >>! p_list (λ t, bool_decide (t = AND)) p_condition
  else pret [].

Definition p_setClause : P SetClause :=
  let! c := p_id in expect (tchr "=") >>! let! v := p_value in pret (mkSetClause c v).

Definition p_selector : P (list Col) :=
  let! t := peek in
  if bool_decide (t = Some (tchr "*")) then skip >>! pret [] else p_list is_comma p_col.

Definition p_tableList : P (list string) :=
  p_list (λ t, is_comma t || bool_decide (t = JOIN)) p_id.

Definition p_stmt : P TreeNode :=
  let! t := peek in
  match t with
  | Some SHOW => skip >>! expect TABLES >>! pret ShowTables
  | Some TXN_BEGIN => skip >>! pret TxnBegin
  | Some TXN_COMMIT => skip >>! pret TxnCommit
  | Some TXN_ABORT => skip >>! pret TxnAbort
  | Some TXN_ROLLBACK => skip >>! pret TxnRollback
  | Some CREATE =>
      skip >>!
      let! t := peek in
      match t with
      | Some TABLE =>
          skip >>! let! tab := p_id in expect (tchr "(") >>!
          let! l := p_list is_comma p_field in expect (tchr ")") >>! pret (CreateTable tab l)
      | Some INDEX =>
          skip >>! let! tab := p_id in expect (tchr "(") >>!
          let! c := p_id in expect (tchr ")") >>! pret (CreateIndex tab c)
      | _ => unexpected
      end
  | Some DROP =>
      skip >>!
      let! t := peek in
      match t with
      | Some TABLE => skip >>! let! tab := p_id in pret (DropTable tab)
      | Some INDEX =>
          skip >>! let! tab := p_id in expect (tchr "(") >>!
          let! c := p_id in expect (tchr ")") >>! pret (DropIndex tab c)
      | _ => unexpected
      end
  | Some DESC => skip >>! let! tab := p_id in pret (DescTable tab)
  | Some INSERT =>
      skip >>! expect INTO >>! let! tab := p_id in expect VALUES >>! expect (tchr "(") >>!
      let! l := p_list is_comma p_value in expect (tchr ")") >>! pret (InsertStmt tab l)
  | Some DELETE =>
      skip >>! expect FROM >>! let! tab := p_id in let! l := p_optWhereClause in pret (DeleteStmt tab l)
  | Some UPDATE =>
      skip >>! let! tab := p_id in expect SET >>! let! l := p_list is_comma p_setClause in
      let! m := p_optWhereClause in pret (UpdateStmt tab l m)
  | Some SELECT =>
      skip >>! let! cs := p_selector in expect FROM >>! let! ts := p_tableList in
      let! m := p_optWhereClause in pret (SelectStmt cs ts m)
  | _ => unexpected
  end.

Definition p_start : P (option TreeNode) :=
  let! t := peek in
  match t with
  | Some HELP => skip >>! pret (Some Help)
  | Some EXIT | Some T_EOF => skip >>! pret None
  | _ => let! x := p_stmt in expect (tchr ";") >>! pret (Some x)
  end.

(** ** [yyparse]: the scanner feeds the parser *)

Section yyparse.
  Context (atof : string → Z).

(** What [yyparse] did: accepted with a tree, a syntax error (its result is 1),
    or undefined behaviour in [atoi]. *)
Inductive parsed :=
  | Accepted (tree : option TreeNode)
  | SyntaxError
  | Undefined.

(** The tokens asked for are those before [rest]. *)
Definition yyparse (l : lexer) : option (parsed * lexer) :=
  ts ← tokens atof (lex_fuel l) l;
  let asked rest := take (length ts - length rest) ts in
  let scanner rest := default l (snd <$> last (asked rest)) in
  match p_start (map fst ts) with
  | Ok tree rest => Some (Accepted tree, scanner rest)
  | Bad rest =>
      if bool_decide (fst <$> last (asked rest) = Some ATOI_UNDEFINED) then Some (Undefined, scanner rest)
      else Some (SyntaxError, scanner rest)
  end.

End yyparse.
