(* ===== verification/GrammarThms.v ===== *)
(** The parser accepts exactly the derivations of the grammar. *)
From Stdlib Require Import Ascii.
From S2P Require Import Prelude.
From S2P Require Import Lexer.
From S2P Require Import Ast.
From S2P Require Import Grammar.
Import ast.

(** ** What a parser promises about a nonterminal *)

Definition sound {A} (p : P A) (D : list token → A → Prop) : Prop :=
  ∀ ts a rest, p ts = Ok a rest → ∃ pre, ts = pre ++ rest ∧ D pre a.

(** The lookahead does not continue the nonterminal. *)
Definition clear (K : token → bool) (rest : list token) : Prop :=
  match rest with t :: _ => K t = false | [] => True end.

Definition complete {A} (K : token → bool) (p : P A) (D : list token → A → Prop) : Prop :=
  ∀ pre a rest, D pre a → clear K rest → p (pre ++ rest) = Ok a rest.

Definition nothing (t : token) : bool := false.

Record implements {A} (K : token → bool) (p : P A) (D : list token → A → Prop) : Prop := {
  impl_sound : sound p D;
  impl_complete : complete K p D
}.

Lemma pbind_Ok {A B} (p : P A) (k : A → P B) ts b rest :
  pbind p k ts = Ok b rest → ∃ a us, p ts = Ok a us ∧ k a us = Ok b rest.
Proof. unfold pbind. destruct (p ts) as [a us|]; [eauto|discriminate]. Qed.

Lemma pbind_run {A B} (p : P A) (k : A → P B) ts a us : p ts = Ok a us → pbind p k ts = k a us.
Proof. unfold pbind. by intros ->. Qed.

Lemma pbind_peek {B} (k : option token → P B) ts : pbind peek k ts = k (head ts) ts.
Proof. done. Qed.

Lemma pbind_skip {B} (k : unit → P B) ts : pbind skip k ts = k tt (tail ts).
Proof. done. Qed.

Lemma clear_nothing rest : clear nothing rest.
Proof. by destruct rest. Qed.

#[local] Hint Resolve clear_nothing : core.

Lemma expect_Ok t ts u rest : expect t ts = Ok u rest → ts = t :: rest.
Proof. destruct ts as [|t' ts]; simpl; [done|]. case_bool_decide; [|done]. inversion 1. by subst. Qed.

Lemma expect_run t rest : expect t (t :: rest) = Ok tt rest.
Proof. simpl. by rewrite bool_decide_eq_true_2. Qed.

(** Takes apart a run that succeeded. *)
Ltac inv_run H :=
  repeat first
    [ progress unfold pret, unexpected in H
    | match type of H with
      | Ok _ _ = Ok _ _ => injection H as ?; subst
      | Bad _ = Ok _ _ => discriminate H
      | pbind peek _ _ = Ok _ _ => rewrite pbind_peek in H
      | pbind skip _ _ = Ok _ _ => rewrite pbind_skip in H; cbn [tail] in H
      | pbind _ _ _ = Ok _ _ =>
          let H1 := fresh "R" in let H2 := fresh "R" in
          apply pbind_Ok in H as (? & ? & H1 & H2); inv_run H1; inv_run H2
      | expect _ _ = Ok _ _ => apply expect_Ok in H; subst
      | p_id ?ts = Ok _ _ =>
          let E := fresh "E" in destruct ts as [|[] ?] eqn:E; simpl in H; try discriminate H; try subst ts
      end ].

Ltac inv_runs := repeat match goal with H : _ = Ok _ _ |- _ => progress inv_run H end.

Tactic Notation "from" constr(I) "as" simple_intropattern(pat) :=
  match goal with H : _ = Ok _ _ |- _ => apply (impl_sound _ _ _ I) in H as pat end.

Lemma p_id_impl : implements nothing p_id tbName_d.
Proof.
  split.
  - intros ts a rest H. inv_run H. exists [IDENTIFIER a]. by split.
  - intros pre a rest H _. by inversion H.
Qed.

Lemma tb_col us s : tbName_d us s ↔ colName_d us s.
Proof. split; inversion 1; constructor. Qed.

(** ** Lists *)

Section lists.
  Context {A : Type} (sepb : token → bool) (sep : token → Prop) (K : token → bool) (p : P A)
          (D : list token → A → Prop).
  Context (Hsep : ∀ t, sepb t = true ↔ sep t) (Hp : implements K p D).
  (** a separator ends an element *)
  Context (HK : ∀ t, sepb t = true → K t = false).

Lemma p_more_sound fuel acc ts l rest pre0 :
  list_d sep D pre0 acc → p_more sepb p acc fuel ts = Ok l rest →
  ∃ pre, ts = pre ++ rest ∧ list_d sep D (pre0 ++ pre) l.
Proof.
  revert acc ts pre0. induction fuel as [|fuel IH]; intros acc ts pre0 Hacc H; [done|].
  cbn [p_more] in H. destruct ts as [|t ts].
  { injection H as -> <-. exists []. split; [done|]. by rewrite app_nil_r. }
  destruct (sepb t) eqn:Ht.
  - apply pbind_Ok in H as (x & us & Hx & Hm). apply (impl_sound _ _ _ Hp) in Hx as (px & -> & Hx).
    apply (IH _ _ (pre0 ++ t :: px)) in Hm as (pre & -> & Hl); [|by apply list_snoc; [|apply Hsep|]].
    exists (t :: px ++ pre). simpl. by rewrite <- !(assoc_L (++)) in *.
  - injection H as -> <-. exists []. split; [done|]. by rewrite app_nil_r.
Qed.

Lemma p_list_sound : sound (p_list sepb p) (list_d sep D).
Proof.
  intros ts l rest H. apply pbind_Ok in H as (x & us & Hx & Hm).
  apply (impl_sound _ _ _ Hp) in Hx as (px & -> & Hx).
  apply (p_more_sound _ _ _ _ _ px) in Hm as (pre & -> & Hl); [|by constructor].
  exists (px ++ pre). by rewrite (assoc_L (++)).
Qed.

(** The elements after the first one, in the order the parser reads them. *)
Inductive tail_d : list token → list A → Prop :=
  | tail_nil : tail_d [] []
  | tail_cons t us x vs xs : sep t → D us x → tail_d vs xs → tail_d (t :: us ++ vs) (x :: xs).

Lemma tail_snoc vs xs t us x : tail_d vs xs → sep t → D us x → tail_d (vs ++ t :: us) (xs ++ [x]).
Proof.
  intros Ht Hs Hx. induction Ht; simpl.
  - rewrite <- (app_nil_r us). by constructor; [| |constructor].
  - rewrite <- (assoc_L (++)). by constructor.
Qed.

Lemma list_head_tail ts l :
  list_d sep D ts l → ∃ us x vs xs, ts = us ++ vs ∧ l = x :: xs ∧ D us x ∧ tail_d vs xs.
Proof.
  induction 1 as [ts x Hx|ts xs t us x _ (us' & x' & vs & xs' & -> & -> & Hx' & Ht) Hs Hx].
  - exists ts, x, [], []. rewrite app_nil_r. split_and!; by try constructor.
  - exists us', x', (vs ++ t :: us), (xs' ++ [x]). rewrite <- (assoc_L (++)). split_and!; try done.
    by apply tail_snoc.
Qed.

Lemma tail_clear vs xs rest :
  tail_d vs xs → clear (λ t, sepb t || K t) rest → clear K (vs ++ rest).
Proof.
  intros [|t us x vs' xs' Hs _ _]; simpl.
  - destruct rest; [done|]. simpl. by intros [??]%orb_false_iff.
  - intros _. by apply HK, Hsep.
Qed.

Lemma p_more_complete vs xs rest acc fuel :
  tail_d vs xs → clear (λ t, sepb t || K t) rest → (length vs < fuel)%nat →
  p_more sepb p acc fuel (vs ++ rest) = Ok (acc ++ xs) rest.
Proof.
  intros Ht. revert acc fuel. induction Ht as [|t us x vs xs Hs Hx Ht IH]; intros acc fuel Hr Hf.
  - destruct fuel as [|fuel]; [simpl in Hf; lia|]. rewrite app_nil_r. cbn [p_more app].
    destruct rest as [|t rest]; [done|]. simpl in Hr. by apply orb_false_iff in Hr as [-> _].
  - destruct fuel as [|fuel]; [simpl in Hf; lia|]. cbn [p_more app].
    rewrite (proj2 (Hsep t) Hs), <- (assoc_L (++)).
    erewrite pbind_run; [|apply (impl_complete _ _ _ Hp); [done|by eapply tail_clear]].
    rewrite IH; [by rewrite <- (assoc_L (++))|done|]. simpl in Hf. rewrite length_app in Hf. lia.
Qed.

Lemma p_list_complete : complete (λ t, sepb t || K t) (p_list sepb p) (list_d sep D).
Proof.
  intros pre l rest Hl Hr. apply list_head_tail in Hl as (us & x & vs & xs & -> & -> & Hx & Ht).
  unfold p_list. rewrite <- (assoc_L (++)).
  erewrite pbind_run; [|apply (impl_complete _ _ _ Hp); [done|by eapply tail_clear]].
  rewrite (p_more_complete vs xs) by (done || rewrite length_app; lia). done.
Qed.

Lemma p_list_impl : implements (λ t, sepb t || K t) (p_list sepb p) (list_d sep D).
Proof. split; [apply p_list_sound|apply p_list_complete]. Qed.

End lists.

(** ** The nonterminals *)

Lemma is_comma_spec t : is_comma t = true ↔ comma t.
Proof. apply bool_decide_eq_true. Qed.


Lemma p_type_impl : implements nothing p_type type_d.
Proof.
  split.
  - intros ts a rest H. unfold p_type in H. inv_runs.
    destruct ts as [|[] ts]; cbn [head] in H; inv_runs; try done.
    + exists [INT]. split; [done|constructor].
    + destruct x0 as [|[] ?]; cbn [head] in *; inv_runs; try done. simpl in *. subst.
      eexists [CHAR; _; _; _]. split; [reflexivity|constructor].
    + exists [FLOAT]. split; [done|constructor].
  - intros pre a rest H _. by inversion H.
Qed.

Lemma p_field_impl : implements nothing p_field field_d.
Proof.
  split.
  - intros ts a rest H. unfold p_field in H. inv_runs.
    from p_type_impl as (pre & -> & Hx).
    eexists (_ :: pre). split; [reflexivity|]. apply (field_def [_]); [constructor|done].
  - intros pre a rest H Hr. inversion H as [us c vs x Hc Hx]; subst. inversion Hc; subst.
    simpl. unfold p_field. erewrite pbind_run by done.
    by erewrite pbind_run by by apply (impl_complete _ _ _ p_type_impl).
Qed.

Lemma p_value_impl : implements nothing p_value value_d.
Proof.
  split.
  - intros ts a rest H. unfold p_value in H. inv_runs.
    destruct ts as [|[] ts]; cbn [head] in H; inv_runs; try done.
    all: eexists [_]; split; [reflexivity|constructor].
  - intros pre a rest H _. by inversion H.
Qed.

Definition is_dot (t : token) : bool := bool_decide (t = tchr ".").

Lemma p_col_impl : implements is_dot p_col col_d.
Proof.
  split.
  - intros ts a rest H. unfold p_col in H. inv_runs.
    case_bool_decide as Hd; inv_runs.
    + destruct x0 as [|t x0]; [discriminate|]. injection Hd as ->. simpl in E. subst x0.
      eexists [_; _; _]. split; [reflexivity|].
      apply (col_tab [_] _ [_]); constructor.
    + eexists [_]. split; [reflexivity|]. by apply col_only.
  - intros pre a rest H Hr. destruct H as [us t vs c Ht Hc|us c Hc]; [inversion Ht; subst; inversion Hc; done|].
    inversion Hc; subst. simpl. unfold p_col. erewrite pbind_run by done. rewrite pbind_peek.
    destruct rest as [|t rest]; [done|]. unfold clear, is_dot in Hr. apply bool_decide_eq_false in Hr.
    cbn [head]. rewrite bool_decide_eq_false_2 by congruence. done.
Qed.

Lemma p_op_impl : implements nothing p_op op_d.
Proof.
  split.
  - intros ts a rest H. unfold p_op in H. inv_runs.
    destruct ts as [|[] ts]; cbn [head] in H; inv_runs; try done.
    all: try (eexists [_]; split; [reflexivity|constructor]; fail).
    destruct (Ascii.eqb_spec c "="); [|destruct (Ascii.eqb_spec c "<"); [|destruct (Ascii.eqb_spec c ">"); [|done]]].
    all: subst; inv_runs; eexists [_]; split; [reflexivity|constructor].
  - intros pre a rest H _. by inversion H.
Qed.

Lemma p_expr_impl : implements is_dot p_expr expr_d.
Proof.
  split.
  - intros ts a rest H. unfold p_expr in H. inv_runs.
    assert (Hv : ∀ us, pbind p_value (λ v, pret (ValueExpr v)) us = Ok a rest →
                 ∃ pre, us = pre ++ rest ∧ expr_d pre a).
    { intros us Hus. inv_runs. from p_value_impl as (pre & -> & Hv). exists pre. split; [done|by constructor]. }
    destruct ts as [|[] ts]; cbn [head] in H; try by apply Hv.
    inv_runs. from p_col_impl as (pre & -> & Hc). exists pre. split; [done|by constructor].
  - intros pre a rest H Hr. destruct H as [us v Hv|us c Hc].
    + pose proof (impl_complete _ _ _ p_value_impl us v rest Hv (clear_nothing rest)) as Hrun.
      by inversion Hv; subst; unfold p_expr; rewrite pbind_peek; cbn [head app] in *; rewrite (pbind_run _ _ _ _ _ Hrun).
    + pose proof (impl_complete _ _ _ p_col_impl us c rest Hc Hr) as Hrun.
      assert (∃ s us', us = IDENTIFIER s :: us') as (s & us' & ->).
      { destruct Hc as [? ? ? ? Ht|? ? Ht]; inversion Ht; subst; simpl; eauto. }
      unfold p_expr. rewrite pbind_peek. cbn [head app] in *. by rewrite (pbind_run _ _ _ _ _ Hrun).
Qed.

Lemma p_condition_impl : implements is_dot p_condition condition_d.
Proof.
  split.
  - intros ts a rest H. unfold p_condition in H. inv_runs.
    from p_col_impl as (us & -> & Hc).
    from p_op_impl as (vs & -> & Ho).
    from p_expr_impl as (ws & -> & He).
    exists (us ++ vs ++ ws). rewrite <- !(assoc_L (++)). split; [done|by constructor].
  - intros pre a rest H Hr. destruct H as [us c vs o ws e Hc Ho He]. rewrite <- !(assoc_L (++)).
    unfold p_condition.
    erewrite pbind_run.
    2:{ apply (impl_complete _ _ _ p_col_impl); [done|]. by inversion Ho. }
    erewrite pbind_run by by apply (impl_complete _ _ _ p_op_impl).
    by erewrite pbind_run by by apply (impl_complete _ _ _ p_expr_impl).
Qed.

Lemma p_setClause_impl : implements nothing p_setClause setClause_d.
Proof.
  split.
  - intros ts a rest H. unfold p_setClause in H. inv_runs.
    from p_value_impl as (vs & -> & Hv).
    eexists (_ :: _ :: vs). split; [reflexivity|]. apply (set_value [_]); [constructor|done].
  - intros pre a rest H _. destruct H as [us c vs v Hc Hv]. inversion Hc; subst. simpl.
    unfold p_setClause. erewrite pbind_run by done. erewrite pbind_run by apply expect_run.
    by erewrite pbind_run by by apply (impl_complete _ _ _ p_value_impl).
Qed.

Lemma impl_weaken {A} (K K' : token → bool) (p : P A) D :
  implements K p D → (∀ t, K' t = false → K t = false) → implements K' p D.
Proof.
  intros [Hs Hc] HK. split; [done|]. intros pre a rest Hd Hr. apply Hc; [done|].
  destruct rest as [|t rest]; [done|]. by apply HK.
Qed.

Lemma p_fieldList_impl : implements is_comma (p_list is_comma p_field) fieldList_d.
Proof.
  eapply impl_weaken; [by apply p_list_impl; [apply is_comma_spec|apply p_field_impl|]|].
  intros t Ht. cbn beta. by rewrite Ht.
Qed.

Lemma p_valueList_impl : implements is_comma (p_list is_comma p_value) valueList_d.
Proof.
  eapply impl_weaken; [by apply p_list_impl; [apply is_comma_spec|apply p_value_impl|]|].
  intros t Ht. cbn beta. by rewrite Ht.
Qed.

Lemma p_setClauses_impl : implements is_comma (p_list is_comma p_setClause) setClauses_d.
Proof.
  eapply impl_weaken; [by apply p_list_impl; [apply is_comma_spec|apply p_setClause_impl|]|].
  intros t Ht. cbn beta. by rewrite Ht.
Qed.

Lemma p_tableList_impl : implements (λ t, is_comma t || bool_decide (t = JOIN)) p_tableList tableList_d.
Proof.
  eapply impl_weaken; [apply p_list_impl; [|apply p_id_impl|done]|].
  - intros t. rewrite orb_true_iff, is_comma_spec, bool_decide_eq_true. done.
  - intros t Ht. cbn beta in *. by rewrite Ht.
Qed.

Lemma p_colList_impl : implements (λ t, is_comma t || is_dot t) (p_list is_comma p_col) colList_d.
Proof.
  apply p_list_impl; [apply is_comma_spec|apply p_col_impl|].
  intros t ->%is_comma_spec. done.
Qed.

Lemma p_whereClause_impl :
  implements (λ t, bool_decide (t = AND) || is_dot t)
    (p_list (λ t, bool_decide (t = AND)) p_condition) whereClause_d.
Proof.
  apply p_list_impl; [|apply p_condition_impl|].
  - intros t. rewrite bool_decide_eq_true. done.
  - intros t ->%bool_decide_eq_true. done.
Qed.

(** Everything may go on until the semicolon. *)
Definition goes_on (t : token) : bool := negb (bool_decide (t = tchr ";")).

Lemma goes_on_false t : goes_on t = false ↔ t = tchr ";".
Proof. unfold goes_on. by rewrite negb_false_iff, bool_decide_eq_true. Qed.

Lemma p_optWhereClause_impl : implements goes_on p_optWhereClause optWhereClause_d.
Proof.
  split.
  - intros ts a rest H. unfold p_optWhereClause in H. inv_runs. case_bool_decide as Hw; inv_runs.
    + destruct ts as [|t ts]; [done|]. injection Hw as ->. simpl in H.
      from p_whereClause_impl as (pre & -> & Hl). exists (WHERE :: pre). split; [done|by constructor].
    + exists []. split; [done|constructor].
  - intros pre a rest H Hr. unfold p_optWhereClause. rewrite pbind_peek.
    destruct H as [|us l Hl]; simpl.
    + destruct rest as [|t rest]; [done|]. apply goes_on_false in Hr as ->. done.
    + rewrite pbind_skip. simpl. apply (impl_complete _ _ _ p_whereClause_impl); [done|].
      destruct rest as [|t rest]; [done|]. by apply goes_on_false in Hr as ->.
Qed.

Lemma p_selector_impl : implements (λ t, is_comma t || is_dot t) p_selector selector_d.
Proof.
  split.
  - intros ts a rest H. unfold p_selector in H. inv_runs. case_bool_decide as Hw; inv_runs.
    + destruct ts as [|t ts]; [done|]. injection Hw as ->. simpl. exists [tchr "*"]. split; [done|constructor].
    + from p_colList_impl as (pre & -> & Hl). exists pre. split; [done|by constructor].
  - intros pre a rest H Hr. unfold p_selector. rewrite pbind_peek.
    destruct H as [|us l Hl]; [done|].
    assert (∃ s us', us = IDENTIFIER s :: us') as (s & us' & ->).
    { apply list_head_tail in Hl as (us1 & x & vs & xs & -> & _ & Hx & _).
      destruct Hx as [? ? ? ? Ht|? ? Ht]; inversion Ht; subst; simpl; eauto. }
    simpl. by apply (impl_complete _ _ _ p_colList_impl (_ :: _)).
Qed.

(** ** Statements *)

Lemma p_stmt_sound : sound p_stmt stmt_d.
Proof.
  intros ts a rest H. unfold p_stmt in H. inv_runs.
  destruct ts as [|[] ts]; cbn [head] in H; inv_runs; try done.
  - eexists [_; _]. split; [reflexivity|]. apply stmt_db. constructor.
  - destruct ts as [|[] ts]; cbn [head tail] in *; inv_runs; try done; try subst.
    + from p_fieldList_impl as (vs & -> & Hl). eexists (_ :: _ :: [_] ++ _ :: vs ++ [_]).
      simpl. rewrite <- (assoc_L (++)). split; [reflexivity|].
      apply stmt_ddl, (ddl_create_table [_]); [constructor|done].
    + eexists [_; _; _; _; _; _]. split; [reflexivity|].
      apply stmt_ddl, (ddl_create_index [_] _ [_]); constructor.
  - destruct ts as [|[] ts]; cbn [head tail] in *; inv_runs; try done; try subst.
    + eexists [_; _; _]. split; [reflexivity|]. apply stmt_ddl. do 2 constructor.
    + eexists [_; _; _; _; _; _]. split; [reflexivity|].
      apply stmt_ddl, (ddl_drop_index [_] _ [_]); constructor.
  - eexists [_; _]. split; [reflexivity|]. apply stmt_ddl. do 2 constructor.
  - from p_valueList_impl as (vs & -> & Hl). eexists (_ :: _ :: [_] ++ _ :: _ :: vs ++ [_]).
    simpl. rewrite <- (assoc_L (++)). split; [reflexivity|].
    apply stmt_dml, (dml_insert [_]); [constructor|done].
  - from p_optWhereClause_impl as (vs & -> & Hl). eexists (_ :: _ :: [_] ++ vs). split; [reflexivity|].
    apply stmt_dml, dml_delete; [constructor|done].
  - from p_optWhereClause_impl as (ws & -> & Hm). from p_setClauses_impl as (vs & -> & Hl).
    eexists (_ :: [_] ++ _ :: vs ++ ws). simpl. rewrite <- (assoc_L (++)). split; [reflexivity|].
    apply stmt_dml, (dml_update [_]); [constructor|done|done].
  - from p_optWhereClause_impl as (ws & -> & Hm). from p_tableList_impl as (vs & -> & Hl).
    from p_selector_impl as (us & -> & Hs).
    exists (SELECT :: us ++ FROM :: vs ++ ws). simpl. rewrite <- !(assoc_L (++)). simpl.
    rewrite <- !(assoc_L (++)). split; [reflexivity|]. by apply stmt_dml, dml_select.
  - eexists [_]. split; [reflexivity|]. apply stmt_txn. constructor.
  - eexists [_]. split; [reflexivity|]. apply stmt_txn. constructor.
  - eexists [_]. split; [reflexivity|]. apply stmt_txn. constructor.
  - eexists [_]. split; [reflexivity|]. apply stmt_txn. constructor.
Qed.

Lemma opt_clear K ws m rest :
  optWhereClause_d ws m → clear goes_on rest → K WHERE = false → K (tchr ";") = false →
  clear K (ws ++ rest).
Proof.
  intros [|us l _] Hr HW Hs; simpl; [|done]. destruct rest as [|t rest]; [done|].
  by apply goes_on_false in Hr as ->.
Qed.

(** Runs the parser on tokens that are known. *)
Ltac go :=
  repeat first
    [ rewrite pbind_peek; cbn [head]
    | rewrite pbind_skip; cbn [tail]
    | erewrite pbind_run by apply expect_run
    | erewrite pbind_run by (unfold p_id; reflexivity) ].

Lemma p_stmt_complete : complete goes_on p_stmt stmt_d.
Proof.
  intros pre a rest H Hr. unfold p_stmt. rewrite pbind_peek.
  destruct H as [us x H|us x H|us x H|us x H].
  - by inversion H.
  - destruct H as [us t vs l Ht Hl|us t Ht|us t Ht|us t vs c Ht Hc|us t vs c Ht Hc];
      inversion Ht; subst; try (inversion Hc; subst); cbn [app head]; go; try done.
    rewrite <- (assoc_L (++)).
    erewrite pbind_run by by apply (impl_complete _ _ _ p_fieldList_impl). by go.
  - destruct H as [us t vs l Ht Hl|us t vs l Ht Hl|us t vs l ws m Ht Hl Hm|us cs vs ts ws m Hs Hl Hm].
    + inversion Ht; subst. cbn [app head]. go. rewrite <- (assoc_L (++)).
      erewrite pbind_run by by apply (impl_complete _ _ _ p_valueList_impl). by go.
    + inversion Ht; subst. cbn [app head]. go.
      by erewrite pbind_run by by apply (impl_complete _ _ _ p_optWhereClause_impl).
    + inversion Ht; subst. cbn [app head]. go. rewrite <- (assoc_L (++)).
      erewrite pbind_run.
      2:{ apply (impl_complete _ _ _ p_setClauses_impl); [done|]. by eapply opt_clear. }
      by erewrite pbind_run by by apply (impl_complete _ _ _ p_optWhereClause_impl).
    + cbn [app head]. go. rewrite <- (assoc_L (++)). cbn [app].
      erewrite pbind_run by by apply (impl_complete _ _ _ p_selector_impl). go.
      rewrite <- (assoc_L (++)).
      erewrite pbind_run.
      2:{ apply (impl_complete _ _ _ p_tableList_impl); [done|]. by eapply opt_clear. }
      by erewrite pbind_run by by apply (impl_complete _ _ _ p_optWhereClause_impl).
  - by inversion H.
Qed.

Lemma p_start_sound : sound p_start start_d.
Proof.
  intros ts a rest H. unfold p_start in H. inv_runs.
  assert (Hstmt : ∀ us, pbind p_stmt (λ x, pbind (expect (tchr ";")) (λ _, pret (Some x))) us = Ok a rest →
            ∃ pre, us = pre ++ rest ∧ start_d pre a).
  { intros us Hus. inv_runs. match goal with R : p_stmt _ = Ok _ _ |- _ => apply p_stmt_sound in R as (pre & -> & Hx) end.
    exists (pre ++ [tchr ";"]). rewrite <- (assoc_L (++)). split; [done|by constructor]. }
  destruct ts as [|[] ts]; cbn [head] in H; try by apply Hstmt.
  all: inv_runs; eexists [_]; split; [reflexivity|constructor].
Qed.

(** A statement starts with a keyword of its own. *)
Lemma stmt_head us x : stmt_d us x → ∃ t vs, us = t :: vs ∧ t ≠ HELP ∧ t ≠ EXIT ∧ t ≠ T_EOF.
Proof. by intros [? ? []|? ? []|? ? []|? ? []]; eexists _, _; split_and!. Qed.

Lemma p_start_complete : complete nothing p_start start_d.
Proof.
  intros pre a rest H _. destruct H as [us x H| | |]; [|done..].
  rewrite <- (assoc_L (++)). cbn [app]. unfold p_start. rewrite pbind_peek.
  pose proof (p_stmt_complete us x (tchr ";" :: rest) H eq_refl) as Hrun.
  destruct (stmt_head us x H) as (t & vs & -> & Ht). cbn [app head] in *.
  assert (pbind p_stmt (λ x, pbind (expect (tchr ";")) (λ _, pret (Some x))) (t :: vs ++ tchr ";" :: rest)
          = Ok (Some x) rest) as Hgoal.
  { erewrite pbind_run by exact Hrun. by go. }
  destruct t; try exact Hgoal; tauto.
Qed.

(** C20: The parser accepts exactly what the grammar derives: it gives the tree [tree] and leaves the
    tokens [rest] if and only if the tokens before [rest] are a derivation of [tree]; nothing after
    them is looked at.  So the grammar is not ambiguous, and no derivation is the beginning of
    another one. *)
Theorem parser_accepts_grammar ts :
  (∀ tree rest, p_start ts = Ok tree rest ↔ ∃ pre, ts = pre ++ rest ∧ start_d pre tree) ∧
  (∀ pre1 pre2 rest1 rest2 x1 x2, ts = pre1 ++ rest1 → ts = pre2 ++ rest2 →
     start_d pre1 x1 → start_d pre2 x2 → pre1 = pre2 ∧ x1 = x2).
Proof.
  assert (∀ tree rest, p_start ts = Ok tree rest ↔ ∃ pre, ts = pre ++ rest ∧ start_d pre tree) as Hiff.
  { intros tree rest. split; [apply p_start_sound|]. intros (pre & -> & H). by apply p_start_complete. }
  split; [done|]. intros pre1 pre2 rest1 rest2 x1 x2 H1 H2 Hx1 Hx2.
  assert (p_start ts = Ok x1 rest1) as R1 by (apply Hiff; eauto).
  assert (p_start ts = Ok x2 rest2) as R2 by (apply Hiff; eauto).
  rewrite R1 in R2. injection R2 as -> ->. split; [|done]. subst. by apply app_inv_tail in H2.
Qed.
