(* ===== verification/ParserThms.v ===== *)
(** The parser on the text of statements: writing a statement and parsing it
    gives the statement back.  An open comment swallows what follows it, in this
    text and in the next ones. *)
From Stdlib Require Import Ascii.
From S2P Require Import Prelude.
From S2P Require Import SmMeta.
From S2P Require Import Regex.
From S2P Require Import Lexer.
From S2P Require Import LexerThms.
From S2P Require Import TokenText.
From S2P Require Import Ast.
From S2P Require Import Grammar.
From S2P Require Import GrammarThms.
Import ast.

(** ** The tokens of a statement *)

Definition sep_by (s : token) (l : list (list token)) : list token :=
  match l with [] => [] | x :: l' => x ++ (l' ≫= λ y, s :: y) end.

Definition commas (l : list (list token)) : list token := sep_by (tchr ",") l.

Definition type_tokens (x : TypeLen) : list token :=
  match tl_type x with
  | SV_TYPE_INT => [INT]
  | SV_TYPE_FLOAT => [FLOAT]
  | SV_TYPE_STRING => [CHAR; tchr "("; VALUE_INT (tl_len x); tchr ")"]
  end.

Definition field_tokens (f : Field) : list token :=
  match f with ColDef c x => IDENTIFIER c :: type_tokens x | BareField => [] end.

Definition value_tokens (v : Value) : list token :=
  match v with
  | IntLit n => [VALUE_INT n]
  | FloatLit f => [VALUE_FLOAT f]
  | StringLit s => [VALUE_STRING s]
  | BareValue => []
  end.

Definition col_tokens (c : Col) : list token :=
  if is_empty (col_tab_name c) then [IDENTIFIER (col_col_name c)]
  else [IDENTIFIER (col_tab_name c); tchr "."; IDENTIFIER (col_col_name c)].

Definition op_token (o : SvCompOp) : token :=
  match o with
  | SV_OP_EQ => tchr "=" | SV_OP_LT => tchr "<" | SV_OP_GT => tchr ">"
  | SV_OP_NE => NEQ | SV_OP_LE => LEQ | SV_OP_GE => GEQ
  end.

Definition expr_tokens (e : Expr) : list token :=
  match e with ValueExpr v => value_tokens v | ColExpr c => col_tokens c | BareExpr => [] end.

Definition cond_tokens (b : BinaryExpr) : list token := col_tokens (lhs b) ++ op_token (op b) :: expr_tokens (rhs b).

Definition where_tokens (l : list BinaryExpr) : list token :=
  match l with [] => [] | _ => WHERE :: sep_by AND (map cond_tokens l) end.

Definition set_tokens (c : SetClause) : list token :=
  IDENTIFIER (set_col_name c) :: tchr "=" :: value_tokens (set_val c).

Definition in_parens (l : list token) : list token := tchr "(" :: l ++ [tchr ")"].

Definition stmt_tokens (x : TreeNode) : list token :=
  match x with
  | ShowTables => [SHOW; TABLES]
  | TxnBegin => [TXN_BEGIN]
  | TxnCommit => [TXN_COMMIT]
  | TxnAbort => [TXN_ABORT]
  | TxnRollback => [TXN_ROLLBACK]
  | CreateTable t l => CREATE :: TABLE :: IDENTIFIER t :: in_parens (commas (map field_tokens l))
  | DropTable t => [DROP; TABLE; IDENTIFIER t]
  | DescTable t => [DESC; IDENTIFIER t]
  | CreateIndex t c => CREATE :: INDEX :: IDENTIFIER t :: in_parens [IDENTIFIER c]
  | DropIndex t c => DROP :: INDEX :: IDENTIFIER t :: in_parens [IDENTIFIER c]
  | InsertStmt t l => INSERT :: INTO :: IDENTIFIER t :: VALUES :: in_parens (commas (map value_tokens l))
  | DeleteStmt t l => DELETE :: FROM :: IDENTIFIER t :: where_tokens l
  | UpdateStmt t l m => UPDATE :: IDENTIFIER t :: SET :: commas (map set_tokens l) ++ where_tokens m
  | SelectStmt cs ts m =>
      SELECT :: (match cs with [] => [tchr "*"] | _ => commas (map col_tokens cs) end)
      ++ FROM :: commas (map (λ t, [IDENTIFIER t]) ts) ++ where_tokens m
  | _ => []
  end.

(** What the grammar can build: no bare nodes, the lengths of [INT] and [FLOAT],
    and something in every list but those of [SELECT *] and of the conditions. *)
Definition type_ok (x : TypeLen) : Prop := tl_type x = SV_TYPE_STRING ∨ tl_len x = 4.
Definition field_ok (f : Field) : Prop := match f with ColDef _ x => type_ok x | BareField => False end.
Definition value_ok (v : Value) : Prop := v ≠ BareValue.
Definition expr_ok (e : Expr) : Prop := match e with ValueExpr v => value_ok v | ColExpr _ => True | _ => False end.

Definition stmt_ok (x : TreeNode) : Prop :=
  match x with
  | ShowTables | TxnBegin | TxnCommit | TxnAbort | TxnRollback
  | DropTable _ | DescTable _ | CreateIndex _ _ | DropIndex _ _ => True
  | CreateTable _ l => l ≠ [] ∧ Forall field_ok l
  | InsertStmt _ l => l ≠ [] ∧ Forall value_ok l
  | DeleteStmt _ l => Forall (λ b, expr_ok (rhs b)) l
  | UpdateStmt _ l m => l ≠ [] ∧ Forall (λ c, value_ok (set_val c)) l ∧ Forall (λ b, expr_ok (rhs b)) m
  | SelectStmt _ ts m => ts ≠ [] ∧ Forall (λ b, expr_ok (rhs b)) m
  | _ => False
  end.

(** ** Their derivations *)

Lemma sep_by_snoc s l x : l ≠ [] → sep_by s (l ++ [x]) = sep_by s l ++ s :: x.
Proof. destruct l as [|y l]; [done|]. intros _. simpl. by rewrite bind_app, bind_singleton, (assoc_L (++)). Qed.

Lemma list_d_map {A} (sep : token → Prop) D (f : A → list token) s l :
  sep s → l ≠ [] → Forall (λ x, D (f x) x) l → list_d sep D (sep_by s (map f l)) l.
Proof.
  intros Hs. induction l as [|x l IH] using rev_ind; [done|]. intros _ Hall.
  apply Forall_app in Hall as [Hl Hx]. inversion Hx; subst. rewrite map_app. destruct (decide (l = [])) as [->|Hne].
  - simpl. rewrite app_nil_r. by constructor.
  - simpl. rewrite sep_by_snoc by (by destruct l). by constructor; [apply IH| |].
Qed.

Lemma field_tokens_d f : field_ok f → field_d (field_tokens f) f.
Proof.
  destruct f as [c [ty n]|]; [|done]. intros Ht. apply (field_def [_]); [constructor|].
  unfold type_tokens. simpl in *. destruct Ht as [Ht|Ht]; simpl in Ht; subst; [constructor|].
  destruct ty; constructor.
Qed.

Lemma value_tokens_d v : value_ok v → value_d (value_tokens v) v.
Proof. destruct v; intros Hv; [..|done]; cbn [value_tokens]; constructor. Qed.

Lemma col_tokens_d c : col_d (col_tokens c) c.
Proof.
  destruct c as [t c]. unfold col_tokens. simpl. destruct t as [|a t]; simpl.
  - apply col_only. constructor.
  - apply (col_tab [_] _ [_]); constructor.
Qed.

Lemma cond_tokens_d b : expr_ok (rhs b) → condition_d (cond_tokens b) b.
Proof.
  destruct b as [c o e]. unfold cond_tokens. simpl. intros He.
  apply (condition_op _ _ [_]); [apply col_tokens_d|destruct o; constructor|].
  destruct e; [|constructor; apply col_tokens_d|done]. constructor. by apply value_tokens_d.
Qed.

Lemma where_tokens_d l : Forall (λ b, expr_ok (rhs b)) l → optWhereClause_d (where_tokens l) l.
Proof.
  destruct l as [|b l]; [constructor|]. intros Hl. constructor. apply list_d_map; [done|done|].
  eapply Forall_impl; [exact Hl|]. intros. by apply cond_tokens_d.
Qed.

Lemma set_tokens_d c : value_ok (set_val c) → setClause_d (set_tokens c) c.
Proof. destruct c as [c v]. intros Hv. apply (set_value [_]); [constructor|by apply value_tokens_d]. Qed.

Lemma stmt_tokens_d x : stmt_ok x → stmt_d (stmt_tokens x) x.
Proof.
  destruct x; try done; intros Hok; unfold stmt_tokens.
  - apply stmt_db. constructor.
  - apply stmt_txn. constructor.
  - apply stmt_txn. constructor.
  - apply stmt_txn. constructor.
  - apply stmt_txn. constructor.
  - destruct Hok as [Hne Hl]. apply stmt_ddl, (ddl_create_table [_]); [constructor|].
    apply list_d_map; [done|done|]. eapply Forall_impl; [exact Hl|]. apply field_tokens_d.
  - apply stmt_ddl. do 2 constructor.
  - apply stmt_ddl. do 2 constructor.
  - apply stmt_ddl, (ddl_create_index [_] _ [_]); constructor.
  - apply stmt_ddl, (ddl_drop_index [_] _ [_]); constructor.
  - destruct Hok as [Hne Hl]. apply stmt_dml, (dml_insert [_]); [constructor|].
    apply list_d_map; [done|done|]. eapply Forall_impl; [exact Hl|]. apply value_tokens_d.
  - apply stmt_dml, (dml_delete [_]); [constructor|]. by apply where_tokens_d.
  - destruct Hok as (Hne & Hl & Hm). apply stmt_dml, (dml_update [_]); [constructor| |by apply where_tokens_d].
    apply list_d_map; [done|done|]. eapply Forall_impl; [exact Hl|]. apply set_tokens_d.
  - destruct Hok as (Hne & Hm). apply stmt_dml, dml_select; [| |by apply where_tokens_d].
    + destruct cols as [|c cols]; [constructor|]. apply selector_cols, list_d_map; [done|done|].
      apply Forall_forall. intros y _. apply col_tokens_d.
    + apply list_d_map; [by left|done|]. apply Forall_forall. constructor.
Qed.

(** ** Their text *)

Section roundtrip.
  Context (atof : string → Z) (write_float : Z → chars).

(** The text of a statement, a blank before each token. *)
Definition sql (x : TreeNode) : chars := line write_float (stmt_tokens x) ++ [" "; ";"]%char.

Lemma yyparse_line ts tree tail :
  Forall (writable atof write_float) ts → start_d (ts ++ [tchr ";"]) tree →
  yyparse atof (mkLexer INITIAL (line write_float ts ++ " "%char :: ";"%char :: tail))
  = Some (Accepted tree, mkLexer INITIAL tail).
Proof.
  intros Hw Hd. unfold yyparse.
  destruct (tokens_line atof write_float ts tail
              (lex_fuel (mkLexer INITIAL (line write_float ts ++ " "%char :: ";"%char :: tail))))
    as (spine & more & Htok & Hmap & Hlast); [done|unfold lex_fuel; simpl; lia|].
  rewrite Htok. cbn [mbind option_bind]. rewrite map_app, Hmap.
  rewrite (p_start_complete _ _ (map fst more) Hd (clear_nothing _)).
  rewrite length_app, length_map, Nat.add_sub, take_app_length, Hlast. done.
Qed.

Lemma sql_roundtrip_ok x tail :
  stmt_ok x → Forall (writable atof write_float) (stmt_tokens x) →
  yyparse atof (mkLexer INITIAL (sql x ++ tail)) = Some (Accepted (Some x), mkLexer INITIAL tail).
Proof.
  intros Hok Hw. unfold sql. rewrite <- (assoc_L (++)). apply yyparse_line; [done|].
  constructor. by apply stmt_tokens_d.
Qed.

(** C19: Parsing what was written gives the statement back: for every statement the grammar can build,
    with names that are no keywords, integers in the range of [int], strings without a quote and
    numbers [atof] reads back, [yyparse] on its text accepts with exactly this tree, whatever text
    follows the semicolon: what follows is not even scanned. *)
Theorem sql_roundtrip x tail :
  stmt_ok x → Forall (writable atof write_float) (stmt_tokens x) →
  yyparse atof (mkLexer INITIAL (sql x ++ tail)) = Some (Accepted (Some x), mkLexer INITIAL tail).
Proof. apply sql_roundtrip_ok. Qed.

End roundtrip.

(** ** Comments *)

(** The text holds the end of a comment. *)
Fixpoint closes (s : chars) : bool :=
  match s with
  | c :: s' => (match s' with d :: _ => (c =? "*")%char && (d =? "/")%char | [] => false end) || closes s'
  | [] => false
  end.

Lemma pick_comment c s :
  closes (c :: s) = false → pick STATE_COMMENT (c :: s) rules = Some (1%nat, IGNORE).
Proof.
  intros Hc. simpl in Hc. apply orb_false_iff in Hc as [Hc _].
  destruct (Ascii.eqb_spec c "*") as [->|Hne].
  - destruct s as [|d s]; [vm_compute; reflexivity|]. simpl in Hc.
    destruct d as [[] [] [] [] [] [] [] []]; try discriminate Hc; vm_compute; reflexivity.
  - destruct s as [|d s]; destruct c as [[] [] [] [] [] [] [] []]; try done; vm_compute; reflexivity.
Qed.

Section comments.
  Context (atof : string → Z).

Lemma yylex_comment fuel s :
  closes s = false → (length s < fuel)%nat →
  yylex atof fuel (mkLexer STATE_COMMENT s) = Some (T_EOF, mkLexer STATE_COMMENT []).
Proof.
  revert s. induction fuel as [|fuel IH]; intros s Hs Hf; [lia|]. cbn [yylex yy_rest].
  destruct s as [|c s]; [done|]. unfold scan_step. cbn [yy_start yy_rest]. rewrite pick_comment by done.
  cbn [run_action start_after drop]. rewrite drop_0. apply IH; [|simpl in Hf; lia].
  simpl in Hs. by apply orb_false_iff in Hs as [_ ?].
Qed.

Lemma yyparse_comment s :
  closes s = false →
  yyparse atof (mkLexer STATE_COMMENT s) = Some (Accepted None, mkLexer STATE_COMMENT []).
Proof.
  intros Hs. unfold yyparse, lex_fuel. cbn [yy_rest tokens]. unfold lex_fuel. cbn [yy_rest].
  rewrite yylex_comment by (done || lia). done.
Qed.

Lemma pick_open s : pick INITIAL ("/"%char :: "*"%char :: s) rules = Some (2%nat, BEGIN STATE_COMMENT).
Proof. destruct s; vm_compute; reflexivity. Qed.

Lemma yylex_open fuel s :
  closes s = false → (length s < fuel)%nat →
  yylex atof (S fuel) (mkLexer INITIAL ("/"%char :: "*"%char :: s)) = Some (T_EOF, mkLexer STATE_COMMENT []).
Proof.
  intros Hs Hf. rewrite <- (yylex_comment fuel s) by done. cbn [yylex yy_rest].
  assert (scan_step atof (mkLexer INITIAL ("/"%char :: "*"%char :: s)) = (None, mkLexer STATE_COMMENT s)) as ->.
  { unfold scan_step. cbn [yy_start yy_rest]. by rewrite pick_open. }
  done.
Qed.

Lemma yyparse_open s :
  closes s = false →
  yyparse atof (mkLexer INITIAL ("/"%char :: "*"%char :: s)) = Some (Accepted None, mkLexer STATE_COMMENT []).
Proof.
  intros Hs. unfold yyparse, lex_fuel. cbn [yy_rest length tokens]. unfold lex_fuel. cbn [yy_rest length].
  rewrite yylex_open by (done || lia). done.
Qed.

End comments.

(** ** Witness *)

Definition demo_select : TreeNode :=
  SelectStmt [mkCol "" "name"; mkCol "grade" "score"] ["student"; "grade"]%string
    [mkBinaryExpr (mkCol "student" "id") SV_OP_EQ (ColExpr (mkCol "grade" "sid"));
     mkBinaryExpr (mkCol "" "score") SV_OP_GE (ValueExpr (FloatLit 1119092736));
     mkBinaryExpr (mkCol "" "name") SV_OP_NE (ValueExpr (StringLit "it is -- here"));
     mkBinaryExpr (mkCol "" "age") SV_OP_LT (ValueExpr (IntLit (-7)))].

(** 90.0 *)
Definition demo_write (f : Z) : chars := ["9"; "0"; "."; "0"]%char.
Definition demo_atof (s : string) : Z := if bool_decide (s = "90.0"%string) then 1119092736 else 0.

Lemma sql_roundtrip_witness :
  yyparse demo_atof (mkLexer INITIAL (sql demo_write demo_select ++ [" "; "?"]%char))
  = Some (Accepted (Some demo_select), mkLexer INITIAL [" "; "?"]%char).
Proof.
  apply (sql_roundtrip demo_atof demo_write demo_select).
  - split; [done|]. repeat constructor; done.
  - repeat constructor; try (vm_compute; repeat constructor; fail); [|vm_compute; discriminate].
    exists "9"%char, ["0"]%char, ["0"]%char. split_and!; [done|by repeat constructor..|by left].
Defined.
