(* ===== verification/ScanTables.v ===== *)
(** The scanner as it is committed, [src/src/parser/lex.yy.cpp]: the tables flex
    made of [lex.l] and the code that runs them.

    The text is the buffer [yy_ch_buf] with its two end-of-buffer characters, and
    pointers into it are positions.  [yy_hold_char] and the NUL written behind the
    token are left out: the code restores the character before it looks at the
    buffer again, and [yytext] is the part of the buffer between [yytext_ptr] and
    the end of the match.  The buffer comes from [yy_scan_string], so
    [yy_fill_buffer] is 0 and [yy_get_next_buffer] never reads more text.
    Reads outside a table or the buffer are [None]. *)
From Stdlib Require Import Ascii.
From S2P Require Import Prelude.
From S2P Require Import Regex.
From S2P Require Import Lexer.

Module ScanTables.

(** ** Tables *)

Definition yy_accept : list Z :=
  [0; 0; 0; 0; 0; 45; 43; 6; 7; 7; 43; 38; 43; 43; 43; 40; 38; 38; 39; 39; 39; 39; 39; 39; 39;
   39; 39; 39; 39; 39; 39; 39; 39; 39; 3; 4; 6; 7; 0; 42; 40; 5; 1; 41; 36; 37; 35; 39; 39; 39;
   39; 39; 39; 39; 39; 39; 39; 39; 39; 39; 39; 39; 39; 39; 39; 39; 39; 39; 39; 2; 5; 41; 39; 31;
   39; 39; 39; 39; 39; 39; 39; 39; 39; 39; 39; 39; 39; 27; 39; 39; 39; 25; 39; 39; 39; 39; 39;
   39; 39; 28; 39; 39; 39; 17; 16; 33; 39; 22; 34; 39; 39; 19; 32; 39; 39; 8; 39; 39; 39; 39; 11;
   9; 39; 39; 39; 29; 30; 39; 39; 39; 15; 39; 39; 23; 10; 14; 21; 18; 39; 26; 13; 24; 20; 39; 12;
   0].

Definition yy_ec : list Z :=
  [0; 1; 1; 1; 1; 1; 1; 1; 1; 2; 3; 1; 1; 4; 1; 1; 1; 1; 1; 1; 1; 1; 1; 1; 1; 1; 1; 1; 1; 1; 1;
   1; 2; 1; 1; 1; 1; 1; 1; 5; 6; 7; 8; 9; 10; 11; 12; 13; 14; 14; 14; 14; 14; 14; 14; 14; 14; 14;
   1; 15; 16; 17; 18; 1; 1; 19; 20; 21; 22; 23; 24; 25; 26; 27; 28; 29; 30; 31; 32; 33; 34; 35;
   36; 37; 38; 39; 40; 41; 42; 35; 35; 1; 1; 1; 1; 43; 1; 44; 45; 46; 47; 48; 49; 50; 51; 52; 53;
   54; 55; 56; 57; 58; 59; 35; 60; 61; 62; 63; 64; 65; 66; 35; 35; 1; 1; 1; 1; 1; 1; 1; 1; 1; 1;
   1; 1; 1; 1; 1; 1; 1; 1; 1; 1; 1; 1; 1; 1; 1; 1; 1; 1; 1; 1; 1; 1; 1; 1; 1; 1; 1; 1; 1; 1; 1;
   1; 1; 1; 1; 1; 1; 1; 1; 1; 1; 1; 1; 1; 1; 1; 1; 1; 1; 1; 1; 1; 1; 1; 1; 1; 1; 1; 1; 1; 1; 1;
   1; 1; 1; 1; 1; 1; 1; 1; 1; 1; 1; 1; 1; 1; 1; 1; 1; 1; 1; 1; 1; 1; 1; 1; 1; 1; 1; 1; 1; 1; 1;
   1; 1; 1; 1; 1; 1; 1; 1; 1; 1; 1; 1; 1; 1; 1; 1; 1; 1; 1; 1; 1; 1; 1; 1; 1; 1; 1; 1; 1; 1].

Definition yy_meta : list Z :=
  [0; 1; 1; 2; 1; 1; 1; 1; 1; 1; 1; 1; 1; 1; 3; 1; 1; 1; 1; 3; 3; 3; 3; 3; 3; 3; 3; 3; 3; 3; 3;
   3; 3; 3; 3; 3; 3; 3; 3; 3; 3; 3; 3; 3; 3; 3; 3; 3; 3; 3; 3; 3; 3; 3; 3; 3; 3; 3; 3; 3; 3; 3;
   3; 3; 3; 3; 3].

Definition yy_base : list Z :=
  [0; 0; 0; 267; 266; 272; 290; 268; 290; 263; 257; 290; 247; 56; 252; 57; 55; 240; 48; 51; 49;
   53; 36; 51; 0; 56; 51; 57; 58; 69; 75; 62; 78; 72; 290; 227; 145; 290; 129; 290; 72; 0; 290;
   117; 290; 290; 290; 0; 70; 88; 87; 95; 87; 101; 95; 93; 100; 96; 97; 103; 122; 109; 108; 110;
   108; 122; 123; 116; 130; 290; 0; 74; 121; 0; 135; 128; 137; 154; 151; 154; 142; 141; 158; 149;
   148; 162; 163; 156; 158; 161; 169; 0; 153; 165; 177; 165; 170; 170; 165; 0; 182; 174; 175; 0;
   0; 0; 181; 0; 0; 181; 188; 0; 0; 205; 205; 0; 204; 191; 208; 210; 0; 0; 197; 215; 216; 0; 0;
   203; 223; 206; 208; 223; 212; 0; 0; 0; 0; 0; 233; 0; 0; 0; 0; 226; 0; 290; 280; 283; 74; 286].

Definition yy_def : list Z :=
  [0; 145; 1; 146; 146; 145; 145; 145; 145; 145; 147; 145; 145; 145; 145; 145; 145; 145; 148;
   148; 148; 148; 148; 148; 148; 148; 148; 148; 148; 148; 148; 148; 148; 148; 145; 145; 145; 145;
   147; 145; 145; 149; 145; 145; 145; 145; 145; 148; 148; 148; 148; 148; 148; 148; 148; 148; 148;
   148; 148; 148; 148; 148; 148; 148; 148; 148; 148; 148; 148; 145; 149; 145; 148; 148; 148; 148;
   148; 148; 148; 148; 148; 148; 148; 148; 148; 148; 148; 148; 148; 148; 148; 148; 148; 148; 148;
   148; 148; 148; 148; 148; 148; 148; 148; 148; 148; 148; 148; 148; 148; 148; 148; 148; 148; 148;
   148; 148; 148; 148; 148; 148; 148; 148; 148; 148; 148; 148; 148; 148; 148; 148; 148; 148; 148;
   148; 148; 148; 148; 148; 148; 148; 148; 148; 148; 148; 148; 0; 145; 145; 145; 145].

Definition yy_nxt : list Z :=
  [0; 6; 7; 8; 9; 10; 11; 11; 11; 12; 11; 13; 11; 14; 15; 11; 16; 11; 17; 18; 19; 20; 21; 22; 23;
   24; 25; 26; 27; 24; 24; 24; 24; 24; 24; 24; 28; 29; 30; 31; 32; 33; 24; 6; 18; 19; 20; 21; 22;
   23; 24; 25; 26; 27; 24; 24; 24; 24; 24; 24; 28; 29; 30; 31; 32; 33; 24; 41; 48; 43; 40; 40;
   44; 45; 50; 51; 54; 47; 56; 59; 49; 57; 52; 60; 43; 53; 40; 58; 71; 55; 61; 62; 63; 48; 65;
   64; 66; 67; 68; 50; 51; 54; 56; 72; 59; 49; 57; 52; 60; 53; 73; 58; 74; 55; 75; 61; 62; 63;
   76; 65; 64; 66; 67; 68; 77; 78; 80; 81; 72; 82; 83; 71; 79; 84; 39; 73; 88; 74; 89; 75; 90;
   92; 93; 76; 85; 94; 95; 36; 91; 77; 78; 80; 81; 96; 82; 83; 79; 97; 84; 86; 87; 88; 98; 89;
   99; 90; 92; 93; 100; 85; 94; 95; 91; 101; 102; 103; 104; 106; 96; 105; 107; 97; 108; 86; 87;
   109; 110; 98; 99; 111; 112; 113; 114; 100; 115; 116; 117; 121; 101; 102; 103; 104; 106; 105;
   118; 107; 119; 108; 120; 122; 109; 110; 123; 124; 111; 112; 113; 114; 115; 125; 116; 117; 121;
   126; 127; 128; 129; 130; 118; 131; 119; 132; 120; 133; 122; 134; 123; 124; 135; 136; 69; 137;
   138; 125; 139; 140; 141; 126; 127; 142; 128; 129; 130; 131; 143; 144; 132; 46; 133; 134; 42;
   40; 39; 135; 136; 137; 37; 138; 139; 140; 36; 141; 145; 142; 35; 35; 145; 145; 145; 143; 144;
   34; 34; 34; 38; 38; 38; 70; 145; 70; 5; 145; 145; 145; 145; 145; 145; 145; 145; 145; 145; 145;
   145; 145; 145; 145; 145; 145; 145; 145; 145; 145; 145; 145; 145; 145; 145; 145; 145; 145; 145;
   145; 145; 145; 145; 145; 145; 145; 145; 145; 145; 145; 145; 145; 145; 145; 145; 145; 145; 145;
   145; 145; 145; 145; 145; 145; 145; 145; 145; 145; 145; 145; 145; 145; 145; 145; 145].

Definition yy_chk : list Z :=
  [0; 1; 1; 1; 1; 1; 1; 1; 1; 1; 1; 1; 1; 1; 1; 1; 1; 1; 1; 1; 1; 1; 1; 1; 1; 1; 1; 1; 1; 1; 1;
   1; 1; 1; 1; 1; 1; 1; 1; 1; 1; 1; 1; 1; 1; 1; 1; 1; 1; 1; 1; 1; 1; 1; 1; 1; 1; 1; 1; 1; 1; 1;
   1; 1; 1; 1; 1; 13; 18; 15; 13; 15; 16; 16; 19; 20; 21; 148; 22; 25; 18; 23; 20; 26; 40; 20;
   40; 23; 71; 21; 27; 28; 29; 18; 30; 29; 31; 32; 33; 19; 20; 21; 22; 48; 25; 18; 23; 20; 26;
   20; 49; 23; 50; 21; 51; 27; 28; 29; 52; 30; 29; 31; 32; 33; 53; 54; 55; 56; 48; 57; 58; 43;
   54; 59; 38; 49; 61; 50; 62; 51; 63; 64; 65; 52; 60; 66; 67; 36; 63; 53; 54; 55; 56; 68; 57;
   58; 54; 72; 59; 60; 60; 61; 74; 62; 75; 63; 64; 65; 76; 60; 66; 67; 63; 77; 78; 79; 80; 82;
   68; 81; 83; 72; 84; 60; 60; 85; 86; 74; 75; 87; 88; 89; 90; 76; 92; 93; 94; 98; 77; 78; 79;
   80; 82; 81; 95; 83; 96; 84; 97; 100; 85; 86; 101; 102; 87; 88; 89; 90; 92; 106; 93; 94; 98;
   109; 110; 113; 114; 116; 95; 117; 96; 118; 97; 119; 100; 122; 101; 102; 123; 124; 35; 127;
   128; 106; 129; 130; 131; 109; 110; 132; 113; 114; 116; 117; 138; 143; 118; 17; 119; 122; 14;
   12; 10; 123; 124; 127; 9; 128; 129; 130; 7; 131; 5; 132; 4; 3; 0; 0; 0; 138; 143; 146; 146;
   146; 147; 147; 147; 149; 0; 149; 145; 145; 145; 145; 145; 145; 145; 145; 145; 145; 145; 145;
   145; 145; 145; 145; 145; 145; 145; 145; 145; 145; 145; 145; 145; 145; 145; 145; 145; 145; 145;
   145; 145; 145; 145; 145; 145; 145; 145; 145; 145; 145; 145; 145; 145; 145; 145; 145; 145; 145;
   145; 145; 145; 145; 145; 145; 145; 145; 145; 145; 145; 145; 145; 145; 145; 145; 145].

Definition YY_END_OF_BUFFER : Z := 45.
(** [YY_STATE_EOF(state)] *)
Definition YY_STATE_EOF (state : Z) : Z := YY_END_OF_BUFFER + state + 1.

Definition at_ (t : list Z) (i : Z) : option Z := t !! Z.to_nat i.

(** ** A transition *)

(** [while (yy_chk[yy_base[yy_current_state] + yy_c] != yy_current_state)] and
    the transition after it. *)
Fixpoint yy_chain (fuel : nat) (yy_current_state yy_c : Z) : option Z :=
  match fuel with
  | O => None
  | S fuel' =>
      base ← at_ yy_base yy_current_state;
      chk ← at_ yy_chk (base + yy_c);
      if chk =? yy_current_state then at_ yy_nxt (base + yy_c)
      else
        yy_current_state ← at_ yy_def yy_current_state;
        if 146 <=? yy_current_state then
          yy_c ← at_ yy_meta yy_c; yy_chain fuel' yy_current_state yy_c
        else yy_chain fuel' yy_current_state yy_c
  end.

(** A chain of defaults visits a state at most once. *)
Definition yy_trans (yy_current_state yy_c : Z) : option Z := yy_chain 150 yy_current_state yy_c.

Definition yy_class (c : ascii) : option Z := yy_ec !! nat_of_ascii c.

(** ** The globals of the scanner *)

Record scanner := mkScanner {
  yy_start : Z;
  yy_ch_buf : chars;
  yy_n_chars : nat;
  yy_c_buf_p : nat;
  yytext_ptr : nat;
  yy_last_accepting_state : Z;
  yy_last_accepting_cpos : nat }.

Definition NUL : ascii := "000".

(** [yy_scan_bytes]: a copy with two end-of-buffer characters; the start
    condition stays. *)
Definition yy_scan_bytes (start : Z) (text : chars) : scanner :=
  mkScanner start (text ++ [NUL; NUL]) (length text) 0 0 0 0.

Definition set_last (s : Z) (cp : nat) (l : scanner) : scanner :=
  mkScanner (yy_start l) (yy_ch_buf l) (yy_n_chars l) (yy_c_buf_p l) (yytext_ptr l) s cp.
Definition set_c_buf_p (p : nat) (l : scanner) : scanner :=
  mkScanner (yy_start l) (yy_ch_buf l) (yy_n_chars l) p (yytext_ptr l)
    (yy_last_accepting_state l) (yy_last_accepting_cpos l).
Definition set_start (s : Z) (l : scanner) : scanner :=
  mkScanner s (yy_ch_buf l) (yy_n_chars l) (yy_c_buf_p l) (yytext_ptr l)
    (yy_last_accepting_state l) (yy_last_accepting_cpos l).

(** [if (yy_accept[yy_current_state])]: remember the state and the place. *)
Definition note_accept (s : Z) (cp : nat) (l : scanner) : option scanner :=
  a ← at_ yy_accept s; Some (if a =? 0 then l else set_last s cp l).

(** [yy_match]: transitions until a state without transitions. *)
Fixpoint yy_match (fuel : nat) (s : Z) (cp : nat) (l : scanner) : option (Z * nat * scanner) :=
  match fuel with
  | O => None
  | S fuel' =>
      c ← yy_ch_buf l !! cp;
      yy_c ← yy_class c;
      l ← note_accept s cp l;
      s ← yy_trans s yy_c;
      base ← at_ yy_base s;
      if base =? 290 then Some (s, S cp, l) else yy_match fuel' s (S cp) l
  end.

(** [yy_get_previous_state]: the state before the end-of-buffer character. *)
Fixpoint yy_previous (n : nat) (s : Z) (cp : nat) (l : scanner) : option (Z * scanner) :=
  match n with
  | O => Some (s, l)
  | S n' =>
      c ← yy_ch_buf l !! cp;
      yy_c ← (if Ascii.eqb c NUL then Some 1 else yy_class c);
      l ← note_accept s cp l;
      s ← yy_trans s yy_c;
      yy_previous n' s (S cp) l
  end.

Definition yy_get_previous_state (l : scanner) : option (Z * scanner) :=
  yy_previous (yy_c_buf_p l - yytext_ptr l) (yy_start l) (yytext_ptr l) l.

(** [yy_try_NUL_trans]; [0] is a jam. *)
Definition yy_try_NUL_trans (s : Z) (l : scanner) : option (Z * scanner) :=
  l ← note_accept s (yy_c_buf_p l) l;
  s ← yy_trans s 1;
  Some (if s =? 145 then 0 else s, l).

(** [yy_get_next_buffer] with [yy_fill_buffer] 0; [None]: a fatal error. *)
Inductive eob_act := EOB_ACT_END_OF_FILE | EOB_ACT_LAST_MATCH.

Definition yy_get_next_buffer (l : scanner) : option eob_act :=
  if (yy_n_chars l + 1 <? yy_c_buf_p l)%nat then None
  else if (yy_c_buf_p l - yytext_ptr l =? 1)%nat then Some EOB_ACT_END_OF_FILE
  else Some EOB_ACT_LAST_MATCH.

(** ** The switch over the actions *)

(** Cases 1 to 44 in their order; 44 is [ECHO]. *)
Definition yy_actions : list action :=
  [BEGIN STATE_COMMENT; BEGIN INITIAL; IGNORE; IGNORE; IGNORE; IGNORE; IGNORE;
   RETURN SHOW; RETURN TXN_BEGIN; RETURN TXN_COMMIT; RETURN TXN_ABORT; RETURN TXN_ROLLBACK;
   RETURN TABLES; RETURN CREATE; RETURN TABLE; RETURN DROP; RETURN DESC; RETURN INSERT;
   RETURN INTO; RETURN VALUES; RETURN DELETE; RETURN FROM; RETURN WHERE; RETURN UPDATE;
   RETURN SET; RETURN SELECT; RETURN INT; RETURN CHAR; RETURN FLOAT; RETURN INDEX;
   RETURN AND; RETURN JOIN; RETURN EXIT; RETURN HELP; RETURN GEQ; RETURN LEQ; RETURN NEQ;
   RETURN_CHAR; RETURN_IDENTIFIER; RETURN_INT; RETURN_FLOAT; RETURN_STRING; UNEXPECTED; IGNORE].

(** [BEGIN]: [yy_start = 1 + 2 * state] *)
Definition start_number (s : start_condition) : Z :=
  1 + 2 * match s with INITIAL => 0 | STATE_COMMENT => 1 end.

(** ** [yylex], by its labels *)

Inductive label :=
  | Scan                                    (* the head of the loop *)
  | Match (s : Z) (cp bp : nat)             (* yy_match *)
  | FindAction (s : Z) (cp bp : nat)        (* yy_find_action *)
  | DoAction (act s : Z) (cp : nat).        (* do_action *)

Section yylex.
  Context (atof : string → Z).

Definition yytext (cp : nat) (l : scanner) : chars := take (cp - yytext_ptr l) (drop (yytext_ptr l) (yy_ch_buf l)).

(** [case YY_END_OF_BUFFER] *)
Definition end_of_buffer (cp : nat) (l : scanner) : option (label * scanner) :=
  let matched := (cp - yytext_ptr l - 1)%nat in
  if (yy_c_buf_p l <=? yy_n_chars l)%nat then
    (* a NUL in the text *)
    let l := set_c_buf_p (yytext_ptr l + matched) l in
    '(s, l) ← yy_get_previous_state l;
    '(next, l) ← yy_try_NUL_trans s l;
    if next =? 0 then Some (FindAction s (yy_c_buf_p l) (yytext_ptr l), l)
    else Some (Match next (S (yy_c_buf_p l)) (yytext_ptr l), set_c_buf_p (S (yy_c_buf_p l)) l)
  else
    a ← yy_get_next_buffer l;
    match a with
    | EOB_ACT_END_OF_FILE =>
        let l := set_c_buf_p (yytext_ptr l) l in
        Some (DoAction (YY_STATE_EOF ((yy_start l - 1) / 2)) 0 cp, l)
    | EOB_ACT_LAST_MATCH =>
        let l := set_c_buf_p (yy_n_chars l) l in
        '(s, l) ← yy_get_previous_state l;
        Some (FindAction s (yy_c_buf_p l) (yytext_ptr l), l)
    end.

(** [switch (yy_act)]: a token is returned, or the label to go to. *)
Definition do_action (act : Z) (cp : nat) (l : scanner) : option ((token + label) * scanner) :=
  if act =? 0 then
    Some (inr (FindAction (yy_last_accepting_state l) (yy_last_accepting_cpos l) (yytext_ptr l)), l)
  else if act =? YY_END_OF_BUFFER then '(lb, l) ← end_of_buffer cp l; Some (inr lb, l)
  else if (act =? YY_STATE_EOF 0) || (act =? YY_STATE_EOF 1) then Some (inl T_EOF, l)
  else
    a ← yy_actions !! Z.to_nat (act - 1);
    let l := match a with BEGIN s => set_start (start_number s) l | _ => l end in
    match run_action atof a (yytext cp l) with
    | Some t => Some (inl t, l)
    | None => Some (inr Scan, l)
    end.

(** [YY_DO_BEFORE_ACTION] *)
Definition before_action (cp bp : nat) (l : scanner) : scanner :=
  mkScanner (yy_start l) (yy_ch_buf l) (yy_n_chars l) cp bp
    (yy_last_accepting_state l) (yy_last_accepting_cpos l).

Definition step (lb : label) (l : scanner) : option ((token + label) * scanner) :=
  match lb with
  | Scan => Some (inr (Match (yy_start l) (yy_c_buf_p l) (yy_c_buf_p l)), l)
  | Match s cp bp =>
      '(s, cp, l) ← yy_match (S (length (yy_ch_buf l))) s cp l;
      Some (inr (FindAction s cp bp), l)
  | FindAction s cp bp =>
      act ← at_ yy_accept s;
      if act =? 0 then
        (* have to back up *)
        let cp := yy_last_accepting_cpos l in
        let s := yy_last_accepting_state l in
        act ← at_ yy_accept s;
        Some (inr (DoAction act s cp), before_action cp bp l)
      else Some (inr (DoAction act s cp), before_action cp bp l)
  | DoAction act _ cp => do_action act cp l
  end.

Fixpoint run (fuel : nat) (lb : label) (l : scanner) : option (token * scanner) :=
  match fuel with
  | O => None
  | S fuel' =>
      '(r, l) ← step lb l;
      match r with
      | inl t => Some (t, l)
      | inr lb => run fuel' lb l
      end
  end.

(** At most six labels for a match, and a match takes a character or ends the
    scan. *)
Definition yylex_fuel (l : scanner) : nat := 6 * S (yy_n_chars l - yy_c_buf_p l).

(** The first call sets the start condition if nothing has. *)
Definition yylex (l : scanner) : option (token * scanner) :=
  let l := if yy_start l =? 0 then set_start 1 l else l in
  run (yylex_fuel l) Scan l.

End yylex.

End ScanTables.
