(* ===== verification/ScanProofs.v ===== *)
(** The tables of [lex.yy.cpp] as an automaton: each state stands for what is
    left of the patterns of [lex.l].  The relation is found by exploring the
    tables and checked by computation; the rest of the file is the simulation of
    the scanner's loops. *)
From Stdlib Require Import Ascii.
From S2P Require Import Prelude.
From S2P Require Import Regex.
From S2P Require Import Lexer.
From S2P Require Import ScanTables.

Import ScanTables.

(** ** Patterns over the character classes of [yy_ec] *)

Inductive cre :=
  | CVoid
  | CEps
  | CSet (m : N)
  | CCat (a b : cre)
  | CAlt (a b : cre)
  | CStar (a : cre).

#[export] Instance cre_eq_dec : EqDecision cre.
Proof. solve_decision. Defined.

Definition cls (c : ascii) : N := Z.to_N (default 0 (yy_class c)).

Fixpoint denote (k : cre) : re :=
  match k with
  | CVoid => Void
  | CEps => Eps
  | CSet m => Chr (λ c, N.testbit m (cls c))
  | CCat a b => Cat (denote a) (denote b)
  | CAlt a b => Alt (denote a) (denote b)
  | CStar a => Star (denote a)
  end.

Definition mask (p : ascii → bool) : N :=
  foldr (λ c m, if p c then N.setbit m (cls c) else m) 0%N all_ascii.

(** [None] if a set of characters is not a union of classes. *)
Fixpoint compile (r : re) : option cre :=
  match r with
  | Void => Some CVoid
  | Eps => Some CEps
  | Chr p =>
      let m := mask p in
      if every (λ c, Bool.eqb (p c) (N.testbit m (cls c))) then Some (CSet m) else None
  | Cat a b => a ← compile a; b ← compile b; Some (CCat a b)
  | Alt a b => a ← compile a; b ← compile b; Some (CAlt a b)
  | Star a => a ← compile a; Some (CStar a)
  end.

Definition ccat (a b : cre) : cre :=
  match a with CVoid => CVoid | CEps => b | _ => CCat a b end.

Definition calt (a b : cre) : cre :=
  match a, b with CVoid, _ => b | _, CVoid => a | _, _ => CAlt a b end.

Fixpoint cnullable (k : cre) : bool :=
  match k with
  | CVoid | CSet _ => false
  | CEps | CStar _ => true
  | CCat a b => cnullable a && cnullable b
  | CAlt a b => cnullable a || cnullable b
  end.

Fixpoint cderiv (cl : N) (k : cre) : cre :=
  match k with
  | CVoid | CEps => CVoid
  | CSet m => if N.testbit m cl then CEps else CVoid
  | CCat a b => let d := ccat (cderiv cl a) b in if cnullable a then calt d (cderiv cl b) else d
  | CAlt a b => calt (cderiv cl a) (cderiv cl b)
  | CStar a => ccat (cderiv cl a) (CStar a)
  end.

Lemma denote_cat a b : denote (ccat a b) = cat (denote a) (denote b).
Proof. by destruct a. Qed.

Lemma denote_alt a b : denote (calt a b) = alt (denote a) (denote b).
Proof. by destruct a, b. Qed.

Lemma denote_nullable k : nullable (denote k) = cnullable k.
Proof. induction k as [| | |a IHa b IHb|a IHa b IHb|a IHa]; simpl; by rewrite ?IHa, ?IHb. Qed.

Lemma denote_deriv c k : deriv c (denote k) = denote (cderiv (cls c) k).
Proof.
  induction k as [| |m|a IHa b IHb|a IHa b IHb|a IHa]; simpl; try done.
  - by destruct (N.testbit m (cls c)).
  - rewrite denote_nullable, IHa, IHb. destruct (cnullable a); by rewrite ?denote_alt, denote_cat.
  - by rewrite denote_alt, IHa, IHb.
  - by rewrite denote_cat, IHa.
Qed.

(** Two patterns with the same words. *)
Definition same (r r' : re) : Prop := ∀ w, matches r w ↔ matches r' w.

Lemma same_cat a a' b b' : same a a' → same b b' → same (Cat a b) (Cat a' b').
Proof.
  unfold same. intros Ha Hb w. split; intros (w1 & w2 & -> & H1 & H2)%matches_cat_inv; apply m_cat; naive_solver.
Qed.

Lemma same_alt a a' b b' : same a a' → same b b' → same (Alt a b) (Alt a' b').
Proof. unfold same. intros Ha Hb w. split; intros []%matches_alt_inv; [apply m_left|apply m_right|apply m_left|apply m_right]; naive_solver. Qed.

Lemma star_mono a a' w : (∀ w, matches a w → matches a' w) → matches (Star a) w → matches (Star a') w.
Proof.
  intros Ha H. remember (Star a) as r eqn:Hr. induction H; try discriminate; [constructor|].
  injection Hr as ->. apply m_star; eauto.
Qed.

Lemma same_star a a' : same a a' → same (Star a) (Star a').
Proof. intros Ha w. split; apply star_mono; intros; by apply Ha. Qed.

Lemma compile_same r k : compile r = Some k → same (denote k) r.
Proof.
  revert k. induction r as [| |p|a IHa b IHb|a IHa b IHb|a IHa]; simpl; intros k Hk; simplify_option_eq; try done.
  - destruct (every _) eqn:He in Hk; [|done]. injection Hk as <-.
    assert (∀ c, p c = N.testbit (mask p) (cls c)) as Hp.
    { intros c. pose proof (every_spec _ c He) as Hc. cbn beta in Hc. apply Bool.eqb_prop, Hc. }
    clear He. revert Hp. generalize (mask p). intros m Hp w.
    split; inversion 1 as [|q c Hq| | | | |]; subst; apply m_chr; [by rewrite Hp|by rewrite <- Hp].
  - apply same_cat; auto.
  - apply same_alt; auto.
  - apply same_star; auto.
Qed.

(** ** What is left of the rules *)

(** Rule numbers with what is left of their patterns. *)
Abbreviation residue := (list (nat * cre)).

Definition hit (v : residue) (i : nat) (w : chars) : Prop := ∃ k, (i, k) ∈ v ∧ matches (denote k) w.

Definition vstep (cl : N) (v : residue) : residue :=
  filter (λ x, x.2 ≠ CVoid) (map (λ x, (x.1, cderiv cl x.2)) v).

(** The first rule that accepts here. *)
Definition vaccept (v : residue) : option nat :=
  foldr (λ x acc, if cnullable x.2 then Some (match acc with Some j => Nat.min x.1 j | None => x.1 end) else acc)
    None v.

Lemma hit_step c v i w : hit (vstep (cls c) v) i w ↔ hit v i (c :: w).
Proof.
  unfold hit, vstep. split.
  - intros (k & [_ Hk]%list_elem_of_filter & Hm). apply list_elem_of_fmap in Hk as ([j k'] & [= -> ->] & Hin).
    exists k'. split; [done|]. by rewrite <- denote_deriv, deriv_spec in Hm.
  - intros (k & Hin & Hm). rewrite <- deriv_spec, denote_deriv in Hm.
    exists (cderiv (cls c) k). split; [|done]. apply list_elem_of_filter. split.
    + simpl. intros Hv. rewrite Hv in Hm. inversion Hm.
    + apply list_elem_of_fmap. by exists (i, k).
Qed.

Lemma hit_nil v i : hit v i [] ↔ ∃ k, (i, k) ∈ v ∧ cnullable k = true.
Proof. unfold hit. split; intros (k & ? & Hk); exists k; split; try done; by rewrite <- nullable_spec, denote_nullable in *. Qed.

Lemma vaccept_least v :
  match vaccept v with
  | Some i => (∃ k, (i, k) ∈ v ∧ cnullable k = true) ∧ ∀ j, (∃ k, (j, k) ∈ v ∧ cnullable k = true) → (i ≤ j)%nat
  | None => ∀ j, ¬ ∃ k, (j, k) ∈ v ∧ cnullable k = true
  end.
Proof.
  induction v as [|[i k] v IH]; simpl.
  { intros j (k & Hk & _). by apply not_elem_of_nil in Hk. }
  destruct (cnullable k) eqn:Hk.
  - assert (∃ k', (i, k') ∈ (i, k) :: v ∧ cnullable k' = true) as Hi by (exists k; split; [apply list_elem_of_here|done]).
    destruct (vaccept v) as [j|].
    + destruct IH as [(kj & Hj & Hn) Hmin]. split.
      * destruct (Nat.min_spec i j) as [[? ->]|[? ->]]; [done|]. exists kj. split; [by apply list_elem_of_further|done].
      * intros m (k' & [[= -> ->]|Hm]%elem_of_cons & Hk'); [lia|]. assert (j ≤ m)%nat by eauto. lia.
    + split; [done|]. intros m (k' & [[= -> ->]|Hm]%elem_of_cons & Hk'); [lia|]. by destruct (IH m); exists k'.
  - destruct (vaccept v) as [j|].
    + destruct IH as [(kj & Hj & Hn) Hmin]. split; [exists kj; split; [by apply list_elem_of_further|done]|].
      intros m (k' & [[= -> ->]|Hm]%elem_of_cons & Hk'); [congruence|eauto].
    + intros m (k' & [[= -> ->]|Hm]%elem_of_cons & Hk'); [congruence|]. by apply (IH m); exists k'.
Qed.

Lemma vaccept_spec v :
  match vaccept v with
  | Some i => hit v i [] ∧ ∀ j, hit v j [] → (i ≤ j)%nat
  | None => ∀ j, ¬ hit v j []
  end.
Proof.
  pose proof (vaccept_least v) as H. destruct (vaccept v); setoid_rewrite hit_nil; done.
Qed.

(** Rule [i] has number [S i]. *)
Definition residue0 (sc : start_condition) : residue :=
  omap (λ x, if decide (cond x.2 = sc) then (λ k, (S x.1, k)) <$> compile (pattern x.2) else None)
    (imap pair rules).

Lemma rules_compile : forallb (λ r, bool_decide (is_Some (compile (pattern r)))) rules = true.
Proof. vm_compute. reflexivity. Qed.

Lemma hit_residue0 sc i w :
  hit (residue0 sc) (S i) w ↔ ∃ r, rules !! i = Some r ∧ cond r = sc ∧ matches (pattern r) w.
Proof.
  unfold hit, residue0. setoid_rewrite list_elem_of_omap. setoid_rewrite elem_of_lookup_imap. split.
  - intros (k & ([j r] & (j' & r' & [= -> ->] & Hj) & Hk) & Hm). simpl in Hk. case_decide; [|done].
    destruct (compile (pattern r')) eqn:Hc; [|done]. injection Hk as -> ->. exists r'. split_and!; [done..|].
    by apply (compile_same _ _ Hc).
  - intros (r & Hr & Hsc & Hm).
    assert (is_Some (compile (pattern r))) as [k Hk].
    { pose proof rules_compile as H. rewrite forallb_forall in H.
      apply list_elem_of_lookup_2, list_elem_of_In in Hr. by specialize (H r Hr); apply bool_decide_eq_true in H. }
    exists k. split; [|by apply (compile_same _ _ Hk)].
    exists (i, r). split; [by exists i, r|]. simpl. by rewrite decide_True, Hk.
Qed.

Lemma hit_residue0_0 sc w : ¬ hit (residue0 sc) 0 w.
Proof.
  intros (k & Hk & _). unfold residue0 in Hk. apply list_elem_of_omap in Hk as ([j r] & _ & Hk).
  simpl in Hk. case_decide; [|done]. by destruct (compile (pattern r)).
Qed.

(** ** The states of the tables *)

Definition classes : list N := map N.of_nat (seq 1 66).

(** A state of the tables for each residue that the start states reach. *)
Fixpoint explore (fuel : nat) (todo : list (Z * residue)) (seen : gmap Z residue) : gmap Z residue :=
  match fuel, todo with
  | S fuel', (s, v) :: todo' =>
      match seen !! s with
      | Some _ => explore fuel' todo' seen
      | None =>
          let next := omap (λ cl, t ← yy_trans s (Z.of_N cl);
                                  if t =? 145 then None else Some (t, vstep cl v)) classes in
          explore fuel' (next ++ todo') (<[s := v]> seen)
      end
  | _, _ => seen
  end.

Definition reps : gmap Z residue :=
  explore (150 * 70) [(1, residue0 INITIAL); (3, residue0 STATE_COMMENT)] ∅.

Definition dead (v : residue) : bool := forallb (λ cl, bool_decide (vstep cl v = [])) classes.

Definition check_state (R : gmap Z residue) (s : Z) (v : residue) : bool :=
  bool_decide (at_ yy_accept s = Some (default 0 (Z.of_nat <$> vaccept v)))
  && bool_decide (yy_trans s 0 = Some 5)
  && forallb (λ cl,
       match yy_trans s (Z.of_N cl) with
       | Some t => if t =? 145 then bool_decide (vstep cl v = []) else bool_decide (R !! t = Some (vstep cl v))
       | None => false
       end) classes
  && match at_ yy_base s with
     | Some b => implb (b =? 290) (bool_decide (is_Some (vaccept v)) && dead v)
     | None => false
     end.

Definition checked (R : gmap Z residue) : bool := forallb (λ x, check_state R x.1 x.2) (map_to_list R).

Definition start_ok (R : gmap Z residue) : bool :=
  bool_decide (R !! 1 = Some (residue0 INITIAL)) && bool_decide (R !! 3 = Some (residue0 STATE_COMMENT)).

Lemma reps_check : checked reps && start_ok reps = true.
Proof. vm_compute. reflexivity. Qed.

Lemma class_check :
  every (λ c, Ascii.eqb c NUL || bool_decide (yy_class c = Some (Z.of_N (cls c)) ∧ cls c ∈ classes)) = true.
Proof. vm_compute. reflexivity. Qed.

Lemma class_of c : c ≠ NUL → yy_class c = Some (Z.of_N (cls c)) ∧ cls c ∈ classes.
Proof.
  intros Hc. pose proof (every_spec _ c class_check) as H. cbn beta in H.
  apply orb_true_iff in H as [H|H]; [by apply Ascii.eqb_eq in H|by apply bool_decide_eq_true in H].
Qed.

Lemma forallb_in {A} (f : A → bool) l x : forallb f l = true → x ∈ l → f x = true.
Proof. rewrite forallb_forall. intros H Hx. by apply H, list_elem_of_In. Qed.

Lemma nul_class : yy_class NUL = Some 0.
Proof. reflexivity. Qed.
Lemma base_5 : at_ yy_base 5 = Some 272.
Proof. reflexivity. Qed.
Lemma base_145 : at_ yy_base 145 = Some 290.
Proof. reflexivity. Qed.
Lemma accept_5 : at_ yy_accept 5 = Some 45.
Proof. reflexivity. Qed.
Lemma accept_145 : at_ yy_accept 145 = Some 0.
Proof. reflexivity. Qed.
Lemma trans_5 : yy_trans 5 0 = Some 145.
Proof. vm_compute. reflexivity. Qed.

Section automaton.
  Context (reps : gmap Z residue) (Hcheck : checked reps = true).

(** What the check says about a state. *)
Record state_ok (s : Z) (v : residue) : Prop := {
  ok_accept : at_ yy_accept s = Some (default 0 (Z.of_nat <$> vaccept v));
  ok_nul : yy_trans s 0 = Some 5;
  ok_step c : c ≠ NUL → ∃ cl t, yy_class c = Some cl ∧ yy_trans s cl = Some t ∧
    if t =? 145 then vstep (cls c) v = [] else reps !! t = Some (vstep (cls c) v);
  ok_base : ∃ b, at_ yy_base s = Some b ∧
    (b = 290 → is_Some (vaccept v) ∧ ∀ c, c ≠ NUL → vstep (cls c) v = []) }.

Lemma reps_ok s v : reps !! s = Some v → state_ok s v.
Proof.
  intros Hs. pose proof (forallb_in _ _ (s, v) Hcheck) as H.
  rewrite elem_of_map_to_list in H. specialize (H Hs). unfold check_state in H. cbn [fst snd] in H.
  rewrite !andb_true_iff in H. destruct H as [[[Ha%bool_decide_eq_true Hn%bool_decide_eq_true] Ht] Hb]. split; try done.
  - intros c [Hcl Hin]%class_of. pose proof (forallb_in _ _ _ Ht Hin) as Hc. cbn beta in Hc.
    destruct (yy_trans s (Z.of_N (cls c))) as [t|] eqn:Htr; [|done].
    exists (Z.of_N (cls c)), t. split_and!; [done..|]. destruct (t =? 145); by apply bool_decide_eq_true in Hc.
  - destruct (at_ yy_base s) as [b|]; [|done]. exists b. split; [done|]. intros ->. simpl in Hb.
    apply andb_true_iff in Hb as [H1%bool_decide_eq_true H2]. split; [done|].
    intros c [_ Hin]%class_of. pose proof (forallb_in _ _ _ H2 Hin) as Hc. by apply bool_decide_eq_true in Hc.
Qed.

(** ** Runs of the automaton *)

Fixpoint steps {A B} (f : A → B → option A) (s : A) (w : list B) : option A :=
  match w with
  | [] => Some s
  | c :: w' => match f s c with Some t => steps f t w' | None => None end
  end.

Definition live_step (s : Z) (c : ascii) : option Z :=
  cl ← yy_class c; t ← yy_trans s cl; if t =? 145 then None else Some t.

Definition srun : Z → chars → option Z := steps live_step.

Definition vrun (v : residue) (w : chars) : residue := foldl (λ v c, vstep (cls c) v) v w.

Lemma hit_vrun v w1 i w2 : hit (vrun v w1) i w2 ↔ hit v i (w1 ++ w2).
Proof. revert v. induction w1 as [|c w1 IH]; intros v; simpl; [done|]. by rewrite IH, hit_step. Qed.

Lemma srun_app s w1 w2 : srun s (w1 ++ w2) = t ← srun s w1; srun t w2.
Proof.
  unfold srun. revert s. induction w1 as [|c w1 IH]; intros s; simpl; [done|].
  by destruct (live_step s c).
Qed.

Lemma bind_eq {A B} (o : option A) (f : A → option B) x : o = Some x → o ≫= f = f x.
Proof. by intros ->. Qed.

Lemma run_goto atof f lb lb' g g' : step atof lb g = Some (inr lb', g') → run atof (S f) lb g = run atof f lb' g'.
Proof. intros H. cbn [run]. by rewrite (bind_eq _ _ _ H). Qed.

Lemma run_ret atof f lb t g g' : step atof lb g = Some (inl t, g') → run atof (S f) lb g = Some (t, g').
Proof. intros H. cbn [run]. by rewrite (bind_eq _ _ _ H). Qed.

(** [DoAction YY_END_OF_BUFFER] behind the text. *)
Lemma do_end_of_buffer atof q cp g :
  yy_c_buf_p g = S (yy_n_chars g) → (yytext_ptr g < yy_n_chars g)%nat →
  step atof (DoAction 45 q cp) g =
    let g := set_c_buf_p (yy_n_chars g) g in
    '(s, l) ← yy_get_previous_state g; Some (inr (FindAction s (yy_c_buf_p l) (yytext_ptr l)), l).
Proof.
  intros Hp Ht. cbn [step]. unfold do_action. cbn [Z.eqb YY_END_OF_BUFFER Pos.eqb]. unfold end_of_buffer.
  rewrite Hp. rewrite (proj2 (Nat.leb_gt _ _)) by lia. unfold yy_get_next_buffer. rewrite Hp.
  rewrite (proj2 (Nat.ltb_ge _ _)) by lia. rewrite (proj2 (Nat.eqb_neq _ _)) by lia.
  cbn [mbind option_bind]. by destruct (yy_get_previous_state _) as [[]|].
Qed.

Lemma live_step_eq s c cl t :
  yy_class c = Some cl → yy_trans s cl = Some t → live_step s c = if t =? 145 then None else Some t.
Proof. intros H1 H2. unfold live_step. by rewrite (bind_eq _ _ _ H1), (bind_eq _ _ _ H2). Qed.

Lemma live_step_ok s v c t :
  c ≠ NUL → reps !! s = Some v → live_step s c = Some t → reps !! t = Some (vstep (cls c) v).
Proof.
  intros Hc Hs Ht. destruct (ok_step _ _ (reps_ok _ _ Hs) c Hc) as (cl & t' & Hcl & Htr & Hv).
  rewrite (live_step_eq _ _ _ _ Hcl Htr) in Ht.
  destruct (t' =? 145); [discriminate|]. by injection Ht as <-.
Qed.

Lemma srun_reps s v w t : NUL ∉ w → reps !! s = Some v → srun s w = Some t → reps !! t = Some (vrun v w).
Proof.
  unfold srun. revert s v. induction w as [|c w IH]; intros s v Hn Hs Hr; simpl in *; [congruence|].
  apply not_elem_of_cons in Hn as [Hc Hn].
  destruct (live_step s c) as [t'|] eqn:Ht; [|done].
  eapply IH; [done|by eapply live_step_ok|done].
Qed.

(** ** One match *)

Section match_text.
  Context (s0 : Z) (v0 : residue) (Hv0 : reps !! s0 = Some v0).
  Context (Hpos : ∀ w, ¬ hit v0 0 w).
  Context (pre s : chars) (Hnul : NUL ∉ s).
  Notation p := (length pre).

(** The buffer holds [s] at [p], up to the end-of-buffer characters. *)
Definition at_text (l : scanner) : Prop := yy_ch_buf l = pre ++ s ++ [NUL; NUL].

(** Nothing but the last accepting state and place differ. *)
Definition same_text (l l' : scanner) : Prop :=
  yy_start l' = yy_start l ∧ yy_ch_buf l' = yy_ch_buf l ∧ yy_n_chars l' = yy_n_chars l ∧
  yy_c_buf_p l' = yy_c_buf_p l ∧ yytext_ptr l' = yytext_ptr l.

Lemma same_text_refl l : same_text l l.
Proof. done. Qed.

Lemma same_text_trans l1 l2 l3 : same_text l1 l2 → same_text l2 l3 → same_text l1 l3.
Proof. unfold same_text. intuition congruence. Qed.

Definition hits (m : nat) : Prop := ∃ j, hit v0 j (take m s).

(** [last_*] is the longest match shorter than [m]. *)
Definition last_good (m : nat) (l : scanner) : Prop :=
  (∀ m', (m' < m)%nat → ¬ hits m') ∨
  ∃ m', (m' < m)%nat ∧ yy_last_accepting_cpos l = (p + m')%nat ∧
        srun s0 (take m' s) = Some (yy_last_accepting_state l) ∧ hits m' ∧
        ∀ m'', (m' < m'' < m)%nat → ¬ hits m''.

(** The longest match, and of its rules the first. *)
Definition best_match (i n : nat) : Prop :=
  (n ≤ length s)%nat ∧ hit v0 i (take n s) ∧ (∀ j, hit v0 j (take n s) → (i ≤ j)%nat) ∧
  ∀ m, (n < m ≤ length s)%nat → ¬ hits m.

Lemma take_nul m : NUL ∉ take m s.
Proof. intros H. apply Hnul. rewrite <- (take_drop m s). apply elem_of_app. by left. Qed.

Lemma char_not_nul m c : s !! m = Some c → c ≠ NUL.
Proof. intros Hc%list_elem_of_lookup_2 ->. done. Qed.

Lemma buf_text l m c : at_text l → s !! m = Some c → yy_ch_buf l !! (p + m)%nat = Some c.
Proof. intros -> Hc. rewrite lookup_app_r by lia. replace (p + m - p)%nat with m by lia. by apply lookup_app_l_Some. Qed.

Lemma buf_nul l k : at_text l → (k < 2)%nat → yy_ch_buf l !! (p + length s + k)%nat = Some NUL.
Proof.
  intros -> Hk. rewrite lookup_app_r by lia. rewrite lookup_app_r by lia.
  replace (p + length s + k - p - length s)%nat with k by lia. by destruct k as [|[|]]; [| |lia].
Qed.

Lemma srun_ok m t : srun s0 (take m s) = Some t → state_ok t (vrun v0 (take m s)).
Proof. intros H. by eapply reps_ok, srun_reps, H; [apply take_nul|]. Qed.

Lemma accept_at m t :
  srun s0 (take m s) = Some t → ∃ a, at_ yy_accept t = Some a ∧ (a = 0 → ¬ hits m) ∧ (a ≠ 0 → hits m) ∧
  (∀ i, hit v0 i (take m s) → (∀ j, hit v0 j (take m s) → (i ≤ j)%nat) → a = Z.of_nat i ∧ a ≠ 0).
Proof.
  intros Ht%srun_ok. eexists. split; [apply (ok_accept _ _ Ht)|].
  pose proof (vaccept_spec (vrun v0 (take m s))) as H.
  assert (∀ j, hit (vrun v0 (take m s)) j [] ↔ hit v0 j (take m s)) as He.
  { intros j. by rewrite hit_vrun, app_nil_r. }
  destruct (vaccept _) as [i|]; simpl.
  - destruct H as [Hi%He Hmin].
    assert (i ≠ 0%nat) by (intros ->; by apply Hpos in Hi).
    split_and!; [lia|by exists i|]. intros j Hj Hj'. assert (i = j) as ->; [|lia].
    apply Nat.le_antisymm; [by apply Hmin, He|by apply Hj'].
  - split_and!; [|done|].
    + intros _ [j Hj%He]. by apply H in Hj.
    + intros j Hj%He. by apply H in Hj.
Qed.

Lemma note_good l m t :
  srun s0 (take m s) = Some t → last_good m l →
  ∃ l1, note_accept t (p + m) l = Some l1 ∧ last_good (S m) l1 ∧ same_text l l1.
Proof.
  intros Ht Hl. destruct (accept_at _ _ Ht) as (a & Ha & Hz & Hnz & _).
  unfold note_accept. rewrite Ha. simpl. destruct (a =? 0) eqn:Ea; eexists; split_and!; try done.
  - apply Z.eqb_eq in Ea. specialize (Hz Ea). destruct Hl as [Hl|(m' & ? & ? & ? & ? & Hl)].
    + left. intros m' ?. destruct (decide (m' = m)) as [->|]; [done|]. apply Hl. lia.
    + right. exists m'. split_and!; [lia|done..|]. intros m'' ?.
      destruct (decide (m'' = m)) as [->|]; [done|]. apply Hl. lia.
  - apply Z.eqb_neq in Ea. right. exists m. split_and!; [lia|done|done|by apply Hnz|lia].
Qed.

Lemma dead_end m c :
  s !! m = Some c → vstep (cls c) (vrun v0 (take m s)) = [] → ∀ m', (m < m')%nat → ¬ hits m'.
Proof.
  intros Hc Hv m' Hm [j Hj].
  rewrite <- (take_drop_middle _ _ _ Hc) in Hj.
  assert (length (take m s) = m) as Hlen by (apply length_take_le; apply lookup_lt_Some in Hc; lia).
  rewrite take_app_ge, Hlen in Hj by lia. replace (m' - m)%nat with (S (m' - m - 1)) in Hj by lia.
  simpl in Hj. apply hit_vrun, hit_step in Hj. rewrite Hv in Hj. destruct Hj as (k & Hk & _).
  by apply not_elem_of_nil in Hk.
Qed.

Lemma live_next m t c :
  s !! m = Some c → srun s0 (take m s) = Some t →
  ∃ cl t', yy_class c = Some cl ∧ yy_trans t cl = Some t' ∧
    if t' =? 145 then ∀ m', (m < m')%nat → ¬ hits m' else srun s0 (take (S m) s) = Some t'.
Proof.
  intros Hc Ht. pose proof (char_not_nul _ _ Hc) as Hn.
  destruct (ok_step _ _ (srun_ok _ _ Ht) c Hn) as (cl & t' & Hcl & Htr & Hv).
  exists cl, t'. split_and!; [done..|]. destruct (t' =? 145) eqn:E.
  - by apply dead_end with c.
  - rewrite (take_S_r _ _ _ Hc), srun_app, Ht. simpl. unfold srun. cbn [steps].
    by rewrite (live_step_eq _ _ _ _ Hcl Htr), E.
Qed.

(** How [yy_match] ends: in a state without transitions, in a jam, or behind
    the end-of-buffer characters. *)
Definition match_result (st : Z) (cp : nat) (l : scanner) : Prop :=
  (∃ m, (m ≤ length s)%nat ∧ cp = (p + m)%nat ∧ srun s0 (take m s) = Some st ∧ last_good m l ∧
        ∀ m', (m < m' ≤ length s)%nat → ¬ hits m') ∨
  (st = 145 ∧ ∃ m, (m ≤ length s)%nat ∧ last_good (S m) l ∧ ∀ m', (m < m' ≤ length s)%nat → ¬ hits m') ∨
  (st = 145 ∧ cp = (p + length s + 2)%nat ∧ yy_last_accepting_state l = 5 ∧
   yy_last_accepting_cpos l = (p + length s + 1)%nat ∧ ∃ t, srun s0 s = Some t).

Lemma same_at_text l l' : same_text l l' → at_text l → at_text l'.
Proof. intros (_ & Hb & _) H. unfold at_text. by rewrite Hb. Qed.

Lemma yy_match_end fuel t l :
  at_text l → srun s0 s = Some t → last_good (length s) l → (1 < fuel)%nat →
  ∃ l', yy_match fuel t (p + length s) l = Some (145, (p + length s + 2)%nat, l') ∧ same_text l l' ∧
    yy_last_accepting_state l' = 5 ∧ yy_last_accepting_cpos l' = (p + length s + 1)%nat.
Proof.
  intros Hat Ht Hl Hf. destruct fuel as [|[|fuel]]; [lia..|].
  assert (srun s0 (take (length s) s) = Some t) as Ht' by (by rewrite firstn_all).
  destruct (note_good l _ t Ht' Hl) as (l1 & Hn & Hl1 & Hs1).
  pose proof (buf_nul l 0 Hat) as Hb0. pose proof (buf_nul l1 1 (same_at_text _ _ Hs1 Hat)) as Hb1.
  rewrite Nat.add_0_r in Hb0.
  exists (set_last 5 (p + length s + 1) l1). split; [|by destruct Hs1 as (?&?&?&?&?)].
    cbn [yy_match]. rewrite (bind_eq _ _ _ (Hb0 ltac:(lia))), (bind_eq _ _ _ nul_class), (bind_eq _ _ _ Hn).
    rewrite (bind_eq _ _ _ (ok_nul _ _ (srun_ok _ _ Ht'))), (bind_eq _ _ _ base_5). cbn [Z.eqb Pos.eqb].
    replace (S (p + length s)) with (p + length s + 1)%nat by lia.
    rewrite (bind_eq _ _ _ (Hb1 ltac:(lia))), (bind_eq _ _ _ nul_class).
    unfold note_accept. rewrite (bind_eq _ _ _ accept_5). cbn [Z.eqb Pos.eqb].
    rewrite (bind_eq (Some _) _ _ eq_refl), (bind_eq _ _ _ trans_5), (bind_eq _ _ _ base_145). cbn [Z.eqb Pos.eqb].
    repeat f_equal. lia.
Qed.

Lemma yy_match_run fuel m t l :
  at_text l → srun s0 (take m s) = Some t → last_good m l → (m ≤ length s)%nat → (length s - m + 1 < fuel)%nat →
  ∃ st cp l', yy_match fuel t (p + m) l = Some (st, cp, l') ∧ same_text l l' ∧ match_result st cp l'.
Proof.
  revert fuel t l. remember (length s - m)%nat as k eqn:Hk. revert m Hk.
  induction k as [|k IH]; intros m Hk fuel t l Hat Ht Hl Hm Hf.
  { assert (m = length s) as -> by lia. rewrite firstn_all in Ht.
    destruct (yy_match_end fuel t l) as (l' & Hrun & Hs & Hlast & Hcpos); [done..|lia|].
    eexists _, _, _. split_and!; [done..|]. right; right. split_and!; [done..|by exists t]. }
  destruct fuel as [|fuel]; [lia|]. destruct (lookup_lt_is_Some_2 s m) as [c Hc]; [lia|].
  destruct (note_good l _ t Ht Hl) as (l1 & Hn & Hl1 & Hs1).
  destruct (live_next _ _ _ Hc Ht) as (cl & t' & Hcl & Htr & Hnext).
  cbn [yy_match]. rewrite (bind_eq _ _ _ (buf_text _ _ _ Hat Hc)), (bind_eq _ _ _ Hcl), (bind_eq _ _ _ Hn), (bind_eq _ _ _ Htr).
  destruct (t' =? 145) eqn:E.
  { apply Z.eqb_eq in E as ->. rewrite (bind_eq _ _ _ base_145). cbn [Z.eqb Pos.eqb].
    eexists _, _, _. split_and!; [done..|]. right; left. split; [done|]. exists m. split_and!; [lia|done|]. intros m' ?. apply Hnext. lia. }
  destruct (ok_base _ _ (srun_ok _ _ Hnext)) as (b & Hb & Hdead). rewrite (bind_eq _ _ _ Hb).
  destruct (b =? 290) eqn:Eb.
  - apply Z.eqb_eq in Eb. destruct (Hdead Eb) as [_ Hd].
    eexists _, _, _. split_and!; [done..|]. left. exists (S m). split_and!; [lia|lia|done|done|].
    intros m' Hm' Hh. destruct (s !! S m) as [d|] eqn:Hd'.
    + by apply (dead_end _ _ Hd' (Hd d (char_not_nul _ _ Hd')) m' ltac:(lia)).
    + apply lookup_ge_None in Hd'. lia.
  - replace (S (p + m)) with (p + S m)%nat by lia.
    destruct (IH (S m) ltac:(lia) fuel t' l1) as (st & cp & l' & Hrun & Hs' & Hr);
      [by eapply same_at_text|done|done|lia|lia|].
    exists st, cp, l'. split_and!; [done|by eapply same_text_trans|done].
Qed.

(** The scan back at the end of the buffer. *)
Lemma yy_previous_run n m t te l :
  at_text l → srun s0 (take m s) = Some t → last_good m l → (m + n = length s)%nat → srun s0 s = Some te →
  ∃ l', yy_previous n t (p + m) l = Some (te, l') ∧ same_text l l' ∧ last_good (length s) l'.
Proof.
  revert m t l. induction n as [|n IH]; intros m t l Hat Ht Hl Hm Hte.
  { assert (m = length s) as -> by lia. rewrite firstn_all in Ht. exists l. split_and!; [|done..]. simpl. congruence. }
  destruct (lookup_lt_is_Some_2 s m) as [c Hc]; [lia|].
  destruct (note_good l _ t Ht Hl) as (l1 & Hn & Hl1 & Hs1).
  destruct (live_next _ _ _ Hc Ht) as (cl & t' & Hcl & Htr & Hnext).
  cbn [yy_previous]. rewrite (bind_eq _ _ _ (buf_text _ _ _ Hat Hc)).
  replace (Ascii.eqb c NUL) with false by (symmetry; apply Ascii.eqb_neq, (char_not_nul _ _ Hc)).
  rewrite (bind_eq _ _ _ Hcl), (bind_eq _ _ _ Hn), (bind_eq _ _ _ Htr).
  assert (srun s0 (take (S m) s) = Some t') as Ht'.
  { destruct (t' =? 145) eqn:E; [|done]. exfalso.
    rewrite <- (take_drop_middle _ _ _ Hc), srun_app, Ht in Hte. cbn [mbind option_bind] in Hte.
    unfold srun in Hte. cbn [steps] in Hte. by rewrite (live_step_eq _ _ _ _ Hcl Htr), E in Hte. }
  replace (S (p + m)) with (p + S m)%nat by lia.
  destruct (IH (S m) t' l1) as (l' & Hrun & Hs' & Hl'); [by eapply same_at_text|done|done|lia|done|].
  exists l'. split_and!; [done|by eapply same_text_trans|done].
Qed.

(** [yy_find_action] in a state of the automaton and in a jam. *)
Lemma find_action_live atof m t bp l i n :
  srun s0 (take m s) = Some t → last_good m l → (m ≤ length s)%nat →
  (∀ m', (m < m' ≤ length s)%nat → ¬ hits m') → best_match i n →
  ∃ q, step atof (FindAction t (p + m) bp) l = Some (inr (DoAction (Z.of_nat i) q (p + n)), before_action (p + n) bp l).
Proof.
  intros Ht Hl Hm Hno (Hn & Hi & Hmin & Hmax).
  destruct (accept_at _ _ Ht) as (a & Ha & Hz & Hnz & Hbest). cbn [step]. rewrite (bind_eq _ _ _ Ha).
  destruct (a =? 0) eqn:E.
  - apply Z.eqb_eq in E. specialize (Hz E).
    destruct Hl as [Hl|(m' & Hm' & Hcp & Hq & Hh & Hl)].
    { exfalso. destruct (decide (n < m)%nat); [apply (Hl n); [done|by exists i]|].
      destruct (decide (n = m)) as [->|]; [by apply Hz; exists i|]. apply (Hno n); [lia|by exists i]. }
    assert (n = m') as ->.
    { destruct (Nat.lt_total n m') as [?|[?|?]]; [|done|].
      - exfalso. apply (Hmax m'); [lia|done].
      - exfalso. destruct (Nat.lt_total n m) as [?|[->|?]].
        + apply (Hl n); [lia|by exists i].
        + by apply Hz; exists i.
        + apply (Hno n); [lia|by exists i]. }
    destruct (accept_at _ _ Hq) as (a' & Ha' & _ & _ & Hbest').
    destruct (Hbest' i Hi Hmin) as [-> _]. rewrite (bind_eq _ _ _ Ha'), Hcp. by eexists.
  - apply Z.eqb_neq in E. specialize (Hnz E).
    assert (n = m) as ->.
    { destruct (Nat.lt_total n m) as [?|[?|?]]; [|done|].
      - exfalso. apply (Hmax m); [lia|done].
      - exfalso. apply (Hno n); [lia|by exists i]. }
    destruct (Hbest i Hi Hmin) as [-> _]. by eexists.
Qed.

Lemma find_action_jam atof m cp bp l i n :
  last_good (S m) l → (m ≤ length s)%nat → (∀ m', (m < m' ≤ length s)%nat → ¬ hits m') → best_match i n →
  ∃ q, step atof (FindAction 145 cp bp) l = Some (inr (DoAction (Z.of_nat i) q (p + n)), before_action (p + n) bp l).
Proof.
  intros Hl Hm Hno (Hn & Hi & Hmin & Hmax). cbn [step]. rewrite (bind_eq _ _ _ accept_145). cbn [Z.eqb].
  assert (n ≤ m)%nat as Hnm.
  { destruct (decide (n ≤ m)%nat); [done|]. exfalso. apply (Hno n); [lia|by exists i]. }
  destruct Hl as [Hl|(m' & Hm' & Hcp & Hq & Hh & Hl)].
  { exfalso. apply (Hl n); [lia|by exists i]. }
  assert (n = m') as ->.
  { destruct (Nat.lt_total n m') as [?|[?|?]]; [|done|].
    - exfalso. apply (Hmax m'); [lia|done].
    - exfalso. apply (Hl n); [lia|by exists i]. }
  destruct (accept_at _ _ Hq) as (a' & Ha' & _ & _ & Hbest').
  destruct (Hbest' i Hi Hmin) as [-> _]. rewrite (bind_eq _ _ _ Ha'), Hcp. by eexists.
Qed.

(** The end of the buffer behind a match that goes up to it. *)
Lemma end_round atof g te i n :
  at_text g → yy_start g = s0 → yy_n_chars g = (p + length s)%nat → (0 < length s)%nat → srun s0 s = Some te →
  yy_last_accepting_state g = 5 → yy_last_accepting_cpos g = (p + length s + 1)%nat → best_match i n →
  ∃ q last cpos, ∀ f, run atof (S (S (S f))) (FindAction 145 (p + length s + 2) p) g =
    run atof f (DoAction (Z.of_nat i) q (p + n))
      (mkScanner s0 (yy_ch_buf g) (yy_n_chars g) (p + n) p last cpos).
Proof.
  intros Hat Hst Hlen Hne Hte Hlast Hcpos Hbest.
  set (g2 := before_action (p + length s + 1) p g). set (g3 := set_c_buf_p (yy_n_chars g) g2).
  destruct (yy_previous_run (length s) 0 s0 te g3) as (g4 & Hprev & Hsame & Hgood);
    [done|by rewrite take_0|left; lia|lia|done|].
  rewrite Nat.add_0_r in Hprev.
  destruct Hsame as (Hb1 & Hb2 & Hb3 & Hb4 & Hb5). simpl in Hb1, Hb2, Hb3, Hb4, Hb5.
  destruct (find_action_live atof (length s) te p g4 i n) as [q Hq]; [by rewrite firstn_all|done|done|lia|done|].
  exists q, (yy_last_accepting_state g4), (yy_last_accepting_cpos g4). intros f.
  rewrite (run_goto _ _ _ (DoAction 45 5 (p + length s + 1)) _ g2).
  2:{ cbn [step]. rewrite (bind_eq _ _ _ accept_145). cbn [Z.eqb]. by rewrite Hlast, (bind_eq _ _ _ accept_5), Hcpos. }
  rewrite (run_goto _ _ _ (FindAction te (p + length s) p) _ g4).
  2:{ rewrite do_end_of_buffer by (simpl; lia). cbv zeta.
      assert (yy_get_previous_state g3 = Some (te, g4)) as Hg3.
      { unfold yy_get_previous_state. simpl. rewrite Hst, Hlen. replace (p + length s - p)%nat with (length s) by lia.
        exact Hprev. }
      change (set_c_buf_p (yy_n_chars g2) g2) with g3. by rewrite (bind_eq _ _ _ Hg3), Hb4, Hb5, Hlen. }
  rewrite (run_goto _ _ _ _ _ _ Hq). unfold before_action. by rewrite Hb1, Hb2, Hb3, Hst.
Qed.

(** From [Scan] to the action of the best match, in five labels. *)
Lemma scan_round atof g i n :
  at_text g → yy_start g = s0 → yy_c_buf_p g = p → yy_n_chars g = (p + length s)%nat → (0 < length s)%nat →
  best_match i n →
  ∃ k q last cpos, (k ≤ 5)%nat ∧
    ∀ f, run atof (k + f) Scan g = run atof f (DoAction (Z.of_nat i) q (p + n))
      (mkScanner s0 (yy_ch_buf g) (yy_n_chars g) (p + n) p last cpos).
Proof.
  intros Hat Hst Hpre Hlen Hne Hbest.
  destruct (yy_match_run (S (length (yy_ch_buf g))) 0 s0 g) as (st & cp & g1 & Hm & Hsame & Hr);
    [done|by rewrite take_0|left; lia|lia|rewrite Hat, !length_app; simpl; lia|].
  rewrite Nat.add_0_r in Hm.
  assert (Hgo : ∀ f, run atof (S (S f)) Scan g = run atof f (FindAction st cp p) g1).
  { intros f. rewrite (run_goto _ _ _ (Match (yy_start g) (yy_c_buf_p g) (yy_c_buf_p g)) _ g) by done.
    apply run_goto. cbn [step]. by rewrite Hst, Hpre, (bind_eq _ _ _ Hm). }
  destruct Hsame as (Hs1 & Hs2 & Hs3 & Hs4 & Hs5).
  destruct Hr as [(m & Hle & -> & Hrun & Hgood & Hno)|[(-> & m & Hle & Hgood & Hno)|(-> & -> & Hlast & Hcpos & te & Hte)]].
  - destruct (find_action_live atof m st p g1 i n) as [q Hq]; [done..|].
    exists 3%nat, q, (yy_last_accepting_state g1), (yy_last_accepting_cpos g1). split; [lia|]. intros f.
    cbn [Nat.add]. rewrite Hgo, (run_goto _ _ _ _ _ _ Hq). unfold before_action. by rewrite Hs1, Hs2, Hs3, Hst.
  - destruct (find_action_jam atof m cp p g1 i n) as [q Hq]; [done..|].
    exists 3%nat, q, (yy_last_accepting_state g1), (yy_last_accepting_cpos g1). split; [lia|]. intros f.
    cbn [Nat.add]. rewrite Hgo, (run_goto _ _ _ _ _ _ Hq). unfold before_action. by rewrite Hs1, Hs2, Hs3, Hst.
  - destruct (end_round atof g1 te i n) as (q & last & cpos & Hend); try done; [by eapply same_at_text|congruence..|].
    exists 5%nat, q, last, cpos. split; [lia|]. intros f. cbn [Nat.add]. rewrite Hgo, Hend. by rewrite Hs2, Hs3.
Qed.

(** The end of the text. *)
Lemma scan_end atof g :
  at_text g → yy_start g = s0 → yy_c_buf_p g = p → yy_n_chars g = p → s = [] →
  ((s0 - 1) / 2 = 0 ∨ (s0 - 1) / 2 = 1) →
  ∃ g', (∀ f, run atof (5 + f) Scan g = Some (T_EOF, g')) ∧
    yy_start g' = s0 ∧ yy_ch_buf g' = yy_ch_buf g ∧ yy_n_chars g' = p ∧ yy_c_buf_p g' = p.
Proof.
  intros Hat Hst Hpre Hlen Hs Heof.
  destruct (yy_match_end (S (length (yy_ch_buf g))) s0 g) as (g1 & Hm & Hsame & Hlast & Hcpos);
    [done|by rewrite Hs|rewrite Hs; left; simpl; lia|rewrite Hat, !length_app; simpl; lia|].
  assert (length s = 0)%nat as Hs0 by (by rewrite Hs). rewrite Hs0, Nat.add_0_r in Hm, Hcpos.
  destruct Hsame as (Hs1 & Hs2 & Hs3 & Hs4 & Hs5).
  set (g2 := before_action (p + 1) p g1). exists (set_c_buf_p p g2). split.
  2:{ simpl. split_and!; congruence. }
  intros f. cbn [Nat.add].
  rewrite (run_goto _ _ _ (Match (yy_start g) (yy_c_buf_p g) (yy_c_buf_p g)) _ g) by done.
  rewrite (run_goto _ _ _ (FindAction 145 (p + 2) p) _ g1).
  2:{ cbn [step]. by rewrite Hst, Hpre, (bind_eq _ _ _ Hm). }
  rewrite (run_goto _ _ _ (DoAction 45 5 (p + 1)) _ g2).
  2:{ cbn [step]. rewrite (bind_eq _ _ _ accept_145). cbn [Z.eqb]. by rewrite Hlast, (bind_eq _ _ _ accept_5), Hcpos. }
  rewrite (run_goto _ _ _ (DoAction (YY_STATE_EOF ((s0 - 1) / 2)) 0 (p + 1)) _ (set_c_buf_p p g2)).
  2:{ cbn [step]. unfold do_action. cbn [Z.eqb YY_END_OF_BUFFER Pos.eqb]. unfold end_of_buffer, yy_get_next_buffer.
      simpl. rewrite Hs3, Hlen, Hs1, Hst. rewrite (proj2 (Nat.leb_gt _ _)) by lia.
      rewrite (proj2 (Nat.ltb_ge _ _)) by lia. replace (p + 1 - p)%nat with 1%nat by lia. done. }
  apply run_ret. cbn [step]. unfold do_action. by destruct Heof as [-> | ->].
Qed.

End match_text.

End automaton.
