(* ===== verification/ScanThms.v ===== *)
(** The committed scanner does what the rules of [lex.l] say. *)
From Stdlib Require Import Ascii.
From S2P Require Import Prelude.
From S2P Require Import Regex.
From S2P Require Import Lexer.
From S2P Require Import LexerThms.
From S2P Require Import TokenText.
From S2P Require Import ScanTables.
From S2P Require Import ScanProofs.

Import ScanTables.

(** ** The choice of the rule *)

(** Every character starts a token, in both start conditions. *)
Definition starts (sc : start_condition) (c : ascii) : bool :=
  existsb (λ r, bool_decide (cond r = sc) && nullable (deriv c (pattern r))) rules.

Lemma starts_all sc c : starts sc c = true.
Proof. destruct sc; apply (every_spec (starts _)); vm_compute; reflexivity. Qed.

Lemma rules_not_nullable r : r ∈ rules → ¬ matches (pattern r) [].
Proof.
  intros Hr. rewrite <- nullable_spec.
  pose proof (forallb_rules (λ r, negb (nullable (pattern r))) rules r) as H.
  rewrite negb_true_iff in H. rewrite H; [done|vm_compute; reflexivity|done].
Qed.

Lemma actions_of_rules : take 43 yy_actions = map act rules.
Proof. vm_compute. reflexivity. Qed.

(** The rule [pick] takes is the best match of the residues, under its number. *)
Lemma pick_best sc s :
  s ≠ [] → ∃ i n a, pick sc s rules = Some (n, a) ∧ (0 < n)%nat ∧ (i < 43)%nat ∧
  best_match (residue0 sc) s (S i) n ∧ yy_actions !! i = Some a.
Proof.
  intros Hs. pose proof (pick_spec sc s rules) as Hp. destruct (pick sc s rules) as [[n a]|].
  - destruct Hp as (i & r & -> & Hi & (Hsc & Hn & Hm) & Hmax).
    assert (∀ j m, (m ≤ length s)%nat → hit (residue0 sc) j (take m s) → (m ≤ n ∧ (m = n → S i ≤ j))%nat) as Hbest.
    { intros [|j] m Hle Hh; [by apply hit_residue0_0 in Hh|].
      apply hit_residue0 in Hh as (r' & Hj & Hc' & Hm'). destruct (Hmax j r' m Hj) as [H1 H2]; [done|]. split; [done|]. intros Hx. specialize (H2 Hx). lia. }
    exists i, n, (act r). split_and!; [done| |by apply (lookup_lt_Some rules _ r)| |].
    + destruct n; [|lia]. exfalso. apply (rules_not_nullable r); [by eapply list_elem_of_lookup_2|done].
    + split_and!; [done|by apply hit_residue0; exists r| |].
      * intros j Hj. by apply (Hbest j n Hn Hj).
      * intros m Hlt [j Hj]. destruct (Hbest j m); [lia|done|lia].
    + assert (take 43 yy_actions !! i = Some (act r)) as Ht.
      { rewrite actions_of_rules, list_lookup_fmap, Hi. done. }
      by apply lookup_take_Some in Ht as [? _].
  - exfalso. destruct s as [|c s]; [done|]. pose proof (starts_all sc c) as H.
    apply existsb_exists in H as (r & Hr%list_elem_of_In & [Hsc%bool_decide_eq_true Hn]%andb_true_iff).
    apply list_elem_of_lookup in Hr as [j Hj]. apply (Hp j r 1%nat Hj). split_and!; [done|simpl; lia|].
    simpl. rewrite take_0. by apply deriv_spec, nullable_spec.
Qed.

Lemma reps_checked : checked reps = true.
Proof. exact (proj1 (andb_prop _ _ reps_check)). Qed.

Lemma start_ok_spec R sc : start_ok R = true → R !! start_number sc = Some (residue0 sc).
Proof.
  unfold start_ok. intros [H1%bool_decide_eq_true H3%bool_decide_eq_true]%andb_true_iff.
  destruct sc; [exact H1|exact H3].
Qed.

Lemma reps_starts sc : reps !! start_number sc = Some (residue0 sc).
Proof. exact (start_ok_spec _ _ (proj2 (andb_prop _ _ reps_check))). Qed.

(** ** A round of the loop *)

Section scan.
  Context (atof : string → Z).

(** The scanner stands in a text without NULs where the model of [lex.l] stands. *)
Record tracks (g : scanner) (l : lexer) : Prop := {
  tr_start : yy_start g = start_number (Lexer.yy_start l);
  tr_text : ∃ pre, yy_ch_buf g = pre ++ yy_rest l ++ [NUL; NUL] ∧ length pre = yy_c_buf_p g;
  tr_len : yy_n_chars g = (yy_c_buf_p g + length (yy_rest l))%nat;
  tr_nul : NUL ∉ yy_rest l }.

(** From [Scan] to the action of the rule that [pick] takes. *)
Lemma scan_to_action g l i n :
  tracks g l → yy_rest l ≠ [] → best_match (residue0 (Lexer.yy_start l)) (yy_rest l) i n →
  ∃ k q last cpos, (k ≤ 5)%nat ∧
    ∀ f, run atof (k + f) Scan g = run atof f (DoAction (Z.of_nat i) q (yy_c_buf_p g + n))
      (mkScanner (yy_start g) (yy_ch_buf g) (yy_n_chars g) (yy_c_buf_p g + n) (yy_c_buf_p g) last cpos).
Proof.
  intros [Hst (pre & Hbuf & Hpre) Hlen Hnul] Hne Hbest. rewrite Hst, <- Hpre.
  eapply (scan_round reps reps_checked _ _ (reps_starts _) (hit_residue0_0 _) pre (yy_rest l) Hnul);
    [exact Hbuf|exact Hst|done|by rewrite Hpre| |exact Hbest].
  destruct (yy_rest l); [done|simpl; lia].
Qed.

(** One match of the tables is one step of the model of [lex.l]. *)
Lemma round_ok g l :
  tracks g l → yy_rest l ≠ [] →
  ∃ k g', (k ≤ 6)%nat ∧ tracks g' (scan_step atof l).2 ∧
    ∀ f, run atof (k + f) Scan g =
      match (scan_step atof l).1 with Some t => Some (t, g') | None => run atof f Scan g' end.
Proof.
  intros Htr Hne. destruct (pick_best (Lexer.yy_start l) (yy_rest l) Hne) as (i & n & a & Hpick & Hn & Hi & Hbest & Ha).
  destruct (scan_to_action g l (S i) n Htr Hne Hbest) as (k & q & last & cpos & Hk & Hrun).
  set (g1 := mkScanner _ _ _ _ _ _ _) in Hrun.
  set (g2 := match a with BEGIN s => set_start (start_number s) g1 | _ => g1 end).
  destruct Htr as [Hst (pre & Hbuf & Hpre) Hlen Hnul]. destruct Hbest as (Hle & _).
  assert (yytext (yy_c_buf_p g + n) g2 = take n (yy_rest l)) as Htext.
  { assert (yy_ch_buf g2 = yy_ch_buf g ∧ yytext_ptr g2 = yy_c_buf_p g) as [Hb Hp] by (unfold g2; by destruct a).
    unfold yytext. rewrite Hb, Hp, Hbuf, <- Hpre, drop_app_length. replace (_ + n - _)%nat with n by lia.
    by rewrite take_app_le by lia. }
  assert (Hact : step atof (DoAction (Z.of_nat (S i)) q (yy_c_buf_p g + n)) g1 =
    Some (match run_action atof a (take n (yy_rest l)) with Some t => inl t | None => inr Scan end, g2)).
  { cbn [step]. unfold do_action, YY_STATE_EOF, YY_END_OF_BUFFER.
    rewrite !(proj2 (Z.eqb_neq _ _)) by lia. cbn [orb].
    replace (Z.to_nat (Z.of_nat (S i) - 1)) with i by lia. rewrite (bind_eq _ _ _ Ha). fold g2. rewrite Htext.
    by destruct (run_action _ _ _). }
  assert (tracks g2 (mkLexer (start_after a (Lexer.yy_start l)) (drop n (yy_rest l)))) as Htr.
  { assert (yy_ch_buf g2 = yy_ch_buf g ∧ yy_n_chars g2 = yy_n_chars g ∧ yy_c_buf_p g2 = (yy_c_buf_p g + n)%nat)
      as (Hb & Hc & Hp) by (unfold g2; by destruct a).
    split; cbn [Lexer.yy_start yy_rest].
    - unfold g2. by destruct a.
    - exists (pre ++ take n (yy_rest l)). rewrite Hb, Hbuf, Hp, length_app, length_take. split; [|lia].
      by rewrite <- (take_drop n (yy_rest l)) at 1; rewrite <- !app_assoc.
    - rewrite Hc, Hp, Hlen, length_drop. lia.
    - intros H. apply Hnul. rewrite <- (take_drop n (yy_rest l)). apply elem_of_app. by right. }
  exists (S k), g2. unfold scan_step. rewrite Hpick. cbn [fst snd]. split_and!; [lia|done|]. intros f.
  replace (S k + f)%nat with (k + S f)%nat by lia. rewrite Hrun. cbn [run]. rewrite (bind_eq _ _ _ Hact).
  by destruct (run_action _ _ _).
Qed.

Lemma run_end g l :
  tracks g l → yy_rest l = [] → ∃ g', (∀ f, run atof (5 + f) Scan g = Some (T_EOF, g')) ∧ tracks g' l.
Proof.
  intros [Hst (pre & Hbuf & Hpre) Hlen Hnul] Hs. rewrite Hs in *.
  destruct (scan_end reps reps_checked _ _ (reps_starts (Lexer.yy_start l)) (hit_residue0_0 _) pre [] Hnul atof g)
    as (g' & Hrun & Hst' & Hb' & Hn' & Hp').
  - exact Hbuf.
  - exact Hst.
  - done.
  - rewrite Hlen, Hpre. simpl. lia.
  - done.
  - by destruct (Lexer.yy_start l); [left|right].
  - exists g'. split; [exact Hrun|]. split.
    + exact Hst'.
    + exists pre. by rewrite Hb', Hp', Hs.
    + rewrite Hn', Hp', Hs. simpl. lia.
    + by rewrite Hs.
Qed.

Lemma run_tokens f fuel g l :
  tracks g l → (6 * S (length (yy_rest l)) ≤ f)%nat → (length (yy_rest l) < fuel)%nat →
  ∃ t g' l', run atof f Scan g = Some (t, g') ∧ Lexer.yylex atof fuel l = Some (t, l') ∧ tracks g' l'.
Proof.
  revert f g l. induction fuel as [|fuel IH]; intros f g l Htr Hf Hfuel; [lia|]. cbn [Lexer.yylex].
  destruct (yy_rest l) as [|c s] eqn:Hs.
  - destruct (run_end g l Htr Hs) as (g' & Hrun & Htr'). exists T_EOF, g', l. split_and!; [|done..].
    replace f with (5 + (f - 5))%nat by lia. apply Hrun.
  - assert (yy_rest l ≠ []) as Hne by (by rewrite Hs).
    pose proof (TokenText.scan_progress atof l Hne) as Hprog.
    destruct (round_ok g l Htr Hne) as (k & g' & Hk & Htr' & Hrun).
    replace f with (k + (f - k))%nat by lia. rewrite Hrun.
    destruct (scan_step atof l) as [[t|] l']; simpl in *; [by exists t, g', l'|].
    apply IH; [done|rewrite Hs in Hprog; simpl in *; lia|rewrite Hs in Hprog; simpl in *; lia].
Qed.

Lemma yylex_tracks g l :
  tracks g l → ∃ t g' l', ScanTables.yylex atof g = Some (t, g') ∧ Lexer.yylex atof (lex_fuel l) l = Some (t, l') ∧ tracks g' l'.
Proof.
  intros Htr. unfold ScanTables.yylex. destruct (Z.eqb_spec (yy_start g) 0) as [E|_].
  { rewrite (tr_start _ _ Htr) in E. by destruct (Lexer.yy_start l). }
  apply run_tokens; [done| |unfold lex_fuel; lia].
  unfold yylex_fuel. rewrite (tr_len _ _ Htr). lia.
Qed.

Lemma scan_bytes_tracks sc text : NUL ∉ text → tracks (yy_scan_bytes (start_number sc) text) (mkLexer sc text).
Proof. intros Hn. split; [done| |done|done]. by exists []. Qed.

End scan.

(** The results of [k] calls, and the scanner after them. *)
Fixpoint calls {T} (lex : T → option (token * T)) (k : nat) (x : T) : option (list token * T) :=
  match k with
  | O => Some ([], x)
  | S k' => '(t, x) ← lex x; '(ts, x) ← calls lex k' x; Some (t :: ts, x)
  end.

(** C21: The tables and the code of [lex.yy.cpp] give, call by call, the tokens that
    the rules of [lex.l] give by the longest match and the first rule, on every text
    without a NUL and from both start conditions; each call returns. *)
Theorem scanner_tables_correct atof sc text k :
  NUL ∉ text →
  ∃ ts g l,
    calls (ScanTables.yylex atof) k (yy_scan_bytes (start_number sc) text) = Some (ts, g) ∧
    calls (λ l, Lexer.yylex atof (lex_fuel l) l) k (mkLexer sc text) = Some (ts, l) ∧
    ScanTables.yy_start g = start_number (Lexer.yy_start l).
Proof.
  intros Hn%(scan_bytes_tracks sc). revert Hn. generalize (yy_scan_bytes (start_number sc) text), (mkLexer sc text).
  induction k as [|k IH]; intros g l Htr; [exists [], g, l; split_and!; [done..|apply Htr]|].
  destruct (yylex_tracks atof g l Htr) as (t & g1 & l1 & Hg & Hl & Htr1).
  destruct (IH g1 l1 Htr1) as (ts & g2 & l2 & Hg2 & Hl2 & Hs). exists (t :: ts), g2, l2. cbn [calls].
  rewrite Hg, Hl. cbn [mbind option_bind]. by rewrite Hg2, Hl2.
Qed.

(** A statement and a string that does not end: nine tokens, and the end of the
    text from then on. *)
Definition demo_scan : chars := String.list_ascii_of_string "SELECT * FROM t1; /* x */ 'ab".

Lemma scanner_tables_correct_witness :
  (fst <$> calls (ScanTables.yylex (λ _, 0)) 9 (yy_scan_bytes (start_number INITIAL) demo_scan) =
    Some [SELECT; CHR "*"%char; FROM; IDENTIFIER "t1"; CHR ";"%char; IDENTIFIER "ab"; T_EOF; T_EOF; T_EOF]) ∧
  ∃ ts g l,
    calls (ScanTables.yylex (λ _, 0)) 9 (yy_scan_bytes (start_number INITIAL) demo_scan) = Some (ts, g) ∧
    calls (λ l, Lexer.yylex (λ _, 0) (lex_fuel l) l) 9 (mkLexer INITIAL demo_scan) = Some (ts, l) ∧
    ScanTables.yy_start g = start_number (Lexer.yy_start l).
Proof.
  split; [vm_compute; reflexivity|]. apply (scanner_tables_correct (λ _, 0) INITIAL demo_scan 9).
  apply (bool_decide_eq_true_1 (NUL ∉ demo_scan)). vm_compute. reflexivity.
Defined.
