(* ===== verification/ParseTables.v ===== *)
(** The parser as it is committed, [src/src/parser/yacc.tab.cpp]: the tables bison
    made of [yacc.y] and the automaton that runs them, with the value stack and
    the actions.

    A value of the stack is a [SemValue] with all its members, of which an action
    sets one: the others keep what was in the slot before, and the slots above the
    top of the stack keep what was popped (the value of an empty rule starts as
    what the slot above the top holds).  A member that nothing has set yet and
    that C++ does not initialise is [None], like a null [shared_ptr].  Locations,
    the text of the error messages and [yydebug] are left out.  Reads outside a
    table are [None].

    [YYSTYPE] is no trivial type, so [YYSTACK_RELOCATE] is not defined: the stack
    does not grow, and a parse that fills it ends with result 2. *)
From Stdlib Require Import Ascii.
From S2P Require Import Prelude.
From S2P Require Import Lexer.
From S2P Require Import Ast.
Import ast.

Module ParseTables.

(** ** Tables *)

Definition YYINITDEPTH : nat := 200.
Definition YYFINAL : Z := 39.
Definition YYLAST : Z := 100.
Definition YYNTOKENS : Z := 47.
Definition YYUNDEFTOK : Z := 2.
Definition YYMAXUTOK : Z := 292.
Definition YYPACT_NINF : Z := -68.
Definition YYTERROR : Z := 1.

Definition yytranslate : list Z :=
  [0; 2; 2; 2; 2; 2; 2; 2; 2; 2; 2; 2; 2; 2; 2; 2; 2; 2; 2; 2; 2; 2; 2; 2; 2; 2; 2; 2; 2; 2; 2;
   2; 2; 2; 2; 2; 2; 2; 2; 2; 39; 40; 46; 2; 41; 2; 42; 2; 2; 2; 2; 2; 2; 2; 2; 2; 2; 2; 2; 38;
   44; 43; 45; 2; 2; 2; 2; 2; 2; 2; 2; 2; 2; 2; 2; 2; 2; 2; 2; 2; 2; 2; 2; 2; 2; 2; 2; 2; 2; 2;
   2; 2; 2; 2; 2; 2; 2; 2; 2; 2; 2; 2; 2; 2; 2; 2; 2; 2; 2; 2; 2; 2; 2; 2; 2; 2; 2; 2; 2; 2; 2;
   2; 2; 2; 2; 2; 2; 2; 2; 2; 2; 2; 2; 2; 2; 2; 2; 2; 2; 2; 2; 2; 2; 2; 2; 2; 2; 2; 2; 2; 2; 2;
   2; 2; 2; 2; 2; 2; 2; 2; 2; 2; 2; 2; 2; 2; 2; 2; 2; 2; 2; 2; 2; 2; 2; 2; 2; 2; 2; 2; 2; 2; 2;
   2; 2; 2; 2; 2; 2; 2; 2; 2; 2; 2; 2; 2; 2; 2; 2; 2; 2; 2; 2; 2; 2; 2; 2; 2; 2; 2; 2; 2; 2; 2;
   2; 2; 2; 2; 2; 2; 2; 2; 2; 2; 2; 2; 2; 2; 2; 2; 2; 2; 2; 2; 2; 2; 2; 2; 2; 2; 2; 2; 2; 2; 2;
   2; 2; 2; 2; 2; 2; 2; 2; 2; 2; 2; 1; 2; 3; 4; 5; 6; 7; 8; 9; 10; 11; 12; 13; 14; 15; 16; 17;
   18; 19; 20; 21; 22; 23; 24; 25; 26; 27; 28; 29; 30; 31; 32; 33; 34; 35; 36; 37].

Definition yypact : list Z :=
  [40; 34; 7; 10; -20; 29; 37; -20; -2; -68; -68; -68; -68; -68; -68; -68; 42; 13; -68; -68; -68;
   -68; -68; -20; -20; -20; -20; -68; -68; -20; -20; 38; 11; -68; -68; 15; 49; 21; -68; -68; -68;
   41; 43; -68; 44; 68; 67; 50; 51; -20; 50; 50; 50; 50; 47; 51; -68; -68; -4; -68; 45; -68; -11;
   -68; -68; -16; -68; -1; 53; 54; 35; -68; 65; 46; 50; -68; 35; -20; -20; -68; -68; 50; -68; 56;
   -68; -68; -68; -68; -68; -68; -68; -6; -68; 51; -68; -68; -68; -68; -68; -68; 24; -68; -68;
   -68; -68; -68; 60; -68; 35; -68; -68; -68; -68; 57; -68; -68].

Definition yydefact : list Z :=
  [0; 0; 0; 0; 0; 0; 0; 0; 0; 4; 3; 10; 11; 12; 13; 5; 0; 0; 9; 6; 7; 8; 14; 0; 0; 0; 0; 60; 17;
   0; 0; 0; 61; 55; 42; 56; 0; 0; 41; 1; 2; 0; 0; 16; 0; 0; 36; 0; 0; 0; 0; 0; 0; 0; 0; 0; 21;
   61; 36; 52; 0; 43; 36; 57; 40; 0; 24; 0; 0; 0; 0; 38; 37; 0; 0; 22; 0; 0; 0; 23; 15; 0; 27; 0;
   29; 26; 18; 19; 34; 32; 33; 0; 30; 0; 48; 47; 49; 44; 45; 46; 0; 53; 54; 59; 58; 25; 0; 20; 0;
   39; 50; 51; 35; 0; 31; 28].

Definition yypgoto : list Z :=
  [-68; -68; -68; -68; -68; -68; -68; -68; 17; -68; -68; -67; 6; -47; -68; -8; -68; -68; -68;
   -68; 26; -68; -68; -3; -45].

Definition yydefgoto : list Z :=
  [-1; 16; 17; 18; 19; 20; 21; 65; 66; 85; 91; 92; 71; 56; 72; 73; 35; 100; 112; 58; 59; 36; 62;
   37; 38].

Definition yytable : list Z :=
  [34; 28; 60; 55; 31; 64; 67; 68; 69; 102; 55; 75; 77; 23; 27; 79; 25; 82; 83; 84; 41; 42; 43;
   44; 80; 81; 45; 46; 24; 60; 78; 26; 32; 110; 107; 108; 67; 74; 22; 29; 61; 114; 39; 1; 33; 2;
   63; 3; 4; 5; 30; 40; 6; -60; 47; 7; 48; 8; 32; 88; 89; 90; 49; 50; 9; 10; 11; 12; 13; 14; 88;
   89; 90; 15; 103; 104; 94; 95; 96; 54; 51; 55; 52; 53; 57; 32; 70; 93; 76; 97; 98; 99; 111; 86;
   87; 106; 113; 115; 105; 109; 101].

Definition yycheck : list Z :=
  [8; 4; 47; 14; 7; 50; 51; 52; 53; 76; 14; 58; 23; 6; 34; 62; 6; 18; 19; 20; 23; 24; 25; 26; 40;
   41; 29; 30; 21; 74; 41; 21; 34; 100; 40; 41; 81; 41; 4; 10; 48; 108; 0; 3; 46; 5; 49; 7; 8; 9;
   13; 38; 12; 42; 16; 15; 41; 17; 34; 35; 36; 37; 13; 42; 24; 25; 26; 27; 28; 29; 35; 36; 37;
   33; 77; 78; 30; 31; 32; 11; 39; 14; 39; 39; 34; 34; 39; 22; 43; 43; 44; 45; 100; 40; 40; 39;
   36; 40; 81; 93; 74].

Definition yyr1 : list Z :=
  [0; 47; 48; 48; 48; 48; 49; 49; 49; 49; 50; 50; 50; 50; 51; 52; 52; 52; 52; 52; 53; 53; 53; 53;
   54; 54; 55; 56; 56; 56; 57; 57; 58; 58; 58; 59; 60; 60; 61; 61; 62; 62; 63; 63; 64; 64; 64;
   64; 64; 64; 65; 65; 66; 66; 67; 68; 68; 69; 69; 69; 70; 71].

Definition yyr2 : list Z :=
  [0; 2; 2; 1; 1; 1; 1; 1; 1; 1; 1; 1; 1; 1; 2; 6; 3; 2; 6; 6; 7; 4; 5; 5; 1; 3; 2; 1; 4; 1; 1;
   3; 1; 1; 1; 3; 0; 2; 1; 3; 3; 1; 1; 3; 1; 1; 1; 1; 1; 1; 1; 1; 1; 3; 3; 1; 1; 1; 3; 3; 1; 1].

Definition at_ (t : list Z) (i : Z) : option Z := if i <? 0 then None else t !! Z.to_nat i.

(** ** Tokens *)

(** [enum yytokentype]; a character is its own number.  [ATOI_UNDEFINED] is no
    token: the call of the scanner that gives it has no defined result. *)
Definition yytokentype (t : token) : Z :=
  match t with
  | SHOW => 258 | TABLES => 259 | CREATE => 260 | TABLE => 261 | DROP => 262 | DESC => 263
  | INSERT => 264 | INTO => 265 | VALUES => 266 | DELETE => 267 | FROM => 268 | WHERE => 269
  | UPDATE => 270 | SET => 271 | SELECT => 272 | INT => 273 | CHAR => 274 | FLOAT => 275
  | INDEX => 276 | AND => 277 | JOIN => 278 | EXIT => 279 | HELP => 280 | TXN_BEGIN => 281
  | TXN_COMMIT => 282 | TXN_ABORT => 283 | TXN_ROLLBACK => 284 | LEQ => 285 | NEQ => 286
  | GEQ => 287 | T_EOF => 288 | IDENTIFIER _ => 289 | VALUE_STRING _ => 290 | VALUE_INT _ => 291
  | VALUE_FLOAT _ => 292
  | CHR c => Z.of_nat (nat_of_ascii c)
  | ATOI_UNDEFINED => YYUNDEFTOK
  end.

Definition YYTRANSLATE (yyx : Z) : option Z :=
  if (0 <=? yyx) && (yyx <=? YYMAXUTOK) then at_ yytranslate yyx else Some YYUNDEFTOK.

(** ** Values *)

Record SemValue := mkSemValue {
  sv_int : option Z;
  sv_float : option Z;
  sv_str : string;
  sv_strs : list string;
  sv_node : option TreeNode;
  sv_comp_op : option SvCompOp;
  sv_type_len : option TypeLen;
  sv_field : option Field;
  sv_fields : list Field;
  sv_expr : option Expr;
  sv_val : option Value;
  sv_vals : list Value;
  sv_col : option Col;
  sv_cols : list Col;
  sv_set_clause : option SetClause;
  sv_set_clauses : list SetClause;
  sv_cond : option BinaryExpr;
  sv_conds : list BinaryExpr }.

Definition SemValue0 : SemValue :=
  mkSemValue None None "" [] None None None None [] None None [] None [] None [] None [].

(** Assignments to one member. *)
Definition set_sv_int (x : option Z) (v : SemValue) : SemValue :=
  mkSemValue x (sv_float v) (sv_str v) (sv_strs v) (sv_node v) (sv_comp_op v) (sv_type_len v)
    (sv_field v) (sv_fields v) (sv_expr v) (sv_val v) (sv_vals v) (sv_col v) (sv_cols v)
    (sv_set_clause v) (sv_set_clauses v) (sv_cond v) (sv_conds v).
Definition set_sv_float (x : option Z) (v : SemValue) : SemValue :=
  mkSemValue (sv_int v) x (sv_str v) (sv_strs v) (sv_node v) (sv_comp_op v) (sv_type_len v)
    (sv_field v) (sv_fields v) (sv_expr v) (sv_val v) (sv_vals v) (sv_col v) (sv_cols v)
    (sv_set_clause v) (sv_set_clauses v) (sv_cond v) (sv_conds v).
Definition set_sv_str (x : string) (v : SemValue) : SemValue :=
  mkSemValue (sv_int v) (sv_float v) x (sv_strs v) (sv_node v) (sv_comp_op v) (sv_type_len v)
    (sv_field v) (sv_fields v) (sv_expr v) (sv_val v) (sv_vals v) (sv_col v) (sv_cols v)
    (sv_set_clause v) (sv_set_clauses v) (sv_cond v) (sv_conds v).
Definition set_sv_strs (x : list string) (v : SemValue) : SemValue :=
  mkSemValue (sv_int v) (sv_float v) (sv_str v) x (sv_node v) (sv_comp_op v) (sv_type_len v)
    (sv_field v) (sv_fields v) (sv_expr v) (sv_val v) (sv_vals v) (sv_col v) (sv_cols v)
    (sv_set_clause v) (sv_set_clauses v) (sv_cond v) (sv_conds v).
Definition set_sv_node (x : option TreeNode) (v : SemValue) : SemValue :=
  mkSemValue (sv_int v) (sv_float v) (sv_str v) (sv_strs v) x (sv_comp_op v) (sv_type_len v)
    (sv_field v) (sv_fields v) (sv_expr v) (sv_val v) (sv_vals v) (sv_col v) (sv_cols v)
    (sv_set_clause v) (sv_set_clauses v) (sv_cond v) (sv_conds v).
Definition set_sv_comp_op (x : option SvCompOp) (v : SemValue) : SemValue :=
  mkSemValue (sv_int v) (sv_float v) (sv_str v) (sv_strs v) (sv_node v) x (sv_type_len v)
    (sv_field v) (sv_fields v) (sv_expr v) (sv_val v) (sv_vals v) (sv_col v) (sv_cols v)
    (sv_set_clause v) (sv_set_clauses v) (sv_cond v) (sv_conds v).
Definition set_sv_type_len (x : option TypeLen) (v : SemValue) : SemValue :=
  mkSemValue (sv_int v) (sv_float v) (sv_str v) (sv_strs v) (sv_node v) (sv_comp_op v) x
    (sv_field v) (sv_fields v) (sv_expr v) (sv_val v) (sv_vals v) (sv_col v) (sv_cols v)
    (sv_set_clause v) (sv_set_clauses v) (sv_cond v) (sv_conds v).
Definition set_sv_field (x : option Field) (v : SemValue) : SemValue :=
  mkSemValue (sv_int v) (sv_float v) (sv_str v) (sv_strs v) (sv_node v) (sv_comp_op v)
    (sv_type_len v) x (sv_fields v) (sv_expr v) (sv_val v) (sv_vals v) (sv_col v) (sv_cols v)
    (sv_set_clause v) (sv_set_clauses v) (sv_cond v) (sv_conds v).
Definition set_sv_fields (x : list Field) (v : SemValue) : SemValue :=
  mkSemValue (sv_int v) (sv_float v) (sv_str v) (sv_strs v) (sv_node v) (sv_comp_op v)
    (sv_type_len v) (sv_field v) x (sv_expr v) (sv_val v) (sv_vals v) (sv_col v) (sv_cols v)
    (sv_set_clause v) (sv_set_clauses v) (sv_cond v) (sv_conds v).
Definition set_sv_expr (x : option Expr) (v : SemValue) : SemValue :=
  mkSemValue (sv_int v) (sv_float v) (sv_str v) (sv_strs v) (sv_node v) (sv_comp_op v)
    (sv_type_len v) (sv_field v) (sv_fields v) x (sv_val v) (sv_vals v) (sv_col v) (sv_cols v)
    (sv_set_clause v) (sv_set_clauses v) (sv_cond v) (sv_conds v).
Definition set_sv_val (x : option Value) (v : SemValue) : SemValue :=
  mkSemValue (sv_int v) (sv_float v) (sv_str v) (sv_strs v) (sv_node v) (sv_comp_op v)
    (sv_type_len v) (sv_field v) (sv_fields v) (sv_expr v) x (sv_vals v) (sv_col v) (sv_cols
    v) (sv_set_clause v) (sv_set_clauses v) (sv_cond v) (sv_conds v).
Definition set_sv_vals (x : list Value) (v : SemValue) : SemValue :=
  mkSemValue (sv_int v) (sv_float v) (sv_str v) (sv_strs v) (sv_node v) (sv_comp_op v)
    (sv_type_len v) (sv_field v) (sv_fields v) (sv_expr v) (sv_val v) x (sv_col v) (sv_cols v)
    (sv_set_clause v) (sv_set_clauses v) (sv_cond v) (sv_conds v).
Definition set_sv_col (x : option Col) (v : SemValue) : SemValue :=
  mkSemValue (sv_int v) (sv_float v) (sv_str v) (sv_strs v) (sv_node v) (sv_comp_op v)
    (sv_type_len v) (sv_field v) (sv_fields v) (sv_expr v) (sv_val v) (sv_vals v) x (sv_cols
    v) (sv_set_clause v) (sv_set_clauses v) (sv_cond v) (sv_conds v).
Definition set_sv_cols (x : list Col) (v : SemValue) : SemValue :=
  mkSemValue (sv_int v) (sv_float v) (sv_str v) (sv_strs v) (sv_node v) (sv_comp_op v)
    (sv_type_len v) (sv_field v) (sv_fields v) (sv_expr v) (sv_val v) (sv_vals v) (sv_col v) x
    (sv_set_clause v) (sv_set_clauses v) (sv_cond v) (sv_conds v).
Definition set_sv_set_clause (x : option SetClause) (v : SemValue) : SemValue :=
  mkSemValue (sv_int v) (sv_float v) (sv_str v) (sv_strs v) (sv_node v) (sv_comp_op v)
    (sv_type_len v) (sv_field v) (sv_fields v) (sv_expr v) (sv_val v) (sv_vals v) (sv_col v)
    (sv_cols v) x (sv_set_clauses v) (sv_cond v) (sv_conds v).
Definition set_sv_set_clauses (x : list SetClause) (v : SemValue) : SemValue :=
  mkSemValue (sv_int v) (sv_float v) (sv_str v) (sv_strs v) (sv_node v) (sv_comp_op v)
    (sv_type_len v) (sv_field v) (sv_fields v) (sv_expr v) (sv_val v) (sv_vals v) (sv_col v)
    (sv_cols v) (sv_set_clause v) x (sv_cond v) (sv_conds v).
Definition set_sv_cond (x : option BinaryExpr) (v : SemValue) : SemValue :=
  mkSemValue (sv_int v) (sv_float v) (sv_str v) (sv_strs v) (sv_node v) (sv_comp_op v)
    (sv_type_len v) (sv_field v) (sv_fields v) (sv_expr v) (sv_val v) (sv_vals v) (sv_col v)
    (sv_cols v) (sv_set_clause v) (sv_set_clauses v) x (sv_conds v).
Definition set_sv_conds (x : list BinaryExpr) (v : SemValue) : SemValue :=
  mkSemValue (sv_int v) (sv_float v) (sv_str v) (sv_strs v) (sv_node v) (sv_comp_op v)
    (sv_type_len v) (sv_field v) (sv_fields v) (sv_expr v) (sv_val v) (sv_vals v) (sv_col v)
    (sv_cols v) (sv_set_clause v) (sv_set_clauses v) (sv_cond v) x.

(** What the scanner writes into [yylval]. *)
Definition set_yylval (t : token) (yylval : SemValue) : SemValue :=
  match t with
  | IDENTIFIER s | VALUE_STRING s => set_sv_str s yylval
  | VALUE_INT n => set_sv_int (Some n) yylval
  | VALUE_FLOAT f => set_sv_float (Some f) yylval
  | _ => yylval
  end.

(** ** Actions: [switch (yyn)] *)

(** [yyvsp k] is [yyvsp[-k]].  [None]: a member that holds nothing is used. *)
Definition yyactions (yyn : Z) (yyvsp : nat → SemValue) (yyval : SemValue) : option SemValue :=
  let v := yyvsp in
  let node x := Some (set_sv_node (Some x) yyval) in
  match yyn with
  | 10 => node TxnBegin
  | 11 => node TxnCommit
  | 12 => node TxnAbort
  | 13 => node TxnRollback
  | 14 => node ShowTables
  | 15 => node (CreateTable (sv_str (v 3%nat)) (sv_fields (v 1%nat)))
  | 16 => node (DropTable (sv_str (v 0%nat)))
  | 17 => node (DescTable (sv_str (v 0%nat)))
  | 18 => node (CreateIndex (sv_str (v 3%nat)) (sv_str (v 1%nat)))
  | 19 => node (DropIndex (sv_str (v 3%nat)) (sv_str (v 1%nat)))
  | 20 => node (InsertStmt (sv_str (v 4%nat)) (sv_vals (v 1%nat)))
  | 21 => node (DeleteStmt (sv_str (v 1%nat)) (sv_conds (v 0%nat)))
  | 22 => node (UpdateStmt (sv_str (v 3%nat)) (sv_set_clauses (v 1%nat)) (sv_conds (v 0%nat)))
  | 23 => node (SelectStmt (sv_cols (v 3%nat)) (sv_strs (v 1%nat)) (sv_conds (v 0%nat)))
  | 24 => x ← sv_field (v 0%nat); Some (set_sv_fields [x] yyval)
  | 25 => x ← sv_field (v 0%nat); Some (set_sv_fields (sv_fields yyval ++ [x]) yyval)
  | 26 => x ← sv_type_len (v 0%nat); Some (set_sv_field (Some (ColDef (sv_str (v 1%nat)) x)) yyval)
  | 27 => Some (set_sv_type_len (Some (mkTypeLen SV_TYPE_INT 4)) yyval)
  | 28 => n ← sv_int (v 1%nat); Some (set_sv_type_len (Some (mkTypeLen SV_TYPE_STRING n)) yyval)
  | 29 => Some (set_sv_type_len (Some (mkTypeLen SV_TYPE_FLOAT 4)) yyval)
  | 30 => x ← sv_val (v 0%nat); Some (set_sv_vals [x] yyval)
  | 31 => x ← sv_val (v 0%nat); Some (set_sv_vals (sv_vals yyval ++ [x]) yyval)
  | 32 => n ← sv_int (v 0%nat); Some (set_sv_val (Some (IntLit n)) yyval)
  | 33 => f ← sv_float (v 0%nat); Some (set_sv_val (Some (FloatLit f)) yyval)
  | 34 => Some (set_sv_val (Some (StringLit (sv_str (v 0%nat)))) yyval)
  | 35 =>
      c ← sv_col (v 2%nat); o ← sv_comp_op (v 1%nat); e ← sv_expr (v 0%nat);
      Some (set_sv_cond (Some (mkBinaryExpr c o e)) yyval)
  | 37 => Some (set_sv_conds (sv_conds (v 0%nat)) yyval)
  | 38 => x ← sv_cond (v 0%nat); Some (set_sv_conds [x] yyval)
  | 39 => x ← sv_cond (v 0%nat); Some (set_sv_conds (sv_conds yyval ++ [x]) yyval)
  | 40 => Some (set_sv_col (Some (mkCol (sv_str (v 2%nat)) (sv_str (v 0%nat)))) yyval)
  | 41 => Some (set_sv_col (Some (mkCol "" (sv_str (v 0%nat)))) yyval)
  | 42 => x ← sv_col (v 0%nat); Some (set_sv_cols [x] yyval)
  | 43 => x ← sv_col (v 0%nat); Some (set_sv_cols (sv_cols yyval ++ [x]) yyval)
  | 44 => Some (set_sv_comp_op (Some SV_OP_EQ) yyval)
  | 45 => Some (set_sv_comp_op (Some SV_OP_LT) yyval)
  | 46 => Some (set_sv_comp_op (Some SV_OP_GT) yyval)
  | 47 => Some (set_sv_comp_op (Some SV_OP_NE) yyval)
  | 48 => Some (set_sv_comp_op (Some SV_OP_LE) yyval)
  | 49 => Some (set_sv_comp_op (Some SV_OP_GE) yyval)
  | 50 => x ← sv_val (v 0%nat); Some (set_sv_expr (Some (ValueExpr x)) yyval)
  | 51 => x ← sv_col (v 0%nat); Some (set_sv_expr (Some (ColExpr x)) yyval)
  | 52 => x ← sv_set_clause (v 0%nat); Some (set_sv_set_clauses [x] yyval)
  | 53 => x ← sv_set_clause (v 0%nat); Some (set_sv_set_clauses (sv_set_clauses yyval ++ [x]) yyval)
  | 54 => x ← sv_val (v 0%nat); Some (set_sv_set_clause (Some (mkSetClause (sv_str (v 2%nat)) x)) yyval)
  | 55 => Some (set_sv_cols [] yyval)
  | 57 => Some (set_sv_strs [sv_str (v 0%nat)] yyval)
  | 58 | 59 => Some (set_sv_strs (sv_strs yyval ++ [sv_str (v 0%nat)]) yyval)
  | _ => Some yyval
  end.

(** The rules whose action ends with [YYACCEPT], and [parse_tree]. *)
Definition yyaccepts (yyn : Z) (yyvsp : nat → SemValue) : option (option TreeNode) :=
  match yyn with
  | 2 => Some (sv_node (yyvsp 1%nat))
  | 3 => Some (Some Help)
  | 4 | 5 => Some None
  | _ => None
  end.

(** ** Decisions of the tables *)

Inductive action := Shift (s : Z) | Reduce (yyn : Z) | Err.

(** [yydefault] *)
Definition yydefault (yystate : Z) : option action :=
  yyn ← at_ yydefact yystate; Some (if yyn =? 0 then Err else Reduce yyn).

(** [yypact_value_is_default]: no token is needed. *)
Definition yydefault_only (yystate : Z) : option bool :=
  yyn ← at_ yypact yystate; Some (yyn =? YYPACT_NINF).

(** [yybackup] with a token. *)
Definition yybackup (yystate yytoken : Z) : option action :=
  yyn ← at_ yypact yystate;
  let yyn := yyn + yytoken in
  if (yyn <? 0) || (YYLAST <? yyn) then yydefault yystate
  else
    c ← at_ yycheck yyn;
    if negb (c =? yytoken) then yydefault yystate
    else n ← at_ yytable yyn; Some (if n <=? 0 then Reduce (- n) else Shift n).

(** The state after a reduction, on top of [yystate]. *)
Definition yygoto (yyn yystate : Z) : option Z :=
  lhs ← at_ yyr1 yyn;
  let yylhs := lhs - YYNTOKENS in
  g ← at_ yypgoto yylhs;
  let yyi := g + yystate in
  if (0 <=? yyi) && (yyi <=? YYLAST) then
    c ← at_ yycheck yyi;
    if c =? yystate then at_ yytable yyi else at_ yydefgoto yylhs
  else at_ yydefgoto yylhs.

(** [yyerrlab1]: the state that shifts the error token. *)
Definition yyerror_shift (yystate : Z) : option (option Z) :=
  yyn ← at_ yypact yystate;
  if yyn =? YYPACT_NINF then Some None
  else
    let yyn := yyn + YYTERROR in
    if (0 <=? yyn) && (yyn <=? YYLAST) then
      c ← at_ yycheck yyn;
      n ← at_ yytable yyn;
      Some (if (c =? YYTERROR) && (0 <? n) then Some n else None)
    else Some None.

(** ** The automaton *)

Section yyparse.
  (** the scanner *)
  Context {T : Type} (yylex : T → option (token * T)).

(** The stack with its top first; the bottom is the initial state, whose value is
    never read.  [above] are the values left in the slots above the top. *)
Record parser := mkParser {
  stack : list (Z * SemValue);
  above : list SemValue;
  yychar : option token;                   (* None: YYEMPTY *)
  yylval : SemValue;
  yyerrstatus : Z;
  source : T }.

Definition parser0 (x : T) : parser := mkParser [(0, SemValue0)] [] None SemValue0 0 x.

(** The results of [yyparse]: 0 with [parse_tree], 1, 2. *)
Inductive yyresult :=
  | Accepted (parse_tree : option TreeNode)
  | Aborted
  | Exhausted
  | Undefined.

Definition push (s : Z) (v : SemValue) (p : parser) : parser :=
  mkParser ((s, v) :: stack p) (tail (above p)) (yychar p) (yylval p) (yyerrstatus p) (source p).

(** [YYPOPSTACK] *)
Definition pop (n : nat) (p : parser) : parser :=
  mkParser (drop n (stack p)) (rev (map snd (take n (stack p))) ++ above p)
    (yychar p) (yylval p) (yyerrstatus p) (source p).

Definition set_lookahead (c : option token) (p : parser) : parser :=
  mkParser (stack p) (above p) c (yylval p) (yyerrstatus p) (source p).
Definition set_errstatus (e : Z) (p : parser) : parser :=
  mkParser (stack p) (above p) (yychar p) (yylval p) e (source p).

(** Read a token if there is none. *)
Definition lookahead (p : parser) : option (token * parser) :=
  match yychar p with
  | Some t => Some (t, p)
  | None =>
      '(t, x) ← yylex (source p);
      Some (t, mkParser (stack p) (above p) (Some t) (set_yylval t (yylval p)) (yyerrstatus p) x)
  end.

(** Shift the lookahead. *)
Definition do_shift (s : Z) (p : parser) : parser :=
  set_lookahead None
    (push s (yylval p) (set_errstatus (if yyerrstatus p =? 0 then 0 else yyerrstatus p - 1) p)).

(** [yyreduce] *)
Definition do_reduce (yyn : Z) (p : parser) : option (yyresult + parser) :=
  len ← at_ yyr2 yyn;
  let yylen := Z.to_nat len in
  let yyvsp k := snd (default (0, SemValue0) (stack p !! k)) in
  let yyval := match yylen with O => default SemValue0 (head (above p)) | S k => yyvsp k end in
  match yyaccepts yyn yyvsp with
  | Some tree => Some (inl (Accepted tree))
  | None =>
      yyval ← yyactions yyn yyvsp yyval;
      let p := pop yylen p in
      '(top, _) ← head (stack p);
      s ← yygoto yyn top;
      Some (inr (push s yyval p))
  end.

(** [yyerrlab1]: pop until a state shifts the error token; the bottom aborts. *)
Fixpoint recover (l : list (Z * SemValue)) (n : nat) (p : parser) : option (yyresult + parser) :=
  match l with
  | [] => None
  | (s, _) :: l' =>
      e ← yyerror_shift s;
      match e, l' with
      | Some s', _ => Some (inr (push s' (yylval p) (set_errstatus 3 (pop n p))))
      | None, [] => Some (inl Aborted)
      | None, _ => recover l' (S n) p
      end
  end.

(** [yyerrlab]: after an error that followed an error the token is discarded,
    and the end of the input ([YYEOF]) aborts. *)
Definition do_error (p : parser) : option (yyresult + parser) :=
  if yyerrstatus p =? 3 then
    match yychar p with
    | Some t =>
        if yytokentype t =? 0 then Some (inl Aborted)
        else let p := set_lookahead None p in recover (stack p) 0 p
    | None => recover (stack p) 0 p
    end
  else recover (stack p) 0 p.

Definition do_action (a : action) (p : parser) : option (yyresult + parser) :=
  match a with
  | Shift s => Some (inr (do_shift s p))
  | Reduce yyn => do_reduce yyn p
  | Err => do_error p
  end.

(** From [yysetstate] to the next [yynewstate]. *)
Definition step (p : parser) : option (yyresult * parser + parser) :=
  let stop (r : option (yyresult + parser)) (p : parser) :=
    r ← r; Some (match r with inl x => inl (x, p) | inr p' => inr p' end) in
  '(yystate, _) ← head (stack p);
  if (YYINITDEPTH <=? length (stack p))%nat then Some (inl (Exhausted, p))
  else if yystate =? YYFINAL then Some (inl (Accepted None, p))
  else
    d ← yydefault_only yystate;
    if d : bool then a ← yydefault yystate; stop (do_action a p) p
    else
      '(t, p) ← lookahead p;
      if bool_decide (t = ATOI_UNDEFINED) then Some (inl (Undefined, p))
      else
        yytoken ← YYTRANSLATE (yytokentype t);
        a ← yybackup yystate yytoken;
        stop (do_action a p) p.

Fixpoint run (fuel : nat) (p : parser) : option (yyresult * T) :=
  match fuel with
  | O => None
  | S fuel' =>
      r ← step p;
      match r with
      | inl (x, p) => Some (x, source p)
      | inr p => run fuel' p
      end
  end.

(** [yyparse()] with at most [fuel] shifts and reductions. *)
Definition yyparse (fuel : nat) (x : T) : option (yyresult * T) := run fuel (parser0 x).

End yyparse.

End ParseTables.
