(* ===== verification/ParseProofs.v ===== *)
(** Runs of the tables of [yacc.tab.cpp] against the parser of [Grammar], one
    nonterminal at a time.

    [trip] is the contract of a piece of the grammar's parser: when the automaton
    stands in a known state before the same tokens, it makes the shifts and
    reductions of that piece, in a number of steps that the tokens pay for (eight
    for each token; the first number of a [trip] is what is left over), and an
    error of one is an error of the other.  What the tables do in a state is found
    by computation. *)
From Stdlib Require Import Ascii.
From S2P Require Import Prelude.
From S2P Require Import Regex.
From S2P Require Import Lexer.
From S2P Require Import Ast.
From S2P Require Import Grammar.
From S2P Require Import ParseTables.

Import ast ParseTables.
#[local] Open Scope parse_scope.

(** ** Symbols *)

Definition sym (t : token) : Z := default YYUNDEFTOK (YYTRANSLATE (yytokentype t)).

Definition symbols : list Z := map Z.of_nat (seq 0 47).

(** The tokens of the grammar without a value. *)
Definition lits : list token :=
  [SHOW; TABLES; CREATE; TABLE; DROP; DESC; INSERT; INTO; VALUES; DELETE; FROM; WHERE; UPDATE; SET; SELECT;
   INT; CHAR; FLOAT; INDEX; AND; JOIN; EXIT; HELP; TXN_BEGIN; TXN_COMMIT; TXN_ABORT; TXN_ROLLBACK;
   LEQ; NEQ; GEQ; T_EOF] ++
  map CHR [";"; "("; ")"; ","; "."; "="; "<"; ">"; "*"]%char.

Definition sym_ok (t : token) : bool :=
  bool_decide (YYTRANSLATE (yytokentype t) = Some (sym t)) && bool_decide (sym t ∈ symbols)
  && forallb (λ l, implb (sym t =? sym l) (bool_decide (t = l))) lits.

Lemma chr_sym_check : every (λ c, sym_ok (CHR c)) = true.
Proof. vm_compute. reflexivity. Qed.

Lemma sym_ok_all t : t ≠ ATOI_UNDEFINED → sym_ok t = true.
Proof.
  destruct t as [| | | | | | | | | | | | | | | | | | | | | | | | | | | | | | |c|s|s|z|z|]; intros Hne; try done;
    [exact (every_spec _ c chr_sym_check)|..]; by vm_compute.
Qed.

Lemma sym_facts t : t ≠ ATOI_UNDEFINED →
  YYTRANSLATE (yytokentype t) = Some (sym t) ∧ sym t ∈ symbols ∧ ∀ l, l ∈ lits → sym t = sym l → t = l.
Proof.
  intros H%sym_ok_all. unfold sym_ok in H. rewrite !andb_true_iff in H.
  destruct H as [[H1%bool_decide_eq_true H2%bool_decide_eq_true] H3]. split_and!; [done..|].
  intros l Hl He. rewrite forallb_forall in H3. apply list_elem_of_In in Hl. specialize (H3 l Hl).
  rewrite He, Z.eqb_refl in H3. by apply bool_decide_eq_true in H3.
Qed.

(** ** What the tables do in a state *)

Definition shift_of (s y : Z) : option Z :=
  d ← yydefault_only s;
  if d : bool then None else a ← yybackup s y; match a with Shift s' => if s =? YYFINAL then None else Some s' | _ => None end.

Definition errs (s y : Z) : bool :=
  match yydefault_only s, yybackup s y with Some false, Some Err => negb (s =? YYFINAL) | _, _ => false end.

(** The reduction without a token, and with one. *)
Definition red_of (s : Z) : option Z :=
  d ← yydefault_only s;
  if d : bool then a ← yydefault s; match a with Reduce n => if s =? YYFINAL then None else Some n | _ => None end else None.

Definition red_on (s y : Z) : option Z :=
  d ← yydefault_only s;
  if d : bool then None else a ← yybackup s y; match a with Reduce n => if s =? YYFINAL then None else Some n | _ => None end.

(** A state in which only one symbol goes on. *)
Definition only_shift (s y : Z) : option Z :=
  if forallb (λ z, (z =? y) || errs s z) symbols then shift_of s y else None.

(** A state in which every symbol but some reduces. *)
Definition red_but (s : Z) (ys : list Z) (n : Z) : bool :=
  forallb (λ z, bool_decide (z ∈ ys) || bool_decide (red_on s z = Some n)) symbols.

Definition err_but (s : Z) (ys : list Z) : bool :=
  forallb (λ z, bool_decide (z ∈ ys) || errs s z) symbols.

Definition state_range (s : Z) : Prop := 0 ≤ s < 116.

Lemma no_error_shift_check : forallb (λ n, bool_decide (yyerror_shift (Z.of_nat n) = Some None)) (seq 0 116) = true.
Proof. vm_compute. reflexivity. Qed.

Lemma no_error_shift s : state_range s → yyerror_shift s = Some None.
Proof.
  intros [H0 H1]. pose proof no_error_shift_check as H. rewrite forallb_forall in H.
  specialize (H (Z.to_nat s)). rewrite Z2Nat.id in H by lia. eapply bool_decide_eq_true_1, H, in_seq. lia.
Qed.

(** ** Configurations *)

Definition next (ts : list token) : option (token * list token) :=
  match ts with [] => None | t :: ts' => Some (t, ts') end.

Abbreviation config := (@parser (list token)).

Definition input (c : config) : list token :=
  match yychar c with Some t => t :: source c | None => source c end.

(** What the scanner left in [yylval] with a token. *)
Definition token_val (t : token) (v : SemValue) : Prop :=
  match t with
  | IDENTIFIER s | VALUE_STRING s => sv_str v = s
  | VALUE_INT n => sv_int v = Some n
  | VALUE_FLOAT f => sv_float v = Some f
  | _ => True
  end.

Lemma set_yylval_val t v : token_val t (set_yylval t v).
Proof. by destruct t. Qed.

(** No condition has been parsed yet: the empty WHERE clause finds no garbage. *)
Definition clean (v : SemValue) : Prop := sv_conds v = [].

Record conf (b : bool) (stk : list (Z * SemValue)) (ts : list token) (c : config) : Prop := {
  cf_stack : stack c = stk;
  cf_input : input c = ts;
  cf_err : yyerrstatus c = 0;
  cf_val : ∀ t, yychar c = Some t → token_val t (yylval c);
  cf_states : Forall (λ x, state_range x.1) stk;
  cf_depth : (length stk < 200)%nat;
  cf_ends : last ts = Some T_EOF;
  cf_defined : ATOI_UNDEFINED ∉ ts;
  cf_clean : b = true → Forall (λ x, clean x.2) stk ∧ Forall clean (above c) ∧ clean (yylval c) }.

Abbreviation run := (ParseTables.run next).
Abbreviation step := (ParseTables.step next).

Lemma conf_weaken b stk ts c : conf b stk ts c → conf false stk ts c.
Proof. intros []. by split. Qed.

(** [n] steps lead from [c] to [c']. *)
Definition goes (n : nat) (c c' : config) : Prop := ∀ f, run (n + f) c = run f c'.

Lemma goes_refl c : goes 0 c c.
Proof. done. Qed.

Lemma goes_trans n m c1 c2 c3 : goes n c1 c2 → goes m c2 c3 → goes (n + m) c1 c3.
Proof. intros H1 H2 f. rewrite <- Nat.add_assoc, H1. apply H2. Qed.

Lemma goes_step c c' : step c = Some (inr c') → goes 1 c c'.
Proof. intros H f. cbn [Nat.add ParseTables.run]. by rewrite H. Qed.

(** Reading the token in front. *)
Lemma lookahead_conf b stk t ts c :
  conf b stk (t :: ts) c →
  ∃ c', lookahead next c = Some (t, c') ∧ conf b stk (t :: ts) c' ∧ yychar c' = Some t ∧ source c' = ts.
Proof.
  intros [Hs Hi He Hv Hst Hd Hl Hdef Hc]. unfold lookahead, input in *. destruct (yychar c) as [t'|] eqn:Ey.
  - injection Hi as Ht Hts. subst t' ts. exists c. split_and!; try done.
    split; try done; [by unfold input; rewrite Ey|by rewrite Ey].
  - rewrite Hi. simpl. eexists. split_and!; [reflexivity| |done|done].
    split; try done; simpl.
    + intros t'. intros [= <-]. apply set_yylval_val.
    + intros Hb. destruct (Hc Hb) as (? & ? & ?). split_and!; [done..|]. by destruct t.
Qed.

Lemma conf_head b s v stk ts c : conf b ((s, v) :: stk) ts c →
  head (stack c) = Some (s, v) ∧ (YYINITDEPTH <=? length (stack c))%nat = false.
Proof.
  intros H. rewrite (cf_stack _ _ _ _ H). split; [done|]. apply Nat.leb_gt, (cf_depth _ _ _ _ H).
Qed.

Lemma defined_head b stk t ts c : conf b stk (t :: ts) c → t ≠ ATOI_UNDEFINED.
Proof. intros H ->. apply (cf_defined _ _ _ _ H). by left. Qed.

(** ** Single steps *)

Lemma step_token b s v stk t ts c a :
  conf b ((s, v) :: stk) (t :: ts) c → s ≠ YYFINAL → yydefault_only s = Some false → yybackup s (sym t) = Some a →
  ∃ c', conf b ((s, v) :: stk) (t :: ts) c' ∧ yychar c' = Some t ∧ source c' = ts ∧
    step c = r ← ParseTables.do_action a c'; Some (match r with inl x => inl (x, c') | inr p => inr p end).
Proof.
  intros Hc Hf Hd Ha. destruct (lookahead_conf _ _ _ _ _ Hc) as (c' & Hla & Hc' & Hy & Hsrc).
  exists c'. split_and!; [done..|]. destruct (conf_head _ _ _ _ _ _ Hc) as [Hh Hlen].
  destruct (sym_facts t (defined_head _ _ _ _ _ Hc)) as (Hsym & _ & _).
  unfold ParseTables.step. rewrite Hh. cbn [mbind option_bind]. rewrite Hlen.
  rewrite (proj2 (Z.eqb_neq _ _) Hf), Hd. cbn [mbind option_bind]. rewrite Hla. cbn [mbind option_bind].
  rewrite bool_decide_eq_false_2 by (by eapply defined_head). rewrite Hsym. cbn [mbind option_bind].
  by rewrite Ha.
Qed.

Lemma conf_shift b s v stk t ts c s' :
  conf b ((s, v) :: stk) (t :: ts) c → yychar c = Some t → source c = ts → t ≠ T_EOF → state_range s' →
  (length stk < 198)%nat →
  conf b ((s', yylval c) :: (s, v) :: stk) ts (do_shift s' c).
Proof.
  intros [Hs Hi He Hv Hst Hd Hl Hdef Hcl] Hy Hsrc Ht Hr Hlen. split; simpl.
  - by rewrite Hs.
  - done.
  - by rewrite He.
  - done.
  - by constructor.
  - lia.
  - rewrite last_cons in Hl. destruct (last ts); [done|]. congruence.
  - intros H. apply Hdef. by right.
  - intros Hb. destruct (Hcl Hb) as (? & ? & ?). split_and!; [by constructor| |done].
    destruct (above c); [done|]. by inversion H0.
Qed.

Lemma recover_aborts l n (c : config) :
  l ≠ [] → Forall (λ x, state_range x.1) l → recover l n c = Some (inl Aborted).
Proof.
  intros Hne Hl. revert n. induction Hl as [|[s v] l Hs Hl IH]; intros n; [done|]. cbn [recover].
  rewrite (no_error_shift s Hs). cbn [mbind option_bind]. destruct l; [done|]. by apply IH.
Qed.

Lemma run_err b s v stk t ts c f :
  conf b ((s, v) :: stk) (t :: ts) c → errs s (sym t) = true → run (S f) c = Some (Aborted, ts).
Proof.
  unfold errs. intros Hc He. destruct (yydefault_only s) as [[|]|] eqn:Hd; try done.
  destruct (yybackup s (sym t)) as [[| |]|] eqn:Hb; try done. apply negb_true_iff, Z.eqb_neq in He.
  destruct (step_token _ _ _ _ _ _ _ _ Hc He Hd Hb) as (c' & Hc' & _ & Hsrc & Hstep).
  cbn [ParseTables.run]. rewrite Hstep. cbn [ParseTables.do_action]. unfold do_error.
  rewrite (cf_err _ _ _ _ Hc'). cbn [Z.eqb].
  rewrite recover_aborts; [by simpl; rewrite Hsrc|by rewrite (cf_stack _ _ _ _ Hc')|].
  rewrite (cf_stack _ _ _ _ Hc'). apply (cf_states _ _ _ _ Hc').
Qed.

Lemma shift_of_spec s y s' :
  shift_of s y = Some s' → s ≠ YYFINAL ∧ yydefault_only s = Some false ∧ yybackup s y = Some (Shift s').
Proof.
  unfold shift_of. intros H. apply bind_Some in H as ([|] & Hd & H); [done|].
  apply bind_Some in H as ([| |] & Hb & H); try done. destruct (Z.eqb_spec s YYFINAL); [done|]. naive_solver.
Qed.

Lemma step_shift b s v stk t ts c s' :
  conf b ((s, v) :: stk) (t :: ts) c → shift_of s (sym t) = Some s' → t ≠ T_EOF → state_range s' →
  (length stk < 198)%nat →
  ∃ w c', goes 1 c c' ∧ conf b ((s', w) :: (s, v) :: stk) ts c' ∧ token_val t w ∧ (b = true → clean w) ∧
    yychar c' = None ∧ source c' = ts.
Proof.
  intros Hc Hs Ht Hr Hlen. apply shift_of_spec in Hs as (Hf & Hd & Hb).
  destruct (step_token _ _ _ _ _ _ _ _ Hc Hf Hd Hb) as (c1 & Hc1 & Hy & Hsrc & Hstep).
  exists (yylval c1), (do_shift s' c1). split_and!.
  - by apply goes_step.
  - by apply (conf_shift _ _ _ _ t).
  - by apply (cf_val _ _ _ _ Hc1).
  - intros Hb'. by apply (cf_clean _ _ _ _ Hc1).
  - done.
  - done.
Qed.

(** The reduction that the state makes before these tokens. *)
Definition reduces (s : Z) (ts : list token) (yyn : Z) : Prop :=
  red_of s = Some yyn ∨ ∃ t ts', ts = t :: ts' ∧ red_on s (sym t) = Some yyn.

Lemma step_reduces b s v stk ts c yyn :
  conf b ((s, v) :: stk) ts c → reduces s ts yyn →
  ∃ c', conf b ((s, v) :: stk) ts c' ∧
    step c = r ← do_reduce yyn c'; Some (match r with inl x => inl (x, c') | inr p => inr p end).
Proof.
  intros Hc [Hr|(t & ts' & -> & Hr)].
  - unfold red_of in Hr. apply bind_Some in Hr as ([|] & Hd & Hr); [|done].
    apply bind_Some in Hr as ([| |] & Ha & Hr); try done. destruct (Z.eqb_spec s YYFINAL) as [|Hf]; [done|].
    injection Hr as ->. exists c. split; [done|]. destruct (conf_head _ _ _ _ _ _ Hc) as [Hh Hlen].
    unfold ParseTables.step. rewrite Hh. cbn [mbind option_bind]. rewrite Hlen, (proj2 (Z.eqb_neq _ _) Hf), Hd.
    cbn [mbind option_bind]. by rewrite Ha.
  - unfold red_on in Hr. apply bind_Some in Hr as ([|] & Hd & Hr); [done|].
    apply bind_Some in Hr as ([| |] & Ha & Hr); try done. destruct (Z.eqb_spec s YYFINAL) as [|Hf]; [done|].
    injection Hr as ->. destruct (step_token _ _ _ _ _ _ _ _ Hc Hf Hd Ha) as (c' & Hc' & _ & _ & Hstep).
    exists c'. by split.
Qed.

(** ** Reductions *)

(** The value at depth [k]. *)
Definition value_at (stk : list (Z * SemValue)) (k : nat) : SemValue := snd (default (0, SemValue0) (stk !! k)).

(** The automaton makes at most [m] reductions and arrives at a stack with [Q]. *)
Definition reds (b : bool) (m : nat) (stk : list (Z * SemValue)) (ts : list token)
    (Q : list (Z * SemValue) → Prop) : Prop :=
  ∀ c, conf b stk ts c → ∃ n c' stk', (n ≤ m)%nat ∧ goes n c c' ∧ conf b stk' ts c' ∧ Q stk'.

Lemma reds_stop b m stk ts (Q : _ → Prop) : Q stk → reds b m stk ts Q.
Proof. intros HQ c Hc. exists 0%nat, c, stk. split_and!; [lia|done..]. Qed.

Lemma conf_reduce b stk ts c len s0 v0 rest w g :
  conf b stk ts c → drop len stk = (s0, v0) :: rest → state_range g → (b = true → clean w) → (0 < len)%nat ∨ (length stk < 199)%nat →
  conf b ((g, w) :: (s0, v0) :: rest) ts (push g w (pop len c)).
Proof.
  intros [Hs Hi He Hv Hst Hd Hl Hdef Hcl] Hdrop Hg Hw Hlen.
  assert (length ((s0, v0) :: rest) = length stk - len)%nat as Hlr by (by rewrite <- Hdrop, length_drop).
  split; simpl in *; try done.
  - by rewrite Hs, Hdrop.
  - constructor; [done|]. rewrite <- Hdrop. by apply Forall_drop.
  - lia.
  - intros Hb. destruct (Hcl Hb) as (H1 & H2 & H3). split_and!; [| |done].
    + constructor; [by apply Hw|]. rewrite <- Hdrop. by apply Forall_drop.
    + apply Forall_tail, Forall_app. split; [|done]. apply Forall_rev, Forall_map, Forall_take. by rewrite Hs.
Qed.

Definition rule_len (yyn : Z) : option nat := Z.to_nat <$> at_ yyr2 yyn.

Lemma reds_step b m s v stk ts Q yyn len s0 v0 rest w g :
  reduces s ts yyn → rule_len yyn = Some len → drop len ((s, v) :: stk) = (s0, v0) :: rest →
  yyaccepts yyn (value_at ((s, v) :: stk)) = None →
  (∀ e, (b = true → clean e) → yyactions yyn (value_at ((s, v) :: stk))
     match len with O => e | S k => value_at ((s, v) :: stk) k end = Some (w e)) →
  yygoto yyn s0 = Some g → state_range g →
  (∀ e, b = true → clean e → Forall (λ x, clean x.2) ((s, v) :: stk) → clean (w e)) →
  (0 < len)%nat ∨ (length stk < 198)%nat →
  (∀ e, (b = true → clean e) → reds b m ((g, w e) :: (s0, v0) :: rest) ts Q) → reds b (S m) ((s, v) :: stk) ts Q.
Proof.
  intros Hr Hlen Hdrop Hacc Hact Hgoto Hg Hw Hl Hnext c Hc.
  destruct (step_reduces _ _ _ _ _ _ _ Hc Hr) as (c1 & Hc1 & Hstep).
  set (e := default SemValue0 (head (above c1))).
  assert (Hce : b = true → clean e).
  { intros Hb. destruct (cf_clean _ _ _ _ Hc1 Hb) as (_ & Ha & _). unfold e. destruct (above c1); [done|]. by inversion Ha. }
  assert (conf b ((g, w e) :: (s0, v0) :: rest) ts (push g (w e) (pop len c1))) as Hc2.
  { eapply conf_reduce; [done..| |simpl; lia]. intros Hb. apply Hw; [done|by apply Hce|by apply (cf_clean _ _ _ _ Hc1)]. }
  destruct (Hnext e Hce _ Hc2) as (n & c' & stk' & Hn & Hgo & Hc' & HQ).
  exists (1 + n)%nat, c', stk'. split_and!; [lia| |done|done].
  eapply goes_trans; [|exact Hgo]. apply goes_step. rewrite Hstep. unfold do_reduce.
  unfold rule_len in Hlen. destruct (at_ yyr2 yyn) as [l|]; [|done]. injection Hlen as Hlen.
  cbn [mbind option_bind]. rewrite (cf_stack _ _ _ _ Hc1), Hlen.
  change (λ k, (default (0, SemValue0) (((s, v) :: stk) !! k)).2) with (value_at ((s, v) :: stk)).
  rewrite Hacc. fold e. replace (match len with O => e | S k => _ end) with (match len with O => e | S k => value_at ((s, v) :: stk) k end) by (by destruct len).
  rewrite Hact by done. cbn [mbind option_bind].
  assert (stack (pop len c1) = (s0, v0) :: rest) as -> by (simpl; by rewrite (cf_stack _ _ _ _ Hc1)).
  cbn [head mbind option_bind]. by rewrite Hgoto.
Qed.

(** ** Contracts *)

Definition trip {A} (b b' : bool) (k : Z) (p : P A) (stk : list (Z * SemValue)) (ts : list token)
    (post : A → list (Z * SemValue) → Prop) : Prop :=
  ∀ c, conf b stk ts c →
  match p ts with
  | Ok a rest => ∃ n c' stk', goes n c c' ∧ conf b' stk' rest c' ∧ post a stk' ∧
      zlen rest ≤ zlen ts ∧ Z.of_nat n + k ≤ 8 * (zlen ts - zlen rest)
  | Bad rest => ∃ n, (∀ f, run (n + f) c = Some (Aborted, rest)) ∧
      zlen rest ≤ zlen ts ∧ Z.of_nat n ≤ 8 * (zlen ts - zlen rest) + 8
  end.

Section trips.
  Context {A B : Type}.
  Implicit Types (p : P A) (stk : list (Z * SemValue)).

Lemma trip_weaken b b' k k' p stk ts post post' :
  trip b b' k' p stk ts post' → k ≤ k' → (∀ a stk', post' a stk' → post a stk') → trip b b' k p stk ts post.
Proof.
  intros Ht Hk Hp c Hc. specialize (Ht c Hc). destruct (p ts); [|done].
  destruct Ht as (n & c' & stk' & ? & ? & ? & ? & ?). exists n, c', stk'. split_and!; auto. lia.
Qed.

Lemma trip_in b' k p b stk ts post : trip false b' k p stk ts post → trip b b' k p stk ts post.
Proof. intros H c Hc. exact (H c (conf_weaken _ _ _ _ Hc)). Qed.

Lemma trip_out b b' k p stk ts post : trip b b' k p stk ts post → trip b false k p stk ts post.
Proof.
  intros H c Hc. specialize (H c Hc). destruct (p ts); [|done].
  destruct H as (n & c' & stk' & ? & ?%conf_weaken & ? & ? & ?). by exists n, c', stk'.
Qed.

Lemma trip_bind_eq b b1 b' k k1 k2 p (q : A → P B) stk ts post1 post :
  trip b b1 k1 p stk ts post1 → 0 ≤ k1 → k ≤ k1 + k2 →
  (∀ a stk' rest, p ts = Ok a rest → post1 a stk' → trip b1 b' k2 (q a) stk' rest post) →
  trip b b' k (pbind p q) stk ts post.
Proof.
  intros Hp Hk1 Hk Hq c Hc. specialize (Hp c Hc). unfold pbind. destruct (p ts) as [a rest|rest] eqn:E; [|done].
  destruct Hp as (n & c1 & stk1 & Hgo & Hc1 & Hpost & Hlen & Hn). specialize (Hq a stk1 rest eq_refl Hpost c1 Hc1).
  destruct (q a rest) as [a' rest'|rest'].
  - destruct Hq as (m & c2 & stk2 & Hgo2 & Hc2 & Hpost2 & Hlen2 & Hm). exists (n + m)%nat, c2, stk2.
    split_and!; [by eapply goes_trans|done..|lia|lia].
  - destruct Hq as (m & Hrun & Hlen2 & Hm). exists (n + m)%nat. split_and!; [|lia|lia].
    intros f. by rewrite <- Nat.add_assoc, Hgo.
Qed.

Lemma trip_bind b b1 b' k k1 k2 p (q : A → P B) stk ts post1 post :
  trip b b1 k1 p stk ts post1 → 0 ≤ k1 → k ≤ k1 + k2 →
  (∀ a stk' rest, post1 a stk' → trip b1 b' k2 (q a) stk' rest post) → trip b b' k (pbind p q) stk ts post.
Proof. intros Hp ? ? Hq. eapply trip_bind_eq; [exact Hp|done|done|]. intros a stk' rest _. apply Hq. Qed.

Lemma trip_then b b1 b' k k1 p (q : A → P B) stk ts post1 post :
  trip b b1 k1 p stk ts post1 → 0 ≤ k1 →
  (∀ a stk' rest, p ts = Ok a rest → post1 a stk' → trip b1 b' (k - k1) (q a) stk' rest post) →
  trip b b' k (pbind p q) stk ts post.
Proof. intros Hp Hk Hq. eapply trip_bind_eq; [exact Hp|done| |exact Hq]. lia. Qed.

(** Reductions after a piece, and its value. *)
Lemma trip_map b b' k k1 m p (q : A → P B) (g : A → B) stk ts post1 post :
  trip b b' k1 p stk ts post1 → k + Z.of_nat m ≤ k1 → (∀ a, q a = pret (g a)) →
  (∀ a stk' rest, post1 a stk' → reds b' m stk' rest (post (g a))) → trip b b' k (pbind p q) stk ts post.
Proof.
  intros Hp Hk Hqg Hq c Hc. specialize (Hp c Hc). unfold pbind. destruct (p ts) as [a rest|rest]; [|done].
  rewrite Hqg. destruct Hp as (n & c1 & stk1 & Hgo & Hc1 & Hpost & Hlen & Hn).
  destruct (Hq a stk1 rest Hpost c1 Hc1) as (n2 & c2 & stk2 & Hn2 & Hgo2 & Hc2 & Hpost2).
  exists (n + n2)%nat, c2, stk2. split_and!; [by eapply goes_trans|done..|lia].
Qed.

Lemma trip_reds_eq b b' k k1 m p stk ts post1 (post : A → _ → Prop) :
  trip b b' k1 p stk ts post1 → k + Z.of_nat m ≤ k1 →
  (∀ a stk' rest, p ts = Ok a rest → post1 a stk' → reds b' m stk' rest (post a)) → trip b b' k p stk ts post.
Proof.
  intros Hp Hk Hq c Hc. specialize (Hp c Hc). destruct (p ts) as [a rest|rest] eqn:E; [|done].
  destruct Hp as (n & c1 & stk1 & Hgo & Hc1 & Hpost & Hlen & Hn).
  destruct (Hq a stk1 rest eq_refl Hpost c1 Hc1) as (n2 & c2 & stk2 & Hn2 & Hgo2 & Hc2 & Hpost2).
  exists (n + n2)%nat, c2, stk2. split_and!; [by eapply goes_trans|done..|lia].
Qed.

Lemma trip_reds b b' k k1 m p stk ts post1 (post : A → _ → Prop) :
  trip b b' k1 p stk ts post1 → k + Z.of_nat m ≤ k1 →
  (∀ a stk' rest, post1 a stk' → reds b' m stk' rest (post a)) → trip b b' k p stk ts post.
Proof. intros Hp ? Hq. eapply trip_reds_eq; [exact Hp|done|]. intros a stk' rest _. apply Hq. Qed.

Lemma trip_ret b k m (a : A) stk ts (post : A → _ → Prop) :
  reds b m stk ts (post a) → k ≤ - Z.of_nat m → trip b b k (pret a) stk ts post.
Proof.
  intros Hr Hk c Hc. destruct (Hr c Hc) as (n & c' & stk' & Hn & Hgo & Hc' & Hpost).
  exists n, c', stk'. split_and!; [done..|lia|lia].
Qed.

Lemma trip_peek b b' k (q : option token → P A) stk ts post :
  trip b b' k (q (head ts)) stk ts post → trip b b' k (pbind peek q) stk ts post.
Proof. done. Qed.

(** The empty list of tokens is no case: the text ends with [T_EOF]. *)
Lemma trip_nil b b' k p stk post : trip b b' k p stk [] post.
Proof. intros c Hc. by pose proof (cf_ends _ _ _ _ Hc). Qed.

Lemma trip_unexpected b b' k s v stk t ts (post : A → _ → Prop) :
  (t ≠ ATOI_UNDEFINED → errs s (sym t) = true) → trip b b' k unexpected ((s, v) :: stk) (t :: ts) post.
Proof.
  intros He c Hc. unfold unexpected. simpl tail. exists 1%nat. split_and!; [|simpl length; lia..].
  intros f. eapply run_err; [done|]. apply He. by eapply defined_head.
Qed.

(** A shift, and what follows it. *)
Lemma trip_shift b b' k s v stk t ts s' p (post : A → _ → Prop) :
  shift_of s (sym t) = Some s' → t ≠ T_EOF → state_range s' → (length stk < 198)%nat →
  (∀ w, token_val t w → (b = true → clean w) → trip b b' (k - 7) p ((s', w) :: (s, v) :: stk) ts post) →
  trip b b' k (λ ts, p (tail ts)) ((s, v) :: stk) (t :: ts) post.
Proof.
  intros Hs Ht Hr Hlen Hp c Hc. simpl tail.
  destruct (step_shift _ _ _ _ _ _ _ _ Hc Hs Ht Hr Hlen) as (w & c1 & Hgo & Hc1 & Hw & Hcw & _).
  specialize (Hp w Hw Hcw c1 Hc1). destruct (p ts) as [a rest|rest].
  - destruct Hp as (n & c' & stk' & Hgo2 & Hc' & Hpost & Hlen' & Hn).
    exists (1 + n)%nat, c', stk'. split_and!; [by eapply goes_trans|done..|simpl length; lia|simpl length; lia].
  - destruct Hp as (n & Hrun & Hlen' & Hn). exists (1 + n)%nat. split_and!; [|simpl length; lia..].
    intros f. by rewrite <- Nat.add_assoc, Hgo.
Qed.

(** Reductions before the shift. *)
Lemma trip_reds_shift b b' k m s v stk t ts s' p (post : A → _ → Prop) (Q : _ → Prop) :
  reds b m ((s, v) :: stk) (t :: ts) Q → (m ≤ 7)%nat → t ≠ T_EOF → state_range s' →
  (∀ stk', Q stk' → ∃ s1 v1 stk1, stk' = (s1, v1) :: stk1 ∧ shift_of s1 (sym t) = Some s' ∧ (length stk1 < 198)%nat ∧
     ∀ w, trip b b' (k - 7 + Z.of_nat m) p ((s', w) :: stk') ts post) →
  trip b b' k (λ ts, p (tail ts)) ((s, v) :: stk) (t :: ts) post.
Proof.
  intros Hr Hm Ht Hrg Hp c Hc. destruct (Hr c Hc) as (n1 & c1 & stk1 & Hn1 & Hgo1 & Hc1 & HQ).
  destruct (Hp stk1 HQ) as (s1 & v1 & stk2 & -> & Hs & Hlen & Htr).
  destruct (step_shift _ _ _ _ _ _ _ _ Hc1 Hs Ht Hrg Hlen) as (w & c2 & Hgo2 & Hc2 & _).
  specialize (Htr w c2 Hc2). simpl tail. destruct (p ts) as [a rest|rest].
  - destruct Htr as (n & c' & stk' & Hgo3 & Hc' & Hpost & Hlen' & Hn). exists (n1 + (1 + n))%nat, c', stk'.
    split_and!; [by eapply goes_trans; [|eapply goes_trans]|done..|simpl length; lia|simpl length; lia].
  - destruct Htr as (n & Hrun & Hlen' & Hn). exists (n1 + (1 + n))%nat. split_and!; [|simpl length; lia..].
    intros f. by rewrite <- !Nat.add_assoc, Hgo1, Hgo2.
Qed.

End trips.

(** ** Automation *)

(** A state of the tables is in range. *)
Ltac in_range := unfold state_range; lia.

(** The member that an action sets, from what is known of the values it uses. *)
Ltac use_values :=
  unfold value_at; cbn -[app];
  repeat match goal with
  | H : ?f ?w = Some _ |- context [?f ?w] => rewrite H; cbn -[app]
  end.

Ltac keeps_clean :=
  let e := fresh in let Hb := fresh in let He := fresh in let Hall := fresh in
  intros e Hb He Hall; try discriminate Hb;
  repeat (apply Forall_cons in Hall as [? Hall]); unfold clean, value_at in *; cbn in *; assumption.

(** One reduction; what is known of the new value is left to prove. *)
Ltac reduce_by tac :=
  eapply reds_step;
  [tac | vm_compute; reflexivity | reflexivity | reflexivity
  | intros ? ?; use_values; reflexivity
  | first [eassumption | reflexivity] | first [assumption | in_range] | keeps_clean | first [left; lia | right; simpl; lia] | intros ? ?; cbn -[app]].

Ltac reduce0 := reduce_by ltac:(left; reflexivity).

Ltac len := simpl; lia.
