(* ===== verification/ParseSteps.v ===== *)
(** The nonterminals of the grammar in the tables of [yacc.tab.cpp]. *)
From Stdlib Require Import Ascii.
From S2P Require Import Prelude.
From S2P Require Import Regex.
From S2P Require Import Lexer.
From S2P Require Import Ast.
From S2P Require Import Grammar.
From S2P Require Import ParseTables.
From S2P Require Import ParseProofs.

Import ast ParseTables.
#[local] Open Scope parse_scope.

#[local] Abbreviation run := ParseProofs.run.

Implicit Types (b : bool) (s g : Z) (v w : SemValue) (ts : list token).

(** What the top of the stack is after a nonterminal: state [g] with a value. *)
Definition pushed {A} (g : Z) (stk : list (Z * SemValue)) (Q : A → SemValue → Prop) (a : A)
    (stk' : list (Z * SemValue)) : Prop := ∃ w, stk' = (g, w) :: stk ∧ Q a w.

Lemma forallb_elem {A} (f : A → bool) l x : forallb f l = true → x ∈ l → f x = true.
Proof. rewrite forallb_forall. intros H Hx. by apply H, list_elem_of_In. Qed.

Lemma only_shift_spec s y s' :
  only_shift s y = Some s' → shift_of s y = Some s' ∧ ∀ z, z ∈ symbols → z ≠ y → errs s z = true.
Proof.
  unfold only_shift. destruct (forallb _ symbols) eqn:H; [|done]. intros ->. split; [done|].
  intros z Hz Hne. apply (forallb_elem _ _ _ H) in Hz. by rewrite (proj2 (Z.eqb_neq _ _) Hne) in Hz.
Qed.

Lemma sym_symbol t : t ≠ ATOI_UNDEFINED → sym t ∈ symbols.
Proof. intros H. by apply sym_facts. Qed.

(** ** Tokens *)

Lemma trip_expect_where {A} b b' k s v stk ts t s' (p : P A) post :
  shift_of s (sym t) = Some s' →
  (∀ t', head ts = Some t' → t' ≠ ATOI_UNDEFINED → sym t' ≠ sym t → errs s (sym t') = true) →
  bool_decide (t ∈ lits) = true → bool_decide (t = T_EOF) = false →
  state_range s' → (length stk < 198)%nat →
  (∀ w ts', trip b b' (k - 7) p ((s', w) :: (s, v) :: stk) ts' post) →
  trip b b' k (expect t >>! p) ((s, v) :: stk) ts post.
Proof.
  intros Hs He Hl%bool_decide_eq_true Ht%bool_decide_eq_false Hr Hlen Hp.
  destruct ts as [|t' ts]; [apply trip_nil|]. unfold trip, pbind, expect.
  case_bool_decide as Heq.
  - subst t'. intros c Hc. by apply (trip_shift b b' k s v stk t ts s' p post Hs Ht Hr Hlen) in Hc; [|intros w _ _; apply Hp].
  - intros c Hc. apply (trip_unexpected b b' k s v stk t' ts post); [|done]. intros Hd.
    destruct (sym_facts t' Hd) as (_ & Hin & Hinj). apply He; [done|done|]. intros Hx. by apply Heq, Hinj.
Qed.

Lemma trip_expect {A} b b' k s v stk ts t s' (p : P A) post :
  only_shift s (sym t) = Some s' → bool_decide (t ∈ lits) = true → bool_decide (t = T_EOF) = false →
  state_range s' → (length stk < 198)%nat →
  (∀ w ts', trip b b' (k - 7) p ((s', w) :: (s, v) :: stk) ts' post) →
  trip b b' k (expect t >>! p) ((s, v) :: stk) ts post.
Proof.
  intros [Hs He]%only_shift_spec. apply trip_expect_where; [done|].
  intros t' _ Hd Hne. apply He; [by apply sym_symbol|done].
Qed.

Lemma sym_id x : sym (IDENTIFIER x) = 34.
Proof. reflexivity. Qed.

Lemma sym_not_id t : (∀ x, t ≠ IDENTIFIER x) → sym t ≠ 34.
Proof.
  intros Hn. destruct t as [| | | | | | | | | | | | | | | | | | | | | | | | | | | | | | |c|s|s|z|z|];
    try (by vm_compute); try done; [|by destruct (Hn s)].
  pose proof (every_spec (λ c, negb (sym (CHR c) =? 34)) c ltac:(vm_compute; reflexivity)) as H.
  cbn beta in H. by apply negb_true_iff, Z.eqb_neq in H.
Qed.

(** An identifier where every other token is an error. *)
Lemma trip_ident {A} b b' k s v stk ts x (q : string → P A) post :
  shift_of s 34 = Some x → (∀ t, head ts = Some t → t ≠ ATOI_UNDEFINED → sym t ≠ 34 → errs s (sym t) = true) →
  state_range x → (length stk < 198)%nat →
  (∀ a w ts', sv_str w = a → trip b b' (k - 7) (q a) ((x, w) :: (s, v) :: stk) ts' post) →
  trip b b' k (pbind p_id q) ((s, v) :: stk) ts post.
Proof.
  intros Hs He Hr Hlen Hq. destruct ts as [|t ts]; [apply trip_nil|].
  assert ((∀ y, t ≠ IDENTIFIER y) → trip b b' k (pbind p_id q) ((s, v) :: stk) (t :: ts) post) as Hother.
  { intros Hn c Hc. pose proof (trip_unexpected b b' k s v stk t ts post (λ Hd, He t eq_refl Hd (sym_not_id _ Hn)) c Hc) as H.
    unfold pbind, p_id. destruct t; try exact H. exfalso. by eapply Hn. }
  destruct t as [| | | | | | | | | | | | | | | | | | | | | | | | | | | | | | |c|y|y|z|z|]; try (apply Hother; discriminate).
  clear Hother. intros c Hc.
  exact (trip_shift b b' k s v stk (IDENTIFIER y) ts x (q y) post Hs ltac:(done) Hr Hlen (λ w Hw _, Hq y w ts Hw) c Hc).
Qed.

(** [tbName] and [colName] where no other name can follow: the state after the
    identifier reduces at once. *)
Lemma trip_name b s v stk ts x n g :
  only_shift s 34 = Some x → red_of x = Some n → n = 60 ∨ n = 61 → yygoto n s = Some g →
  state_range x → state_range g → (length stk < 197)%nat →
  trip b b 6 p_id ((s, v) :: stk) ts (pushed g ((s, v) :: stk) (λ a w, sv_str w = a)).
Proof.
  intros Hx Hn Hor Hg Hrx Hrg Hlen.
  assert (trip b b 6 (let! a := p_id in pret a) ((s, v) :: stk) ts (pushed g ((s, v) :: stk) (λ a w, sv_str w = a))) as H.
  { apply only_shift_spec in Hx as [Hs He].
    apply (trip_ident _ _ _ _ _ _ _ x); [done|intros t _ Hd; by apply He, sym_symbol|done|lia|]. intros a w ts' Hw. apply trip_ret with 1%nat; [|lia].
    eapply (reds_step _ _ _ _ _ _ _ n 1 _ _ _ (λ _, w) g); try done.
    - by left.
    - by destruct Hor as [-> | ->].
    - by destruct Hor as [-> | ->].
    - intros e _. by destruct Hor as [-> | ->].
    - intros e _ _ Hall. by inversion Hall.
    - left. lia.
    - intros e _. apply reds_stop. by exists w. }
  intros c Hc. specialize (H c Hc). unfold pbind, pret in H. by destruct (p_id ts).
Qed.

(** ** Values *)

Definition value_post (a : Value) (w : SemValue) : Prop := sv_val w = Some a.

(** The tokens that are not among some symbols are errors. *)
Lemma err_but_spec s ys t :
  err_but s ys = true → sym t ∉ ys → t ≠ ATOI_UNDEFINED → errs s (sym t) = true.
Proof.
  intros He Hn Hd. pose proof (forallb_elem _ _ _ He (sym_symbol t Hd)) as H. cbn beta in H.
  by rewrite bool_decide_eq_false_2 in H.
Qed.

Ltac not_in :=
  lazymatch goal with |- ?x ∉ ?l => apply (bool_decide_eq_false_1 (x ∈ l)); vm_compute; reflexivity end.

(** A token of some symbols or none of them. *)
Lemma chr_sym c (ys : list Z) : every (λ c, bool_decide (sym (CHR c) ∉ ys)) = true → sym (CHR c) ∉ ys.
Proof. intros H. pose proof (every_spec _ c H) as Hc. by apply bool_decide_eq_true in Hc. Qed.

Ltac not_among :=
  lazymatch goal with
  | |- sym (CHR _) ∉ _ => apply chr_sym; vm_compute; reflexivity
  | _ => not_in
  end.

Ltac in_lits := lazymatch goal with |- ?x ∈ ?l => apply (bool_decide_eq_true_1 (x ∈ l)); vm_compute; reflexivity end.

(** Shift a token and reduce by a rule of length one. *)
Lemma trip_token {A} b s v stk t ts x n g (a : A) (Q : A → SemValue → Prop) f :
  shift_of s (sym t) = Some x → t ≠ T_EOF → red_of x = Some n → rule_len n = Some 1%nat → yygoto n s = Some g →
  state_range x → state_range g → (length stk < 197)%nat →
  (∀ k, yyaccepts n k = None) →
  (∀ k w, token_val t w → k 0%nat = w → yyactions n k w = Some (f w)) → (∀ w, sv_conds (f w) = sv_conds w) →
  (∀ w, token_val t w → Q a (f w)) →
  trip b b 6 (skip >>! pret a) ((s, v) :: stk) (t :: ts) (pushed g ((s, v) :: stk) Q).
Proof.
  intros Hs Ht Hr Hl Hg ? ? Hlen Hacc Hact Hcl HQ.
  apply (trip_shift b b 6 s v stk t ts x (pret a)); [done..|lia|]. intros w Hw _.
  apply trip_ret with 1%nat; [|lia].
  eapply (reds_step _ _ _ _ _ _ _ n 1 _ _ _ (λ _, f w) g); try done.
  - by left.
  - intros e _. by apply Hact.
  - intros e _ _ Hall. inversion Hall; subst. unfold clean in *. by rewrite Hcl.
  - left. lia.
  - intros e _. apply reds_stop. exists (f w). auto.
Qed.

(** The checks on a state before a value. *)
Definition value_state (s g : Z) (ys : list Z) : bool :=
  bool_decide (shift_of s 36 = Some 89) && bool_decide (shift_of s 37 = Some 90) && bool_decide (shift_of s 35 = Some 88)
  && err_but s ys && forallb (λ n, bool_decide (yygoto n s = Some g)) [32; 33; 34].

Lemma trip_value b s v stk ts ys g :
  value_state s g ys = true → state_range g → (length stk < 197)%nat →
  (∀ t, head ts = Some t → sym t ∈ ys → sym t ∈ [35; 36; 37]) →
  trip b b 6 p_value ((s, v) :: stk) ts (pushed g ((s, v) :: stk) value_post).
Proof.
  unfold value_state. rewrite !andb_true_iff, forallb_forall.
  intros [[[[Hi%bool_decide_eq_true Hf%bool_decide_eq_true] Hs%bool_decide_eq_true] He] Hg] ? Hlen Hys.
  assert (yygoto 32 s = Some g ∧ yygoto 33 s = Some g ∧ yygoto 34 s = Some g) as (Hg1 & Hg2 & Hg3).
  { split_and!; (eapply bool_decide_eq_true_1, Hg; simpl; tauto). }
  destruct ts as [|t ts]; [apply trip_nil|].
  unfold p_value. apply trip_peek.
  assert (sym t ∉ [35; 36; 37] → trip b b 6 unexpected ((s, v) :: stk) (t :: ts) (pushed g ((s, v) :: stk) value_post)) as Hun.
  { intros Hn. apply trip_unexpected. intros Hd. eapply err_but_spec; [done| |done]. intros Hin. by apply Hn, Hys. }
  destruct t as [| | | | | | | | | | | | | | | | | | | | | | | | | | | | | | |c|y|y|z|z|]; cbn [hd_error];
    try (apply Hun; not_among).
  - apply trip_token with 88 34 (λ w, set_sv_val (Some (StringLit (sv_str w))) w); try done.
    + by intros k w _ <-.
    + by intros w <-.
  - apply trip_token with 89 32 (λ w, set_sv_val (Some (IntLit z)) w); try done.
    intros k w Hw <-. simpl in Hw. unfold yyactions. by rewrite Hw.
  - apply trip_token with 90 33 (λ w, set_sv_val (Some (FloatLit z)) w); try done.
    intros k w Hw <-. simpl in Hw. unfold yyactions. by rewrite Hw.
Qed.

Lemma sym_lit t l : l ∈ lits → sym t = sym l → t = l.
Proof.
  intros Hl Hs. destruct (decide (t = ATOI_UNDEFINED)) as [->|Hd]; [|by apply sym_facts].
  pose proof (forallb_elem (λ l, negb (sym l =? 2)) lits l ltac:(vm_compute; reflexivity) Hl) as H.
  cbn beta in H. rewrite <- Hs in H. done.
Qed.

(** ** Columns *)

Definition col_post (a : Col) (w : SemValue) : Prop := sv_col w = Some a.

Definition col_state (s g : Z) (ys : list Z) : bool :=
  bool_decide (shift_of s 34 = Some 32) && err_but s ys && bool_decide (yygoto 60 s = Some 37)
  && bool_decide (yygoto 61 s = Some 38) && bool_decide (yygoto 40 s = Some g) && bool_decide (yygoto 41 s = Some g).

(** In state 32 a dot makes the identifier a table, everything else a column. *)
Lemma reduces_colName t ts : t ≠ ATOI_UNDEFINED → t ≠ tchr "." → reduces 32 (t :: ts) 61.
Proof.
  intros Hd Hn. right. exists t, ts. split; [done|].
  pose proof (forallb_elem _ _ (sym t) (eq_refl : red_but 32 [42] 61 = true) (sym_symbol t Hd)) as H.
  cbn beta in H. apply orb_true_iff in H as [H%bool_decide_eq_true|H]; [|by apply bool_decide_eq_true in H].
  exfalso. apply Hn. destruct (sym_facts t Hd) as (_ & _ & Hinj). apply Hinj; [in_lits|].
  apply list_elem_of_singleton in H. by rewrite H.
Qed.

Lemma trip_col b s v stk ts ys g :
  col_state s g ys = true → state_range g → (length stk < 190)%nat →
  (∀ t, head ts = Some t → sym t ∈ ys → sym t = 34) →
  trip b b 5 p_col ((s, v) :: stk) ts (pushed g ((s, v) :: stk) col_post).
Proof.
  unfold col_state. rewrite !andb_true_iff.
  intros [[[[[Hi%bool_decide_eq_true He] H60%bool_decide_eq_true] H61%bool_decide_eq_true]
    H40%bool_decide_eq_true] H41%bool_decide_eq_true] Hg Hlen Hys.
  apply (trip_ident _ _ _ _ _ _ _ 32); [done| |done|lia|].
  { intros t Ht Hd Hn. apply err_but_spec with ys; [done| |done]. intros Hin. by apply Hn, Hys. }
  intros a w ts' Hw. apply trip_peek. destruct ts' as [|t ts']; [apply trip_nil|]. cbn [hd_error].
  case_bool_decide as Ht.
  - injection Ht as ->.
    eapply (trip_reds_shift _ _ _ 1 _ _ _ _ _ 50 _ _ (λ stk', stk' = (37, w) :: (s, v) :: stk)); [|lia|done|in_range|].
    + eapply (reds_step _ _ _ _ _ _ _ 60 1 s v stk (λ _, w) 37); try done.
      * right. by exists (tchr "."), ts'.
      * keeps_clean.
      * left. lia.
      * intros e _. by apply reds_stop.
    + intros stk' ->. exists 37, w, ((s, v) :: stk). split_and!; [done|done|simpl; lia|]. intros wd.
      eapply (trip_map _ _ _ 6 1 _ _ (mkCol a)).
      * eapply (trip_name _ 50 _ _ _ 57 61 64); [done|done|by right|done|in_range|in_range|simpl; lia].
      * lia.
      * done.
      * intros c stk' rest (wc & -> & Hwc).
        eapply (reds_step _ _ _ _ _ _ _ 40 3 s v stk (λ _, set_sv_col (Some (mkCol a c)) w) g); try done.
        -- by left.
        -- intros e _. unfold value_at. cbn. by rewrite Hw, Hwc.
        -- keeps_clean.
        -- left. lia.
        -- intros e _. apply reds_stop. by eexists.
  - intros c Hc. revert c Hc. apply (trip_ret _ _ 2); [|lia].
    intros c Hc. pose proof (defined_head _ _ _ _ _ Hc) as Hd. revert c Hc.
    eapply (reds_step _ _ _ _ _ _ _ 61 1 s v stk (λ _, w) 38); try done.
    + apply reduces_colName; [done|congruence].
    + keeps_clean.
    + left. lia.
    + intros e _. eapply (reds_step _ _ _ _ _ _ _ 41 1 s v stk (λ _, set_sv_col (Some (mkCol "" a)) w) g); try done.
      * by left.
      * intros e' _. unfold value_at. cbn. by rewrite Hw.
      * keeps_clean.
      * left. lia.
      * intros e' _. apply reds_stop. by eexists.
Qed.

(** ** Conditions *)

Definition op_post (a : SvCompOp) (w : SemValue) : Prop := sv_comp_op w = Some a.

Ltac op_token x n o :=
  apply trip_token with x n (λ w, set_sv_comp_op (Some o) w); try done;
  try (intros ? ? ? <-; done); try lia.

Lemma trip_op b v stk ts :
  (length stk < 190)%nat → trip b b 6 p_op ((73, v) :: stk) ts (pushed 100 ((73, v) :: stk) op_post).
Proof.
  intros Hlen. destruct ts as [|t ts]; [apply trip_nil|]. unfold p_op. apply trip_peek.
  assert (sym t ∉ [30; 31; 32; 43; 44; 45] → trip b b 6 unexpected ((73, v) :: stk) (t :: ts) (pushed 100 ((73, v) :: stk) op_post)) as Hun.
  { intros Hn. apply trip_unexpected. intros Hd. by eapply (err_but_spec 73 [30; 31; 32; 43; 44; 45]). }
  destruct t as [| | | | | | | | | | | | | | | | | | | | | | | | | | | | | | |c|y|y|z|z|]; cbn [hd_error];
    try (apply Hun; not_among).
  - op_token 94 48 SV_OP_LE.
  - op_token 95 47 SV_OP_NE.
  - op_token 96 49 SV_OP_GE.
  - destruct (Ascii.eqb_spec c "="%char) as [->|H1]; [op_token 97 44 SV_OP_EQ|].
    destruct (Ascii.eqb_spec c "<"%char) as [->|H2]; [op_token 98 45 SV_OP_LT|].
    destruct (Ascii.eqb_spec c ">"%char) as [->|H3]; [op_token 99 46 SV_OP_GT|].
    apply Hun. intros Hin. destruct (sym_facts (CHR c) ltac:(done)) as (_ & _ & Hinj).
    assert (sym (CHR c) ∉ [30; 31; 32]) as Hc by not_among.
    assert (sym (CHR c) = sym (tchr "=") ∨ sym (CHR c) = sym (tchr "<") ∨ sym (CHR c) = sym (tchr ">")) as Hor.
    { change (sym (tchr "=")) with 43. change (sym (tchr "<")) with 44. change (sym (tchr ">")) with 45. set_solver. }
    destruct Hor as [H|[H|H]]; apply Hinj in H; try in_lits; congruence.
Qed.

Definition expr_post (a : Expr) (w : SemValue) : Prop := sv_expr w = Some a.

Lemma trip_expr b v stk ts :
  (length stk < 180)%nat → trip b b 4 p_expr ((100, v) :: stk) ts (pushed 112 ((100, v) :: stk) expr_post).
Proof.
  intros Hlen. destruct ts as [|t ts]; [apply trip_nil|]. unfold p_expr. apply trip_peek.
  assert ((∀ x, t ≠ IDENTIFIER x) → trip b b 4 (let! a := p_value in pret (ValueExpr a)) ((100, v) :: stk) (t :: ts)
    (pushed 112 ((100, v) :: stk) expr_post)) as Hval.
  { intros Hn. eapply (trip_map _ _ _ 6 1 _ _ ValueExpr).
    - eapply (trip_value _ 100 _ _ _ [34; 35; 36; 37] 110); [vm_compute; reflexivity|in_range|lia|].
      intros t' [= <-] Hin. apply elem_of_cons in Hin as [Hin|Hin]; [|done]. exfalso. revert Hin.
      by apply sym_not_id.
    - lia.
    - done.
    - intros a stk' rest (w & -> & Hw). unfold value_post in Hw. reduce0. apply reds_stop. by eexists. }
  destruct t as [| | | | | | | | | | | | | | | | | | | | | | | | | | | | | | |c|y|y|z|z|]; cbn [hd_error]; try (apply Hval; discriminate).
  eapply (trip_map _ _ _ 5 1 _ _ ColExpr).
  - eapply (trip_col _ 100 _ _ _ [34; 35; 36; 37] 111); [vm_compute; reflexivity|in_range|lia|].
    by intros t' [= <-] _.
  - lia.
  - done.
  - intros a stk' rest (w & -> & Hw). unfold col_post in Hw. reduce0. apply reds_stop. by eexists.
Qed.

Definition cond_post (a : BinaryExpr) (w : SemValue) : Prop := sv_cond w = Some a.

Lemma trip_condition b s v stk ts g :
  col_state s 73 [34] = true → yygoto 35 s = Some g → state_range g → (length stk < 170)%nat →
  trip b b 14 p_condition ((s, v) :: stk) ts (pushed g ((s, v) :: stk) cond_post).
Proof.
  intros Hs Hg Hr Hlen. unfold p_condition.
  eapply (trip_bind _ _ _ _ 5 9); [|lia|lia|].
  { apply (trip_col _ s _ _ _ [34] 73); [done|in_range|lia|]. by intros t _ ->%list_elem_of_singleton. }
  intros c stk1 ts1 (w1 & -> & Hw1). eapply (trip_bind _ _ _ _ 6 3); [apply trip_op; simpl; lia|lia|lia|].
  intros o stk2 ts2 (w2 & -> & Hw2).
  eapply (trip_map _ _ _ 4 1 _ _ (mkBinaryExpr c o)); [apply trip_expr; simpl; lia|lia|done|].
  intros e stk3 ts3 (w3 & -> & Hw3). unfold col_post, op_post, expr_post in *.
  reduce0. apply reds_stop. by eexists.
Qed.

(** ** Lists *)

Section lists.
  Context {A : Type} (b : bool) (sep : token → bool) (p : P A) (s : Z) (v : SemValue) (stk : list (Z * SemValue)).
  Context (gl : Z) (Ql : list A → SemValue → Prop).
  Notation below := ((s, v) :: stk).
  (** a separator and one more element, reduced into the list *)
  Context (Hnext : ∀ acc w t ts, Ql acc w → sep t = true →
    trip b b 1 (λ ts, p (tail ts)) ((gl, w) :: below) (t :: ts) (pushed gl below (λ a, Ql (acc ++ [a])))).

Lemma trip_more fuel acc w ts :
  Ql acc w → (length ts < fuel)%nat →
  trip b b 0 (p_more sep p acc fuel) ((gl, w) :: below) ts (pushed gl below Ql).
Proof.
  revert acc w ts. induction fuel as [|fuel IH]; intros acc w ts HQ Hf; [lia|].
  destruct ts as [|t ts]; [apply trip_nil|]. intros c Hc. cbn [p_more]. destruct (sep t) eqn:Hsep.
  - pose proof (Hnext acc w t ts HQ Hsep c Hc) as H. cbv beta in H. cbn [tail] in H. unfold pbind.
    destruct (p ts) as [a rest|rest].
    + destruct H as (n & c1 & stk1 & Hgo & Hc1 & (w1 & -> & HQ1) & Hlen & Hn).
      assert (length rest < fuel)%nat as Hf' by (simpl length in *; lia).
      specialize (IH _ _ rest HQ1 Hf' c1 Hc1). destruct (p_more sep p (acc ++ [a]) fuel rest) as [l rest'|rest'].
      * destruct IH as (m & c2 & stk2 & Hgo2 & Hc2 & Hpost & Hlen2 & Hm). exists (n + m)%nat, c2, stk2.
        split_and!; [by eapply goes_trans|done..|lia|lia].
      * destruct IH as (m & Hrun & Hlen2 & Hm). exists (n + m)%nat. split_and!; [|lia..].
        intros f. by rewrite <- Nat.add_assoc, Hgo.
    + exact H.
  - exists 0%nat, c, ((gl, w) :: below). split_and!; [done|done|by exists w|lia|lia].
Qed.

Lemma trip_list k ts :
  0 ≤ k → trip b b k p below ts (pushed gl below (λ a, Ql [a])) →
  trip b b k (p_list sep p) below ts (pushed gl below Ql).
Proof.
  intros Hk Hfirst. eapply (trip_bind _ _ _ _ k 0); [exact Hfirst|lia|lia|].
  intros a stk' rest (w & -> & HQ). intros c Hc. exact (trip_more (S (length rest)) [a] w rest HQ ltac:(lia) c Hc).
Qed.

End lists.

Lemma is_comma_eq t : is_comma t = true → t = tchr ",".
Proof. apply bool_decide_eq_true_1. Qed.

(** ** Fields *)

Definition type_post (a : TypeLen) (w : SemValue) : Prop := sv_type_len w = Some a.

Lemma trip_type b v stk ts :
  (length stk < 180)%nat → trip b b 6 p_type ((67, v) :: stk) ts (pushed 85 ((67, v) :: stk) type_post).
Proof.
  intros Hlen. destruct ts as [|t ts]; [apply trip_nil|]. unfold p_type. apply trip_peek.
  assert (sym t ∉ [18; 19; 20] → trip b b 6 unexpected ((67, v) :: stk) (t :: ts) (pushed 85 ((67, v) :: stk) type_post)) as Hun.
  { intros Hn. apply trip_unexpected. intros Hd. by eapply (err_but_spec 67 [18; 19; 20]). }
  destruct t as [| | | | | | | | | | | | | | | | | | | | | | | | | | | | | | |c|y|y|z|z|]; cbn [hd_error];
    try (apply Hun; not_among).
  - apply trip_token with 82 27 (λ w, set_sv_type_len (Some (mkTypeLen SV_TYPE_INT 4)) w); try done. lia.
  - apply (trip_shift _ _ _ _ _ _ CHAR _ 83); [done|done|in_range|lia|]. intros w1 _ _.
    eapply (trip_expect _ _ _ _ _ _ _ _ 106); [reflexivity|reflexivity|reflexivity|in_range|len|].
    intros w2 ts2. apply trip_peek. destruct ts2 as [|t ts2]; [apply trip_nil|].
    assert (sym t ≠ 36 → trip b b (6 - 7 - 7) unexpected ((106, w2) :: (83, w1) :: (67, v) :: stk) (t :: ts2)
      (pushed 85 ((67, v) :: stk) type_post)) as Hun'.
    { intros Hn. apply trip_unexpected. intros Hd. apply (err_but_spec 106 [36]); [done| |done]. by intros ?%list_elem_of_singleton. }
    destruct t as [| | | | | | | | | | | | | | | | | | | | | | | | | | | | | | |c|y|y|z|z|]; cbn [hd_error];
      try (apply Hun'; by vm_compute).
    + apply Hun'. intros H. assert (sym (CHR c) ∉ [36]) as Hc by not_among. apply Hc. rewrite H. by left.
    + apply (trip_shift _ _ _ _ _ _ (VALUE_INT z) _ 113); [done|done|in_range|len|]. intros w3 Hw3 _. simpl in Hw3.
      eapply (trip_expect _ _ _ _ _ _ _ _ 115); [reflexivity|reflexivity|reflexivity|in_range|len|].
      intros w4 ts4. apply trip_ret with 1%nat; [|lia]. reduce0. apply reds_stop. by eexists.
  - apply trip_token with 84 29 (λ w, set_sv_type_len (Some (mkTypeLen SV_TYPE_FLOAT 4)) w); try done. lia.
Qed.

(** An element of a list and its reduction by rule [n]. *)
Ltac element el :=
  eapply (trip_reds _ _ _ _ 1); [el | lia |
    let a := fresh "a" in let w := fresh "w" in let Hw := fresh "Hw" in
    intros a ? ? (w & -> & Hw); hnf in Hw; reduce0; apply reds_stop; eexists; split; [reflexivity|]].

(** A separator, the element after it and their reduction. *)
Ltac next_element x el :=
  eapply (trip_shift _ _ _ _ _ _ _ _ x); [reflexivity|done|in_range|len|];
  let w := fresh in intros w _ _; element el.

Definition field_post (a : Field) (w : SemValue) : Prop := sv_field w = Some a.
Definition fields_post (l : list Field) (w : SemValue) : Prop := sv_fields w = l.

Lemma trip_field b s v stk ts g :
  only_shift s 34 = Some 57 → yygoto 61 s = Some 67 → yygoto 26 s = Some g → state_range g → (length stk < 170)%nat →
  trip b b 11 p_field ((s, v) :: stk) ts (pushed g ((s, v) :: stk) field_post).
Proof.
  intros Hx H61 Hg Hr Hlen. unfold p_field. eapply (trip_bind _ _ _ _ 6 5); [|lia|lia|].
  { apply (trip_name _ s _ _ _ 57 61 67); [done|done|by right|done|in_range|in_range|lia]. }
  intros c stk1 ts1 (w1 & -> & Hw1).
  eapply (trip_map _ _ _ 6 1 _ _ (ColDef c)); [apply trip_type; len|lia|done|].
  intros x stk2 ts2 (w2 & -> & Hw2). unfold type_post in Hw2. reduce0. apply reds_stop. eexists. split; [done|].
  unfold field_post. cbn. by rewrite Hw1.
Qed.

Lemma trip_fieldList b v stk ts :
  (length stk < 160)%nat →
  trip b b 10 (p_list is_comma p_field) ((51, v) :: stk) ts (pushed 65 ((51, v) :: stk) fields_post).
Proof.
  intros Hlen. apply trip_list; [|lia|].
  - intros acc w t ts' HQ ->%is_comma_eq.
    next_element 81 ltac:(apply (trip_field _ 81 _ _ _ 105); [done|done|done|in_range|len]).
    unfold fields_post in *. cbn -[app]. by rewrite HQ.
  - element ltac:(apply (trip_field _ 51 _ _ _ 66); [done|done|done|in_range|len]). done.
Qed.

Definition values_post (l : list Value) (w : SemValue) : Prop := sv_vals w = l.

Lemma trip_valueList b v stk ts :
  (length stk < 160)%nat →
  trip b b 5 (p_list is_comma p_value) ((70, v) :: stk) ts (pushed 91 ((70, v) :: stk) values_post).
Proof.
  intros Hlen. apply trip_list; [|lia|].
  - intros acc w t ts' HQ ->%is_comma_eq.
    next_element 108 ltac:(apply (trip_value _ 108 _ _ _ [35; 36; 37] 114); [vm_compute; reflexivity|in_range|len|done]).
    unfold values_post in *. cbn -[app]. by rewrite HQ.
  - element ltac:(apply (trip_value _ 70 _ _ _ [35; 36; 37] 92); [vm_compute; reflexivity|in_range|len|done]). done.
Qed.

Definition set_post (a : SetClause) (w : SemValue) : Prop := sv_set_clause w = Some a.
Definition sets_post (l : list SetClause) (w : SemValue) : Prop := sv_set_clauses w = l.

Lemma trip_setClause b s v stk ts g :
  only_shift s 34 = Some 57 → yygoto 61 s = Some 60 → yygoto 54 s = Some g → state_range g → (length stk < 170)%nat →
  trip b b 11 p_setClause ((s, v) :: stk) ts (pushed g ((s, v) :: stk) set_post).
Proof.
  intros Hx H61 Hg Hr Hlen. unfold p_setClause. eapply (trip_bind _ _ _ _ 6 12); [|lia|lia|].
  { apply (trip_name _ s _ _ _ 57 61 60); [done|done|by right|done|in_range|in_range|lia]. }
  intros c stk1 ts1 (w1 & -> & Hw1).
  eapply (trip_expect _ _ _ _ _ _ _ _ 76); [reflexivity|reflexivity|reflexivity|in_range|len|].
  intros w2 ts2. eapply (trip_map _ _ _ 6 1 _ _ (mkSetClause c)); [|lia|done|].
  { apply (trip_value _ 76 _ _ _ [35; 36; 37] 102); [vm_compute; reflexivity|in_range|len|done]. }
  intros x stk2 ts3 (w3 & -> & Hw3). unfold value_post in Hw3. reduce0. apply reds_stop. eexists. split; [done|].
  unfold set_post. cbn. by rewrite Hw1.
Qed.

Lemma trip_setClauses b v stk ts :
  (length stk < 160)%nat →
  trip b b 10 (p_list is_comma p_setClause) ((47, v) :: stk) ts (pushed 58 ((47, v) :: stk) sets_post).
Proof.
  intros Hlen. apply trip_list; [|lia|].
  - intros acc w t ts' HQ ->%is_comma_eq.
    next_element 74 ltac:(apply (trip_setClause _ 74 _ _ _ 101); [done|done|done|in_range|len]).
    unfold sets_post in *. cbn -[app]. by rewrite HQ.
  - element ltac:(apply (trip_setClause _ 47 _ _ _ 59); [done|done|done|in_range|len]). done.
Qed.

Definition cols_post (l : list Col) (w : SemValue) : Prop := sv_cols w = l.

Lemma trip_colList b v stk ts :
  (length stk < 160)%nat → head ts ≠ Some (tchr "*") →
  trip b b 4 (p_list is_comma p_col) ((8, v) :: stk) ts (pushed 35 ((8, v) :: stk) cols_post).
Proof.
  intros Hlen Hstar. apply trip_list; [|lia|].
  - intros acc w t ts' HQ ->%is_comma_eq.
    next_element 48 ltac:(apply (trip_col _ 48 _ _ _ [34] 61);
      [vm_compute; reflexivity|in_range|len|by intros ? _ ->%list_elem_of_singleton]).
    unfold cols_post in *. cbn -[app]. by rewrite HQ.
  - element ltac:(apply (trip_col _ 8 _ _ _ [34; 46] 34); [vm_compute; reflexivity|in_range|lia|]).
    2: done. intros t Ht [->|Hs%list_elem_of_singleton]%elem_of_cons; [done|].
    exfalso. apply Hstar. rewrite Ht. f_equal. by apply sym_lit; [in_lits|].
Qed.

Definition selector_post (l : list Col) (w : SemValue) : Prop := sv_cols w = l.

(** The list of columns becomes a selector at every token but a comma. *)
Lemma reduces_but s ys n t ts :
  red_but s ys n = true → sym t ∉ ys → t ≠ ATOI_UNDEFINED → reduces s (t :: ts) n.
Proof.
  intros Hb Hn Hd. right. exists t, ts. split; [done|].
  pose proof (forallb_elem _ _ (sym t) Hb (sym_symbol t Hd)) as H. cbn beta in H.
  apply orb_true_iff in H as [H%bool_decide_eq_true|H]; [done|by apply bool_decide_eq_true in H].
Qed.

(** Behind a list there is no separator. *)
Lemma p_more_rest {A} (sep : token → bool) (p : P A) acc fuel ts l t rest :
  p_more sep p acc fuel ts = Ok l (t :: rest) → sep t = false.
Proof.
  revert acc ts. induction fuel as [|fuel IH]; intros acc ts; [done|]. cbn [p_more].
  destruct ts as [|t' ts]; [done|]. destruct (sep t') eqn:Hs.
  - unfold pbind. destruct (p ts); [|done]. apply IH.
  - intros [= _ -> _]. done.
Qed.

Lemma p_list_rest {A} (sep : token → bool) (p : P A) ts l t rest :
  p_list sep p ts = Ok l (t :: rest) → sep t = false.
Proof. unfold p_list, pbind. destruct (p ts); [|done]. apply p_more_rest. Qed.

Lemma not_comma t : is_comma t = false → sym t ≠ 41.
Proof. intros H%bool_decide_eq_false Hs. apply H. apply sym_lit; [in_lits|done]. Qed.

Lemma reds_nil b m stk Q : reds b m stk [] Q.
Proof. intros c Hc. by pose proof (cf_ends _ _ _ _ Hc). Qed.

(** In a configuration the first token is defined. *)
Lemma reds_defined b m stk t ts Q : (t ≠ ATOI_UNDEFINED → reds b m stk (t :: ts) Q) → reds b m stk (t :: ts) Q.
Proof. intros H c Hc. apply H; [by eapply defined_head|done]. Qed.

Lemma trip_selector b v stk ts :
  (length stk < 150)%nat →
  trip b b 3 p_selector ((8, v) :: stk) ts (pushed 36 ((8, v) :: stk) selector_post).
Proof.
  intros Hlen. unfold p_selector. destruct ts as [|t ts]; [apply trip_nil|]. apply trip_peek. cbn [hd_error].
  case_bool_decide as Ht.
  - injection Ht as ->. eapply trip_weaken with (k' := 6); [|lia|by intros a stk' H; exact H].
    apply (trip_token _ _ _ _ (tchr "*") _ 33 55 36 _ _ (set_sv_cols [])); done || lia.
  - eapply (trip_reds_eq _ _ _ 4 1); [by apply trip_colList; [lia|]|lia|].
    intros l stk' rest Hrest (w & -> & Hw). destruct rest as [|t' rest]; [apply reds_nil|].
    apply p_list_rest, not_comma in Hrest. apply reds_defined. intros Hd.
    reduce_by ltac:(apply (reduces_but 35 [41] 56); [reflexivity| |done]; by intros ?%list_elem_of_singleton).
    apply reds_stop. by eexists.
Qed.

Definition tables_post (l : list string) (w : SemValue) : Prop := sv_strs w = l.

Definition name_post (a : string) (w : SemValue) : Prop := sv_str w = a.

Lemma trip_tableList b v stk ts :
  (length stk < 150)%nat →
  trip b b 5 p_tableList ((49, v) :: stk) ts (pushed 62 ((49, v) :: stk) tables_post).
Proof.
  intros Hlen. unfold p_tableList. apply trip_list; [|lia|].
  - intros acc w t ts' HQ [->%is_comma_eq| ->%bool_decide_eq_true_1]%orb_true_iff.
    + next_element 78 ltac:(apply (trip_name _ 78 _ _ _ 27 60 104); [done|done|by left|done|in_range|in_range|len]).
      unfold tables_post, value_at in *. cbn -[app]. by rewrite HQ, Hw.
    + next_element 77 ltac:(apply (trip_name _ 77 _ _ _ 27 60 103); [done|done|by left|done|in_range|in_range|len]).
      unfold tables_post, value_at in *. cbn -[app]. by rewrite HQ, Hw.
  - element ltac:(apply (trip_name _ 49 _ _ _ 27 60 63); [done|done|by left|done|in_range|in_range|lia]).
    unfold tables_post. cbn. by rewrite Hw.
Qed.

(** ** WHERE *)

Definition conds_post (l : list BinaryExpr) (w : SemValue) : Prop := sv_conds w = l.

Lemma trip_whereClause v stk ts :
  (length stk < 140)%nat →
  trip false false 13 (p_list (λ t, bool_decide (t = AND)) p_condition) ((55, v) :: stk) ts
    (pushed 72 ((55, v) :: stk) conds_post).
Proof.
  intros Hlen. apply trip_list; [|lia|].
  - intros acc w t ts' HQ ->%bool_decide_eq_true_1.
    next_element 93 ltac:(apply (trip_condition _ 93 _ _ _ 109); [vm_compute; reflexivity|done|in_range|len]).
    unfold conds_post in *. cbn -[app]. by rewrite HQ.
  - element ltac:(apply (trip_condition _ 55 _ _ _ 71); [vm_compute; reflexivity|done|in_range|len]). done.
Qed.

(** The checks on a state before an optional WHERE clause. *)
Definition where_state (s g : Z) (ys : list Z) : bool :=
  bool_decide (shift_of s 14 = Some 55) && red_but s ys 36 && bool_decide (yygoto 36 s = Some g)
  && bool_decide (yygoto 37 s = Some g).

Lemma trip_optWhereClause s v stk ts g ys :
  where_state s g ys = true → state_range g → (length stk < 130)%nat →
  (∀ t, head ts = Some t → sym t ∈ ys → t = WHERE) →
  trip true false (-1) p_optWhereClause ((s, v) :: stk) ts (pushed g ((s, v) :: stk) conds_post).
Proof.
  unfold where_state. rewrite !andb_true_iff.
  intros [[[Hs%bool_decide_eq_true Hb] H36%bool_decide_eq_true] H37%bool_decide_eq_true] Hg Hlen Hys.
  destruct ts as [|t ts]; [apply trip_nil|]. unfold p_optWhereClause. apply trip_peek. cbn [hd_error].
  case_bool_decide as Ht.
  - injection Ht as ->. apply trip_in. eapply trip_weaken with (k' := 19); [|lia|by intros a stk' H; exact H].
    eapply (trip_shift _ _ _ _ _ _ WHERE _ 55); [done|done|in_range|lia|]. intros w _ _.
    eapply (trip_reds_eq _ _ _ 13 1); [apply trip_whereClause; len|lia|].
    intros l stk' rest Hrest (w' & -> & Hw). destruct rest as [|t' rest]; [apply reds_nil|].
    apply p_list_rest, bool_decide_eq_false in Hrest. apply reds_defined. intros Hd.
    reduce_by ltac:(apply (reduces_but 72 [22] 37); [reflexivity| |done];
      intros Hx%list_elem_of_singleton; apply Hrest; apply sym_lit; [in_lits|done]).
    apply reds_stop. eexists. split; [done|]. unfold conds_post in *. cbn. done.
  - apply (trip_out true true), trip_ret with 1%nat; [|lia]. apply reds_defined. intros Hd.
    eapply (reds_step _ _ _ _ _ _ _ 36 0 s v stk (λ e, e) g); try done.
    + eapply reduces_but; [done| |done]. intros Hin. apply Ht. f_equal. by apply Hys.
    + right. lia.
    + intros e He. apply reds_stop. exists e. split; [done|]. by apply He.
Qed.

(** ** Statements *)

Definition stmt_post (a : TreeNode) (w : SemValue) : Prop := sv_node w = Some a.

(** The value of a nonterminal, put into what follows. *)
Ltac got :=
  let a := fresh "a" in let stk' := fresh "stk" in let rest := fresh "rest" in
  let w := fresh "w" in let Hw := fresh "Hw" in
  let He := fresh "He" in
  intros a stk' rest He (w & -> & Hw); hnf in Hw; try subst a.

Ltac shift_to x :=
  eapply (trip_shift _ _ _ _ _ _ _ _ x); [reflexivity|done|in_range|len|]; intros ? _ _.

Ltac expect_to x :=
  eapply (trip_expect _ _ _ _ _ _ _ _ x); [reflexivity|reflexivity|reflexivity|in_range|len|]; intros ? ?.

(** Behind a list with commas only the other token can follow. *)
Lemma expect_after_list {A} s t (p : P A) ts l rest :
  p_list is_comma p ts = Ok l rest → err_but s [41; sym t] = true →
  ∀ t', head rest = Some t' → t' ≠ ATOI_UNDEFINED → sym t' ≠ sym t → errs s (sym t') = true.
Proof.
  intros Hl He t' Ht Hd Hne. destruct rest as [|t1 rest]; [done|]. injection Ht as ->.
  apply p_list_rest, not_comma in Hl. apply err_but_spec with [41; sym t]; [done| |done].
  intros [?|?%list_elem_of_singleton]%elem_of_cons; done.
Qed.

Ltac expect_after x :=
  eapply (trip_expect_where _ _ _ _ _ _ _ _ x);
  [reflexivity|eapply expect_after_list; [eassumption|reflexivity]|reflexivity|reflexivity|in_range|len|]; intros ? ?.

(** A name after which the tables stand in [g]. *)
Ltac name_to x n g :=
  eapply (trip_then _ _ _ _ 6); [
    eapply (trip_name _ _ _ _ _ x n g);
      [reflexivity|reflexivity|first [by left|by right]|reflexivity|in_range|in_range|len]
  | lia | got ].

(** The reductions up to [stmt]. *)
Ltac to_stmt :=
  apply trip_ret with 2%nat; [|lia];
  do 2 reduce0; apply reds_stop; eexists; split; [reflexivity|];
  unfold stmt_post; cbn -[app]; try reflexivity.

Lemma trip_create v ts :
  trip true true 0 (skip >>!
      let! t := peek in
      match t with
      | Some TABLE =>
          skip >>! let! tab := p_id in expect (tchr "(") >>!
          let! l := p_list is_comma p_field in expect (tchr ")") >>! pret (CreateTable tab l)
      | Some INDEX =>
          skip >>! let! tab := p_id in expect (tchr "(") >>!
          let! c := p_id in expect (tchr ")") >>! pret (CreateIndex tab c)
      | _ => unexpected
      end) [(0, v)] (CREATE :: ts) (pushed 17 [(0, v)] stmt_post).
Proof.
  shift_to 2. apply trip_peek. destruct ts as [|t ts]; [apply trip_nil|]. cbn [hd_error].
  assert (sym t ∉ [6; 21] → trip true true (0 - 7) unexpected [(2, w); (0, v)] (t :: ts) (pushed 17 [(0, v)] stmt_post)) as Hun.
  { intros Hn. apply trip_unexpected. intros Hd. by eapply (err_but_spec 2 [6; 21]). }
  destruct t as [| | | | | | | | | | | | | | | | | | | | | | | | | | | | | | |c|y|y|z|z|]; try (apply Hun; not_among).
  - shift_to 23. name_to 27 60 41. expect_to 51.
    eapply (trip_then _ _ _ _ 10); [apply trip_fieldList; len|lia|got].
    expect_after 80. to_stmt.
  - shift_to 24. name_to 27 60 42. expect_to 52. name_to 57 61 68. expect_to 86. to_stmt.
Qed.

Lemma trip_drop v ts :
  trip true true 0 (skip >>!
      let! t := peek in
      match t with
      | Some TABLE => skip >>! let! tab := p_id in pret (DropTable tab)
      | Some INDEX =>
          skip >>! let! tab := p_id in expect (tchr "(") >>!
          let! c := p_id in expect (tchr ")") >>! pret (DropIndex tab c)
      | _ => unexpected
      end) [(0, v)] (DROP :: ts) (pushed 17 [(0, v)] stmt_post).
Proof.
  shift_to 3. apply trip_peek. destruct ts as [|t ts]; [apply trip_nil|]. cbn [hd_error].
  assert (sym t ∉ [6; 21] → trip true true (0 - 7) unexpected [(3, w); (0, v)] (t :: ts) (pushed 17 [(0, v)] stmt_post)) as Hun.
  { intros Hn. apply trip_unexpected. intros Hd. by eapply (err_but_spec 3 [6; 21]). }
  destruct t as [| | | | | | | | | | | | | | | | | | | | | | | | | | | | | | |c|y|y|z|z|]; try (apply Hun; not_among).
  - shift_to 25. name_to 27 60 43. to_stmt.
  - shift_to 26. name_to 27 60 44. expect_to 53. name_to 57 61 69. expect_to 87. to_stmt.
Qed.

Lemma trip_insert v ts :
  trip true true 0 (skip >>! expect INTO >>! let! tab := p_id in expect VALUES >>! expect (tchr "(") >>!
      let! l := p_list is_comma p_value in expect (tchr ")") >>! pret (InsertStmt tab l))
    [(0, v)] (INSERT :: ts) (pushed 17 [(0, v)] stmt_post).
Proof.
  shift_to 5. expect_to 29. name_to 27 60 45. expect_to 54. expect_to 70.
  eapply (trip_then _ _ _ _ 5); [apply trip_valueList; len|lia|got]. expect_after 107. to_stmt.
Qed.

(** The end of a statement with an optional WHERE clause. *)
Ltac where_to g ys hyps :=
  eapply (trip_map _ false _ (-1) 2); [
    eapply (trip_optWhereClause _ _ _ _ g ys); [reflexivity|in_range|len|hyps]
  | lia | reflexivity
  | let l := fresh "l" in let w := fresh "w" in let Hw := fresh "Hw" in
    intros l ? ? (w & -> & Hw); hnf in Hw; subst l; do 2 reduce0; apply reds_stop; eexists; split; reflexivity ].

Lemma trip_delete v ts :
  trip true false 0 (skip >>! expect FROM >>! let! tab := p_id in let! l := p_optWhereClause in pret (DeleteStmt tab l))
    [(0, v)] (DELETE :: ts) (pushed 17 [(0, v)] stmt_post).
Proof.
  shift_to 6. expect_to 30. name_to 27 60 46.
  where_to 56 [14] ltac:(intros t _ Ht%list_elem_of_singleton; apply sym_lit; [in_lits|done]).
Qed.

Lemma trip_update v ts :
  trip true false 0 (skip >>! let! tab := p_id in expect SET >>! let! l := p_list is_comma p_setClause in
      let! m := p_optWhereClause in pret (UpdateStmt tab l m)) [(0, v)] (UPDATE :: ts) (pushed 17 [(0, v)] stmt_post).
Proof.
  shift_to 7. name_to 27 60 31. expect_to 47.
  eapply (trip_then _ true _ _ 10); [apply trip_setClauses; len|lia|got].
  where_to 75 [14; 41] ltac:(idtac).
  intros t Ht Hin. destruct rest0 as [|t' rest0]; [done|]. injection Ht as ->.
  apply p_list_rest, not_comma in He0.
  apply elem_of_cons in Hin as [Hin|Hin%list_elem_of_singleton]; [|done]. apply sym_lit; [in_lits|done].
Qed.

Lemma trip_select v ts :
  trip true false 0 (skip >>! let! cs := p_selector in expect FROM >>! let! tabs := p_tableList in
      let! m := p_optWhereClause in pret (SelectStmt cs tabs m)) [(0, v)] (SELECT :: ts) (pushed 17 [(0, v)] stmt_post).
Proof.
  shift_to 8. eapply (trip_then _ true _ _ 3); [apply trip_selector; len|lia|got]. expect_to 49.
  eapply (trip_then _ true _ _ 5); [apply trip_tableList; len|lia|got].
  where_to 79 [14; 41; 23] ltac:(idtac).
  intros t Ht Hin. destruct rest0 as [|t' rest0]; [done|]. injection Ht as ->.
  apply p_list_rest, orb_false_iff in He0 as [Hc%not_comma Hj%bool_decide_eq_false].
  apply elem_of_cons in Hin as [Hin|[Hin|Hin%list_elem_of_singleton]%elem_of_cons]; [|done|].
  - apply sym_lit; [in_lits|done].
  - exfalso. apply Hj, sym_lit; [in_lits|done].
Qed.

Lemma trip_stmt v ts :
  head ts ≠ Some HELP → head ts ≠ Some EXIT → head ts ≠ Some T_EOF →
  trip true false 0 p_stmt [(0, v)] ts (pushed 17 [(0, v)] stmt_post).
Proof.
  intros Hh He Ht. destruct ts as [|t ts]; [apply trip_nil|]. unfold p_stmt. apply trip_peek.
  assert (sym t ∉ [3; 5; 7; 8; 9; 12; 15; 17; 24; 25; 26; 27; 28; 29; 33] →
    trip true false 0 unexpected [(0, v)] (t :: ts) (pushed 17 [(0, v)] stmt_post)) as Hun.
  { intros Hn. apply trip_unexpected. intros Hd. eapply err_but_spec; [|exact Hn|exact Hd]. reflexivity. }
  destruct t as [| | | | | | | | | | | | | | | | | | | | | | | | | | | | | | |c|y|y|z|z|]; cbn [hd_error];
    try (apply Hun; not_among); try done.
  - apply (trip_out true true). shift_to 1. expect_to 22. to_stmt.
  - apply (trip_out true true), trip_create.
  - apply (trip_out true true), trip_drop.
  - apply (trip_out true true). shift_to 4. name_to 27 60 28. to_stmt.
  - apply (trip_out true true), trip_insert.
  - apply trip_delete.
  - apply trip_update.
  - apply trip_select.
  - apply (trip_out true true). shift_to 11. to_stmt.
  - apply (trip_out true true). shift_to 12. to_stmt.
  - apply (trip_out true true). shift_to 13. to_stmt.
  - apply (trip_out true true). shift_to 14. to_stmt.
Qed.

(** ** The whole input *)

(** A shift after which the tables accept without another token. *)
Lemma run_accept b s v stk t ts c s' n tree f :
  conf b ((s, v) :: stk) (t :: ts) c → shift_of s (sym t) = Some s' → (length stk < 198)%nat →
  red_of s' = Some n → is_Some (rule_len n) → (∀ w, yyaccepts n (value_at ((s', w) :: (s, v) :: stk)) = Some tree) →
  run (2 + f) c = Some (Accepted tree, ts).
Proof.
  intros Hc Hs Hlen Hr Hl Hacc. apply shift_of_spec in Hs as (Hf & Hd & Hb).
  destruct (step_token _ _ _ _ _ _ _ _ Hc Hf Hd Hb) as (c1 & Hc1 & Hy & Hsrc & Hstep).
  cbn [Nat.add ParseTables.run]. rewrite Hstep. cbn [ParseTables.do_action mbind option_bind].
  unfold red_of in Hr. apply bind_Some in Hr as ([|] & Hd' & Hr); [|done].
  apply bind_Some in Hr as ([| |] & Ha & Hr); try done. destruct (Z.eqb_spec s' YYFINAL) as [|Hf']; [done|].
  injection Hr as ->. unfold ParseTables.step.
  assert (stack (do_shift s' c1) = (s', yylval c1) :: (s, v) :: stk) as Hst by (simpl; by rewrite (cf_stack _ _ _ _ Hc1)).
  rewrite Hst. cbn [hd_error mbind option_bind]. rewrite (proj2 (Nat.leb_gt _ _)) by (unfold YYINITDEPTH; simpl; lia).
  rewrite (proj2 (Z.eqb_neq _ _) Hf'), Hd'. cbn [mbind option_bind]. rewrite Ha. cbn [mbind option_bind ParseTables.do_action].
  unfold do_reduce. rewrite Hst. unfold rule_len in Hl. destruct (at_ yyr2 n) as [l|]; [|by destruct Hl].
  cbn [mbind option_bind].
  change (λ k, (default (0, SemValue0) (((s', yylval c1) :: (s, v) :: stk) !! k)).2)
    with (value_at ((s', yylval c1) :: (s, v) :: stk)).
  rewrite Hacc. cbn. by rewrite Hsrc.
Qed.

(** What the parser of the grammar says, the tables do. *)
Definition agrees (c : config) (ts : list token) (o : outcome (option TreeNode)) : Prop :=
  match o with
  | Ok tree rest => ∃ n, (∀ f, run (n + f) c = Some (Accepted tree, rest)) ∧
      zlen rest ≤ zlen ts ∧ Z.of_nat n ≤ 8 * (zlen ts - zlen rest) + 8
  | Bad rest => ∃ n, (∀ f, run (n + f) c = Some (Aborted, rest)) ∧
      zlen rest ≤ zlen ts ∧ Z.of_nat n ≤ 8 * (zlen ts - zlen rest) + 8
  end.

Lemma run_stmt v ts c :
  conf true [(0, v)] ts c → head ts ≠ Some HELP → head ts ≠ Some EXIT → head ts ≠ Some T_EOF →
  agrees c ts ((let! x := p_stmt in expect (tchr ";") >>! pret (Some x)) ts).
Proof.
  intros Hc Hh He Ht. pose proof (trip_stmt v ts Hh He Ht c Hc) as H. unfold pbind at 1.
  destruct (p_stmt ts) as [x rest|rest]; [|exact H].
  destruct H as (n & c1 & stk1 & Hgo & Hc1 & (w & -> & Hw) & Hlen & Hn).
  destruct rest as [|t rest]; [by pose proof (cf_ends _ _ _ _ Hc1)|].
  unfold pbind, expect. case_bool_decide as Heq.
  - subst t. exists (n + 2)%nat. split_and!; [|simpl length in *; lia..]. intros f.
    rewrite <- Nat.add_assoc, Hgo.
    apply (run_accept false 17 w [(0, v)] (tchr ";") rest c1 40 2); [done|done|simpl; lia|done|by eexists|].
    intros w'. unfold value_at. cbn. by rewrite Hw.
  - exists (n + 1)%nat. split_and!; [|simpl length in *; lia..]. intros f.
    rewrite <- Nat.add_assoc, Hgo. eapply run_err; [done|]. pose proof (defined_head _ _ _ _ _ Hc1) as Hd.
    apply err_but_spec with [38]; [done| |done]. intros Hin%list_elem_of_singleton. apply Heq, sym_lit; [in_lits|done].
Qed.

Lemma run_start v ts c : conf true [(0, v)] ts c → agrees c ts (p_start ts).
Proof.
  intros Hc. destruct ts as [|t ts]; [by pose proof (cf_ends _ _ _ _ Hc)|]. unfold p_start, pbind at 1, peek.
  cbn [hd_error].
  assert (Hacc : ∀ s' n tree, shift_of 0 (sym t) = Some s' → red_of s' = Some n → is_Some (rule_len n) →
    (∀ w, yyaccepts n (value_at [(s', w); (0, v)]) = Some tree) → agrees c (t :: ts) ((skip >>! pret tree) (t :: ts))).
  { intros s' n tree Hs Hr Hl Ha. unfold agrees, skip, pbind, pret. cbn [tail].
    exists 2%nat. split_and!; [|simpl length; lia..]. intros f. eapply run_accept; try done. simpl; lia. }
  destruct (decide (t = HELP)) as [->|Hh]; [by apply (Hacc 10 3)|].
  destruct (decide (t = EXIT)) as [->|He]; [by apply (Hacc 9 4)|].
  destruct (decide (t = T_EOF)) as [->|Ht]; [by apply (Hacc 15 5)|].
  assert (agrees c (t :: ts) ((let! x := p_stmt in expect (tchr ";") >>! pret (Some x)) (t :: ts))) as H.
  { apply run_stmt with v; [done|simpl; congruence..]. }
  by destruct t.
Qed.
