(* ===== verification/FrontEnd.v ===== *)
(** The committed scanner and parser together: [yyparse] of [yacc.tab.cpp] on
    [yylex] of [lex.yy.cpp] against the rules of [lex.l] and the grammar of
    [yacc.y]. *)
From Stdlib Require Import Ascii.
From S2P Require Import Prelude.
From S2P Require Import Regex.
From S2P Require Import Lexer.
From S2P Require Import TokenText.
From S2P Require Import Ast.
From S2P Require Import Grammar.
From S2P Require Import ScanTables.
From S2P Require Import ScanThms.
From S2P Require Import ParseTables.
From S2P Require Import ParseProofs.
From S2P Require Import ParseSteps.

(** ** Scanners that give the same tokens *)

(** What calls of a scanner give, each token with the scanner after it. *)
Inductive feeds {T} (lex : T → option (token * T)) : T → list (token * T) → Prop :=
  | feeds_nil x : feeds lex x []
  | feeds_cons x t x' ps : lex x = Some (t, x') → feeds lex x' ps → feeds lex x ((t, x') :: ps).

(** The scanner after the tokens that were asked for. *)
Definition after {T} (x : T) (asked : list (token * T)) : T := default x (snd <$> last asked).

Lemma after_cons {T} (x : T) t x' asked : after x ((t, x') :: asked) = after x' asked.
Proof. unfold after. rewrite last_cons. by destruct (last asked). Qed.

Section change_source.
  Context {T : Type} (lex : T → option (token * T)).
  Notation parser := ParseTables.parser.
  Implicit Types (c : config).

(** The same parser on another scanner. *)
Definition with_source (x : T) (c : config) : parser (T := T) :=
  ParseTables.mkParser (ParseTables.stack c) (ParseTables.above c) (ParseTables.yychar c) (ParseTables.yylval c)
    (ParseTables.yyerrstatus c) x.

Definition mapped (x : T) (r : ParseTables.yyresult + config) : ParseTables.yyresult + parser (T := T) :=
  match r with inl y => inl y | inr c => inr (with_source x c) end.

Lemma recover_source x l n c :
  ParseTables.recover l n (with_source x c) = mapped x <$> ParseTables.recover l n c.
Proof.
  revert n. induction l as [|[s v] l IH]; intros n; [done|]. cbn [ParseTables.recover].
  destruct (ParseTables.yyerror_shift s) as [[s'|]|]; [done| |done]. cbn [mbind option_bind].
  destruct l; [done|]. apply IH.
Qed.

Lemma do_action_source x a c :
  ParseTables.do_action a (with_source x c) = mapped x <$> ParseTables.do_action a c.
Proof.
  destruct a as [s|n|]; cbn [ParseTables.do_action].
  - done.
  - unfold ParseTables.do_reduce, with_source, ParseTables.pop. simpl.
    destruct (ParseTables.at_ _ _) as [len|]; [|done]. cbn [mbind option_bind].
    destruct (ParseTables.yyaccepts _ _); [done|].
    destruct (ParseTables.yyactions _ _ _); [|done]. cbn [mbind option_bind].
    destruct (head (drop _ _)) as [[top w]|]; [|done]. cbn [mbind option_bind].
    by destruct (ParseTables.yygoto _ _).
  - unfold ParseTables.do_error. simpl. destruct (_ =? 3); [|apply recover_source].
    destruct (ParseTables.yychar c) as [t|]; [|apply recover_source].
    destruct (_ =? 0); [done|]. apply (recover_source x _ _ (ParseTables.set_lookahead None c)).
Qed.

Lemma recover_keeps l n c (c' : config) : ParseTables.recover l n c = Some (inr c') → ParseTables.source c' = ParseTables.source c.
Proof.
  revert n. induction l as [|[s v] l IH]; intros n; [done|]. cbn [ParseTables.recover].
  destruct (ParseTables.yyerror_shift s) as [[s'|]|]; [by intros [= <-]| |done]. cbn [mbind option_bind].
  destruct l; [done|]. apply IH.
Qed.

Lemma do_action_keeps a c (c' : config) :
  ParseTables.do_action a c = Some (inr c') → ParseTables.source c' = ParseTables.source c.
Proof.
  destruct a as [s|n|]; cbn [ParseTables.do_action].
  - by intros [= <-].
  - unfold ParseTables.do_reduce. intros H. apply bind_Some in H as (len & _ & H).
    destruct (ParseTables.yyaccepts _ _); [done|]. apply bind_Some in H as (w & _ & H).
    apply bind_Some in H as ([top w'] & _ & H). apply bind_Some in H as (g & _ & H). by injection H as <-.
  - unfold ParseTables.do_error. destruct (_ =? 3); [|apply recover_keeps].
    destruct (ParseTables.yychar c) as [t|]; [|apply recover_keeps].
    destruct (_ =? 0); [done|]. intros H%recover_keeps. exact H.
Qed.

(** The end of a step: an action after which the parser stops or goes on. *)
Definition ended {S} (r : option (ParseTables.yyresult + parser (T := S))) (c : parser (T := S)) :=
  y ← r; Some (match y with inl y => inl (y, c) | inr c' => inr c' end).

Definition matches_step (x : T) (c : config) (ps : list (token * T)) (x0 : T) (c0 : config)
    (r : ParseTables.yyresult * config + config) : Prop :=
  match r with
  | inl (y, c') => ParseTables.source c' = map fst ps ∧
      ParseTables.step lex (with_source x0 c0) = Some (inl (y, with_source x c'))
  | inr c' => ParseTables.source c' = map fst ps ∧
      ParseTables.step lex (with_source x0 c0) = Some (inr (with_source x c'))
  end.

Lemma ended_source x c ps a x0 c0 r :
  ParseTables.source c = map fst ps →
  ParseTables.step lex (with_source x0 c0) = ended (ParseTables.do_action a (with_source x c)) (with_source x c) →
  ended (ParseTables.do_action a c) c = Some r → matches_step x c ps x0 c0 r.
Proof.
  intros Hs Hstep He. unfold ended in *. rewrite do_action_source in Hstep.
  destruct (ParseTables.do_action a c) as [[y|c']|] eqn:Ha; [| |done]; simpl in *; injection He as <-; simpl.
  - done.
  - split; [|done]. by rewrite (do_action_keeps _ _ _ Ha).
Qed.

(** A step on the tokens is a step on the scanner. *)
Lemma step_source x ps c r :
  feeds lex x ps → ParseTables.source c = map fst ps → ParseTables.step next c = Some r →
  ∃ asked ps', ps = asked ++ ps' ∧ feeds lex (after x asked) ps' ∧ matches_step (after x asked) c ps' x c r.
Proof.
  intros Hf Hs H. unfold ParseTables.step in H. apply bind_Some in H as ([s v] & Hhead & H).
  assert (head (ParseTables.stack (with_source x c)) = Some (s, v)) as Hhead' by done.
  destruct (ParseTables.YYINITDEPTH <=? length (ParseTables.stack c))%nat eqn:Hdepth.
  { exists [], ps. split_and!; [done|done|]. injection H as <-. split; [done|].
    unfold ParseTables.step. rewrite Hhead'. cbn [mbind option_bind]. simpl ParseTables.stack. by rewrite Hdepth. }
  destruct (s =? ParseTables.YYFINAL) eqn:Hfin.
  { exists [], ps. split_and!; [done|done|]. injection H as <-. split; [done|].
    unfold ParseTables.step. rewrite Hhead'. cbn [mbind option_bind]. simpl ParseTables.stack. by rewrite Hdepth, Hfin. }
  apply bind_Some in H as (d & Hd & H). destruct d.
  { apply bind_Some in H as (a & Ha & H). exists [], ps. split_and!; [done|done|].
    apply (ended_source _ _ _ a); [done| |exact H].
    unfold ParseTables.step. rewrite Hhead'. cbn [mbind option_bind]. simpl ParseTables.stack. rewrite Hdepth, Hfin, Hd.
    cbn [mbind option_bind]. by rewrite Ha. }
  apply bind_Some in H as ([t c1] & Hla & H).
  assert (∃ asked ps', ps = asked ++ ps' ∧ feeds lex (after x asked) ps' ∧ ParseTables.source c1 = map fst ps' ∧
    ParseTables.lookahead lex (with_source x c) = Some (t, with_source (after x asked) c1)) as (asked & ps' & -> & Hf' & Hs1 & Hla').
  { unfold ParseTables.lookahead in *. simpl. destruct (ParseTables.yychar c) as [t'|] eqn:Hy.
    - injection Hla as -> ->. exists [], ps. by split_and!.
    - rewrite Hs in Hla. destruct ps as [|[t' x'] ps]; [done|]. simpl in Hla. injection Hla as -> <-.
      inversion Hf as [|? ? ? ? Hlex Hf']; subst. exists [(t, x')], ps. split_and!; [done|done|done|]. by rewrite Hlex. }
  exists asked, ps'. split_and!; [done|done|].
  assert (Hstep : ParseTables.step lex (with_source x c) =
    if bool_decide (t = ATOI_UNDEFINED) then Some (inl (ParseTables.Undefined, with_source (after x asked) c1))
    else yytoken ← ParseTables.YYTRANSLATE (ParseTables.yytokentype t);
         a ← ParseTables.yybackup s yytoken;
         ended (ParseTables.do_action a (with_source (after x asked) c1)) (with_source (after x asked) c1)).
  { unfold ParseTables.step. rewrite Hhead'. cbn [mbind option_bind]. simpl ParseTables.stack. rewrite Hdepth, Hfin, Hd.
    cbn [mbind option_bind]. by rewrite Hla'. }
  destruct (bool_decide (t = ATOI_UNDEFINED)).
  { injection H as <-. by split. }
  apply bind_Some in H as (y & Hy & H). apply bind_Some in H as (a & Ha & H).
  rewrite Hy in Hstep. cbn [mbind option_bind] in Hstep. rewrite Ha in Hstep. cbn [mbind option_bind] in Hstep.
  destruct r as [[y' c']|c'].
  - pose proof (ended_source (after x asked) c1 ps' a x c _ Hs1 Hstep H) as Hm. exact Hm.
  - pose proof (ended_source (after x asked) c1 ps' a x c _ Hs1 Hstep H) as Hm. exact Hm.
Qed.

Lemma after_app x (asked asked' : list (token * T)) : after (after x asked) asked' = after x (asked ++ asked').
Proof.
  unfold after. rewrite last_app. by destruct (last asked').
Qed.

(** A run on the tokens is a run on the scanner. *)
Lemma run_source f x ps c y rest :
  feeds lex x ps → ParseTables.source c = map fst ps → run f c = Some (y, rest) →
  ∃ asked ps', ps = asked ++ ps' ∧ rest = map fst ps' ∧ ParseTables.run lex f (with_source x c) = Some (y, after x asked).
Proof.
  revert x ps c. induction f as [|f IH]; intros x ps c Hf Hs H; [done|]. cbn [ParseTables.run] in *.
  apply bind_Some in H as (r & Hstep & H).
  destruct (step_source x ps c r Hf Hs Hstep) as (asked & ps' & -> & Hf' & Hm).
  destruct r as [[y' c']|c']; destruct Hm as [Hs' Hm]; rewrite Hm; cbn [mbind option_bind].
  - injection H as <- <-. by exists asked, ps'.
  - destruct (IH (after x asked) ps' c' Hf' Hs' H) as (asked' & ps'' & -> & -> & Hrun).
    exists (asked ++ asked'), ps''. rewrite <- app_assoc. split_and!; [done|done|]. by rewrite <- after_app.
Qed.

End change_source.

(** ** The committed front end *)

Section front_end.
  Context (atof : string → Z).

Definition lex_l (l : lexer) : option (token * lexer) := Lexer.yylex atof (lex_fuel l) l.

Lemma tokens_feed fuel l ts : tokens atof fuel l = Some ts → feeds lex_l l ts ∧ (length ts ≤ fuel)%nat.
Proof.
  revert l ts. induction fuel as [|fuel IH]; intros l ts H; [done|]. cbn [tokens] in H.
  apply bind_Some in H as ([t l'] & Hlex & H). case_bool_decide.
  - injection H as <-. split; [|simpl; lia]. apply feeds_cons; [done|constructor].
  - apply bind_Some in H as (ts' & Hts & H). injection H as <-. destruct (IH _ _ Hts).
    split; [|simpl; lia]. by apply feeds_cons.
Qed.

Lemma tokens_end fuel l ts : tokens atof fuel l = Some ts → last (map fst ts) = Some T_EOF.
Proof.
  revert l ts. induction fuel as [|fuel IH]; intros l ts H; [done|]. cbn [tokens] in H.
  apply bind_Some in H as ([t l'] & Hlex & H). case_bool_decide.
  - injection H as <-. by subst.
  - apply bind_Some in H as (ts' & Hts & H). injection H as <-. cbn [map fst].
    rewrite last_cons. by rewrite (IH _ _ Hts).
Qed.

(** The committed scanner feeds the same tokens. *)
Lemma tracks_feed g l ts :
  tracks g l → feeds lex_l l ts →
  ∃ gs, feeds (ScanTables.yylex atof) g gs ∧ map fst gs = map fst ts ∧
    Forall2 (λ x y, tracks x.2 y.2) gs ts.
Proof.
  intros Htr Hf. revert g Htr. induction Hf as [l|l t l' ts Hlex Hf IH]; intros g Htr.
  - exists []. split_and!; [constructor|done|done].
  - destruct (yylex_tracks atof g l Htr) as (t' & g' & l'' & Hg & Hl & Htr').
    unfold lex_l in Hlex. rewrite Hl in Hlex. injection Hlex as -> ->.
    destruct (IH g' Htr') as (gs & Hgs & Hmap & Hall). exists ((t, g') :: gs). split_and!.
    + by apply feeds_cons.
    + simpl. by rewrite Hmap.
    + by constructor.
Qed.

Lemma after_tracks g l gs ts :
  tracks g l → Forall2 (λ x y, tracks x.2 y.2) gs ts → tracks (after g gs) (after l ts).
Proof.
  intros Htr H. revert g l Htr. induction H as [|[t g'] [t' l'] gs ts Hh _ IH]; intros g l Htr; [done|].
  rewrite !after_cons. by apply IH.
Qed.

(** The results of the two parsers mean the same. *)
Definition same_result (r : ParseTables.yyresult) (p : parsed) : Prop :=
  match r, p with
  | ParseTables.Accepted tree, Accepted tree' => tree = tree'
  | ParseTables.Aborted, SyntaxError => True
  | _, _ => False
  end.

(** Eight shifts and reductions for each token and the end of the text. *)
Definition parse_fuel (l : lexer) : nat := 8 * lex_fuel l + 8.

Lemma parser0_conf ts : last ts = Some T_EOF → ATOI_UNDEFINED ∉ ts →
  conf true [(0, ParseTables.SemValue0)] ts (ParseTables.parser0 ts).
Proof.
  intros Hl Hd. split; try done.
  - constructor; [|done]. unfold state_range. simpl. lia.
  - simpl. lia.
  - intros _. split_and!; [by repeat constructor|done|done].
Qed.

(** The run over the tokens of the text. *)
Lemma run_tokens_agree l ts fuel :
  tokens atof (lex_fuel l) l = Some ts → ATOI_UNDEFINED ∉ map fst ts → (parse_fuel l ≤ fuel)%nat →
  ∃ r rest p, ParseProofs.run fuel (ParseTables.parser0 (map fst ts)) = Some (r, rest) ∧ same_result r p ∧
    Grammar.yyparse atof l = Some (p, after l (take (length ts - length rest) ts)).
Proof.
  intros Hts Hd Hfuel. destruct (tokens_feed _ _ _ Hts) as [_ Hlen]. pose proof (tokens_end _ _ _ Hts) as Hend.
  pose proof (run_start _ _ _ (parser0_conf _ Hend Hd)) as H. unfold agrees in H.
  unfold Grammar.yyparse. rewrite Hts. cbn [mbind option_bind].
  unfold parse_fuel in Hfuel. rewrite length_map in H.
  assert (Hasked : ∀ n, bool_decide (fst <$> last (take n ts) = Some ATOI_UNDEFINED) = false).
  { intros n. apply bool_decide_eq_false. intros He. destruct (last (take n ts)) as [x|] eqn:Hx; [|done].
    injection He as He. apply Hd. apply list_elem_of_fmap. exists x. split; [done|].
    apply last_Some_elem_of, elem_of_take in Hx as (i & Hx & _). by eapply list_elem_of_lookup_2. }
  destruct (p_start (map fst ts)) as [tree rest|rest]; destruct H as (n & Hrun & Hle & Hn);
    (assert (n ≤ fuel)%nat as Hnf by lia); specialize (Hrun (fuel - n)%nat);
    replace (n + (fuel - n))%nat with fuel in Hrun by lia.
  - by eexists _, rest, (Accepted tree).
  - exists ParseTables.Aborted, rest, SyntaxError. split_and!; [done|done|]. by rewrite Hasked.
Qed.

(** C22: The committed front end: [yyparse] of [yacc.tab.cpp], called on the committed
    scanner, gives the tree or the syntax error that the grammar of [yacc.y] gives on
    the tokens of [lex.l], and leaves the scanner in the same start condition.  It
    returns within eight steps for each token, and its stack of 200 never fills.  The
    text holds no NUL and no integer outside [int]. *)
Theorem front_end_correct sc text fuel ts :
  ScanTables.NUL ∉ text →
  tokens atof (lex_fuel (mkLexer sc text)) (mkLexer sc text) = Some ts → ATOI_UNDEFINED ∉ map fst ts →
  (8 * length text + 16 ≤ fuel)%nat →
  ∃ r g p l,
    ParseTables.yyparse (ScanTables.yylex atof) fuel (ScanTables.yy_scan_bytes (ScanTables.start_number sc) text) = Some (r, g) ∧
    Grammar.yyparse atof (mkLexer sc text) = Some (p, l) ∧
    same_result r p ∧ ScanTables.yy_start g = ScanTables.start_number (Lexer.yy_start l).
Proof.
  intros Hn Hts Hd Hfuel. set (l0 := mkLexer sc text) in *. set (g0 := ScanTables.yy_scan_bytes (ScanTables.start_number sc) text).
  assert (parse_fuel l0 ≤ fuel)%nat as Hpf by (unfold parse_fuel, lex_fuel; simpl; lia).
  destruct (run_tokens_agree l0 ts fuel Hts Hd Hpf) as (r & rest & p & Hrun & Hsame & Hg).
  destruct (tracks_feed g0 l0 ts (scan_bytes_tracks sc text Hn) (proj1 (tokens_feed _ _ _ Hts)))
    as (gs & Hfeed & Hmap & Hall).
  rewrite <- Hmap in Hrun.
  destruct (run_source _ fuel g0 gs (ParseTables.parser0 (map fst gs)) r rest Hfeed eq_refl Hrun) as (asked & gs' & -> & Hrest & Hrun').
  exists r, (after g0 asked), p, (after l0 (take (length ts - length rest) ts)).
  split_and!; [exact Hrun'|exact Hg|exact Hsame|].
  apply tr_start, after_tracks; [exact (scan_bytes_tracks sc text Hn)|].
  replace (length ts - length rest)%nat with (length asked).
  - apply (Forall2_take _ _ _ (length asked)) in Hall. by rewrite take_app_length in Hall.
  - apply Forall2_length in Hall. rewrite Hrest, length_map, <- Hall, length_app. lia.
Qed.

End front_end.

Definition demo_text : chars := String.list_ascii_of_string "SELECT * FROM a, b WHERE a.x >= 7;".
Definition demo_tokens : list (token * lexer) :=
  default [] (tokens (λ _, 0) (lex_fuel (mkLexer INITIAL demo_text)) (mkLexer INITIAL demo_text)).

(** The tree of a statement, through the committed tables. *)
Lemma front_end_correct_witness :
  (fst <$> ParseTables.yyparse (ScanTables.yylex (λ _, 0)) 300
     (ScanTables.yy_scan_bytes (ScanTables.start_number INITIAL) demo_text) =
   Some (ParseTables.Accepted (Some (ast.SelectStmt [] ["a"; "b"]%string
     [ast.mkBinaryExpr (ast.mkCol "a" "x") ast.SV_OP_GE (ast.ValueExpr (ast.IntLit 7))])))) ∧
  ∃ r g p l,
    ParseTables.yyparse (ScanTables.yylex (λ _, 0)) 300
      (ScanTables.yy_scan_bytes (ScanTables.start_number INITIAL) demo_text) = Some (r, g) ∧
    Grammar.yyparse (λ _, 0) (mkLexer INITIAL demo_text) = Some (p, l) ∧
    same_result r p ∧ ScanTables.yy_start g = ScanTables.start_number (Lexer.yy_start l).
Proof.
  split; [vm_compute; reflexivity|].
  apply (front_end_correct (λ _, 0) INITIAL demo_text 300 demo_tokens).
  - apply (bool_decide_eq_true_1 (ScanTables.NUL ∉ demo_text)). vm_compute. reflexivity.
  - vm_compute. reflexivity.
  - apply (bool_decide_eq_true_1 (ATOI_UNDEFINED ∉ map fst demo_tokens)). vm_compute. reflexivity.
  - apply Nat.leb_le. vm_compute. reflexivity.
Defined.
