(* ===== verification/Interp.v ===== *)
(** The statement interpreter, [src/src/interp.h]. *)
From Stdlib Require Import Ascii.
From S2P Require Import Prelude.
From S2P Require Import Defs.
From S2P Require Import Replacer.
From S2P Require Import Disk.
From S2P Require Import Txn.
From S2P Require Import SmMeta.
From S2P Require Import RecordPrinter.
From S2P Require Import SmManager.
From S2P Require Import Query.
From S2P Require Import QlManager.
From S2P Require Import Ast.

#[local] Open Scope prog_scope.

Module Interp.

Definition help_lines : list string :=
  ["Supported SQL syntax:";
   "  command ;";
   "command:";
   "  CREATE TABLE table_name (column_name type [, column_name type ...])";
   "  DROP TABLE table_name";
   "  CREATE INDEX table_name (column_name)";
   "  DROP INDEX table_name (column_name)";
   "  INSERT INTO table_name VALUES (value [, value ...])";
   "  DELETE FROM table_name [WHERE where_clause]";
   "  UPDATE table_name SET column_name = value [, column_name = value ...] [WHERE where_clause]";
   "  SELECT selector FROM table_name [WHERE where_clause]";
   "type:";
   "  {INT | FLOAT | CHAR(n)}";
   "where_clause:";
   "  condition [AND condition ...]";
   "condition:";
   "  column op {column | value}";
   "column:";
   "  [table_name.]column_name";
   "op:";
   "  {= | <> | < | > | <= | >=}";
   "selector:";
   "  {* | column [, column ...]}"]%string.

Definition help_info : string := foldr (λ l s, (l ++ newline ++ s)%string) ""%string help_lines.

(** ** From syntax trees to the arguments of the managers *)

Definition interp_sv_type (sv_type : ast.SvType) : ColType :=
  match sv_type with
  | ast.SV_TYPE_INT => TYPE_INT | ast.SV_TYPE_FLOAT => TYPE_FLOAT | ast.SV_TYPE_STRING => TYPE_STRING
  end.

Definition interp_sv_comp_op (op : ast.SvCompOp) : CompOp :=
  match op with
  | ast.SV_OP_EQ => OP_EQ | ast.SV_OP_NE => OP_NE | ast.SV_OP_LT => OP_LT
  | ast.SV_OP_GT => OP_GT | ast.SV_OP_LE => OP_LE | ast.SV_OP_GE => OP_GE
  end.

Definition interp_sv_value {S} (sv_val : ast.Value) : M S Value.t :=
  match sv_val with
  | ast.IntLit n => ret (Value.set_int n Value.empty)
  | ast.FloatLit x => ret (Value.set_float x Value.empty)
  | ast.StringLit s => ret (Value.set_str s Value.empty)
  | ast.BareValue => throw (InternalError "Unexpected sv value type")
  end.

(** One condition; with neither a value nor a column on the right,
    [push_back] copies an [is_rhs_val] that has no value. *)
Definition interp_cond {S} (expr : ast.BinaryExpr) : M S Condition.t :=
  let lhs := mkTabCol (ast.col_tab_name (ast.lhs expr)) (ast.col_col_name (ast.lhs expr)) in
  let op := interp_sv_comp_op (ast.op expr) in
  match ast.rhs expr with
  | ast.ValueExpr v =>
      let* v := interp_sv_value v in ret (Condition.mk lhs op true (mkTabCol "" "") v)
  | ast.ColExpr c =>
      ret (Condition.mk lhs op false (mkTabCol (ast.col_tab_name c) (ast.col_col_name c)) Value.empty)
  | ast.BareExpr => undefined
  end.

Definition interp_where_clause {S} (sv_conds : list ast.BinaryExpr) : M S (list Condition.t) :=
  fold_m (λ conds expr, let* c := interp_cond expr in ret (conds ++ [c])) [] sv_conds.

Definition interp_fields {S} (fields : list ast.Field) : M S (list ColDef) :=
  fold_m (λ col_defs field,
    match field with
    | ast.ColDef col_name type_len =>
        ret (col_defs ++ [mkColDef col_name (interp_sv_type (ast.tl_type type_len)) (ast.tl_len type_len)])
    | ast.BareField => throw (InternalError "Unexpected field type")
    end) [] fields.

Definition interp_values {S} (vals : list ast.Value) : M S (list Value.t) :=
  fold_m (λ l v, let* x := interp_sv_value v in ret (l ++ [x])) [] vals.

Definition interp_set_clauses {S} (l : list ast.SetClause) : M S (list SetClause) :=
  fold_m (λ set_clauses c,
    let* v := interp_sv_value (ast.set_val c) in
    ret (set_clauses ++ [mkSetClause (mkTabCol "" (ast.set_col_name c)) v])) [] l.

(** ** [interp_sql] *)

(** The managers, the context of the statement and the transaction number of
    the connection. *)
Record t (F R : Type) := mk {
  sm_ : SmManager.t F R;
  tm_ : TransactionManager.t;
  ctx_ : Context;
  txn_id_ : Z
}.
Arguments mk {F R} _ _ _ _.
Arguments sm_ {F R} _.
Arguments tm_ {F R} _.
Arguments ctx_ {F R} _.
Arguments txn_id_ {F R} _.

Section ops.
  Context {F : Type} `{Posix F} {R : Type} `{Replacer R}.
  Context (this_thread : Z) (n fuel : nat) (page_buf : bytes) (float_str : Z → string).
  Notation st := (t F R).

Definition on_sm {A} (m : M (SmManager.t F R) A) : M st A :=
  zoom sm_ (λ x s, mk x (tm_ s) (ctx_ s) (txn_id_ s)) m.
Definition on_tm {A} (m : M TransactionManager.t A) : M st A :=
  zoom tm_ (λ x s, mk (sm_ s) x (ctx_ s) (txn_id_ s)) m.
Definition on_ctx {A} (m : M Context A) : M st A :=
  zoom ctx_ (λ x s, mk (sm_ s) (tm_ s) x (txn_id_ s)) m.
Definition on_ql {A} (m : M (SmManager.t F R * Context) A) : M st A :=
  zoom (λ s, (sm_ s, ctx_ s)) (λ p s, mk p.1 (tm_ s) p.2 (txn_id_ s)) m.

Definition set_txn (p : option Z) : M st unit :=
  on_ctx (modify (λ c, mkContext p (data_send_ c) (offset_ c))).
Definition set_txn_id (z : Z) : M st unit := modify (λ s, mk (sm_ s) (tm_ s) (ctx_ s) z).

(** A member of [*context->txn_] *)
Definition cur_txn : M st Transaction.t :=
  let* p := gets (λ s, txn_ (ctx_ s)) in on_tm (TransactionManager.deref p).
Definition upd_txn (g : Transaction.t → Transaction.t) : M st unit :=
  let* p := gets (λ s, txn_ (ctx_ s)) in on_tm (TransactionManager.update p g).

(** [context->txn_ = txn_mgr_->GetTransaction( *txn_id )] *)
Definition fetch_txn : M st unit :=
  let* z := gets txn_id_ in
  let* p := on_tm (TransactionManager.GetTransaction this_thread z) in
  set_txn p.

Definition finished (s : TransactionState) : bool :=
  match s with COMMITTED | ABORTED => true | _ => false end.

Definition SetTransaction : M st unit :=
  fetch_txn ;;;
  let* p := gets (λ s, txn_ (ctx_ s)) in
  let* fresh := (match p with
                 | None => ret true
                 | Some _ => let* x := cur_txn in ret (finished (Transaction.state_ x))
                 end) in
  when fresh
    (let* q := on_tm (TransactionManager.Begin None) in
     set_txn q ;;;
     let* x := cur_txn in
     set_txn_id (Transaction.txn_id_ x) ;;;
     upd_txn (Transaction.SetTxnMode false)).

(** [if (context->txn_->GetTxnMode() == false) txn_mgr_->Commit(...)] *)
Definition auto_commit : M st unit :=
  let* x := cur_txn in
  let* mode := or_ub (Transaction.txn_mode_ x) in
  when (negb mode)
    (let* p := gets (λ s, txn_ (ctx_ s)) in on_tm (TransactionManager.Commit p)).

Definition print_help : M Context unit :=
  let* c := gets id in
  let* d := or_ub (data_send_ c) in
  let* d := or_ub (mem_write d (offset_ c) (str_bytes help_info)) in
  modify (λ c, mkContext (txn_ c) (Some d) (Z.of_nat (String.length help_info))).

Definition db : M st DbMeta.t := gets (λ s, SmManager.db_ (sm_ s)).

Definition interp_sql (root : ast.TreeNode) : M st unit :=
  match root with
  | ast.Help => on_ctx print_help
  | ast.ShowTables =>
      SetTransaction ;;; let* d := db in on_ctx (SmManager.show_tables d) ;;; auto_commit
  | ast.DescTable tab_name =>
      SetTransaction ;;; let* d := db in on_ctx (SmManager.desc_table d tab_name) ;;; auto_commit
  | ast.CreateTable tab_name fields =>
      let* col_defs := interp_fields fields in
      SetTransaction ;;; on_sm (SmManager.create_table tab_name col_defs) ;;; auto_commit
  | ast.DropTable tab_name =>
      SetTransaction ;;; on_sm (SmManager.drop_table tab_name) ;;; auto_commit
  | ast.CreateIndex tab_name col_name =>
      SetTransaction ;;; on_sm (SmManager.create_index n fuel page_buf tab_name col_name) ;;; auto_commit
  | ast.DropIndex tab_name col_name =>
      SetTransaction ;;; on_sm (SmManager.drop_index tab_name col_name) ;;; auto_commit
  | ast.InsertStmt tab_name vals =>
      let* values := interp_values vals in
      SetTransaction ;;; on_ql (QlManager.insert_into tab_name values) ;;; auto_commit
  | ast.DeleteStmt tab_name sv_conds =>
      let* conds := interp_where_clause sv_conds in
      SetTransaction ;;; on_ql (QlManager.delete_from tab_name conds) ;;; auto_commit
  | ast.UpdateStmt tab_name sv_set_clauses sv_conds =>
      let* conds := interp_where_clause sv_conds in
      let* set_clauses := interp_set_clauses sv_set_clauses in
      SetTransaction ;;; on_ql (QlManager.update_set tab_name set_clauses conds) ;;; auto_commit
  | ast.SelectStmt cols tabs sv_conds =>
      let* conds := interp_where_clause sv_conds in
      let sel_cols := map (λ c, mkTabCol (ast.col_tab_name c) (ast.col_col_name c)) cols in
      SetTransaction ;;; on_ql (QlManager.select_from fuel float_str sel_cols tabs conds) ;;; auto_commit
  | ast.TxnBegin =>
      let* q := on_tm (TransactionManager.Begin None) in
      set_txn q ;;;
      let* x := cur_txn in
      set_txn_id (Transaction.txn_id_ x) ;;;
      upd_txn (Transaction.SetTxnMode true)
  | ast.TxnAbort | ast.TxnRollback =>
      fetch_txn ;;; let* p := gets (λ s, txn_ (ctx_ s)) in on_tm (TransactionManager.Abort p)
  | ast.TxnCommit =>
      fetch_txn ;;; let* p := gets (λ s, txn_ (ctx_ s)) in on_tm (TransactionManager.Commit p)
  | _ => throw (InternalError "Unexpected AST root")
  end.

End ops.
End Interp.
