(* ===== verification/InterpThms.v ===== *)
(** Theorems about the interpreter: what the unfinished transaction manager does
    to every statement. *)
From S2P Require Import Prelude.
From S2P Require Import Defs.
From S2P Require Import Replacer.
From S2P Require Import Disk.
From S2P Require Import Txn.
From S2P Require Import SmManager.
From S2P Require Import Query.
From S2P Require Import QlManager.
From S2P Require Import Ast.
From S2P Require Import ParserThms.
From S2P Require Import Interp.
Import Interp.

#[local] Open Scope prog_scope.

(** ** The translation of a tree the grammar can build always succeeds *)

Definition runs {St A} (m : M St A) : Prop := ∀ s, ∃ a, m s = (Ret a, s).

Lemma runs_bind {St A B} (m : M St A) (k : A → M St B) : runs m → (∀ a, runs (k a)) → runs (bind m k).
Proof. intros Hm Hk s. destruct (Hm s) as [a Ha]. rewrite (bind_Ret _ _ _ _ _ Ha). apply Hk. Qed.

Lemma runs_ret {St A} (a : A) : runs (ret (St := St) a).
Proof. by exists a. Qed.

Lemma runs_fold {St A B} (f : B → A → M St B) (P : A → Prop) l b :
  (∀ b a, P a → runs (f b a)) → Forall P l → runs (fold_m f b l).
Proof.
  intros Hf Hl. revert b. induction Hl as [|a l Ha _ IH]; intros b; [apply runs_ret|].
  apply runs_bind; [by apply Hf|done].
Qed.

Lemma runs_value {St} v : value_ok v → runs (St := St) (interp_sv_value v).
Proof. destruct v; intros Hv; [apply runs_ret..|done]. Qed.

Lemma runs_cond {St} c : expr_ok (ast.rhs c) → runs (St := St) (interp_cond c).
Proof.
  unfold interp_cond. destruct (ast.rhs c); intros He; [|apply runs_ret|done].
  apply runs_bind; [by apply runs_value|]. intros. apply runs_ret.
Qed.

Lemma runs_where {St} l : Forall (λ b, expr_ok (ast.rhs b)) l → runs (St := St) (interp_where_clause l).
Proof.
  apply runs_fold. intros b c Hc. apply runs_bind; [by apply runs_cond|]. intros. apply runs_ret.
Qed.

Lemma runs_fields {St} l : Forall field_ok l → runs (St := St) (interp_fields l).
Proof. apply runs_fold. intros b [] Hf; [apply runs_ret|done]. Qed.

Lemma runs_values {St} l : Forall value_ok l → runs (St := St) (interp_values l).
Proof.
  apply runs_fold. intros b v Hv. apply runs_bind; [by apply runs_value|]. intros. apply runs_ret.
Qed.

Lemma runs_set_clauses {St} l :
  Forall (λ c, value_ok (ast.set_val c)) l → runs (St := St) (interp_set_clauses l).
Proof.
  apply runs_fold. intros b c Hc. apply runs_bind; [by apply runs_value|]. intros. apply runs_ret.
Qed.

(** ** Statements *)

Definition stuck {A} (r : Res A) : Prop := r = UB ∨ r = AssertFail.

Lemma stuck_now {St A B} (m : M St A) (k : A → M St B) (s : St) : stuck (m s).1 → stuck (bind m k s).1.
Proof. unfold bind, stuck. destruct (m s) as [[] s']; simpl; naive_solver. Qed.

Lemma stuck_after {St A B} (m : M St A) (k : A → M St B) (s : St) :
  runs m → (∀ a, stuck (k a s).1) → stuck (bind m k s).1.
Proof. intros Hm Hk. destruct (Hm s) as [a Ha]. by rewrite (bind_Ret _ _ _ _ _ Ha). Qed.

Section interp.
  Context {F : Type} `{Posix F} {R : Type} `{Replacer R}.
  Context (this_thread : Z) (n fuel : nat) (page_buf : bytes) (float_str : Z → string).
  Notation st := (Interp.t F R).
  Implicit Types (s : st).

(** Statements that run inside a transaction. *)
Definition data_stmt (root : ast.TreeNode) : bool :=
  match root with
  | ast.ShowTables | ast.DescTable _ | ast.CreateTable _ _ | ast.DropTable _ | ast.CreateIndex _ _
  | ast.DropIndex _ _ | ast.InsertStmt _ _ | ast.DeleteStmt _ _ | ast.UpdateStmt _ _ _
  | ast.SelectStmt _ _ _ | ast.TxnBegin => true
  | _ => false
  end.

Lemma SetTransaction_stuck s :
  TransactionManager.txn_map (tm_ s) = ∅ → stuck (SetTransaction this_thread s).1.
Proof.
  intros Hm. unfold SetTransaction, fetch_txn. rewrite !bind_assoc, bind_gets, bind_assoc.
  unfold on_tm at 1, zoom, bind at 1, TransactionManager.GetTransaction.
  destruct (Z.eqb_spec (txn_id_ s) INVALID_TXN_ID).
  - left. done.
  - right. rewrite bind_gets, Hm. done.
Qed.

Lemma data_stmt_stuck s root :
  TransactionManager.txn_map (tm_ s) = ∅ → stmt_ok root → data_stmt root = true →
  stuck (interp_sql this_thread n fuel page_buf float_str root s).1.
Proof.
  intros Hm Hok Hd. pose proof (SetTransaction_stuck s Hm) as Hst.
  destruct root; try discriminate Hd; cbn [interp_sql]; try (by apply stuck_now);
    cbn [stmt_ok] in Hok; destruct_and? Hok.
  - by left.
  - apply stuck_after; [by apply runs_fields|]. intros. by apply stuck_now.
  - apply stuck_after; [by apply runs_values|]. intros. by apply stuck_now.
  - apply stuck_after; [by apply runs_where|]. intros. by apply stuck_now.
  - apply stuck_after; [by apply runs_where|]. intros.
    apply stuck_after; [by apply runs_set_clauses|]. intros. by apply stuck_now.
  - apply stuck_after; [by apply runs_where|]. intros. by apply stuck_now.
Qed.

(** The statements that end a transaction, outside of one. *)
Lemma end_stmt_ok s root :
  txn_id_ s = INVALID_TXN_ID → root = ast.TxnCommit ∨ root = ast.TxnAbort ∨ root = ast.TxnRollback →
  interp_sql this_thread n fuel page_buf float_str root s
  = (Ret tt, mk (sm_ s) (tm_ s) (mkContext None (data_send_ (ctx_ s)) (offset_ (ctx_ s))) (txn_id_ s)).
Proof.
  intros Ht Hroot. assert (fetch_txn this_thread s = (Ret tt,
    mk (sm_ s) (tm_ s) (mkContext None (data_send_ (ctx_ s)) (offset_ (ctx_ s))) (txn_id_ s))) as Hf.
  { unfold fetch_txn. rewrite bind_gets, Ht. unfold bind at 1, on_tm, zoom. cbn. by rewrite Ht. }
  destruct Hroot as [->|[->| ->]]; cbn [interp_sql]; run Hf; done.
Qed.

End interp.
