(* ===== verification/Server.v ===== *)
(** The request loop of the server, [client_handler] of [src/src/rucbase.cpp],
    on the scanner, the parser and the interpreter.

    The sockets are reduced to the bytes received and sent.  The start condition
    of the scanner is a global: it outlives requests and connections.  So is
    [ast::parse_tree], but with one thread a request reads it only after it was set;
    [Sessions] has several threads. *)
From Stdlib Require Import Ascii.
From S2P Require Import Prelude.
From S2P Require Import Defs.
From S2P Require Import Replacer.
From S2P Require Import Disk.
From S2P Require Import Txn.
From S2P Require Import Lexer.
From S2P Require Import Ast.
From S2P Require Import Grammar.
From S2P Require Import Interp.

#[local] Open Scope prog_scope.

Module Server.

Definition BUFFER_LENGTH : Z := 8192.

(** What [read] gives: the connection is closed, fails, or some bytes. *)
Inductive Recv := Closed | Failed | Received (bs : bytes).

(** The C string in a buffer, [None] without a NUL in it. *)
Fixpoint c_string (buf : bytes) : option string :=
  match buf with
  | [] => None
  | x :: buf' =>
      if to_u8 x =? 0 then Some ""%string
      else s ← c_string buf'; Some (String (ascii_of_N (Z.to_N (to_u8 x))) s)
  end.

(** [catch (RedBaseError &)]: the exceptions of [errors.h]; the others end
    the program. *)
Definition is_RedBaseError (e : Err) : bool :=
  match e with OutOfRange | BadArrayLength => false | _ => true end.

Section ops.
  Context {F : Type} `{Posix F} {R : Type} `{Replacer R}.
  Context (this_thread : Z) (n fuel : nat) (page_buf : bytes) (float_str : Z → string) (atof : string → Z).
  (** the interpreter and the start condition of the scanner *)
  Notation st := (Interp.t F R * start_condition)%type.

Definition on_interp {A} (m : M (Interp.t F R) A) : M st A := zoom fst (λ x s, (x, s.2)) m.

(** The statement and the handlers of its exceptions; nothing that is modelled
    throws a [TransactionAbortException]. *)
Definition try_interp (root : ast.TreeNode) : M st unit := λ s,
  match on_interp (Interp.interp_sql this_thread n fuel page_buf float_str root) s with
  | (Throw e, s') => if is_RedBaseError e then (Ret tt, s') else (Throw e, s')
  | r => r
  end.

(** [yy_scan_string(data_recv)] and [yyparse()]; [None]: its result is not 0. *)
Definition parse (sql : string) : M st (option (option ast.TreeNode)) := λ s,
  match yyparse atof (mkLexer s.2 (String.list_ascii_of_string sql)) with
  | None => (NoFuel, s)
  | Some (Undefined, l) => (UB, (s.1, yy_start l))
  | Some (SyntaxError, l) => (Ret None, (s.1, yy_start l))
  | Some (Accepted tree, l) => (Ret (Some tree), (s.1, yy_start l))
  end.

(** One round of the loop: [None] leaves the loop, [Some] is the reply sent. *)
Definition handle_request (r : Recv) : M st (option bytes) :=
  match r with
  | Closed | Failed => ret None
  | Received bs =>
      let* data_recv := or_ub (mem_write (replicate (Z.to_nat BUFFER_LENGTH) 0) 0 bs) in
      let* sql := or_ub (c_string data_recv) in
      if bool_decide (sql = "exit"%string) then ret None
      else
        (* memset of [data_send] *)
        let data_send := replicate (Z.to_nat BUFFER_LENGTH) 0 in
        on_interp (Interp.on_ctx (modify (λ _, new_Context None (Some data_send) (Some 0)))) ;;;
        let* p := parse sql in
        (match p with
         | Some (Some root) => try_interp root
         | _ => ret tt
         end) ;;;
        let* c := gets (λ s, Interp.ctx_ s.1) in
        let* d := or_ub (data_send_ c) in
        let* reply := or_ub (mem_read d 0 (offset_ c + 1)) in
        ret (Some reply)
  end.

(** The requests of a connection, until the loop ends; the replies. *)
Fixpoint client_handler (rs : list Recv) : M st (list bytes) :=
  match rs with
  | [] => ret []
  | r :: rs' =>
      let* reply := handle_request r in
      match reply with
      | None => ret []
      | Some b => let* l := client_handler rs' in ret (b :: l)
      end
  end.

End ops.
End Server.
