(* ===== verification/Sessions.v ===== *)
(** Several clients at once: the threads of [client_handler] on the globals of
    [src/src/rucbase.cpp] and of the parser.

    The threads share the managers, the start condition of the scanner and
    [ast::parse_tree]; a thread owns [data_recv], [data_send], [offset], its
    [Context] and [txn_id].  A round of a thread is three steps between which the
    others may run: [read] up to [yy_scan_string], the scanner and the parser, and
    the rest of the round, which reads [parse_tree] again. *)
From S2P Require Import Prelude.
From S2P Require Import Defs.
From S2P Require Import Replacer.
From S2P Require Import Disk.
From S2P Require Import Txn.
From S2P Require Import SmManager.
From S2P Require Import Lexer.
From S2P Require Import Ast.
From S2P Require Import Grammar.
From S2P Require Import Interp.
From S2P Require Import Server.
Import Server.

#[local] Open Scope prog_scope.

Module Sessions.

(** Where a thread is: at [read], before [yy_scan_string(data_recv)], after
    [yyparse] ([rc0]: it returned 0), or gone. *)
Inductive pc := Waiting | Scanning (sql : string) | Parsed (rc0 : bool) | Ended.

Section sessions.
  Context {F : Type} `{Posix F} {R : Type} `{Replacer R}.
  Context (tid : nat → Z) (n fuel : nat) (page_buf : bytes) (float_str : Z → string) (atof : string → Z).

Record thread := mkThread {
  at_ : pc;
  ctx : Context;
  txn_id : Z;
  (** what the thread wrote *)
  sent : list bytes }.

Record state := mkState {
  sm : SmManager.t F R;
  tm : TransactionManager.t;
  scanner : start_condition;
  parse_tree : option ast.TreeNode;
  threads : list thread }.

Definition set_thread (i : nat) (th : thread) (s : state) : state :=
  mkState (sm s) (tm s) (scanner s) (parse_tree s) (<[i := th]> (threads s)).

(** The interpreter as thread [th] sees it. *)
Definition view (s : state) (th : thread) : Interp.t F R := Interp.mk (sm s) (tm s) (ctx th) (txn_id th).

(** [memset(data_send, ...)], [offset = 0] and [new Context]. *)
Definition fresh_ctx : Context := new_Context None (Some (replicate (Z.to_nat BUFFER_LENGTH) 0)) (Some 0).

(** [read] in thread [i], and the tests of its result. *)
Definition receive (i : nat) (r : Recv) (s : state) : option state :=
  th ← threads s !! i;
  match at_ th, r with
  | Waiting, Closed | Waiting, Failed => Some (set_thread i (mkThread Ended (ctx th) (txn_id th) (sent th)) s)
  | Waiting, Received bs =>
      data_recv ← mem_write (replicate (Z.to_nat BUFFER_LENGTH) 0) 0 bs;
      sql ← c_string data_recv;
      Some (set_thread i
        (if bool_decide (sql = "exit"%string) then mkThread Ended (ctx th) (txn_id th) (sent th)
         else mkThread (Scanning sql) fresh_ctx (txn_id th) (sent th)) s)
  | _, _ => None
  end.

(** [yy_scan_string] and [yyparse] in thread [i].  The actions of the start symbol
    set [parse_tree]; a syntax error leaves it. *)
Definition parse_text (i : nat) (s : state) : option state :=
  th ← threads s !! i;
  match at_ th with
  | Scanning sql =>
      match Server.parse atof sql (view s th, scanner s) with
      | (Ret p, (_, sc)) =>
          let th' := mkThread (Parsed (match p with Some _ => true | None => false end)) (ctx th) (txn_id th) (sent th) in
          Some (mkState (sm s) (tm s) sc (default (parse_tree s) p) (<[i := th']> (threads s)))
      | _ => None
      end
  | _ => None
  end.

(** A thread after [write]. *)
Definition replied (th : thread) (x : Interp.t F R) (reply : bytes) (written : bool) : thread :=
  mkThread (if written then Waiting else Ended) (Interp.ctx_ x) (Interp.txn_id_ x)
    (if written then sent th ++ [reply] else sent th).

(** The rest of the round in thread [i]: the statement in [parse_tree] and [write],
    which ends the loop unless it has [written] the reply. *)
Definition finish (i : nat) (written : bool) (s : state) : option state :=
  th ← threads s !! i;
  match at_ th with
  | Parsed rc0 =>
      match (match (if rc0 then parse_tree s else None) with
             | Some root => try_interp (tid i) n fuel page_buf float_str root (view s th, scanner s)
             | None => (Ret tt, (view s th, scanner s))
             end) with
      | (Ret _, (x, sc)) =>
          d ← data_send_ (Interp.ctx_ x);
          reply ← mem_read d 0 (offset_ (Interp.ctx_ x) + 1);
          Some (mkState (Interp.sm_ x) (Interp.tm_ x) sc (parse_tree s)
            (<[i := replied th x reply written]> (threads s)))
      | _ => None
      end
  | _ => None
  end.

(** What a thread does next, in a schedule of the threads. *)
Inductive action := Receive (i : nat) (r : Recv) | Parse (i : nat) | Finish (i : nat) (written : bool).

Definition act (l : action) : state → option state :=
  match l with
  | Receive i r => receive i r
  | Parse i => parse_text i
  | Finish i w => finish i w
  end.

Fixpoint exec (ls : list action) (s : state) : option state :=
  match ls with
  | [] => Some s
  | l :: ls' => s' ← act l s; exec ls' s'
  end.

End sessions.
Arguments mkState {F R} _ _ _ _ _.
Arguments sm {F R} _.
Arguments tm {F R} _.
Arguments scanner {F R} _.
Arguments parse_tree {F R} _.
Arguments threads {F R} _.
End Sessions.
