(* ===== verification/ServerThms.v ===== *)
(** Theorems about the request loop: from the text a client sends to the reply
    it gets. *)
From Stdlib Require Import Ascii.
From S2P Require Import Prelude.
From S2P Require Import Defs.
From S2P Require Import Replacer.
From S2P Require Import Disk.
From S2P Require Import ModelFs.
From S2P Require Import Txn.
From S2P Require Import RecordPrinter.
From S2P Require Import SmThms.
From S2P Require Import Regex.
From S2P Require Import Lexer.
From S2P Require Import LexerThms.
From S2P Require Import TokenText.
From S2P Require Import Ast.
From S2P Require Import Grammar.
From S2P Require Import ParserThms.
From S2P Require Import Interp.
From S2P Require Import InterpThms.
From S2P Require Import Server.
Import Server.

#[local] Open Scope prog_scope.

(** The C string a request leaves in [data_recv]. *)
Definition received (bs : bytes) (sql : string) : Prop :=
  ∃ buf, mem_write (replicate (Z.to_nat BUFFER_LENGTH) 0) 0 bs = Some buf ∧ c_string buf = Some sql.

Section server.
  Context {F : Type} `{Posix F} {R : Type} `{Replacer R}.
  Context (this_thread : Z) (n fuel : nat) (page_buf : bytes) (float_str : Z → string) (atof : string → Z).
  Notation st := (Interp.t F R * start_condition)%type.
  Notation handle := (handle_request this_thread n fuel page_buf float_str atof).
  Implicit Types (s : st).

Definition data_send0 : bytes := replicate (Z.to_nat BUFFER_LENGTH) 0.

(** The state when the statement starts. *)
Definition at_request (x : Interp.t F R) : Interp.t F R :=
  Interp.mk (Interp.sm_ x) (Interp.tm_ x) (new_Context None (Some data_send0) (Some 0)) (Interp.txn_id_ x).

(** A request up to the parser. *)
Lemma handle_request_ok bs sql s :
  received bs sql → sql ≠ "exit"%string →
  handle (Received bs) s
  = bind (parse atof sql) (λ p,
      (match p with
       | Some (Some root) => try_interp this_thread n fuel page_buf float_str root
       | _ => ret tt
       end) ;;;
      let* c := gets (λ s, Interp.ctx_ s.1) in
      let* d := or_ub (data_send_ c) in
      let* reply := or_ub (mem_read d 0 (offset_ c + 1)) in
      ret (Some reply)) (at_request s.1, s.2).
Proof.
  intros (buf & Hb & Hs) Hne. unfold handle_request.
  rewrite (bind_or_ub _ _ _ _ Hb), (bind_or_ub _ _ _ _ Hs), bool_decide_eq_false_2 by done. done.
Qed.

Lemma empty_reply : mem_read data_send0 0 (0 + 1) = Some [0].
Proof. reflexivity. Qed.

Lemma reply_empty x sc :
  bind (gets (λ s : st, Interp.ctx_ s.1)) (λ c,
    let* d := or_ub (data_send_ c) in
    let* reply := or_ub (mem_read d 0 (offset_ c + 1)) in
    ret (Some reply)) (at_request x, sc) = (Ret (Some [0]), (at_request x, sc)).
Proof.
  rewrite bind_gets. rewrite (bind_or_ub _ _ _ data_send0) by done.
  by rewrite (bind_or_ub _ _ _ [0]) by apply empty_reply.
Qed.

(** A request that does not parse to a tree gets an empty reply. *)
Lemma no_tree_reply bs text x sc l :
  received bs text → text ≠ "exit"%string →
  yyparse atof (mkLexer sc (String.list_ascii_of_string text)) = Some (Accepted None, l) →
  handle (Received bs) (x, sc) = (Ret (Some [0]), (at_request x, yy_start l)).
Proof.
  intros Hr Hne Hp. rewrite (handle_request_ok bs text) by done.
  rewrite (bind_Ret _ _ _ (Some None) (at_request x, yy_start l)).
  2:{ unfold parse. cbn [fst snd]. by rewrite Hp. }
  apply reply_empty.
Qed.

Section statements.
  Context (write_float : Z → chars).

(** A statement as a client may send it. *)
Definition request_of (root : ast.TreeNode) (tail : chars) : string :=
  String.string_of_list_ascii (sql write_float root ++ tail).

Lemma request_not_exit root tail : request_of root tail ≠ "exit"%string.
Proof.
  unfold request_of, sql, line. destruct (stmt_tokens root); simpl; discriminate.
Qed.

Lemma parse_request root tail (x : Interp.t F R) :
  stmt_ok root → Forall (writable atof write_float) (stmt_tokens root) →
  parse atof (request_of root tail) (x, INITIAL) = (Ret (Some (Some root)), (x, INITIAL)).
Proof.
  intros Hok Hw. unfold parse, request_of. cbn [snd]. rewrite String.list_ascii_of_string_of_list_ascii.
  by rewrite (sql_roundtrip_ok atof write_float root tail) by done.
Qed.

Lemma try_interp_stuck root s :
  stuck (Interp.interp_sql this_thread n fuel page_buf float_str root s.1).1 →
  stuck (try_interp this_thread n fuel page_buf float_str root s).1.
Proof.
  unfold try_interp, on_interp, zoom, stuck. intros Hst.
  destruct (Interp.interp_sql _ _ _ _ _ _ _) as [[]]; simpl in *; naive_solver.
Qed.

Lemma try_interp_ok root s x :
  Interp.interp_sql this_thread n fuel page_buf float_str root s.1 = (Ret tt, x) →
  try_interp this_thread n fuel page_buf float_str root s = (Ret tt, (x, s.2)).
Proof. unfold try_interp, on_interp, zoom. by intros ->. Qed.

(** C26: From the bytes of a request to the reply: a statement that reaches the interpreter outside a
    transaction is never answered, whatever it is: SHOW TABLES, DESC, CREATE, DROP, INSERT, DELETE,
    UPDATE, SELECT and BEGIN end in the dereference of the null pointer that [Begin] returns or in a
    failed assertion; COMMIT, ABORT and ROLLBACK get an empty reply and change nothing. *)
Theorem statements_never_answered x root bs tail :
  received bs (request_of root tail) → stmt_ok root →
  Forall (writable atof write_float) (stmt_tokens root) →
  TransactionManager.txn_map (Interp.tm_ x) = ∅ →
  if data_stmt root then
    let r := (handle (Received bs) (x, INITIAL)).1 in r = UB ∨ r = AssertFail
  else
    Interp.txn_id_ x = INVALID_TXN_ID →
    handle (Received bs) (x, INITIAL) = (Ret (Some [0]), (at_request x, INITIAL)).
Proof.
  intros Hr Hok Hw Hm.
  rewrite (handle_request_ok bs _ (x, INITIAL) Hr (request_not_exit _ _)).
  rewrite (bind_Ret _ _ _ _ _ (parse_request root tail (at_request x) Hok Hw)).
  destruct (data_stmt root) eqn:Hd.
  - apply stuck_now, try_interp_stuck. by apply data_stmt_stuck.
  - intros Ht. assert (root = ast.TxnCommit ∨ root = ast.TxnAbort ∨ root = ast.TxnRollback) as Hend.
    { destruct root; try done; auto. }
    rewrite (bind_Ret _ _ _ tt (at_request x, INITIAL)).
    2:{ apply try_interp_ok. by apply (end_stmt_ok this_thread n fuel page_buf float_str (at_request x) root). }
    apply reply_empty.
Qed.

End statements.

(** The text of a request ends inside a comment that it does not open. *)
Definition unclosed (text : string) : Prop :=
  text ≠ "exit"%string ∧ closes (String.list_ascii_of_string text) = false.

Lemma comment_requests reqs x :
  Forall (λ bs, ∃ text, received bs text ∧ unclosed text) reqs →
  ∃ x', client_handler this_thread n fuel page_buf float_str atof (map Received reqs) (x, STATE_COMMENT)
        = (Ret (replicate (length reqs) [0]), (x', STATE_COMMENT)) ∧
    Interp.sm_ x' = Interp.sm_ x ∧ Interp.tm_ x' = Interp.tm_ x ∧ Interp.txn_id_ x' = Interp.txn_id_ x.
Proof.
  intros Hreqs. revert x. induction Hreqs as [|bs reqs (text & Hr & Hne & Hc) _ IH]; intros x; [by exists x|].
  cbn [client_handler map]. destruct (IH (at_request x)) as (x' & Hrun & Hsame).
  exists x'. split; [|done].
  rewrite (bind_Ret _ _ _ _ _ (no_tree_reply bs text x _ _ Hr Hne (yyparse_comment atof _ Hc))).
  by rewrite (bind_Ret _ _ _ _ _ Hrun).
Qed.

(** C39: A comment that is not closed silences the server.  The start condition of the scanner is a
    global that no request resets: once a request opens a comment and does not close it, this request
    and every later one, of any connection, is swallowed as the text of the comment and gets an empty
    reply, whatever statements it holds, until some request contains the end of a comment. *)
Theorem open_comment_silences first body reqs x :
  received first (String.string_of_list_ascii ("/" :: "*" :: body)%char) → closes body = false →
  Forall (λ bs, ∃ text, received bs text ∧ unclosed text) reqs →
  ∃ x', client_handler this_thread n fuel page_buf float_str atof (map Received (first :: reqs)) (x, INITIAL)
        = (Ret (replicate (S (length reqs)) [0]), (x', STATE_COMMENT)) ∧
    Interp.sm_ x' = Interp.sm_ x ∧ Interp.tm_ x' = Interp.tm_ x ∧ Interp.txn_id_ x' = Interp.txn_id_ x.
Proof.
  intros Hr Hc Hreqs. destruct (comment_requests reqs (at_request x) Hreqs) as (x' & Hrun & Hsame).
  exists x'. split; [|done]. cbn [client_handler map].
  rewrite (bind_Ret _ _ _ (Some [0]) (at_request x, STATE_COMMENT)).
  2:{ apply (no_tree_reply first _ x INITIAL (mkLexer STATE_COMMENT []) Hr); [done|].
      rewrite String.list_ascii_of_string_of_list_ascii. by apply yyparse_open. }
  by rewrite (bind_Ret _ _ _ _ _ Hrun).
Qed.

End server.

(** ** Witnesses *)

Module ServerDemo.

Definition session : Interp.t ModelFs.t LRUReplacer.t :=
  Interp.mk SmDemo.sm0 (TransactionManager.create TWO_PHASE_LOCKING) (mkContext None None 0) INVALID_TXN_ID.

Definition write_float (f : Z) : chars := ["1"; "."]%char.
Definition atof (s : string) : Z := 0.

Definition request (root : ast.TreeNode) : bytes := str_bytes (request_of write_float root []).

End ServerDemo.
Import ServerDemo.

Lemma statements_never_answered_witness :
  (handle_request 1 5 5 [] (λ _, "") atof (Received (request (ast.DropTable "student"))) (session, INITIAL)).1
  ≠ Ret (Some [0]) ∧
  handle_request 1 5 5 [] (λ _, "") atof (Received (request ast.TxnCommit)) (session, INITIAL)
  = (Ret (Some [0]), (at_request session, INITIAL)).
Proof.
  split.
  - destruct (statements_never_answered 1 5 5 [] (λ _, ""%string) atof write_float session
                (ast.DropTable "student") (request (ast.DropTable "student")) []) as [Hr|Hr];
      [eexists; split; vm_compute; reflexivity|done|repeat constructor|done|..]; rewrite Hr; discriminate.
  - apply (statements_never_answered 1 5 5 [] (λ _, ""%string) atof write_float session ast.TxnCommit
             (request ast.TxnCommit) []); [eexists; split; vm_compute; reflexivity|done|repeat constructor|done..].
Defined.

Lemma open_comment_silences_witness : ∃ x',
  client_handler 1 5 5 [] (λ _, "") atof
    (map Received [str_bytes "/* drop"; str_bytes "show tables;"; str_bytes "help"]) (session, INITIAL)
  = (Ret [[0]; [0]; [0]], (x', STATE_COMMENT)).
Proof.
  destruct (open_comment_silences 1 5 5 [] (λ _, ""%string) atof (str_bytes "/* drop")
              (String.list_ascii_of_string " drop") [str_bytes "show tables;"; str_bytes "help"] session)
    as (x' & Hrun & _).
  - eexists. split; vm_compute; reflexivity.
  - done.
  - constructor; [|constructor; [|constructor]]; eexists; (split; [eexists; split; vm_compute; reflexivity|]);
      split; done.
  - exists x'. exact Hrun.
Defined.
