(* ===== verification/SessionThms.v ===== *)
(** Theorems about the threads of the server: when the parsers of two threads
    are kept apart, the threads together do what one thread after the other
    would; and what happens when they are not. *)
From S2P Require Import Prelude.
From S2P Require Import Defs.
From S2P Require Import Replacer.
From S2P Require Import Disk.
From S2P Require Import ModelFs.
From S2P Require Import Txn.
From S2P Require Import SmManager.
From S2P Require Import SmThms.
From S2P Require Import RecordPrinter.
From S2P Require Import Lexer.
From S2P Require Import Ast.
From S2P Require Import Grammar.
From S2P Require Import Interp.
From S2P Require Import Server.
From S2P Require Import Sessions.
From S2P Require Import ServerThms.
Import Server.
Import Sessions.

#[local] Open Scope prog_scope.

(** The requests a schedule gives to thread [i]. *)
Fixpoint requests (i : nat) (ls : list action) : list bytes :=
  match ls with
  | [] => []
  | Receive j (Received bs) :: ls' => if decide (j = i) then bs :: requests i ls' else requests i ls'
  | _ :: ls' => requests i ls'
  end.

Lemma requests_app i ls ls' : requests i (ls ++ ls') = requests i ls ++ requests i ls'.
Proof. induction ls as [|[j []|j|j w] ls IH]; simpl; try case_decide; simpl; by rewrite ?IH. Qed.

(** A round: the thread, the request, and whether the reply could be written. *)
Record round := mkRound { r_thread : nat; r_request : bytes; r_written : bool }.

(** The requests of thread [i] in a sequence of rounds. *)
Definition of_thread (i : nat) (served : list round) : list bytes :=
  r_request <$> filter (λ x, r_thread x = i) served.

Lemma of_thread_app i l l' : of_thread i (l ++ l') = of_thread i l ++ of_thread i l'.
Proof. unfold of_thread. by rewrite filter_app, fmap_app. Qed.

Lemma of_thread_one i j bs w : of_thread i [mkRound j bs w] = if decide (j = i) then [bs] else [].
Proof. unfold of_thread. rewrite filter_cons. simpl. by case_decide. Qed.

Section sessions.
  Context {F : Type} `{Posix F} {R : Type} `{Replacer R}.
  Context (tid : nat → Z) (n fuel : nat) (page_buf : bytes) (float_str : Z → string) (atof : string → Z).
  Notation state := (Sessions.state (F:=F) (R:=R)).
  Notation act := (Sessions.act tid n fuel page_buf float_str atof).
  Notation exec := (Sessions.exec tid n fuel page_buf float_str atof).
  Notation try_interp i := (try_interp (tid i) n fuel page_buf float_str).
  Implicit Types (s a : state) (th : thread).

(** A whole round of one thread, as [handle_request] says. *)
Definition serve (r : round) (a : state) : option state :=
  th ← threads a !! r_thread r;
  match handle_request (tid (r_thread r)) n fuel page_buf float_str atof (Received (r_request r)) (view a th, scanner a) with
  | (Ret (Some reply), (x, sc)) =>
      Some (mkState (Interp.sm_ x) (Interp.tm_ x) sc (parse_tree a)
        (<[r_thread r := replied th x reply (r_written r)]> (threads a)))
  | _ => None
  end.

Fixpoint serve_all (served : list round) (a : state) : option state :=
  match served with
  | [] => Some a
  | r :: l => a' ← serve r a; serve_all l a'
  end.

Lemma serve_all_app l l' a : serve_all (l ++ l') a = (a' ← serve_all l a; serve_all l' a').
Proof.
  revert a. induction l as [|r l IH]; intros a; simpl; [done|].
  destruct (serve r a); simpl; [apply IH|done].
Qed.

Definition is_parsed (p : pc) : bool := match p with Parsed _ => true | _ => false end.

(** No thread is between its [yyparse] and its reply. *)
Definition quiet s : Prop := ∀ i th, threads s !! i = Some th → is_parsed (at_ th) = false.

Definition quietb s : bool := forallb (λ th, negb (is_parsed (at_ th))) (threads s).

Lemma quietb_quiet s : quietb s = true → quiet s.
Proof.
  unfold quietb. rewrite forallb_forall. intros Hq i th Hi.
  apply negb_true_iff, Hq. apply list_elem_of_In. by eapply list_elem_of_lookup_2.
Qed.

(** A schedule that never runs a parser while another thread still needs
    [parse_tree]. *)
Fixpoint calm (ls : list action) s : bool :=
  match ls with
  | [] => true
  | l :: ls' =>
      match l with Parse _ => quietb s | _ => true end &&
      match act l s with Some s' => calm ls' s' | None => true end
  end.

(** *** The simulation *)

(** What thread [i] holds besides what it shows: [req] the requests it got,
    [done] those it served, [sc] the start condition when its scanner began. *)
Definition pending s (sc : start_condition) th (req served : list bytes) : Prop :=
  match at_ th with
  | Waiting => req = served
  | Scanning sql => ctx th = fresh_ctx ∧
      ∃ bs, req = served ++ [bs] ∧ received bs sql ∧ sql ≠ "exit"%string
  | Parsed rc0 => ctx th = fresh_ctx ∧
      ∃ bs sql p, req = served ++ [bs] ∧ received bs sql ∧ sql ≠ "exit"%string ∧
        parse atof sql (view s th, sc) = (Ret p, (view s th, scanner s)) ∧
        rc0 = (match p with Some _ => true | None => false end) ∧
        (∀ t, p = Some t → parse_tree s = t)
  | Ended => served `prefix_of` req
  end.

Record simulates (ls : list action) (served : list round) s a : Prop := {
  sim_sm : sm a = sm s;
  sim_tm : tm a = tm s;
  sim_scanner : quiet s → scanner a = scanner s;
  sim_one : ∀ i j th th', threads s !! i = Some th → threads s !! j = Some th' →
    is_parsed (at_ th) = true → is_parsed (at_ th') = true → i = j;
  sim_length : length (threads a) = length (threads s);
  sim_thread : ∀ i th, threads s !! i = Some th →
    ∃ th', threads a !! i = Some th' ∧ txn_id th' = txn_id th ∧ sent th' = sent th ∧
      pending s (scanner a) th (requests i ls) (of_thread i served) }.

Lemma parse_view sql (x y : Interp.t F R) sc r x' sc' :
  parse atof sql (x, sc) = (r, (x', sc')) → x' = x ∧ parse atof sql (y, sc) = (r, (y, sc')).
Proof.
  unfold parse. cbn [fst snd]. destruct (yyparse _ _) as [[[]]|]; naive_solver.
Qed.

(** The round of a thread after its parser ran is the atomic round. *)
Lemma serve_finish i bs w sql p a s th th' :
  received bs sql → sql ≠ "exit"%string → ctx th = fresh_ctx →
  sm a = sm s → tm a = tm s → threads a !! i = Some th' → txn_id th' = txn_id th → sent th' = sent th →
  parse atof sql (view s th, scanner a) = (Ret p, (view s th, scanner s)) →
  ∀ x sc d reply,
  (match p with Some (Some root) => try_interp i root | _ => ret tt end) (view s th, scanner s) = (Ret tt, (x, sc)) →
  data_send_ (Interp.ctx_ x) = Some d → mem_read d 0 (offset_ (Interp.ctx_ x) + 1) = Some reply →
  serve (mkRound i bs w) a = Some (mkState (Interp.sm_ x) (Interp.tm_ x) sc (parse_tree a)
    (<[i := replied th x reply w]> (threads a))).
Proof.
  intros Hr Hne Hctx Hsm Htm Hth Htx Hse Hp x sc d reply Hi Hd Hm.
  unfold serve. cbn [r_thread r_request r_written]. rewrite Hth. cbn [mbind option_bind]. rewrite (handle_request_ok _ _ _ _ _ _ bs sql) by done.
  cbn [fst snd].
  assert (at_request (view a th') = view s th) as ->.
  { unfold at_request, view. simpl. by rewrite Hctx, Hsm, Htm, Htx. }
  rewrite (bind_Ret _ _ _ _ _ Hp), (bind_Ret _ _ _ _ _ Hi), bind_gets.
  rewrite (bind_or_ub _ _ _ d) by done. rewrite (bind_or_ub _ _ _ reply) by done. unfold replied. simpl. by rewrite Hse.
Qed.

(** What another thread does does not concern a thread that is not between its
    parser and its reply. *)
Lemma pending_other s s' sc sc' th req served :
  (is_parsed (at_ th) = true → sm s' = sm s ∧ tm s' = tm s ∧ scanner s' = scanner s ∧
    parse_tree s' = parse_tree s ∧ sc' = sc) →
  pending s sc th req served → pending s' sc' th req served.
Proof.
  unfold pending, view. destruct (at_ th); simpl; try done.
  intros (-> & -> & -> & -> & ->); done.
Qed.

Lemma requests_other i l ls :
  match l with Receive j _ => j ≠ i | _ => True end → requests i (ls ++ [l]) = requests i ls.
Proof.
  intros Hl. rewrite requests_app. destruct l as [j []| |]; simpl; try case_decide; by rewrite ?app_nil_r.
Qed.

Lemma requests_got i bs ls : requests i (ls ++ [Receive i (Received bs)]) = requests i ls ++ [bs].
Proof. rewrite requests_app. simpl. by rewrite decide_True by done. Qed.

(** Thread [i] moves, from [s] to [s'], and nothing is served. *)
Lemma simulates_move ls served s a l i th th' s' :
  simulates ls served s a →
  threads s !! i = Some th → threads s' = <[i := th']> (threads s) →
  sm s' = sm s → tm s' = tm s → txn_id th' = txn_id th → sent th' = sent th →
  (is_parsed (at_ th') = true → quiet s) →
  (is_parsed (at_ th') = false → scanner s' = scanner s ∧ parse_tree s' = parse_tree s) →
  is_parsed (at_ th) = false →
  match l with Receive j _ => j = i | _ => True end →
  pending s' (scanner a) th' (requests i (ls ++ [l])) (of_thread i served) →
  simulates (ls ++ [l]) served s' a.
Proof.
  intros [Hsm Htm Hsc Hone Hlen Hths] Hi Hs' Hsm' Htm' Htx Hse Hquiet Hnot Hth Hl Hp.
  assert (i < length (threads s))%nat as Hlt by (by eapply lookup_lt_Some).
  split; [congruence|congruence| | | |].
  - intros Hq. assert (is_parsed (at_ th') = false) as Hn.
    { apply (Hq i). rewrite Hs'. by apply list_lookup_insert_eq. }
    rewrite (proj1 (Hnot Hn)). apply Hsc. intros j u Hj. destruct (decide (j = i)) as [->|]; [congruence|].
    apply (Hq j). rewrite Hs', list_lookup_insert_ne; done.
  - intros j k u v. rewrite Hs', !list_lookup_insert_Some.
    intros [(-> & <- & _)|[Hji Hj]] [(-> & <- & _)|[Hki Hk]] Hu Hv; [done| | |by eapply Hone].
    + pose proof (Hquiet Hu _ _ Hk). congruence.
    + pose proof (Hquiet Hv _ _ Hj). congruence.
  - by rewrite Hs', length_insert.
  - intros j u. rewrite Hs', list_lookup_insert_Some. intros [(-> & <- & _)|[Hji Hj]].
    + destruct (Hths _ _ Hi) as (v & Hv & Hvt & Hvs & _). exists v. repeat split; congruence.
    + destruct (Hths _ _ Hj) as (v & Hv & Hvt & Hvs & Hvp). exists v. repeat split; [done..|].
      rewrite requests_other by (destruct l; naive_solver).
      eapply pending_other; [|done]. intros Hu.
      destruct (is_parsed (at_ th')) eqn:E; [pose proof (Hquiet eq_refl _ _ Hj); congruence|].
      destruct (Hnot eq_refl). done.
Qed.

Lemma receive_simulates ls served s a i r s' :
  simulates ls served s a → receive i r s = Some s' → simulates (ls ++ [Receive i r]) served s' a.
Proof.
  intros Hsim. unfold receive. destruct (threads s !! i) as [th|] eqn:Hi; [|done]. simpl.
  destruct (sim_thread _ _ _ _ Hsim _ _ Hi) as (v & Hv & Hvt & Hvs & Hp).
  destruct (at_ th) eqn:Hat; [|by destruct r..]. unfold pending in Hp. rewrite Hat in Hp.
  destruct r as [| |bs].
  1-2: intros [= <-]; eapply simulates_move; try done; [by rewrite Hat|];
    unfold pending; simpl; rewrite requests_app, app_nil_r, Hp; done.
  destruct (mem_write _ _ _) as [buf|] eqn:Hb; [|done]. simpl.
  destruct (c_string buf) as [sql|] eqn:Hs; [|done]. simpl. case_bool_decide as Hex.
  all: intros [= <-]; eapply simulates_move; try done; [by rewrite Hat|]; unfold pending; simpl; rewrite requests_got, Hp.
  - by apply prefix_app_r.
  - split; [done|]. exists bs. repeat split; [|done]. by exists buf.
Qed.

Lemma parse_simulates ls served s a i s' :
  simulates ls served s a → quiet s → parse_text atof i s = Some s' →
  simulates (ls ++ [Parse i]) served s' a.
Proof.
  intros Hsim Hq. unfold parse_text. destruct (threads s !! i) as [th|] eqn:Hi; [|done]. simpl.
  destruct (sim_thread _ _ _ _ Hsim _ _ Hi) as (v & Hv & Hvt & Hvs & Hp).
  destruct (at_ th) as [|sql| |] eqn:Hat; [done| |done..]. unfold pending in Hp. rewrite Hat in Hp.
  destruct Hp as (Hctx & bs & Hreq & Hr & Hne).
  destruct (parse atof sql (view s th, scanner s)) as [[p| | | |] [x sc]] eqn:E; try done. intros [= <-].
  destruct (parse_view _ _ (view s th) _ _ _ _ E) as [-> _].
  eapply simulates_move; try done; [by rewrite Hat|]. unfold pending. simpl. split; [done|].
  exists bs, sql, p. rewrite requests_other by done. rewrite (sim_scanner _ _ _ _ Hsim Hq).
  repeat split; try done. by intros t ->.
Qed.

(** The statement of a thread, when the tree it reads is its own. *)
Lemma own_tree i s th p rc0 :
  rc0 = (match p with Some _ => true | None => false end) → (∀ t, p = Some t → parse_tree s = t) →
  match (if rc0 : bool then parse_tree s else None) with
  | Some root => try_interp i root (view s th, scanner s)
  | None => (Ret tt, (view s th, scanner s))
  end = (match p with Some (Some root) => try_interp i root | _ => ret tt end) (view s th, scanner s).
Proof. intros -> Ht. destruct p as [t|]; [|done]. rewrite (Ht t eq_refl). by destruct t. Qed.

Lemma finish_simulates ls served s a i w s' :
  simulates ls served s a → finish tid n fuel page_buf float_str i w s = Some s' →
  ∃ bs a', serve (mkRound i bs w) a = Some a' ∧ simulates (ls ++ [Finish i w]) (served ++ [mkRound i bs w]) s' a'.
Proof.
  intros Hsim. unfold finish. destruct (threads s !! i) as [th|] eqn:Hi; [|done]. simpl.
  destruct (sim_thread _ _ _ _ Hsim _ _ Hi) as (v & Hv & Hvt & Hvs & Hp).
  destruct (at_ th) as [| |rc0|] eqn:Hat; [done..| |done]. unfold pending in Hp. rewrite Hat in Hp.
  destruct Hp as (Hctx & bs & sql & p & Hreq & Hr & Hne & Hpa & Hrc & Htree).
  rewrite (own_tree i s th p rc0) by done.
  destruct (_ (view s th, scanner s)) as [[[]| | | |] [x sc]] eqn:E; try done.
  destruct (data_send_ _) as [d|] eqn:Hd; [|done]. simpl.
  destruct (mem_read _ _ _) as [reply|] eqn:Hm; [|done]. simpl. intros [= <-].
  exists bs. eexists. split.
  { eapply (serve_finish i bs w sql p a s th v); try done; apply Hsim. }
  assert (i < length (threads s))%nat as Hlt by (by eapply lookup_lt_Some).
  assert (∀ j u, j ≠ i → threads s !! j = Some u → is_parsed (at_ u) = false) as Hrest.
  { intros j u Hj Hu. destruct (is_parsed (at_ u)) eqn:Eu; [|done].
    destruct Hj. eapply (sim_one _ _ _ _ Hsim); try done. by rewrite Hat. }
  split; simpl; [done|done|done| |by rewrite !length_insert, (sim_length _ _ _ _ Hsim)|].
  - intros j k u u'. rewrite !list_lookup_insert_Some.
    intros [(-> & <- & _)|[Hj Hu]] [(-> & <- & _)|[Hk Hw]]; try done; [by destruct w..|].
    intros E1. by rewrite (Hrest j u) in E1.
  - intros j u. rewrite list_lookup_insert_Some, requests_other, of_thread_app, of_thread_one by done.
    intros [(-> & <- & _)|[Hj Hu]].
    + eexists. rewrite list_lookup_insert_eq by (by rewrite (sim_length _ _ _ _ Hsim)).
      repeat split. unfold pending, replied. simpl. rewrite decide_True, Hreq by done. by destruct w.
    + destruct (sim_thread _ _ _ _ Hsim _ _ Hu) as (u' & Hw & Hwt & Hws & Hwp).
      exists u'. rewrite list_lookup_insert_ne by done. repeat split; [done..|].
      rewrite decide_False, app_nil_r by done. eapply pending_other; [|done]. by rewrite (Hrest j u).
Qed.

Lemma exec_simulates ls : ∀ before served s a s',
  simulates before served s a → calm ls s = true → exec ls s = Some s' →
  ∃ more a', serve_all more a = Some a' ∧ simulates (before ++ ls) (served ++ more) s' a'.
Proof.
  induction ls as [|l ls IH]; intros before served s a s' Hsim Hcalm Hex.
  { injection Hex as <-. exists [], a. by rewrite !app_nil_r. }
  cbn [Sessions.exec calm] in Hex, Hcalm. destruct (act l s) as [s1|] eqn:El; [|done].
  apply andb_true_iff in Hcalm as [Hq Hcalm]. cbn in Hex.
  assert (∃ new a1, serve_all new a = Some a1 ∧ simulates (before ++ [l]) (served ++ new) s1 a1) as (new & a1 & Hnew & H1).
  { destruct l as [i r|i|i w]; cbn in El.
    - exists [], a. rewrite app_nil_r. by split; [|eapply receive_simulates].
    - exists [], a. rewrite app_nil_r. split; [done|]. by eapply parse_simulates; [|apply quietb_quiet|].
    - destruct (finish_simulates _ _ _ _ _ _ _ Hsim El) as (bs & a1 & Hs & H1).
      exists [mkRound i bs w], a1. simpl. by rewrite Hs. }
  destruct (IH _ _ _ _ _ H1 Hcalm Hex) as (more & a' & Hmore & H2).
  exists (new ++ more), a'. rewrite serve_all_app, Hnew. simpl.
  by rewrite <- !app_assoc in H2.
Qed.

Lemma simulates_start s :
  (∀ i th, threads s !! i = Some th → at_ th = Waiting) → simulates [] [] s s.
Proof.
  intros Hw. split; try done.
  - intros i j th th' Hi Hj Hp. by rewrite (Hw _ _ Hi) in Hp.
  - intros i th Hi. exists th. repeat split; [done|]. unfold pending. by rewrite (Hw _ _ Hi).
Qed.

(** C24: The threads of the server serialize when their parsers are kept apart.  Let several threads serve
    their clients in any order of their steps, with the others' [read]s in between, such that no thread
    starts [yyparse] while another is between its [yyparse] and its reply.  Then the managers, the start
    condition of the scanner, and the replies and transaction ids of every thread are those of
    a server that serves whole requests one after the other, and each thread has served
    exactly its client's requests, in the order they came, except for one that is still under way;
    those a thread served before it ended (a failed [write] ends it too) are the first
    of its client's. *)
Theorem sessions_serialize ls s s' :
  (∀ i th, threads s !! i = Some th → at_ th = Waiting) →
  calm ls s = true → exec ls s = Some s' →
  ∃ served a, serve_all served s = Some a ∧ sm a = sm s' ∧ tm a = tm s' ∧
    (quiet s' → scanner a = scanner s') ∧
    ∀ i th, threads s' !! i = Some th →
      (∃ th', threads a !! i = Some th' ∧ txn_id th' = txn_id th ∧ sent th' = sent th) ∧
      match at_ th with
      | Waiting => of_thread i served = requests i ls
      | Scanning _ | Parsed _ => ∃ bs, requests i ls = of_thread i served ++ [bs]
      | Ended => of_thread i served `prefix_of` requests i ls
      end.
Proof.
  intros Hw Hcalm Hex.
  destruct (exec_simulates ls [] [] s s s' (simulates_start s Hw) Hcalm Hex) as (served & a & Hs & Hsim).
  exists served, a. split; [done|]. split; [apply Hsim|]. split; [apply Hsim|]. split; [apply Hsim|].
  intros i th Hi. destruct (sim_thread _ _ _ _ Hsim _ _ Hi) as (th' & Ht & Htx & Hse & Hp).
  split; [by exists th'|]. unfold pending in Hp. cbn [app] in Hp. destruct (at_ th); naive_solver.
Qed.

Lemma parse_text_ok i s th sql p sc :
  threads s !! i = Some th → at_ th = Scanning sql →
  parse atof sql (view s th, scanner s) = (Ret p, (view s th, sc)) →
  parse_text atof i s = Some (mkState (sm s) (tm s) sc (default (parse_tree s) p)
    (<[i := mkThread (Parsed (match p with Some _ => true | None => false end)) (ctx th) (txn_id th) (sent th)]>
       (threads s))).
Proof. intros Hi Ha Hp. unfold parse_text. rewrite Hi. cbn [mbind option_bind]. by rewrite Ha, Hp. Qed.

(** A thread runs the statement of another client when the other's parser comes
    between its own and its reply: its own tree is gone when it reads [parse_tree]. *)
Theorem tree_of_another_client i j s thi thj sqli sqlj ti root sci scj :
  i ≠ j → threads s !! i = Some thi → threads s !! j = Some thj →
  at_ thi = Scanning sqli → at_ thj = Scanning sqlj →
  parse atof sqli (view s thi, scanner s) = (Ret (Some ti), (view s thi, sci)) →
  parse atof sqlj (view s thj, sci) = (Ret (Some (Some root)), (view s thj, scj)) →
  ∃ s2, exec [Parse i; Parse j] s = Some s2 ∧ parse_tree s2 = Some root ∧
    ∀ x sc d reply,
      try_interp i root (view s thi, scj) = (Ret tt, (x, sc)) →
      data_send_ (Interp.ctx_ x) = Some d → mem_read d 0 (offset_ (Interp.ctx_ x) + 1) = Some reply →
      exec [Finish i true] s2 = Some (mkState (Interp.sm_ x) (Interp.tm_ x) sc (Some root)
        (<[i := replied thi x reply true]> (threads s2))).
Proof.
  intros Hij Hi Hj Hai Haj Hpi Hpj.
  cbn [Sessions.exec Sessions.act]. rewrite (parse_text_ok i s thi sqli (Some ti) sci) by done.
  cbn [mbind option_bind]. eexists. split; [|split].
  - erewrite (parse_text_ok j _ thj sqlj (Some (Some root)) scj); [done| |done|done].
    cbn [threads]. by rewrite list_lookup_insert_ne.
  - done.
  - intros x sc d reply Hx Hd Hm. unfold finish. cbn [threads parse_tree default].
    rewrite list_lookup_insert_ne by done.
    rewrite list_lookup_insert_eq by (by eapply lookup_lt_Some).
    cbn [mbind option_bind at_ ctx txn_id sent default scanner].
    unfold id, view in *. cbn [sm tm ctx txn_id] in *. rewrite Hx, Hd. cbn [mbind option_bind]. by rewrite Hm.
Qed.

End sessions.

(** ** Witnesses *)

Module SessionDemo.
Import ServerDemo.

Definition idle : thread := mkThread Waiting fresh_ctx INVALID_TXN_ID [].

(** Two clients that are connected. *)
Definition two : Sessions.state (F:=ModelFs.t) (R:=LRUReplacer.t) :=
  mkState SmDemo.sm0 (TransactionManager.create TWO_PHASE_LOCKING) INITIAL None [idle; idle].

Definition tid (i : nat) : Z := Z.of_nat i.
Definition float_str (f : Z) : string := ""%string.

Definition commit_help (order : list action) : list action :=
  [Receive 0 (Received (str_bytes "commit;")); Receive 1 (Received (str_bytes "help;"))] ++ order.

Definition apart : list action := commit_help [Parse 0; Finish 0 true; Parse 1; Finish 1 true].
Definition mixed : list action := commit_help [Parse 0; Parse 1; Finish 0 true; Finish 1 true].

(** The lengths of what each thread sent. *)
Definition reply_lengths (s : option (Sessions.state (F:=ModelFs.t) (R:=LRUReplacer.t))) : list (list nat) :=
  match s with Some s => (λ th, length <$> sent th) <$> threads s | None => [] end.

End SessionDemo.
Import SessionDemo.

#[local] Notation run := (Sessions.exec tid 0 100 [] float_str ServerDemo.atof).

(** The same two requests in two orders of the parsers: in the second the
    client that sent COMMIT gets the text of HELP. *)
Example replies_apart : reply_lengths (run apart two) = [[1%nat]; [S (String.length Interp.help_info)]].
Proof. vm_compute. reflexivity. Qed.

Example replies_mixed :
  reply_lengths (run mixed two) = [[S (String.length Interp.help_info)]; [S (String.length Interp.help_info)]].
Proof. vm_compute. reflexivity. Qed.

Lemma idle_two i th : threads two !! i = Some th → at_ th = Waiting.
Proof. destruct i as [|[|]]; intros [= <-]; reflexivity. Qed.

Lemma calm_apart : calm tid 0 100 [] float_str ServerDemo.atof apart two = true.
Proof. vm_compute. reflexivity. Qed.

Lemma exec_apart : ∃ s', run apart two = Some s'.
Proof. destruct (run apart two) eqn:E; [by eexists|]. vm_compute in E. discriminate. Qed.

Lemma sessions_serialize_witness :
  ∃ s', run apart two = Some s' ∧
  ∃ served a, serve_all tid 0 100 [] float_str ServerDemo.atof served two = Some a ∧
    sm a = sm s' ∧ tm a = tm s' ∧ (quiet s' → scanner a = scanner s') ∧
    ∀ i th, threads s' !! i = Some th →
      (∃ th', threads a !! i = Some th' ∧ txn_id th' = txn_id th ∧ sent th' = sent th) ∧
      match at_ th with
      | Waiting => of_thread i served = requests i apart
      | Scanning _ | Parsed _ => ∃ bs, requests i apart = of_thread i served ++ [bs]
      | Ended => of_thread i served `prefix_of` requests i apart
      end.
Proof.
  destruct exec_apart as [s' E]. exists s'. split; [exact E|].
  apply (sessions_serialize tid 0 100 [] float_str ServerDemo.atof apart two s' idle_two calm_apart E).
Defined.
