(* ===== verification/Listener.v ===== *)
(** The listening side of the server, [start_server] and [main] of
    [src/src/rucbase.cpp].

    [start_server] accepts connections in a loop and starts a thread for each;
    the thread gets a pointer to the local variable [sockfd] of the loop and reads
    it when it starts.  The loop and the threads are a transition system: the
    kernel gives an accepted connection a descriptor that is not in use, and a
    connection stays open until [close] of its descriptor. *)
From S2P Require Import Prelude.
From S2P Require Import Defs.
From S2P Require Import Replacer.
From S2P Require Import Disk.
From S2P Require Import BufferPool.
From S2P Require Import SmManager.
From S2P Require Import LogRec.
From S2P Require Import Server.

#[local] Open Scope prog_scope.

Module Listener.

Definition SOCK_PORT : Z := 8765.
Definition MAX_CONN_LIMIT : Z := 8.

(** ** The loop of [start_server] *)

(** Where a [client_handler] is: created but not at [*((int * )sock_fd)] yet, in its
    loop with its own [fd], or past [close(fd)]. *)
Inductive thread := Created | Handling (fd : Z) | Exited.

(** Where the loop is: at [accept], between [accept] and [pthread_create], or
    left. *)
Inductive loop := Accepting | Creating | Left.

#[export] Instance thread_eq_dec : EqDecision thread.
Proof. solve_decision. Defined.
#[export] Instance loop_eq_dec : EqDecision loop.
Proof. solve_decision. Defined.

(** [conns]: the open descriptors and the connection behind each; [accepted] counts
    the connections.  [sockfd] is indeterminate until the first [accept]. *)
Record state := mkState {
  sockfd : option Z;
  at_ : loop;
  threads : list thread;
  conns : gmap Z nat;
  accepted : nat }.

Definition start : state := mkState None Accepting [] ∅ 0.

(** [sockfd = accept(...)] with a new connection on [fd]. *)
Definition accept (fd : Z) (s : state) : option state :=
  if bool_decide (at_ s = Accepting ∧ 0 <= fd ∧ conns s !! fd = None) then
    Some (mkState (Some fd) Creating (threads s) (<[fd := accepted s]> (conns s)) (S (accepted s)))
  else None.

(** [accept] fails: [sockfd] is -1, and [continue]. *)
Definition accept_error (s : state) : option state :=
  if bool_decide (at_ s = Accepting) then
    Some (mkState (Some (-1)) Accepting (threads s) (conns s) (accepted s))
  else None.

(** [pthread_create]; when it fails the loop is left. *)
Definition pthread_create (ok : bool) (s : state) : option state :=
  if bool_decide (at_ s = Creating) then
    Some (if ok then mkState (sockfd s) Accepting (threads s ++ [Created]) (conns s) (accepted s)
          else mkState (sockfd s) Left (threads s) (conns s) (accepted s))
  else None.

(** [sigint_handler] and its [longjmp] back into the loop. *)
Definition sigint (s : state) : option state :=
  if bool_decide (at_ s = Left) then None
  else Some (mkState (sockfd s) Left (threads s) (conns s) (accepted s)).

(** [int fd = *((int * )sock_fd)], in thread [i]. *)
Definition handler_start (i : nat) (s : state) : option state :=
  match threads s !! i, sockfd s with
  | Some Created, Some fd => Some (mkState (sockfd s) (at_ s) (<[i := Handling fd]> (threads s)) (conns s) (accepted s))
  | _, _ => None
  end.

(** [close(fd)] and [pthread_exit], in thread [i]. *)
Definition handler_end (i : nat) (s : state) : option state :=
  match threads s !! i with
  | Some (Handling fd) => Some (mkState (sockfd s) (at_ s) (<[i := Exited]> (threads s)) (delete fd (conns s)) (accepted s))
  | _ => None
  end.

Inductive step : state → state → Prop :=
  | step_accept fd s s' : accept fd s = Some s' → step s s'
  | step_accept_error s s' : accept_error s = Some s' → step s s'
  | step_create ok s s' : pthread_create ok s = Some s' → step s s'
  | step_sigint s s' : sigint s = Some s' → step s s'
  | step_start i s s' : handler_start i s = Some s' → step s s'
  | step_end i s s' : handler_end i s = Some s' → step s s'.

(** ** [start_server] and [main] *)

(** What the calls of [start_server] before its loop give. *)
Record setup := mkSetup { socket_fd : Z; bind_result : Z; listen_result : Z }.

Section program.
  Context {F : Type} `{Posix F} `{Cwd F} {R : Type} `{Replacer R}.

(** The objects of the program that [main] itself uses. *)
Record globals := mkGlobals {
  sm_manager : SmManager.t F R;
  log_manager : LogManager.t;
  recovery : LogRecovery.t;
  should_exit : bool }.

Definition on_sm {A} (m : M (SmManager.t F R) A) : M globals A :=
  zoom sm_manager (λ x s, mkGlobals x (log_manager s) (recovery s) (should_exit s)) m.
Definition on_log {A} (m : M LogManager.t A) : M globals A :=
  zoom log_manager (λ x s, mkGlobals (sm_manager s) x (recovery s) (should_exit s)) m.
Definition on_recovery {A} (m : M LogRecovery.t A) : M globals A :=
  zoom recovery (λ x s, mkGlobals (sm_manager s) (log_manager s) x (should_exit s)) m.

Definition sigint_handler : M globals unit :=
  modify (λ s, mkGlobals (sm_manager s) (log_manager s) (recovery s) true) ;;;
  let* l := gets log_manager in
  when (LogManager.log_mode_ l) (on_log LogManager.StopFlushThread).

(** [None]: the function returns; [Some code]: [exit(code)].  [listen_loop] is what the
    connections do to the state while the loop runs. *)
Definition start_server (c : setup) (listen_loop : M globals unit) : M globals (option Z) :=
  assert (negb (socket_fd c =? -1)) ;;;
  if bind_result c =? -1 then ret (Some 1)
  else if listen_result c =? -1 then ret (Some 1)
  else
    let* r := gets recovery in
    when (LogRecovery.GetRecoveryMode r) (on_recovery (LogRecovery.Redo ;;; LogRecovery.Undo)) ;;;
    let* l := gets log_manager in
    when (LogManager.log_mode_ l) (on_log LogManager.RunFlushThread) ;;;
    listen_loop ;;;
    on_sm SmManager.close_db ;;;
    ret None.

(** The body of the [try] block. *)
Definition serve (c : setup) (listen_loop : M globals unit) (db_name : string) : M globals Z :=
  let* b := on_sm (SmManager.is_dir db_name) in
  when (negb b) (on_sm (SmManager.create_db db_name)) ;;;
  on_sm (SmManager.open_db db_name) ;;;
  let* code := start_server c listen_loop in
  ret (default 0 code).

(** The status the process ends with. *)
Definition main (c : setup) (listen_loop : M globals unit) (argv : list string) : M globals Z :=
  match argv with
  | [_; db_name] => λ s,
      match serve c listen_loop db_name s with
      | (Throw e, s') => if Server.is_RedBaseError e then (Ret 1, s') else (Throw e, s')
      | r => r
      end
  | _ => ret 1
  end.

End program.
Arguments globals F R : clear implicits.

End Listener.
