(* ===== verification/ListenerThms.v ===== *)
(** Theorems about the listening side of the server. *)
From stdpp Require Import relations.
From S2P Require Import Prelude.
From S2P Require Import Defs.
From S2P Require Import Replacer.
From S2P Require Import Disk.
From S2P Require Import BufferPool.
From S2P Require Import SmManager.
From S2P Require Import LogRec.
From S2P Require Import Server.
From S2P Require Import ModelFs.
From S2P Require Import SmThms.
From S2P Require Import Listener.
Import Listener.

#[local] Open Scope prog_scope.

(** ** Who handles a connection *)

(** A step that calls [accept] only when every thread has read its descriptor. *)
Inductive calm_step : state → state → Prop :=
  | calm_accept fd s s' : Created ∉ threads s → accept fd s = Some s' → calm_step s s'
  | calm_accept_error s s' : Created ∉ threads s → accept_error s = Some s' → calm_step s s'
  | calm_create ok s s' : pthread_create ok s = Some s' → calm_step s s'
  | calm_sigint s s' : sigint s = Some s' → calm_step s s'
  | calm_start i s s' : handler_start i s = Some s' → calm_step s s'
  | calm_end i s s' : handler_end i s = Some s' → calm_step s s'.

(** The connection in [sockfd] is on its way to a thread. *)
Definition handed_over (s : state) : Prop := at_ s = Creating ∨ Created ∈ threads s.

Definition handles (s : state) (i : nat) (fd : Z) : Prop := threads s !! i = Some (Handling fd).

Record calm (s : state) : Prop := {
  calm_one i j : threads s !! i = Some Created → threads s !! j = Some Created → i = j;
  calm_excl : at_ s = Creating → Created ∉ threads s;
  calm_pending : handed_over s → ∃ fd, sockfd s = Some fd ∧ is_Some (conns s !! fd) ∧ ∀ i, ¬ handles s i fd;
  calm_open i fd : handles s i fd → is_Some (conns s !! fd);
  calm_distinct i j fd : handles s i fd → handles s j fd → i = j;
  calm_served fd : at_ s ≠ Left → is_Some (conns s !! fd) →
    (∃ i, handles s i fd) ∨ sockfd s = Some fd ∧ handed_over s }.

Lemma calm_start_state : calm start.
Proof.
  split; unfold start, handles, handed_over; simpl; try done.
  - intros [?|Hc]; [done|]. by apply not_elem_of_nil in Hc.
  - intros fd _ [x Hx]. by rewrite lookup_empty in Hx.
Qed.

Lemma calm_accept_ok fd s s' : calm s → Created ∉ threads s → accept fd s = Some s' → calm s'.
Proof.
  intros [] Hn H. unfold accept in H. case_bool_decide as Hc; [|done]. destruct Hc as (Ha & _ & Hf). injection H as <-.
  unfold handles, handed_over in *. split; unfold handles, handed_over; simpl; try done.
  - intros _. exists fd. rewrite lookup_insert_eq. split_and!; [done|eauto|].
    intros i Hi. destruct (calm_open0 i fd Hi) as [x Hx]. congruence.
  - intros i fd' Hi. destruct (decide (fd' = fd)) as [->|]; [rewrite lookup_insert_eq; eauto|].
    rewrite lookup_insert_ne by done. eauto.
  - intros fd' _. destruct (decide (fd' = fd)) as [->|]; [by eauto|]. rewrite lookup_insert_ne by done.
    intros Hs. assert (at_ s ≠ Left) as Hl by by rewrite Ha.
    destruct (calm_served0 fd' Hl Hs) as [?|[_ [Hc|Hc]]]; [by left|by rewrite Ha in Hc|done].
Qed.

Lemma calm_create_ok ok s s' : calm s → pthread_create ok s = Some s' → calm s'.
Proof.
  intros [] H. unfold pthread_create in H. case_bool_decide as Ha; [|done].
  specialize (calm_excl0 Ha). unfold handles, handed_over in *.
  assert (Hnew : ∀ i t, (threads s ++ [Created]) !! i = Some t →
    threads s !! i = Some t ∨ i = length (threads s) ∧ t = Created).
  { intros i t [Hi|[Hi Ht]]%lookup_app_Some; [by left|right]. apply list_lookup_singleton_Some in Ht as [? ->]. split; [lia|done]. }
  assert (Hold : ∀ i, threads s !! i ≠ Some Created) by (intros i Hi; apply calm_excl0; by eapply list_elem_of_lookup_2).
  destruct ok; injection H as <-; split; unfold handles, handed_over; simpl; try done.
  - intros i j [Hi|[-> _]]%Hnew [Hj|[-> _]]%Hnew; [by destruct (Hold i)|by destruct (Hold i)|by destruct (Hold j)|done].
  - intros _. destruct calm_pending0 as (fd & ? & ? & Hh); [by left|]. exists fd. split_and!; [done..|].
    intros i [Hi|[_ ?]]%Hnew; [by apply (Hh i)|done].
  - intros i fd [Hi|[_ ?]]%Hnew; [eauto|done].
  - intros i j fd [Hi|[_ ?]]%Hnew [Hj|[_ ?]]%Hnew; try done. eauto.
  - intros fd _ Hs. destruct (calm_served0 fd) as [[i Hi]|[Hf _]]; [by rewrite Ha|done| |].
    + left. exists i. by apply lookup_app_l_Some.
    + right. split; [done|]. right. set_solver.
  - intros [?|Hc]; [done|]. done.
Qed.

Lemma calm_handler_start i s s' : calm s → handler_start i s = Some s' → calm s'.
Proof.
  intros [] H. unfold handler_start in H. destruct (threads s !! i) as [[| |]|] eqn:Hi; try done.
  destruct (sockfd s) as [fd|] eqn:Hs; [|done]. injection H as <-. unfold handles, handed_over in *.
  assert (Created ∈ threads s) as Hc by by eapply list_elem_of_lookup_2.
  destruct calm_pending0 as (fd' & Hfd & Hopen & Hfree); [by right|]. injection Hfd as <-.
  assert (Hlook : ∀ j t, <[i:=Handling fd]> (threads s) !! j = Some t →
    j = i ∧ t = Handling fd ∨ j ≠ i ∧ threads s !! j = Some t).
  { intros j t [(-> & -> & _)|[??]]%list_lookup_insert_Some; [by left|by right]. }
  assert (Hnone : Created ∉ <[i:=Handling fd]> (threads s)).
  { intros [j [[_ ?]|[Hj Ht]]%Hlook]%list_elem_of_lookup; [done|]. by apply Hj, (calm_one0 j i). }
  split; unfold handles, handed_over; simpl.
  - intros j k Hj. exfalso. apply Hnone. by eapply list_elem_of_lookup_2.
  - intros Ha. by destruct (calm_excl0 Ha).
  - intros [Ha|?]; [by destruct (calm_excl0 Ha)|done].
  - intros j fd' [[_ [= ->]]|[_ Hj]]%Hlook; [done|eauto].
  - intros j k fd' [[-> [= ->]]|[_ Hj]]%Hlook [[-> Hk]|[_ Hk]]%Hlook; [done|by destruct (Hfree k)| |eauto].
    injection Hk as <-. by destruct (Hfree j).
  - intros fd' Ha Ho. left. destruct (calm_served0 fd' Ha Ho) as [[j Hj]|[[= <-] _]].
    + exists j. rewrite list_lookup_insert_ne; [done|]. intros ->. congruence.
    + exists i. apply list_lookup_insert_eq. by eapply lookup_lt_Some.
Qed.

Lemma calm_handler_end i s s' : calm s → handler_end i s = Some s' → calm s'.
Proof.
  intros [] H. unfold handler_end in H. destruct (threads s !! i) as [[|fd|]|] eqn:Hi; try done.
  injection H as <-. unfold handles, handed_over in *.
  assert (Hlook : ∀ j t, <[i:=Exited]> (threads s) !! j = Some t → t = Exited ∨ j ≠ i ∧ threads s !! j = Some t).
  { intros j t [(-> & -> & _)|[??]]%list_lookup_insert_Some; [by left|by right]. }
  assert (Hc : Created ∈ <[i:=Exited]> (threads s) → Created ∈ threads s).
  { intros [j [?|[Hj Ht]]%Hlook]%list_elem_of_lookup; [done|]. by eapply list_elem_of_lookup_2. }
  split; unfold handles, handed_over; simpl.
  - intros j k [?|[_ Hj]]%Hlook [?|[_ Hk]]%Hlook; try done. eauto.
  - intros Ha Hx. by apply (calm_excl0 Ha), Hc.
  - intros Hp. destruct calm_pending0 as (fd' & Hfd & Ho & Hf); [naive_solver|]. exists fd'.
    rewrite lookup_delete_ne by (intros ->; by apply (Hf i)). split_and!; [done..|].
    intros j [?|[_ Hj]]%Hlook; [done|]. by apply (Hf j).
  - intros j fd' [?|[Hne Hj]]%Hlook; [done|]. rewrite lookup_delete_ne; [eauto|].
    intros ->. apply Hne. eauto.
  - intros j k fd' [?|[_ Hj]]%Hlook [?|[_ Hk]]%Hlook; try done. eauto.
  - intros fd' Ha Ho. destruct (decide (fd' = fd)) as [->|Hne].
    { rewrite lookup_delete_eq in Ho. by destruct Ho. }
    rewrite lookup_delete_ne in Ho by done. destruct (calm_served0 fd' Ha Ho) as [[j Hj]|[Hs Hh]].
    + left. exists j. rewrite list_lookup_insert_ne; [done|]. intros ->. congruence.
    + right. split; [done|]. destruct Hh as [?|Hx]; [by left|right].
      apply list_elem_of_lookup in Hx as [j Hj]. apply (list_elem_of_lookup_2 _ j).
      rewrite list_lookup_insert_ne; [done|]. intros ->. congruence.
Qed.

Lemma calm_step_ok s s' : calm s → calm_step s s' → calm s'.
Proof.
  intros Hc Hs. destruct Hs as [fd s s' Hn H|s s' Hn H|ok s s' H|s s' H|i s s' H|i s s' H].
  - exact (calm_accept_ok _ _ _ Hc Hn H).
  - destruct Hc. unfold accept_error in H. case_bool_decide as Ha; [|done]. injection H as <-.
    unfold handles, handed_over in *. split; unfold handles, handed_over; simpl; try done.
    + intros [?|?]; [congruence|done].
    + intros fd _ Ho. assert (at_ s ≠ Left) as Hl by by rewrite Ha.
      destruct (calm_served0 fd Hl Ho) as [?|[_ [?|?]]]; [by left|congruence|done].
  - exact (calm_create_ok _ _ _ Hc H).
  - destruct Hc. unfold sigint in H. case_bool_decide; [done|]. injection H as <-.
    unfold handles, handed_over in *. split; unfold handles, handed_over; simpl; try done.
    intros [?|?]; [done|]. apply calm_pending0. by right.
  - exact (calm_handler_start _ _ _ Hc H).
  - exact (calm_handler_end _ _ _ Hc H).
Qed.

Lemma calm_reachable s : rtc calm_step start s → calm s.
Proof.
  intros H. assert (calm start) as Hc by apply calm_start_state. revert Hc.
  induction H as [|x y z Hxy _ IH]; [done|]. intros Hx. by apply IH, (calm_step_ok x).
Qed.

(** Steps given by their functions. *)
Definition run_steps (l : list (state → option state)) (s : state) : option state :=
  foldl (λ o f, s ← o; f s) (Some s) l.

(** Two clients connect before the first thread runs. *)
Definition hasty : list (state → option state) :=
  [accept 5; pthread_create true; accept 6; pthread_create true; handler_start 0; handler_start 1].

Lemma hasty_runs s :
  run_steps hasty start = Some s → rtc step start s.
Proof.
  unfold run_steps, hasty. cbn [foldl mbind option_bind]. intros H.
  repeat (match type of H with (_ ≫= _) = Some _ => apply bind_Some in H as (? & H & ?) end).
  repeat (eapply rtc_r; [|first [eapply step_accept; eassumption|eapply step_create; eassumption|eapply step_start; eassumption]]).
  apply rtc_refl.
Qed.

(** A connection that no thread handles and whose descriptor [sockfd] no longer
    holds. *)
Definition lost (fd : Z) (c : nat) (s : state) : Prop :=
  0 <= fd ∧ conns s !! fd = Some c ∧ sockfd s ≠ Some fd ∧ ∀ i, ¬ handles s i fd.

Lemma lost_step fd c s s' : lost fd c s → step s s' → lost fd c s'.
Proof.
  unfold lost, handles. intros (Hpos & Hc & Hs & Hh) H.
  destruct H as [fd' s s' H|s s' H|ok s s' H|s s' H|i s s' H|i s s' H].
  - unfold accept in H. case_bool_decide as Ha; [|done]. injection H as <-. simpl.
    assert (fd' ≠ fd) by (intros ->; naive_solver). rewrite lookup_insert_ne by done. naive_solver.
  - unfold accept_error in H. case_bool_decide; [|done]. injection H as <-. simpl. split_and!; try done. intros [= <-]. lia.
  - unfold pthread_create in H. case_bool_decide; [|done].
    destruct ok; injection H as <-; simpl; split_and!; try done.
    intros i [Hi|[_ Hi]]%lookup_app_Some; [by apply (Hh i)|]. by apply list_lookup_singleton_Some in Hi as [_ ?].
  - unfold sigint in H. case_bool_decide; [done|]. by injection H as <-.
  - unfold handler_start in H. destruct (threads s !! i) as [[| |]|]; try done.
    destruct (sockfd s) as [fd'|] eqn:E; [|done]. injection H as <-. simpl. split_and!; [done|done|congruence|].
    intros j [(-> & [= ->] & _)|[_ Hj]]%list_lookup_insert_Some; [done|by apply (Hh j)].
  - unfold handler_end in H. destruct (threads s !! i) as [[|fd'|]|] eqn:E; try done. injection H as <-. simpl.
    assert (fd' ≠ fd) by (intros ->; by apply (Hh i)). rewrite lookup_delete_ne by done. split_and!; [done..|].
    intros j [(_ & ? & _)|[_ Hj]]%list_lookup_insert_Some; [done|by apply (Hh j)].
Qed.

Lemma lost_forever fd c s s' : lost fd c s → rtc step s s' → lost fd c s'.
Proof. intros Hl H. induction H as [|x y z Hxy _ IH]; [done|]. by apply IH, (lost_step _ _ x). Qed.

(** C25: Who handles a connection.  If the loop calls [accept] only when every thread has
    read its descriptor, then in every reachable state no two threads handle the same
    descriptor, every descriptor in use is open, and until the loop is left every open
    connection has a thread or is being given to one.  The loop does not wait: two clients
    that connect before the first thread runs get two threads on the second connection,
    and the first stays open and is never handled. *)
Theorem connections_served :
  (∀ s, rtc calm_step start s →
    (∀ i j fd, handles s i fd → handles s j fd → i = j) ∧
    (∀ i fd, handles s i fd → is_Some (conns s !! fd)) ∧
    (∀ fd, at_ s ≠ Left → is_Some (conns s !! fd) →
       (∃ i, handles s i fd) ∨ sockfd s = Some fd ∧ handed_over s)) ∧
  (∃ s, rtc step start s ∧ handles s 0 6 ∧ handles s 1 6 ∧
    ∀ s', rtc step s s' → conns s' !! 5 = Some 0%nat ∧ ∀ i, ¬ handles s' i 5).
Proof.
  split.
  - intros s Hs%calm_reachable. exact (conj (calm_distinct s Hs) (conj (calm_open s Hs) (calm_served s Hs))).
  - destruct (run_steps hasty start) as [s|] eqn:Hrun; [|vm_compute in Hrun; discriminate].
    exists s. split; [by apply hasty_runs|].
    assert (s = mkState (Some 6) Accepting [Handling 6; Handling 6] (<[6 := 1%nat]> {[5 := 0%nat]}) 2) as ->.
    { vm_compute in Hrun. vm_compute. congruence. }
    split_and!; [done..|]. intros s' H.
    eapply (lost_forever 5 0) in H; [by destruct H as (_ & Hc & _ & Hh)|].
    unfold lost, handles. split_and!; try done. intros [|[|i]]; done.
Qed.

(** ** The program *)

Section program.
  Context {F : Type} `{Posix F} `{Cwd F} {R : Type} `{Replacer R}.
  Implicit Types (s : globals F R) (loop : M (globals F R) unit).

(** The kernel of the program. *)
Definition kernel s : F := DiskManager.os (BufferPool.disk_manager_ (SmManager.bpm (sm_manager s))).

Definition a_directory (db_name : string) s : bool :=
  match sys_stat db_name (kernel s) with Some st => bool_decide (st_mode st = S_IFDIR) | None => false end.

Definition with_sm (x : SmManager.t F R) s : globals F R :=
  mkGlobals x (log_manager s) (recovery s) (should_exit s).

Lemma is_dir_ok db_name s :
  on_sm (SmManager.is_dir db_name) s = (Ret (a_directory db_name s), s).
Proof. by destruct s as [[d f i []] l r e]. Qed.

Lemma open_db_missing db_name s :
  a_directory db_name s = false → on_sm (SmManager.open_db db_name) s = (Throw (DatabaseNotFoundError db_name), s).
Proof.
  destruct s as [[d f i []] l r e]. unfold a_directory, kernel. simpl. intros Hd.
  unfold on_sm, zoom, SmManager.open_db. simpl. unfold bind, SmManager.is_dir, SmManager.on_pool, BufferPool.on_disk, zoom.
  simpl. by rewrite Hd.
Qed.

Lemma serve_eq c loop db_name s :
  serve c loop db_name s =
  bind (on_sm (SmManager.open_db db_name)) (λ _, let* code := start_server c loop in ret (default 0 code)) s.
Proof.
  unfold serve. rewrite (bind_Ret _ _ _ _ _ (is_dir_ok db_name s)).
  destruct s as [x l r e]. by destruct (a_directory db_name _).
Qed.

(** [start_server] with a socket that listens: what the loop leaves is what
    remains, for [close_db] has no body. *)
Lemma start_server_ok c loop s s' :
  socket_fd c ≠ -1 → bind_result c ≠ -1 → listen_result c ≠ -1 →
  LogRecovery.recovery_mode_ (recovery s) = false → LogManager.log_mode_ (log_manager s) = false →
  loop s = (Ret tt, s') → start_server c loop s = (Ret None, s').
Proof.
  intros Hsock Hbind Hlisten Hr Hl Hloop. unfold start_server.
  rewrite bind_assert by (by apply negb_true_iff, Z.eqb_neq).
  rewrite !(proj2 (Z.eqb_neq _ _)) by done. rewrite bind_gets. unfold LogRecovery.GetRecoveryMode. rewrite Hr.
  cbn [when]. rewrite bind_ret, bind_gets, Hl. cbn [when]. rewrite bind_ret.
  rewrite (bind_Ret _ _ _ _ _ Hloop). by destruct s'.
Qed.

(** C40: The outcomes of the program.  Without exactly one argument it ends with 1; so it does
    when the argument names no directory: [create_db] makes none, whatever the name, so a
    new database is never created.  A directory is opened, and when its metadata and files
    load and the socket listens, the program serves until the loop ends and ends with 0, in
    the state the loop left: nothing is written back, neither metadata nor pages.  A socket
    that cannot be bound or does not listen ends it with 1 before it serves. *)
Theorem main_outcomes c loop argv s :
  match argv with
  | [_; db_name] =>
      (a_directory db_name s = false → main c loop argv s = (Ret 1, s)) ∧
      (∀ x s', SmManager.open_db db_name (sm_manager s) = (Ret tt, x) →
         LogRecovery.recovery_mode_ (recovery s) = false → LogManager.log_mode_ (log_manager s) = false →
         socket_fd c ≠ -1 →
         (bind_result c = -1 ∨ listen_result c = -1 → main c loop argv s = (Ret 1, with_sm x s)) ∧
         (bind_result c ≠ -1 → listen_result c ≠ -1 → loop (with_sm x s) = (Ret tt, s') →
          main c loop argv s = (Ret 0, s'))) ∧
      (∀ e x, SmManager.open_db db_name (sm_manager s) = (Throw e, x) → Server.is_RedBaseError e = true →
         main c loop argv s = (Ret 1, with_sm x s))
  | _ => main c loop argv s = (Ret 1, s)
  end.
Proof.
  destruct argv as [|? [|db_name [|??]]]; try done. unfold main. rewrite serve_eq. split_and!.
  - intros Hd. by rewrite (bind_Throw _ _ _ _ _ (open_db_missing db_name s Hd)).
  - intros x s' Ho Hr Hl Hs. rewrite (bind_Ret _ _ s tt (with_sm x s)) by (unfold on_sm, zoom; by rewrite Ho). split.
    + intros Hbl. unfold start_server. rewrite bind_assoc, bind_assert by (by apply negb_true_iff, Z.eqb_neq).
      destruct (Z.eqb_spec (bind_result c) (-1)); [done|]. destruct (Z.eqb_spec (listen_result c) (-1)); [done|]. naive_solver.
    + intros Hb Hli Hloop. by rewrite (bind_Ret _ _ _ _ _ (start_server_ok c loop (with_sm x s) s' Hs Hb Hli Hr Hl Hloop)).
  - intros e x Ho He. rewrite (bind_Throw _ _ s e (with_sm x s)) by (unfold on_sm, zoom; by rewrite Ho). by rewrite He.
Qed.

End program.

(** ** Witnesses *)

(** Two clients one after the other, as the loop should take them. *)
Definition patient : state :=
  mkState (Some 6) Accepting [Handling 5; Created] (<[6 := 1%nat]> {[5 := 0%nat]}) 2.

Lemma connections_served_witness : rtc calm_step start patient ∧ ∀ fd, is_Some (conns patient !! fd) →
  (∃ i, handles patient i fd) ∨ sockfd patient = Some fd ∧ handed_over patient.
Proof.
  assert (Hrun : rtc calm_step start patient).
  { eapply rtc_l; [by apply (calm_accept 5); [apply not_elem_of_nil|vm_compute]|].
    eapply rtc_l; [by apply (calm_create true)|].
    eapply rtc_l; [by apply (calm_start 0)|].
    eapply rtc_l; [apply (calm_accept 6); [|vm_compute; reflexivity]|].
    { simpl. intros Hc%list_elem_of_singleton. discriminate. }
    eapply rtc_l; [by apply (calm_create true)|]. apply rtc_refl. }
  split; [exact Hrun|]. intros fd. by apply (proj1 connections_served patient Hrun).
Defined.

#[local] Instance model_cwd : Cwd ModelFs.t := {
  sys_chdir path f := (0, f);
  file_text path f := None }.

Definition demo_globals : globals ModelFs.t LRUReplacer.t :=
  mkGlobals SmDemo.sm0 (LogManager.mk false [] [] 0 (-1) (-1) 0 0 false None) LogRecovery.create false.

Lemma main_outcomes_witness :
  main (mkSetup 3 0 0) (ret tt) ["rucbase"; "testdb"]%string demo_globals = (Ret 1, demo_globals).
Proof.
  destruct (main_outcomes (mkSetup 3 0 0) (ret tt) ["rucbase"; "testdb"]%string demo_globals) as [Hmissing _].
  apply Hmissing. vm_compute. reflexivity.
Defined.
