(* ===== verification/Client.v ===== *)
(** The command-line client, [src/rucbase_client/main.cpp].

    The socket calls are a class; [getopt] gives the list of options with their
    arguments, and [readline] the list of lines until the end of the input.  A cell
    of [recv_buf] that nothing has written yet is [None]: the array is a local
    variable without an initialiser.  Messages on [stderr] are left out. *)
From Stdlib Require Import Ascii.
From S2P Require Import Prelude.
From S2P Require Import Defs.
From S2P Require Import Txn.
From S2P Require Import SmMeta.
From S2P Require Import RecordPrinter.
From S2P Require Import Server.

#[local] Open Scope prog_scope.

Module Client.

Definition MAX_MEM_BUFFER_SIZE : Z := 8192.
Definition PORT_DEFAULT : Z := 8765.

Definition is_exit_command (cmd : string) : bool :=
  bool_decide (cmd = "exit" ∨ cmd = "exit;" ∨ cmd = "bye" ∨ cmd = "bye;")%string.

(** ** Sockets *)

(** What [connect] gets: the bytes of [sun_path] without its NUL, or the two
    bytes of [sin_port] and the address of the host. *)
Inductive address :=
  | sockaddr_un (sun_path : bytes)
  | sockaddr_in (sin_port : bytes) (sin_addr : Z).

Class Sockets (N : Type) := {
  gethostbyname : string → N → option Z * N;
  socket : N → Z * N;
  connect : Z → address → N → Z * N;
  close : Z → N → N;
  write : Z → bytes → N → Z * N;
  recv : Z → Z → N → Server.Recv * N }.

(** The size of [sun_path]. *)
Definition UNIX_PATH_MAX : Z := 108.

(** [htons] of an [int] given as [uint16_t], as it lies in memory. *)
Definition htons (port : Z) : bytes := [port / 2 ^ 8 mod 2 ^ 8; port mod 2 ^ 8].

(** A call of the kernel. *)
Definition call {N A} (f : N → A * N) : M N A := λ n, (Ret (f n).1, (f n).2).

(** ** Connecting *)

Section connecting.
  Context {N : Type} `{Sockets N}.

Definition init_unix_sock (unix_sock_path : string) : M N Z :=
  let* sockfd := call socket in
  if sockfd <? 0 then ret (-1)
  else
    let sun_path := take (Z.to_nat (UNIX_PATH_MAX - 1)) (str_bytes unix_sock_path) in
    let* r := call (connect sockfd (sockaddr_un sun_path)) in
    if r <? 0 then modify (close sockfd) ;;; ret (-1) else ret sockfd.

Definition init_tcp_sock (server_host : string) (server_port : Z) : M N Z :=
  let* host := call (gethostbyname server_host) in
  match host with
  | None => ret (-1)
  | Some h_addr =>
      let* sockfd := call socket in
      if sockfd =? -1 then ret (-1)
      else
        let* r := call (connect sockfd (sockaddr_in (htons server_port) h_addr)) in
        if r =? -1 then modify (close sockfd) ;;; ret (-1) else ret sockfd
  end.

End connecting.

(** ** Options *)

Record options := mkOptions {
  unix_socket_path : option string;
  server_host : string;
  server_port : Z }.

Definition options0 : options := mkOptions None "127.0.0.1" PORT_DEFAULT.

(** [strtol] in base 10: white space, a sign, digits, the rest ignored; out of
    range it gives the end of the range of [long]. *)
Fixpoint digits_value (acc : Z) (s : string) : Z :=
  match s with
  | "" => acc
  | String c s' =>
      if is_digit c then digits_value (10 * acc + (Z.of_N (N_of_ascii c) - 48)) s' else acc
  end%string.

Definition clamp (z : Z) : Z := Z.max (- 2 ^ 63) (Z.min z (2 ^ 63 - 1)).

Definition strtol (s : string) : Z :=
  match skip_ws s with
  | String "-" s' => clamp (- digits_value 0 s')
  | String "+" s' => clamp (digits_value 0 s')
  | s' => clamp (digits_value 0 s')
  end%string.

(** The [switch] over an option of [getopt]. *)
Definition set_option (o : options) (opt : ascii * string) : options :=
  let '(c, optarg) := opt in
  if Ascii.eqb c "s" then mkOptions (Some optarg) (server_host o) (server_port o)
  else if Ascii.eqb c "p" then mkOptions (unix_socket_path o) (server_host o) (to_s32 (strtol optarg))
  else if Ascii.eqb c "h" then mkOptions (unix_socket_path o) optarg (server_port o)
  else o.

Definition get_options (l : list (ascii * string)) : options := foldl set_option options0 l.

(** ** The loop *)

Section talking.
  Context {N : Type} `{Sockets N}.

(** [stdout]: the bytes printed. *)
Record t := mk { net : N; recv_buf : list (option Z); stdout : bytes }.

Definition on_net {A} (m : M N A) : M t A := zoom net (λ x s, mk x (recv_buf s) (stdout s)) m.
Definition printf (bs : bytes) : M t unit := modify (λ s, mk (net s) (recv_buf s) (stdout s ++ bs)).
Definition set_recv_buf (b : list (option Z)) : M t unit := modify (λ s, mk (net s) b (stdout s)).

(** [recv] stores its bytes at the start of the buffer. *)
Definition fill (bs : bytes) (buf : list (option Z)) : list (option Z) := map Some bs ++ drop (length bs) buf.

(** [for (int i = ...; i <= len; i++)], with [n] rounds left: stop at a NUL, print any
    other character.  A cell outside the array or without a value is undefined. *)
Fixpoint print_reply (n : nat) (i : nat) : M t unit :=
  match n with
  | O => ret tt
  | S n' =>
      let* buf := gets recv_buf in
      let* c := or_ub (c ← buf !! i; c) in
      if c =? 0 then ret tt else printf [c] ;;; print_reply n' (S i)
  end.

Inductive next := Go | Break | Exit.

(** One line read. *)
Definition round (sockfd : Z) (command : string) : M t next :=
  if bool_decide (command = ""%string) then ret Go
  else if is_exit_command command then printf (str_bytes ("The client will be closed." ++ newline)) ;;; ret Break
  else
    let* send_bytes := on_net (call (write sockfd (str_bytes command ++ [0]))) in
    if send_bytes =? -1 then ret Exit
    else
      let* r := on_net (call (recv sockfd MAX_MEM_BUFFER_SIZE)) in
      match r with
      | Server.Failed => ret Break
      | Server.Closed => printf (str_bytes ("Connection has been closed" ++ newline)) ;;; ret Break
      | Server.Received bs =>
          let* buf := gets recv_buf in
          set_recv_buf (fill bs buf) ;;;
          print_reply (S (length bs)) 0 ;;;
          set_recv_buf (replicate (Z.to_nat MAX_MEM_BUFFER_SIZE) (Some 0)) ;;;
          ret Go
      end.

(** The lines until the end of the input. *)
Fixpoint loop (sockfd : Z) (lines : list string) : M t next :=
  match lines with
  | [] => ret Break
  | command :: lines' =>
      let* r := round sockfd command in
      match r with Go => loop sockfd lines' | _ => ret r end
  end.

(** The exit status. *)
Definition main (opts : list (ascii * string)) (lines : list string) : M t Z :=
  let o := get_options opts in
  let* sockfd := on_net (match unix_socket_path o with
                         | Some path => init_unix_sock path
                         | None => init_tcp_sock (server_host o) (server_port o)
                         end) in
  if sockfd <? 0 then ret 1
  else
    set_recv_buf (replicate (Z.to_nat MAX_MEM_BUFFER_SIZE) None) ;;;
    let* r := loop sockfd lines in
    match r with
    | Exit => ret 1
    | _ => on_net (modify (close sockfd)) ;;; printf (str_bytes ("Bye." ++ newline)) ;;; ret 0
    end.

End talking.
Arguments t N : clear implicits.

End Client.
