(* ===== verification/ClientThms.v ===== *)
(** Theorems about the client, and about the client and the server together. *)
From Stdlib Require Import Ascii.
From S2P Require Import Prelude.
From S2P Require Import Defs.
From S2P Require Import Replacer.
From S2P Require Import Disk.
From S2P Require Import RecordPrinter.
From S2P Require Import Lexer.
From S2P Require Import Interp.
From S2P Require Import Server.
From S2P Require Import ServerThms.
From S2P Require Import Txn.
From S2P Require Import ModelFs.
From S2P Require Import SmThms.
From S2P Require Import Client.
Import Client.

#[local] Open Scope prog_scope.

Lemma bind_returns {St A B} (m : M St A) (k : A → M St B) s b s' :
  bind m k s = (Ret b, s') → ∃ a s1, m s = (Ret a, s1) ∧ k a s1 = (Ret b, s').
Proof. unfold bind. destruct (m s) as [[] s1]; try done. eauto. Qed.

(** ** Printing a reply *)

(** The bytes before the first NUL. *)
Fixpoint c_text (b : bytes) : bytes :=
  match b with
  | [] => []
  | x :: b' => if x =? 0 then [] else x :: c_text b'
  end.

Section printing.
  Context {N : Type}.
  Implicit Types (s : Client.t N).

Lemma print_cell n i s c :
  recv_buf s !! i = Some (Some c) →
  print_reply (S n) i s =
    if c =? 0 then (Ret tt, s) else print_reply n (S i) (mk (net s) (recv_buf s) (stdout s ++ [c])).
Proof.
  intros Hc. cbn [print_reply]. rewrite bind_gets.
  rewrite (bind_or_ub _ _ s c) by (by rewrite Hc). by destruct (c =? 0).
Qed.

Lemma print_reply_ok b left right n s :
  0 ∈ b → recv_buf s = left ++ map Some b ++ right → (length b < n)%nat →
  print_reply n (length left) s = (Ret tt, mk (net s) (recv_buf s) (stdout s ++ c_text b)).
Proof.
  revert left n s. induction b as [|x b IH]; intros left n s Hz Hb Hn; [by apply not_elem_of_nil in Hz|].
  destruct n as [|n]; [simpl in Hn; lia|]. rewrite (print_cell n _ s x).
  2:{ rewrite Hb. simpl. by rewrite list_lookup_middle. }
  cbn [c_text]. destruct (Z.eqb_spec x 0) as [->|Hx].
  - rewrite app_nil_r. by destruct s.
  - apply elem_of_cons in Hz as [?|Hz]; [congruence|].
    specialize (IH (left ++ [Some x]) n (mk (net s) (recv_buf s) (stdout s ++ [x])) Hz).
    rewrite length_app, Nat.add_1_r in IH. rewrite IH; [|simpl|simpl in Hn; lia].
    + simpl. by rewrite <- (assoc_L (++)).
    + by rewrite Hb, <- (assoc_L (++)).
Qed.

(** Without a NUL the loop comes to the cell behind the reply. *)
Lemma print_reply_past b left right n s :
  0 ∉ b → recv_buf s = left ++ map Some b ++ right → (length b < n)%nat →
  right = [] ∨ head right = Some None →
  (print_reply n (length left) s).1 = UB.
Proof.
  revert left n s. induction b as [|x b IH]; intros left n s Hz Hb Hn Hr; (destruct n as [|n]; [simpl in Hn; lia|]).
  - cbn [print_reply]. rewrite bind_gets. simpl in Hb. rewrite Hb, lookup_app_r, Nat.sub_diag by lia.
    destruct Hr as [->|Hr]; [done|]. destruct right as [|[]]; done.
  - apply not_elem_of_cons in Hz as [Hx Hz]. rewrite (print_cell n _ s x).
    2:{ rewrite Hb. simpl. by rewrite list_lookup_middle. }
    rewrite (proj2 (Z.eqb_neq x 0)) by done.
    specialize (IH (left ++ [Some x]) n (mk (net s) (recv_buf s) (stdout s ++ [x])) Hz).
    rewrite length_app, Nat.add_1_r in IH. apply IH; [|simpl in Hn; lia|done].
    simpl. by rewrite Hb, <- (assoc_L (++)).
Qed.

End printing.

(** What the client sends for a line. *)
Definition request (line : string) : bytes := str_bytes line ++ [0].

(** A reply without a NUL: when it fills the buffer, and when it is the first one,
    the loop reads a cell outside the array or one that nothing has written. *)
Lemma reply_without_nul {N} `{Sockets N} sockfd line (s : Client.t N) n1 n2 bs :
  line ≠ ""%string → is_exit_command line = false →
  write sockfd (request line) (net s) = (zlen (request line), n1) →
  recv sockfd MAX_MEM_BUFFER_SIZE n1 = (Server.Received bs, n2) → 0 ∉ bs →
  zlen (recv_buf s) = MAX_MEM_BUFFER_SIZE →
  zlen bs = MAX_MEM_BUFFER_SIZE ∨ zlen bs < MAX_MEM_BUFFER_SIZE ∧ Forall (.= None) (recv_buf s) →
  (round sockfd line s).1 = UB.
Proof.
  intros Hne Hex Hw Hr Hz Hlen Hor. unfold round. rewrite bool_decide_eq_false_2, Hex by done.
  assert (Hw' : on_net (call (write sockfd (str_bytes line ++ [0]))) s = (Ret (zlen (request line)), mk n1 (recv_buf s) (stdout s))).
  { unfold on_net, call, zoom. fold (request line). by rewrite Hw. }
  run Hw'. rewrite (proj2 (Z.eqb_neq _ _)) by lia.
  assert (Hr' : on_net (call (recv sockfd MAX_MEM_BUFFER_SIZE)) (mk n1 (recv_buf s) (stdout s)) = (Ret (Server.Received bs), mk n2 (recv_buf s) (stdout s))).
  { unfold on_net, call, zoom. simpl. by rewrite Hr. }
  run Hr'. unfold set_recv_buf. rewrite bind_gets, bind_modify. cbn [recv_buf net stdout].
  pose proof (print_reply_past bs [] (drop (length bs) (recv_buf s)) (S (length bs))
    (mk n2 (fill bs (recv_buf s)) (stdout s)) Hz eq_refl (Nat.lt_succ_diag_r _)) as Hprint.
  unfold bind at 1. cbn [length] in Hprint. destruct (print_reply _ _ _) as [r x] eqn:E. simpl in Hprint.
  rewrite Hprint; [done|]. destruct Hor as [Hfull|[Hless Hnone]].
  - left. apply drop_ge. lia.
  - right. destruct (recv_buf s !! length bs) as [c|] eqn:Hc.
    + rewrite (drop_S _ c) by done. simpl. f_equal. by apply (Forall_lookup_1 _ _ _ _ Hnone Hc).
    + apply lookup_ge_None in Hc. lia.
Qed.

(** ** One line *)

(** A line that [readline] can give and a request can carry. *)
Definition typed (line : string) : Prop :=
  ("000"%char ∉ String.list_ascii_of_string line) ∧ Z.of_nat (String.length line) < Server.BUFFER_LENGTH.

Lemma c_string_request line rest :
  "000"%char ∉ String.list_ascii_of_string line → Server.c_string (request line ++ rest) = Some line.
Proof.
  unfold request. induction line as [|c line IH]; intros Hn; [done|]. simpl in Hn.
  apply not_elem_of_cons in Hn as [Hc Hn]. cbn [str_bytes app Server.c_string].
  assert (to_u8 (Z.of_N (N_of_ascii c)) = Z.of_N (N_of_ascii c)) as ->.
  { apply to_u8_id. pose proof (N_ascii_bounded c). unfold is_u8. lia. }
  destruct (Z.eqb_spec (Z.of_N (N_of_ascii c)) 0) as [Hz|_].
  - exfalso. apply Hc. rewrite <- (ascii_N_embedding c). replace (N_of_ascii c) with 0%N by lia. done.
  - rewrite IH by done. cbn [mbind option_bind]. by rewrite N2Z.id, ascii_N_embedding.
Qed.

Lemma received_request line : typed line → received (request line) line.
Proof.
  intros [Hn Hl]. eexists. split; [apply mem_write_Some; [done|]|].
  - unfold request. rewrite length_app, length_replicate, RecordPrinter.length_str_bytes. unfold Server.BUFFER_LENGTH in *.
    simpl. lia.
  - by apply c_string_request.
Qed.

#[export] Instance typed_dec line : Decision (typed line).
Proof. unfold typed. apply _. Defined.

(** The lines that the client sends: up to an exit command, without the empty
    ones. *)
Fixpoint sent (lines : list string) : list string :=
  match lines with
  | [] => []
  | line :: lines' =>
      if bool_decide (line = ""%string) then sent lines'
      else if is_exit_command line then []
      else line :: sent lines'
  end.

Lemma sent_ok lines : Forall typed lines → Forall (λ line, typed line ∧ line ≠ "exit"%string) (sent lines).
Proof.
  induction 1 as [|line lines Ht _ IH]; [constructor|]. cbn [sent]. case_bool_decide; [done|].
  destruct (is_exit_command line) eqn:He; constructor; [|done]. split; [done|]. by intros ->.
Qed.

(** What ends the lines. *)
Definition farewell (lines : list string) : bytes :=
  if existsb is_exit_command lines then str_bytes ("The client will be closed." ++ newline) else [].

(** ** The client on the server *)

Section session.
  Context {F : Type} `{Posix F} {R : Type} `{Replacer R}.
  Context (this_thread : Z) (n fuel : nat) (page_buf : bytes) (float_str : Z → string) (atof : string → Z).
  Notation st := (Interp.t F R * start_condition)%type.
  Notation handle := (Server.handle_request this_thread n fuel page_buf float_str atof).
  Notation handler := (Server.client_handler this_thread n fuel page_buf float_str atof).

(** A connection on which everything that was sent arrives at once, with the server
    behind it. *)
Record link := mkLink { server : st; alive : bool; to_server : bytes; to_client : bytes }.

Definition idle (s : st) : link := mkLink s true [] [].

(** The rounds of [client_handler] while there is something to read. *)
Fixpoint answer (m : nat) (k : link) : link :=
  match m with
  | O => k
  | S m' =>
      match to_server k with
      | [] => k
      | q =>
          if alive k then
            let size := Z.to_nat Server.BUFFER_LENGTH in
            match handle (Server.Received (take size q)) (server k) with
            | (Ret (Some reply), s) => answer m' (mkLink s true (drop size q) (to_client k ++ reply))
            | (_, s) => mkLink s false (drop size q) (to_client k)
            end
          else k
      end
  end.

Definition read_link (len : Z) (k : link) : Server.Recv * link :=
  let k := answer (length (to_server k)) k in
  match to_client k with
  | [] => (if alive k then Server.Failed else Server.Closed, k)
  | bs => (Server.Received (take (Z.to_nat len) bs),
           mkLink (server k) (alive k) (to_server k) (drop (Z.to_nat len) bs))
  end.

#[local] Instance link_sockets : Sockets link := {
  gethostbyname _ k := (Some 0, k);
  socket k := (3, k);
  connect _ _ k := (0, k);
  close _ k := mkLink (server k) false (to_server k) (to_client k);
  write _ bs k := if alive k then (zlen bs, mkLink (server k) true (to_server k ++ bs) (to_client k)) else (-1, k);
  recv _ len k := read_link len k }.

(** A reply that the client can print: it fits the buffer and holds a NUL. *)
Definition printable (reply : bytes) : Prop := 0 ∈ reply ∧ zlen reply <= MAX_MEM_BUFFER_SIZE.

#[export] Instance printable_dec reply : Decision (printable reply).
Proof. unfold printable. apply _. Defined.

Lemma request_short line : typed line → (length (request line) ≤ Z.to_nat Server.BUFFER_LENGTH)%nat.
Proof.
  intros [_ Hl]. unfold request. rewrite length_app. pose proof (RecordPrinter.length_str_bytes line). simpl in *. lia.
Qed.

Lemma answer_idle m s q : answer m (mkLink s true [] q) = mkLink s true [] q.
Proof. by destruct m. Qed.

Lemma answer_request line s reply s' :
  typed line → handle (Server.Received (request line)) s = (Ret (Some reply), s') →
  answer (length (request line)) (mkLink s true (request line) []) = mkLink s' true [] reply.
Proof.
  intros Ht%request_short Hh. assert (∃ x q, request line = x :: q) as (x & q & Hq).
  { unfold request. destruct (str_bytes line); simpl; eauto. }
  rewrite Hq in *. cbn [length answer to_server alive server to_client].
  rewrite take_ge, drop_ge by done. rewrite Hh. apply answer_idle.
Qed.

Lemma read_reply line s reply s' :
  typed line → handle (Server.Received (request line)) s = (Ret (Some reply), s') → printable reply →
  read_link MAX_MEM_BUFFER_SIZE (mkLink s true (request line) []) = (Server.Received reply, idle s').
Proof.
  intros Ht Hh [Hz Hlen]. unfold read_link. cbn [to_server]. rewrite (answer_request _ _ _ _ Ht Hh).
  cbn [to_client alive to_server server]. unfold MAX_MEM_BUFFER_SIZE in *.
  destruct reply as [|x reply]; [by apply not_elem_of_nil in Hz|].
  rewrite take_ge, drop_ge by lia. done.
Qed.

(** One line on an idle connection. *)
Lemma line_ok line s reply s' buf out :
  typed line → line ≠ ""%string → is_exit_command line = false →
  handle (Server.Received (request line)) s = (Ret (Some reply), s') → printable reply →
  ∃ buf', round 3 line (mk (idle s) buf out) = (Ret Go, mk (idle s') buf' (out ++ c_text reply)).
Proof.
  intros Ht Hne Hex Hh Hp. eexists. unfold round. rewrite bool_decide_eq_false_2, Hex by done.
  assert (Hw : on_net (call (write 3 (str_bytes line ++ [0]))) (mk (idle s) buf out)
    = (Ret (zlen (request line)), mk (mkLink s true (request line) []) buf out)) by done.
  run Hw. rewrite (proj2 (Z.eqb_neq _ _)) by lia.
  assert (Hr : on_net (call (recv 3 MAX_MEM_BUFFER_SIZE)) (mk (mkLink s true (request line) []) buf out)
    = (Ret (Server.Received reply), mk (idle s') buf out)).
  { unfold on_net, call, zoom. cbn [net recv link_sockets]. by rewrite (read_reply _ _ _ _ Ht Hh Hp). }
  run Hr. unfold set_recv_buf. rewrite bind_gets, bind_modify. cbn [recv_buf net stdout].
  pose proof (print_reply_ok reply [] (drop (length reply) buf) (S (length reply))
    (mk (idle s') (fill reply buf) out) (proj1 Hp) eq_refl (Nat.lt_succ_diag_r _)) as Hprint.
  rewrite (bind_Ret _ _ _ _ _ Hprint). done.
Qed.

(** A request that is not [exit] gets a reply or ends the server. *)
Lemma handle_replies line s r s' :
  typed line → line ≠ "exit"%string → handle (Server.Received (request line)) s = (Ret r, s') →
  ∃ reply, r = Some reply.
Proof.
  intros Ht Hne. rewrite (handle_request_ok _ _ _ _ _ _ _ _ _ (received_request line Ht) Hne).
  intros (p & s1 & _ & Hk)%bind_returns. apply bind_returns in Hk as (u & s2 & _ & Hk).
  rewrite bind_gets in Hk. unfold bind, or_ub, ret in Hk. destruct (data_send_ _); [|done].
  destruct (mem_read _ _ _) as [reply|]; [|done]. injection Hk as <- _. by exists reply.
Qed.

Lemma handler_cons line lines s replies s' :
  typed line ∧ line ≠ "exit"%string →
  handler (map (Server.Received ∘ request) (line :: lines)) s = (Ret replies, s') →
  ∃ reply s1 rs, handle (Server.Received (request line)) s = (Ret (Some reply), s1) ∧
    handler (map (Server.Received ∘ request) lines) s1 = (Ret rs, s') ∧ replies = reply :: rs.
Proof.
  intros [Ht Hne] (r & s1 & Hh & Hrun)%bind_returns. destruct (handle_replies _ _ _ _ Ht Hne Hh) as (reply & ->).
  apply bind_returns in Hrun as (rs & s2 & Hrest & Heq). injection Heq as <- <-. by exists reply, s1, rs.
Qed.

Lemma handler_length lines s replies s' :
  Forall (λ line, typed line ∧ line ≠ "exit"%string) lines →
  handler (map (Server.Received ∘ request) lines) s = (Ret replies, s') → length replies = length lines.
Proof.
  intros Hl. revert s replies. induction Hl as [|line lines Ht _ IH]; intros s replies Hrun; [by injection Hrun as <-|].
  destruct (handler_cons _ _ _ _ _ Ht Hrun) as (reply & s1 & rs & _ & Hrest & ->). simpl. f_equal. by eapply IH.
Qed.

(** The lines one after the other. *)
Lemma loop_ok lines s replies s' buf out :
  Forall typed lines → handler (map (Server.Received ∘ request) (sent lines)) s = (Ret replies, s') →
  Forall printable replies →
  ∃ buf', loop 3 lines (mk (idle s) buf out)
    = (Ret Break, mk (idle s') buf' (out ++ concat (map c_text replies) ++ farewell lines)).
Proof.
  intros Ht. revert s replies buf out. induction Ht as [|line lines Ht _ IH]; intros s replies buf out Hrun Hp.
  - injection Hrun as <- <-. exists buf. unfold farewell. simpl. by rewrite app_nil_r.
  - cbn [sent loop]. unfold farewell in *. cbn [existsb]. cbn [sent] in Hrun.
    destruct (bool_decide (line = ""%string)) eqn:Hempty.
    { unfold round. rewrite Hempty, bind_ret. apply bool_decide_eq_true in Hempty. subst line. by apply IH. }
    destruct (is_exit_command line) eqn:Hexit.
    { injection Hrun as <- <-. exists buf. unfold round. rewrite Hempty, Hexit. done. }
    assert (line ≠ "exit"%string) as Hne by (intros ->; done). apply bool_decide_eq_false in Hempty.
    destruct (handler_cons _ _ _ _ _ (conj Ht Hne) Hrun) as (reply & s1 & rs & Hh & Hrest & ->).
    apply Forall_cons in Hp as [Hp Hps].
    destruct (line_ok _ _ _ _ buf out Ht Hempty Hexit Hh Hp) as (buf' & Hround). run Hround.
    destruct (IH s1 rs buf' (out ++ c_text reply) Hrest Hps) as (buf'' & ->). exists buf''.
    cbn [map concat]. by rewrite <- !(assoc_L (++)).
Qed.

(** C23: The client and the server together.  From the lines typed to the text printed: each
    line that is not empty, up to the first exit command, is sent with its NUL and is the
    statement that the server parses; the server answers each; and the client prints the
    text of each reply up to its NUL, in order, then takes its leave and ends with 0.  The
    client never sends [exit]: it closes the connection.  The lines are shorter than the
    buffer of the server and hold no NUL, each reply arrives whole and is a string. *)
Theorem client_session opts lines s replies s' buf :
  unix_socket_path (get_options opts) = None → Forall typed lines →
  handler (map (Server.Received ∘ request) (sent lines)) s = (Ret replies, s') → Forall printable replies →
  length replies = length (sent lines) ∧
  Forall (λ line, received (request line) line ∧ line ≠ "exit"%string) (sent lines) ∧
  ∃ k buf', main opts lines (mk (idle s) buf []) =
    (Ret 0, mk k buf' (concat (map c_text replies) ++ farewell lines ++ str_bytes ("Bye." ++ newline))) ∧
    server k = s'.
Proof.
  intros Hu Ht Hrun Hp. split_and!.
  - by apply (handler_length _ s _ s'), Hrun; apply sent_ok.
  - eapply Forall_impl; [by apply sent_ok|]. intros line [Hl Hne]. split; [by apply received_request|done].
  - unfold main. rewrite Hu.
    assert (Hi : on_net (init_tcp_sock (server_host (get_options opts)) (server_port (get_options opts))) (mk (idle s) buf [])
      = (Ret 3, mk (idle s) buf [])) by done.
    run Hi. cbn [Z.ltb Z.compare]. unfold set_recv_buf. rewrite bind_modify. cbn [net stdout].
    destruct (loop_ok _ _ _ _ (replicate (Z.to_nat MAX_MEM_BUFFER_SIZE) None) [] Ht Hrun Hp) as (buf' & Hloop).
    run Hloop. eexists (mkLink s' false [] []), buf'. split; [|done].
    unfold bind, printf, modify, on_net, zoom, ret. simpl. by rewrite <- !(assoc_L (++)).
Qed.

End session.

(** ** Witnesses *)

Definition demo_lines : list string := ["help;"; ""; "commit;"; "bye"; "help;"]%string.

Definition demo_start : Interp.t ModelFs.t LRUReplacer.t * start_condition := (ServerDemo.session, INITIAL).

Definition demo_replies : list bytes :=
  match (Server.client_handler 1 5 5 [] (λ _, ""%string) ServerDemo.atof
           (map (Server.Received ∘ request) (sent demo_lines)) demo_start).1 with
  | Ret replies => replies
  | _ => []
  end.

(** The lines, as far as they are sent, are answered: the help text and an empty
    reply; the client prints them, and then that it ends. *)
Lemma client_session_witness :
  length demo_replies = 2%nat ∧ take 21 (concat (map c_text demo_replies)) = str_bytes "Supported SQL syntax:" ∧
  ∃ k buf',
    main (H := link_sockets 1 5 5 [] (λ _, "") ServerDemo.atof) [] demo_lines (mk (idle demo_start) [] []) =
    (Ret 0, mk k buf' (concat (map c_text demo_replies) ++ farewell demo_lines ++ str_bytes ("Bye." ++ newline))).
Proof.
  split_and!; [vm_compute; reflexivity..|].
  destruct (Server.client_handler 1 5 5 [] (λ _, ""%string) ServerDemo.atof
              (map (Server.Received ∘ request) (sent demo_lines)) demo_start) as [r s'] eqn:Hrun.
  assert (r = Ret demo_replies) as ->.
  { assert (r = (Server.client_handler 1 5 5 [] (λ _, ""%string) ServerDemo.atof
                  (map (Server.Received ∘ request) (sent demo_lines)) demo_start).1) as -> by by rewrite Hrun.
    vm_compute. reflexivity. }
  destruct (client_session 1 5 5 [] (λ _, ""%string) ServerDemo.atof [] demo_lines demo_start demo_replies s' [])
    as (_ & _ & k & buf' & Hmain & _); [done| |exact Hrun| |by exists k, buf'].
  - apply (bool_decide_eq_true_1 (Forall typed demo_lines)). vm_compute. reflexivity.
  - apply (bool_decide_eq_true_1 (Forall printable demo_replies)). vm_compute. reflexivity.
Defined.
